(* ===== verification/_CoqProject ===== *)
-Q . S2P
Prelude.v
GoLib.v
Base64.v
GoNet.v
Regex.v
Model.v
Peering.v
Json.v
ApiVersion.v
Lock.v
Effects.v
Cache.v
World.v
Store.v
Rely.v
Handler.v
Decode.v
Wp.v
Scenario.v
Reconcile.v
Inactivity.v
Heartbeat.v
Alerts.v
Hub.v
Handshake.v
Session.v
Token.v
Login.v
Device.v
SignIn.v
SignInScenario.v
SignInSpec.v
SignInSafety.v
SignInOnce.v
AdminPeer.v
UserPeer.v
BotPeer.v
GoTime.v
McpStore.v
Mcp.v
McpTools.v
McpKeys.v
McpUser.v
McpAdmin.v
Assistant.v
Lifecycle.v
Creation.v
Safety.v
McpScenario.v
McpSafety.v
McpPool.v
McpSpec.v
AssistantSpec.v
