(* ===== verification/Prelude.v ===== *)
(** * autopeer-center: a verification development

    autopeer-center is the control plane of a BGP peering network: operators
    (one per ASN) ask for WireGuard/BGP sessions with the network's nodes;
    administrators approve, suspend, edit and import them over HTTP or from a
    Telegram bot; an agent on every node carries the sessions out.  The rows
    live in PostgreSQL, alert flags and settings in a cache (Redis or a local
    file), mutual exclusion in Redis or in the process; agents hang on
    websockets, report heartbeats and receive commands and full lists of peers.
    Background workers reconcile agents with the rows and delete peers nobody
    uses.  The hard part of the program is that the rows and the agents change
    in separate, fallible steps, from several processes at once.

    ** Files, and the code they model (below [src/internal/])

    - [Prelude]: results of Go calls, string tests, automation.
    - [GoLib], [GoNet], [Regex]: what the code uses of Go's library, executable:
      decimal conversions, case and trimming, time constants; IP literals and
      host:port splitting; regular expressions by derivatives.  [GoTime]:
      instants as text; [Base64]; [Json] and [Decode]: values and how
      [encoding/json] puts them into structs.
    - [Model]: the rows of [model/model.go].
    - [Peering]: [peering/peering.go], every function.
    - [ApiVersion]: [apiversion/] and the version handler of [middleware/].
    - [Lock]: [lock/lock.go] and the lock helpers of [handler/] and [ws/]; the
      lock server is a key/value state with expiries.
    - [Cache]: [cache/cache.go], [cache/keys.go]: both backends.
    - [Effects]: programs as trees of atomic actions on a state, their execution
      alone ([exec]) and interleaved ([pool_step], [schedule]), and a
      rely/guarantee predicate ([safe]).
    - [World]: the state all programs share, the oracles for what the code does
      not decide, and the primitive actions (statements, agent commands, cache
      and lock calls, mails, notifications, the clock).
    - [Store]: the statements of [repository/] used here, one definition each,
      with the unique keys of the peers table.
    - [Handler]: HTTP replies, request bodies, the handlers' environment.
    - [AdminPeer] ([handler/admin_peer.go]), [UserPeer] ([handler/peer.go]),
      [BotPeer] ([ws/bot_peer_handler.go], [ws/bot_admin_handler.go]): the
      operations on peers, handler by handler.
    - [Reconcile] ([reconcile/reconcile.go], the sync of [ws/handshake.go]),
      [Inactivity] ([inactivity/worker.go]), [Heartbeat] ([ws/heartbeat.go], the
      alert flags of [ws/hub.go]), [Alerts] (theorems about them): what runs
      without a request.
    - [Hub] ([ws/hub.go], [ws/conn.go]): the registry of agent connections, the
      queues through which connects and disconnects reach the rows, and their
      drainers.  [Handshake] ([handler/agent.go], [ws/conn.go],
      [ws/handshake.go], [crypto/crypto.go]): admission, the read loop, both
      key handshakes.
    - [Session] ([repository/auth.go], the sign-in rows of [model/]), [Token]
      ([middleware/middleware.go]: tokens and the middleware on sessions),
      [Login] and [Device] ([handler/auth.go]): codes by e-mail, GPG challenges,
      passwords, impersonation, refreshing and revoking sessions, and the device
      flow, over a state [ASt] that adds their tables to the world.  [SignIn]:
      what any sign-in request, clean-up or other program can do to those
      tables, statement by statement; [SignInSafety], [SignInOnce],
      [SignInSpec]: theorems; [SignInScenario]: concrete rows.
    - [McpStore] ([repository/mcp.go], the MCP rows of [model/] and the process
      memory of streams and approvals), [Mcp] ([handler/mcp.go],
      [mcp_session.go], [mcp_capabilities.go]: messages and event streams),
      [McpTools], [McpUser] (the operators' tools and server, [handler/mcp.go],
      [mcp_user_tools.go]), [McpAdmin] ([handler/admin_mcp.go],
      [admin_mcp_tools.go]), [McpKeys] ([handler/mcpkey.go],
      [admin_mcpkey.go] and the middleware on keys), [Assistant]
      ([handler/assistant.go]), over a state [MSt] that adds their tables and
      memory to the world.  [McpSafety], [McpPool], [McpSpec], [AssistantSpec]:
      theorems; [McpScenario]: concrete sessions.
    - [Wp]: reasoning about one program run alone; what agents were told.
      [Rely]: the class of conditions stable under other requests and the
      rely/guarantee rules of every primitive.  [Scenario]: a small concrete
      deployment.
    - [Lifecycle], [Creation], [Safety]: theorems across components.

    ** How the model corresponds to the code

    A handler is a program in the monad [M]: it runs one atomic action of
    [World] at a time, so a schedule of several programs interleaves them at
    every statement, command, cache or lock call.  [defer lease.Release] is
    [withPeerLock]; early returns are branches; Go's [(value, error)] is
    [result].  A statement may fail (its context has expired, or the oracle
    says so) and then has no effect.  A command takes the time the oracle gives
    it, at most its thirty seconds, and is answered, refused or not answered.
    Instants and durations are nanoseconds in [Z].  Goroutines that only send a
    notification run inline.  Logging is left out.

    What an agent carries is not code of this repository: [Wp.agent_view] reads
    it off the messages it was sent, on the documented protocol (an accepted
    command took effect, a refused one did not, after an unanswered one nothing
    is known, a sync replaces everything).  [Wp.in_sync] says that every agent
    carries what the rows say, [Wp.desired].

    ** What the theorems show

    - Rows and agents ([Lifecycle], [Creation], [Reconcile]): status changes,
      deletions and edits keep an agent in agreement with the rows or say so
      in their answer; a creation adds exactly the canonical record or nothing;
      a reconciliation pass restores agreement from any state.  Where the code
      loses it, a theorem says so: after an update that could not be stored
      ([update_failure_diverges], for every world), and in a run of a rejection
      beside an approval.
    - All interleavings ([Safety]) of the requests listed in [Safety.Request]:
      ownership that no statement changes, isolation of operators with their
      commands, mails and audit rows, the guard of the inactivity sweep.
    - Workers ([Inactivity], [Heartbeat]): a sweep does to every row what the
      thresholds say; the BGP alerts follow a counting machine; and the four
      tables a heartbeat writes.
    - Agent connections ([Hub], [Handshake]): in every interleaving at most one
      open authenticated connection per node and pinned keys that stay; what
      each handshake message changes and answers; and a race the code leaves.
      The steps of the hub allow more than the program does, so they carry
      invariants only.
    - Sign-in: in every interleaving each code, challenge, device code and
      refresh token is spent at most once ([SignInOnce], by a ledger that pays
      for each success with the row it uses up), dead sessions let nobody in and
      device grants follow their state machine ([SignInSafety]); the middleware
      admits exactly live sessions, and user codes survive being typed
      ([SignInSpec]).  Signing, hashing, bcrypt and OpenPGP are classes that the
      definitions take as parameters.  The middleware stores a session's last use
      in a goroutine, here inline.
    - MCP and the assistant: in every interleaving a message stays within its
      operator and the capabilities of its session, and streams keep their
      bounds ([McpPool]); an approval serves one call, the one it was given for
      ([AssistantSpec]); the middleware admits exactly the keys the page made,
      and a fresh idempotency key keeps a writing tool from running ([McpSpec]).
    - Mutual exclusion and renewal ([Lock]), expiry and counting on both cache
      backends ([Cache]), response versions ([ApiVersion]), ports, names, keys
      and validators ([Peering]).

    Recursion is structural wherever the data allows it.  Fuel appears twice:
    trimming a cutset takes one round per byte of the string, and an IPv6
    literal has at most eight groups, so nine rounds reach its end.

    ** Simplifications

    - What the code starts in a goroutine runs inline: notifications, the last
      use of a session or key (here before the handler).
    - A sync list that meets a full send buffer is tried once more after two
      seconds in the source; here it is delivered at once or dropped.
    - UUIDs are text; how the database reads one is a parameter where an agent
      supplies it ([MarkPeersActive]), elsewhere ids are taken as the database
      prints them, and a malformed one is a statement the oracle lets fail.
    - Counters in Redis expire in nanoseconds instead of whole milliseconds.

    ** Not modelled

    Passkeys, the workers for endpoints, latency and cleanup, the job queue,
    registry and whois clients, mail rendering, the flap monitor, the hub of the bots, traffic and
    statistics, node and release pages, configuration.  Most of them are
    planned.  JSON decoding of requests is a parameter of the handlers where Go's
    decoder does it, and code where the repository does it itself. *)
From stdpp Require Export base tactics list gmap strings pretty.
From stdpp Require Import options.
From Stdlib Require Export ZArith Lia Ascii.

(** ** Results of fallible Go code: [(value, error)] pairs of which exactly
    one is meaningful. *)
Inductive result (A : Type) : Type :=
| Ok (a : A)
| Err (msg : string).
Arguments Ok {A} a.
Arguments Err {A} msg.

Declare Scope go_scope.
Delimit Scope go_scope with go.

(** [x <-? e ;; k]: bind the value of [e], return early on an error. *)
Notation "x <-? e ;; k" :=
  (match e with Ok x => k | Err err => Err err end)
  (at level 100, e at next level, right associativity) : go_scope.

Definition is_ok {A} (r : result A) : bool :=
  match r with Ok _ => true | Err _ => false end.

(** String equality as the boolean test [==] of the source. *)
Notation "s =s t" := (bool_decide (s = t :> string)) (at level 70) : go_scope.
Notation "s <>s t" := (negb (bool_decide (s = t :> string))) (at level 70) : go_scope.

(** [*T] pointers that may be nil are options. *)
Definition isNil {A} (p : option A) : bool :=
  match p with None => true | Some _ => false end.

(** ** Automation *)
Create HintDb autopeer.
Create Rewrite HintDb strs.

(** Split every boolean test and hypothesis into propositions. *)
Ltac boolify :=
  repeat match goal with
  | H : bool_decide _ = true |- _ => apply bool_decide_eq_true in H
  | H : bool_decide _ = false |- _ => apply bool_decide_eq_false in H
  | H : andb _ _ = true |- _ => apply andb_true_iff in H; destruct H
  | H : andb _ _ = false |- _ => apply andb_false_iff in H
  | H : orb _ _ = true |- _ => apply orb_true_iff in H
  | H : orb _ _ = false |- _ => apply orb_false_iff in H; destruct H
  | H : negb _ = true |- _ => apply negb_true_iff in H
  | H : negb _ = false |- _ => apply negb_false_iff in H
  | H : (_ <? _)%Z = true |- _ => apply Z.ltb_lt in H
  | H : (_ <? _)%Z = false |- _ => apply Z.ltb_ge in H
  | H : (_ <=? _)%Z = true |- _ => apply Z.leb_le in H
  | H : (_ <=? _)%Z = false |- _ => apply Z.leb_gt in H
  | H : (_ =? _)%Z = true |- _ => apply Z.eqb_eq in H
  | H : (_ =? _)%Z = false |- _ => apply Z.eqb_neq in H
  end.

(** Case analysis on every [match] of the goal, keeping the equations. *)
Ltac cases := repeat (case_match; simplify_eq/=); boolify.

(** ** Strings as byte lists *)
Abbreviation bytes := String.list_ascii_of_string.
Abbreviation text := String.string_of_list_ascii.

Lemma bytes_app s t : bytes (s +:+ t) = bytes s ++ bytes t.
Proof.
  induction s as [|c s IH]; [done|].
  change (bytes (String c s +:+ t)) with (c :: bytes (s +:+ t)). by rewrite IH.
Qed.

Lemma text_app l k : text (l ++ k) = text l +:+ text k.
Proof. induction l as [|c l IH]; simpl; [done|by rewrite IH]. Qed.

Lemma text_bytes s : text (bytes s) = s.
Proof. apply String.string_of_list_ascii_of_string. Qed.

Lemma bytes_text l : bytes (text l) = l.
Proof. apply String.list_ascii_of_string_of_list_ascii. Qed.

(** stdpp keeps [String.append] folded; this is its computation rule. *)
Lemma append_cons c s t : String c s +:+ t = String c (s +:+ t).
Proof. done. Qed.

Lemma string_append_nil_r s : s +:+ "" = s.
Proof. induction s as [|c s IH]; [done|]. by rewrite append_cons, IH. Qed.

Lemma string_append_assoc s t u : (s +:+ t) +:+ u = s +:+ (t +:+ u).
Proof. induction s as [|c s IH]; [done|]. by rewrite !append_cons, IH. Qed.

Lemma length_bytes s : length (bytes s) = String.length s.
Proof. induction s as [|c s IH]; simpl; [done|by rewrite IH]. Qed.

Lemma bytes_inj s t : bytes s = bytes t → s = t.
Proof. intros H. by rewrite <-(text_bytes s), <-(text_bytes t), H. Qed.

#[export] Hint Rewrite bytes_app text_app text_bytes bytes_text length_bytes
  string_append_nil_r string_append_assoc : strs.
