(* ===== verification/GoLib.v ===== *)
(** * The parts of Go's standard library the center's rules are written with

    [strings], [strconv], [encoding/base64], [encoding/hex] and machine-width
    integers.  A Go string is a byte sequence, here Stdlib's [string]; [int] is
    64 bits wide (the center is built for 64-bit targets).  Every definition is
    executable. *)
From S2P Require Import Prelude.
From stdpp Require Import options.
Local Open Scope Z_scope.
Local Open Scope go_scope.

(** ** Machine integers *)
Definition int64_min : Z := - 2 ^ 63.
Definition int64_max : Z := 2 ^ 63 - 1.

(** Conversion to a signed 64-bit integer: wrap around modulo [2^64]. *)
Definition wrap64 (z : Z) : Z := (z + 2 ^ 63) mod 2 ^ 64 - 2 ^ 63.

Definition is_int64 (z : Z) : Prop := int64_min ≤ z ≤ int64_max.
#[export] Instance is_int64_dec z : Decision (is_int64 z).
Proof. unfold is_int64. apply _. Defined.

Lemma wrap64_id z : is_int64 z → wrap64 z = z.
Proof.
  unfold is_int64, int64_min, int64_max, wrap64. intros H.
  rewrite Z.mod_small by lia. lia.
Qed.

Lemma wrap64_is_int64 z : is_int64 (wrap64 z).
Proof.
  unfold is_int64, int64_min, int64_max, wrap64.
  pose proof (Z.mod_pos_bound (z + 2 ^ 63) (2 ^ 64)). lia.
Qed.

(** ** [strings] *)
Definition HasPrefix (s p : string) : bool := String.prefix p s.

Fixpoint drop_bytes (n : nat) (s : string) : string :=
  match n, s with
  | S n', String _ s' => drop_bytes n' s'
  | _, _ => s
  end.

Definition TrimPrefix (s p : string) : string :=
  if HasPrefix s p then drop_bytes (String.length p) s else s.

Definition reverse_string (s : string) : string := text (reverse (bytes s)).

Definition HasSuffix (s p : string) : bool :=
  HasPrefix (reverse_string s) (reverse_string p).

Definition TrimSuffix (s p : string) : string :=
  reverse_string (TrimPrefix (reverse_string s) (reverse_string p)).

Fixpoint Contains (s sub : string) : bool :=
  HasPrefix s sub ||
  match s with
  | EmptyString => false
  | String _ s' => Contains s' sub
  end.

(** The characters [unicode.IsSpace] accepts, in UTF-8. *)
Definition chr (n : N) : ascii := ascii_of_N n.
Definition spaces : list string :=
  map text
    ([[chr 9]; [chr 10]; [chr 11]; [chr 12]; [chr 13]; [chr 32];
      [chr 194; chr 133]; [chr 194; chr 160]; [chr 225; chr 154; chr 128]]
     ++ map (λ n, [chr 226; chr 128; chr n])
          [128; 129; 130; 131; 132; 133; 134; 135; 136; 137; 138; 168; 169; 175]%N
     ++ [[chr 226; chr 129; chr 159]; [chr 227; chr 128; chr 128]]).

(** Drop any of [ps] from the front until none matches; every element of [ps]
    is non-empty, so [String.length s] rounds are enough. *)
Fixpoint trim_left (fuel : nat) (ps : list string) (s : string) : string :=
  match fuel with
  | O => s
  | S fuel' =>
      match list_find (λ p, HasPrefix s p = true) ps with
      | Some (_, p) => trim_left fuel' ps (TrimPrefix s p)
      | None => s
      end
  end.

Definition TrimSpace (s : string) : string :=
  let l := trim_left (String.length s) spaces s in
  reverse_string (trim_left (String.length l) (map reverse_string spaces) (reverse_string l)).

(** [strings.TrimRight(s, "/")] and [strings.Split(s, ",")] for one byte. *)
Fixpoint drop_while (P : ascii → bool) (l : list ascii) : list ascii :=
  match l with
  | [] => []
  | c :: l' => if P c then drop_while P l' else l
  end.

Definition TrimRightByte (s : string) (c : ascii) : string :=
  text (reverse (drop_while (λ x, bool_decide (x = c)) (reverse (bytes s)))).

Fixpoint split_byte (c : ascii) (acc : list ascii) (l : list ascii) : list string :=
  match l with
  | [] => [text (reverse acc)]
  | x :: l' =>
      if bool_decide (x = c) then text (reverse acc) :: split_byte c [] l'
      else split_byte c (x :: acc) l'
  end.
Definition Split (s : string) (sep : ascii) : list string := split_byte sep [] (bytes s).

Definition to_lower (c : ascii) : ascii :=
  let n := N_of_ascii c in
  if (65 <=? n)%N && (n <=? 90)%N then ascii_of_N (n + 32) else c.
Definition to_upper (c : ascii) : ascii :=
  let n := N_of_ascii c in
  if (97 <=? n)%N && (n <=? 122)%N then ascii_of_N (n - 32) else c.

(** Of the runes outside ASCII two have a lower case in ASCII (the dotted
    capital I and the Kelvin sign), and two an upper case (the dotless i and the
    long s).  The others stay outside ASCII and are left as they are. *)
Fixpoint lower_bytes (l : list ascii) : list ascii :=
  match l with
  | a :: ((b :: rest) as l') =>
      if bool_decide (a = chr 196) && bool_decide (b = chr 176) then "i"%char :: lower_bytes rest
      else match rest with
           | c :: rest' =>
               if bool_decide (a = chr 226) && bool_decide (b = chr 132) && bool_decide (c = chr 170)
               then "k"%char :: lower_bytes rest'
               else to_lower a :: lower_bytes l'
           | [] => to_lower a :: lower_bytes l'
           end
  | [a] => [to_lower a]
  | [] => []
  end.
Definition ToLower (s : string) : string := text (lower_bytes (bytes s)).
(** [strings.EqualFold] with ASCII texts, to which the long s and the Kelvin
    sign are equal as well. *)
Fixpoint fold_bytes (l : list ascii) : list ascii :=
  match l with
  | a :: ((b :: rest) as l') =>
      if bool_decide (a = chr 197) && bool_decide (b = chr 191) then "s"%char :: fold_bytes rest
      else match rest with
           | c :: rest' =>
               if bool_decide (a = chr 226) && bool_decide (b = chr 132) && bool_decide (c = chr 170)
               then "k"%char :: fold_bytes rest'
               else to_lower a :: fold_bytes l'
           | [] => to_lower a :: fold_bytes l'
           end
  | [a] => [to_lower a]
  | [] => []
  end.
Definition EqualFold (s t : string) : bool := bool_decide (fold_bytes (bytes s) = fold_bytes (bytes t)).
Fixpoint upper_bytes (l : list ascii) : list ascii :=
  match l with
  | a :: ((b :: rest) as l') =>
      if bool_decide (a = chr 196) && bool_decide (b = chr 177) then "I"%char :: upper_bytes rest
      else if bool_decide (a = chr 197) && bool_decide (b = chr 191) then "S"%char :: upper_bytes rest
      else to_upper a :: upper_bytes l'
  | [a] => [to_upper a]
  | [] => []
  end.
Definition ToUpper (s : string) : string := text (upper_bytes (bytes s)).
(** [strings.ReplaceAll(s, c, "")] for one byte, and [s[:n]]. *)
Definition remove_byte (c : ascii) (s : string) : string := text (filter (λ x, x ≠ c) (bytes s)).
Definition truncate (n : nat) (s : string) : string := text (take n (bytes s)).

Lemma lower_bytes_ascii l : Forall (λ c, (N_of_ascii c < 128)%N) l → lower_bytes l = map to_lower l.
Proof.
  induction 1 as [|a l Ha Hl IH]; [done|]. cbn [map]. rewrite <- IH. destruct l as [|b l]; [done|]. cbn [lower_bytes].
  rewrite (bool_decide_eq_false_2 (a = chr 196)) by (by intros ->).
  destruct l as [|c l]; [done|]. by rewrite (bool_decide_eq_false_2 (a = chr 226)) by (by intros ->).
Qed.
Lemma upper_bytes_ascii l : Forall (λ c, (N_of_ascii c < 128)%N) l → upper_bytes l = map to_upper l.
Proof.
  induction 1 as [|a l Ha Hl IH]; [done|]. cbn [map]. rewrite <- IH. destruct l as [|b l]; [done|]. cbn [upper_bytes].
  rewrite (bool_decide_eq_false_2 (a = chr 196)) by (by intros ->).
  by rewrite (bool_decide_eq_false_2 (a = chr 197)) by (by intros ->).
Qed.
(** A text whose ends are no space is left as it is. *)
Definition not_first (c : ascii) (p : string) : Prop := match p with String a _ => a ≠ c | EmptyString => False end.
#[export] Instance not_first_dec c p : Decision (not_first c p).
Proof. destruct p; apply _. Defined.
Lemma trim_left_id fuel ps c s : Forall (not_first c) ps → trim_left fuel ps (String c s) = String c s.
Proof.
  intros H. destruct fuel as [|fuel]; [done|]. cbn [trim_left].
  destruct (list_find _ ps) as [[i p]|] eqn:E; [|done]. apply list_find_Some in E as (Hi & Hp & _).
  pose proof (proj1 (Forall_lookup _ _) H _ _ Hi) as Hn. destruct p as [|a p]; [done|]. cbn in Hn.
  unfold HasPrefix in Hp. cbn [String.prefix] in Hp. by destruct (ascii_dec a c).
Qed.
Lemma TrimSpace_id c d s t :
  s = String c t → reverse_string s = String d (reverse_string (truncate (String.length t) s)) →
  Forall (not_first c) spaces → Forall (not_first d) (map reverse_string spaces) → TrimSpace s = s.
Proof.
  intros -> Hr Hc Hd. unfold TrimSpace. rewrite trim_left_id by done. rewrite Hr, trim_left_id, <- Hr by done.
  unfold reverse_string. by rewrite bytes_text, reverse_involutive, text_bytes.
Qed.

(** Byte positions. *)
Fixpoint IndexByte (c : ascii) (l : list ascii) : option nat :=
  match l with
  | [] => None
  | x :: l' => if bool_decide (x = c) then Some O else S <$> IndexByte c l'
  end.

Fixpoint LastIndexByte (c : ascii) (l : list ascii) : option nat :=
  match l with
  | [] => None
  | x :: l' =>
      match LastIndexByte c l' with
      | Some i => Some (S i)
      | None => if bool_decide (x = c) then Some O else None
      end
  end.

(** ** [strconv] and [fmt] for decimal integers *)
Definition digit_val (c : ascii) : option Z :=
  let n := Z.of_N (N_of_ascii c) in
  if (48 <=? n) && (n <=? 57) then Some (n - 48) else None.

Fixpoint parse_digits (acc : Z) (l : list ascii) : option Z :=
  match l with
  | [] => Some acc
  | c :: l' =>
      match digit_val c with
      | Some d => parse_digits (acc * 10 + d) l'
      | None => None
      end
  end.

(** [strconv.ParseInt(s, 10, 64)] and [strconv.Atoi(s)]: an optional sign, at
    least one digit, in range; [None] is the error. *)
Definition ParseInt64 (s : string) : option Z :=
  let '(neg, ds) :=
    match bytes s with
    | c :: l =>
        if bool_decide (c = "-"%char) then (true, l)
        else if bool_decide (c = "+"%char) then (false, l)
        else (false, c :: l)
    | [] => (false, [])
    end in
  match ds with
  | [] => None
  | _ =>
      match parse_digits 0 ds with
      | Some v =>
          let v' := if neg : bool then - v else v in
          if bool_decide (is_int64 v') then Some v' else None
      | None => None
      end
  end.
Definition Atoi (s : string) : option Z := ParseInt64 s.

(** [fmt.Sprintf("%d", z)]. *)
Definition fmt_d (z : Z) : string := pretty z.

Lemma digit_val_pretty x : (x < 10)%N → digit_val (pretty_N_char x) = Some (Z.of_N x).
Proof.
  intros H.
  assert (x = 0 ∨ x = 1 ∨ x = 2 ∨ x = 3 ∨ x = 4 ∨ x = 5 ∨ x = 6 ∨ x = 7 ∨ x = 8 ∨ x = 9)%N
    as Hx by lia.
  by destruct_or?; subst.
Qed.

Lemma parse_digits_pretty_N_go x s :
  parse_digits 0 (bytes (pretty_N_go x s)) = parse_digits (Z.of_N x) (bytes s).
Proof.
  revert s. induction (N.lt_wf_0 x) as [x _ IH]; intros s.
  assert (x = 0 ∨ 0 < x)%N as [->|Hx] by lia; [done|].
  rewrite pretty_N_go_step by done. rewrite IH by (by apply N.div_lt).
  simpl. rewrite digit_val_pretty by (by apply N.mod_lt).
  f_equal. pose proof (N.div_mod x 10). lia.
Qed.

Lemma pretty_N_go_head x s :
  (0 < x)%N → ∃ d l, (d < 10)%N ∧ bytes (pretty_N_go x s) = pretty_N_char d :: l.
Proof.
  revert s. induction (N.lt_wf_0 x) as [x _ IH]; intros s Hx.
  rewrite pretty_N_go_step by done.
  destruct (decide (0 < x `div` 10)%N) as [H|H].
  - apply IH; [by apply N.div_lt|done].
  - apply N.nlt_ge, N.le_0_r in H. rewrite H, pretty_N_go_0. simpl.
    eexists _, _. split; [by apply N.mod_lt|done].
Qed.

Lemma pretty_N_bytes x :
  ∃ d l, (d < 10)%N ∧ bytes (pretty x) = pretty_N_char d :: l
    ∧ parse_digits 0 (bytes (pretty x)) = Some (Z.of_N x).
Proof.
  unfold pretty, pretty_N. case_decide as Hx; subst.
  - exists 0%N, []. done.
  - destruct (pretty_N_go_head x "") as (d & l & Hd & E); [lia|].
    exists d, l. split_and!; [done|done|]. by rewrite parse_digits_pretty_N_go.
Qed.

(** Printing then parsing an int64 gives it back. *)
Lemma ParseInt64_fmt_d z : is_int64 z → ParseInt64 (fmt_d z) = Some z.
Proof.
  intros Hz. unfold fmt_d.
  assert (∀ d, (d < 10)%N → pretty_N_char d ≠ "-"%char ∧ pretty_N_char d ≠ "+"%char) as Hc.
  { intros d Hd. rewrite <-(N2Z.id d) in *. unfold pretty_N_char. split; by repeat case_match. }
  unfold ParseInt64. destruct z as [|p|p]; [done| |];
    destruct (pretty_N_bytes (Npos p)) as (d & l & Hd & E & P).
  - change (pretty (Zpos p)) with (pretty (Npos p)).
    rewrite E in *. destruct (Hc d Hd).
    rewrite !bool_decide_eq_false_2 by done. cbv beta iota.
    rewrite P. by rewrite bool_decide_eq_true_2.
  - change (pretty (Zneg p)) with ("-" +:+ pretty (Npos p)).
    change (bytes ("-" +:+ pretty (Npos p))) with ("-"%char :: bytes (pretty (Npos p))).
    rewrite E in *. cbv beta iota. rewrite bool_decide_eq_true_2 by done.
    rewrite P. change (- Z.of_N (N.pos p)) with (Z.neg p).
    by rewrite bool_decide_eq_true_2.
Qed.

Lemma fmt_d_inj : Inj (=) (=) fmt_d.
Proof. unfold fmt_d. intros x y H. by apply (inj pretty) in H. Qed.

(** ** [encoding/base64] (StdEncoding) and [encoding/hex], encoders *)
Definition byte_val (c : ascii) : Z := Z.of_N (N_of_ascii c).
Definition base64_alphabet : list ascii :=
  bytes "ABCDEFGHIJKLMNOPQRSTUVWXYZabcdefghijklmnopqrstuvwxyz0123456789+/".
Definition sextet (v : Z) : ascii := nth (Z.to_nat (Z.land v 63)) base64_alphabet "A"%char.

Fixpoint base64_encode (l : list ascii) : list ascii :=
  match l with
  | a :: b :: c :: l' =>
      let v := Z.lor (Z.lor (Z.shiftl (byte_val a) 16) (Z.shiftl (byte_val b) 8)) (byte_val c) in
      sextet (Z.shiftr v 18) :: sextet (Z.shiftr v 12) :: sextet (Z.shiftr v 6) :: sextet v
        :: base64_encode l'
  | [a; b] =>
      let v := Z.lor (Z.shiftl (byte_val a) 16) (Z.shiftl (byte_val b) 8) in
      [sextet (Z.shiftr v 18); sextet (Z.shiftr v 12); sextet (Z.shiftr v 6); "="%char]
  | [a] =>
      let v := Z.shiftl (byte_val a) 16 in
      [sextet (Z.shiftr v 18); sextet (Z.shiftr v 12); "="%char; "="%char]
  | [] => []
  end.
Definition EncodeToString64 (l : list ascii) : string := text (base64_encode l).

(** [base64.RawURLEncoding]: no padding, and "-", "_" for the last two digits. *)
Definition raw_url (c : ascii) : ascii :=
  if bool_decide (c = "+"%char) then "-"%char else if bool_decide (c = "/"%char) then "_"%char else c.
Definition EncodeRawURL (l : list ascii) : string :=
  text (map raw_url (filter (λ c, c ≠ "="%char) (base64_encode l))).

Definition hex_alphabet : list ascii := bytes "0123456789abcdef".
Definition nibble (v : Z) : ascii := nth (Z.to_nat (Z.land v 15)) hex_alphabet "0"%char.
Definition EncodeToHex (l : list ascii) : string :=
  text (l ≫= λ c, [nibble (Z.shiftr (byte_val c) 4); nibble (byte_val c)]).

(** ** Instants as text ([time.RFC3339], UTC; instants are Unix nanoseconds) *)

(** Proleptic Gregorian date of a day number counted from 1970-01-01. *)
Definition civil (days : Z) : Z * Z * Z :=
  let z := days + 719468 in
  let era := z / 146097 in
  let doe := z mod 146097 in
  let yoe := (doe - doe / 1460 + doe / 36524 - doe / 146096) / 365 in
  let doy := doe - (365 * yoe + yoe / 4 - yoe / 100) in
  let mp := (5 * doy + 2) / 153 in
  let d := doy - (153 * mp + 2) / 5 + 1 in
  let m := if mp <? 10 then mp + 3 else mp - 9 in
  let y := yoe + era * 400 + (if m <=? 2 then 1 else 0) in
  (y, m, d).

Fixpoint zpad (n : nat) (s : string) : string :=
  match n with
  | O => s
  | S n' => String "0" (zpad n' s)
  end.
Definition pad (n : nat) (z : Z) : string := zpad (n - String.length (fmt_d z)) (fmt_d z).

Definition date_text (ns : Z) (sep : string) : string :=
  let s := ns / 1000000000 in
  let '(y, m, d) := civil (s / 86400) in
  let t := s mod 86400 in
  pad 4 y +:+ "-" +:+ pad 2 m +:+ "-" +:+ pad 2 d +:+ sep
  +:+ pad 2 (t / 3600) +:+ ":" +:+ pad 2 (t / 60 mod 60) +:+ ":" +:+ pad 2 (t mod 60).

Definition RFC3339 (ns : Z) : string := date_text ns "T" +:+ "Z".

(** The fraction of a second without trailing zeros, "" when it is zero. *)
Definition frac_text (digits : nat) (v : Z) : string :=
  if v =? 0 then "" else "." +:+ TrimRightByte (pad digits v) "0".

(** [time.RFC3339Nano], what [json.Marshal] writes for a [time.Time]. *)
Definition RFC3339Nano (ns : Z) : string :=
  date_text ns "T" +:+ frac_text 9 (ns mod 1000000000) +:+ "Z".

(** PostgreSQL's text for a [timestamptz] in UTC. *)
Definition timestamptz_text (ns : Z) : string :=
  date_text ns " " +:+ frac_text 6 (ns mod 1000000000 / 1000) +:+ "+00".
