(* ===== verification/Base64.v ===== *)
(** * Base64 without padding ([encoding/base64])

    The decoder of [base64.RawURLEncoding], and its round trip with the encoder
    of [GoLib]. *)
From S2P Require Import Prelude GoLib.
From stdpp Require Import options.
Local Open Scope Z_scope.
Local Open Scope go_scope.

Definition url_alphabet : list ascii := map raw_url base64_alphabet.
Definition url_val (c : ascii) : option Z := option_map (λ iv : nat * ascii, Z.of_nat iv.1) (list_find (λ x, x = c) url_alphabet).
Definition byte_of (v : Z) : ascii := ascii_of_N (Z.to_N (v mod 256)).
Definition quantum (a b c d : Z) : Z :=
  Z.lor (Z.lor (Z.lor (Z.shiftl a 18) (Z.shiftl b 12)) (Z.shiftl c 6)) d.
Fixpoint from_sextets (l : list Z) : option (list ascii) :=
  match l with
  | a :: b :: c :: d :: l' =>
      let v := quantum a b c d in
      rest ← from_sextets l';
      Some (byte_of (Z.shiftr v 16) :: byte_of (Z.shiftr v 8) :: byte_of v :: rest)
  | [a; b; c] => let v := quantum a b c 0 in Some [byte_of (Z.shiftr v 16); byte_of (Z.shiftr v 8)]
  | [a; b] => Some [byte_of (Z.shiftr (quantum a b 0 0) 16)]
  | [_] => None
  | [] => Some []
  end.
(** Line breaks are skipped. *)
Definition DecodeRawURL (s : string) : option (list ascii) :=
  vs ← mapM url_val (filter (λ c, c ≠ chr 10 ∧ c ≠ chr 13) (bytes s)); from_sextets vs.

(** ** One quantum *)
Lemma lor_add a n b : 0 ≤ n → 0 ≤ b < 2 ^ n → Z.lor (Z.shiftl a n) b = a * 2 ^ n + b.
Proof.
  intros Hn Hb. rewrite <- Z.shiftl_mul_pow2 by done. symmetry. apply Z.add_nocarry_lor.
  apply Z.bits_inj'. intros i Hi. rewrite Z.land_spec, Z.bits_0. destruct (decide (i < n)).
  - by rewrite Z.shiftl_spec_low by lia.
  - replace (Z.testbit b i) with false by (symmetry; rewrite <- (Z.mod_small b (2 ^ n)) by done; apply Z.mod_pow2_bits_high; lia).
    apply andb_false_r.
Qed.
Lemma byte_bounds c : 0 ≤ byte_val c < 256.
Proof. unfold byte_val. pose proof (N_ascii_bounded c). lia. Qed.
Lemma byte_of_val c : byte_of (byte_val c) = c.
Proof.
  unfold byte_of. rewrite Z.mod_small by apply byte_bounds. unfold byte_val. rewrite N2Z.id. apply ascii_N_embedding.
Qed.
Lemma byte_of_mod v c : v mod 256 = byte_val c → byte_of v = c.
Proof. intros Hv. rewrite <- (byte_of_val c). unfold byte_of. by rewrite Hv, Z.mod_small by apply byte_bounds. Qed.

(** The digits of a number below 2^24 give it back. *)
Definition digit (v : Z) (n : Z) : Z := Z.land (Z.shiftr v n) 63.
Lemma digit_div v n : 0 ≤ n → digit v n = (v / 2 ^ n) mod 64.
Proof. intros Hn. unfold digit. rewrite Z.shiftr_div_pow2 by done. by apply (Z.land_ones _ 6). Qed.
Lemma digit_bounds v n : 0 ≤ n → 0 ≤ digit v n < 64.
Proof. intros Hn. rewrite digit_div by done. by apply Z.mod_pos_bound. Qed.
Lemma quantum_sum a b c d : 0 ≤ a < 64 → 0 ≤ b < 64 → 0 ≤ c < 64 → 0 ≤ d < 64 → quantum a b c d = a * 2 ^ 18 + b * 2 ^ 12 + c * 2 ^ 6 + d.
Proof.
  intros. unfold quantum. rewrite <- !Z.lor_assoc. rewrite (lor_add c 6 d), (lor_add b 12), (lor_add a 18); lia.
Qed.
Lemma quantum_digits v : 0 ≤ v < 2 ^ 24 → quantum (digit v 18) (digit v 12) (digit v 6) (digit v 0) = v.
Proof.
  intros Hv. rewrite quantum_sum by (by apply digit_bounds). rewrite !digit_div by done.
  change (2 ^ 0) with 1. rewrite Z.div_1_r. Z.to_euclidean_division_equations. lia.
Qed.
(** Three bytes as a number. *)
Definition three (a b c : ascii) : Z := Z.lor (Z.lor (Z.shiftl (byte_val a) 16) (Z.shiftl (byte_val b) 8)) (byte_val c).
Lemma three_sum a b c : three a b c = byte_val a * 2 ^ 16 + byte_val b * 2 ^ 8 + byte_val c.
Proof.
  pose proof (byte_bounds a). pose proof (byte_bounds b). pose proof (byte_bounds c).
  unfold three. rewrite <- Z.lor_assoc, (lor_add (byte_val b) 8), (lor_add (byte_val a) 16); lia.
Qed.
Lemma three_bytes a b c :
  byte_of (Z.shiftr (three a b c) 16) = a ∧ byte_of (Z.shiftr (three a b c) 8) = b ∧ byte_of (three a b c) = c.
Proof.
  pose proof (byte_bounds a). pose proof (byte_bounds b). pose proof (byte_bounds c).
  rewrite three_sum, !Z.shiftr_div_pow2 by done.
  split_and!; apply byte_of_mod; Z.to_euclidean_division_equations; lia.
Qed.

(** ** The alphabet *)

(** A digit is none of the bytes the encoder and the decoder drop, nor a dot,
    and the decoder reads it back. *)
Definition good_digit (i : nat) : bool :=
  let c := raw_url (nth i base64_alphabet "A"%char) in
  bool_decide (nth i base64_alphabet "A"%char ≠ "="%char ∧ c ≠ chr 10 ∧ c ≠ chr 13 ∧ c ≠ "."%char ∧ url_val c = Some (Z.of_nat i)).
Lemma good_digits : forallb good_digit (seq 0 64) = true.
Proof. vm_compute. reflexivity. Qed.
Lemma sextet_good v :
  sextet v ≠ "="%char
  ∧ let c := raw_url (sextet v) in c ≠ chr 10 ∧ c ≠ chr 13 ∧ c ≠ "."%char ∧ url_val c = Some (Z.land v 63).
Proof.
  unfold sextet. pose proof (digit_bounds v 0 ltac:(lia)) as Hd. unfold digit in Hd. rewrite Z.shiftr_0_r in Hd.
  assert (good_digit (Z.to_nat (Z.land v 63)) = true) as Hg.
  { eapply (proj1 (forallb_forall _ _) good_digits), in_seq. lia. }
  apply bool_decide_eq_true in Hg. destruct Hg as (H1 & H2 & H3 & H4 & H5). split_and!; [done..|].
  rewrite H5. f_equal. lia.
Qed.

(** What the decoder sees of an encoded list. *)
Definition digits (l : list ascii) : list ascii := map raw_url (filter (λ c, c ≠ "="%char) (base64_encode l)).
Lemma three_induction (P : list ascii → Prop) :
  P [] → (∀ a, P [a]) → (∀ a b, P [a; b]) → (∀ a b c l, P l → P (a :: b :: c :: l)) → ∀ l, P l.
Proof.
  intros H0 H1 H2 H3. fix go 1. intros [|a [|b [|c l]]]; [done|done|done|]. apply H3, go.
Qed.
(** The numbers whose low six bits are written, in order. *)
Fixpoint sextets (l : list ascii) : list Z :=
  match l with
  | a :: b :: c :: l' => let v := three a b c in [Z.shiftr v 18; Z.shiftr v 12; Z.shiftr v 6; v] ++ sextets l'
  | [a; b] => let v := three a b zero in [Z.shiftr v 18; Z.shiftr v 12; Z.shiftr v 6]
  | [a] => let v := three a zero zero in [Z.shiftr v 18; Z.shiftr v 12]
  | [] => []
  end.
Lemma kept_sextets vs l : filter (λ c, c ≠ "="%char) (map sextet vs ++ l) = map sextet vs ++ filter (λ c, c ≠ "="%char) l.
Proof. induction vs as [|v vs IH]; [done|]. cbn [map app]. rewrite filter_cons_True by apply sextet_good. by rewrite IH. Qed.
Lemma digits_sextets l : digits l = map raw_url (map sextet (sextets l)).
Proof.
  unfold digits. f_equal. induction l as [|a|a b|a b c l IH] using three_induction; [done|..]; cbn [base64_encode sextets].
  - unfold three. change (byte_val zero) with 0. rewrite Z.shiftl_0_l, !Z.lor_0_r.
    exact (kept_sextets [_; _] ["="; "="]%char).
  - unfold three. change (byte_val zero) with 0. rewrite !Z.lor_0_r. exact (kept_sextets [_; _; _] ["="]%char).
  - fold (three a b c). rewrite map_app, <- IH. exact (kept_sextets [_; _; _; _] _).
Qed.
Lemma read_sextets vs :
  mapM url_val (filter (λ c, c ≠ chr 10 ∧ c ≠ chr 13) (map raw_url (map sextet vs))) = Some (map (λ v, Z.land v 63) vs).
Proof.
  induction vs as [|v vs IH]; [done|]. cbn [map]. destruct (sextet_good v) as (_ & H1 & H2 & _ & H3).
  rewrite filter_cons_True by done. change (mapM url_val (?x :: ?l)) with (y ← url_val x; k ← mapM url_val l; Some (y :: k)).
  by rewrite H3, IH.
Qed.
Lemma from_three a b c (l : list Z) :
  let v := three a b c in
  from_sextets ([digit v 18; digit v 12; digit v 6; digit v 0] ++ l) = (rest ← from_sextets l; Some (a :: b :: c :: rest)).
Proof.
  intros v. cbn [from_sextets app]. rewrite quantum_digits.
  - destruct (three_bytes a b c) as (E1 & E2 & E3). fold v in E1, E2, E3. by rewrite E1, E2, E3.
  - unfold v. rewrite three_sum. pose proof (byte_bounds a). pose proof (byte_bounds b). pose proof (byte_bounds c). lia.
Qed.
Lemma from_sextets_sextets l : from_sextets (map (λ v, Z.land v 63) (sextets l)) = Some l.
Proof.
  induction l as [|a|a b|a b c l IH] using three_induction; [done|..]; cbn [sextets map].
  - pose proof (from_three a zero zero []) as E. cbn [app from_sextets] in E.
    assert (digit (three a zero zero) 6 = 0 ∧ digit (three a zero zero) 0 = 0) as [H1 H2].
    { rewrite !digit_div, three_sum by done. change (byte_val zero) with 0. split; Z.to_euclidean_division_equations; lia. }
    rewrite H1, H2 in E. cbn in E. injection E as E1 _ _. unfold digit in E1. cbn [from_sextets]. by rewrite E1.
  - pose proof (from_three a b zero []) as E. cbn [app from_sextets] in E.
    assert (digit (three a b zero) 0 = 0) as H1.
    { rewrite digit_div, three_sum by done. change (byte_val zero) with 0. Z.to_euclidean_division_equations; lia. }
    rewrite H1 in E. cbn in E. injection E as E1 E2 _. unfold digit in E1, E2. cbn [from_sextets]. by rewrite E1, E2.
  - pose proof (from_three a b c (map (λ v, Z.land v 63) (sextets l))) as E. unfold digit in E. rewrite Z.shiftr_0_r, IH in E. exact E.
Qed.

(** What was encoded is decoded. *)
Lemma DecodeRawURL_EncodeRawURL l : DecodeRawURL (EncodeRawURL l) = Some l.
Proof.
  unfold DecodeRawURL, EncodeRawURL. rewrite bytes_text. fold (digits l). rewrite digits_sextets, read_sextets.
  exact (from_sextets_sextets l).
Qed.
(** No dot. *)
Lemma EncodeRawURL_dotless l : "."%char ∉ bytes (EncodeRawURL l).
Proof.
  unfold EncodeRawURL. rewrite bytes_text. fold (digits l). rewrite digits_sextets, map_map.
  intros (v & E & _)%list_elem_of_fmap. by destruct (sextet_good v) as (_ & _ & _ & H & _).
Qed.
