(* ===== verification/GoNet.v ===== *)
(** * Go's [net] package: host:port pairs and IP addresses

    [net.SplitHostPort], [net.JoinHostPort], [net.ParseIP] (the parser of
    [net/netip]), [IP.To4], [IP.IsLinkLocalUnicast] and [IP.String], written
    as the library computes them.  A [net.IP] returned by [ParseIP] is its 16
    bytes, a list of integers. *)
From S2P Require Import Prelude GoLib.
From stdpp Require Import options.
Local Open Scope Z_scope.
Local Open Scope go_scope.

(** ** host:port *)
Definition SplitHostPort (hostport : string) : result (string * string) :=
  let s := bytes hostport in
  match LastIndexByte ":" s with
  | None => Err "missing port in address"
  | Some i =>
      let finish host j k :=
        if negb (isNil (IndexByte "[" (drop j s))) then Err "unexpected '[' in address"
        else if negb (isNil (IndexByte "]" (drop k s))) then Err "unexpected ']' in address"
        else Ok (text host, text (drop (S i) s)) in
      if bool_decide (head s = Some "["%char) then
        match IndexByte "]" s with
        | None => Err "missing ']' in address"
        | Some e =>
            if (S e =? length s)%nat then Err "missing port in address"
            else if (S e =? i)%nat then finish (drop 1 (take e s)) 1%nat (S e)
            else if bool_decide (s !! S e = Some ":"%char) then Err "too many colons in address"
            else Err "missing port in address"
        end
      else
        let host := take i s in
        if negb (isNil (IndexByte ":" host)) then Err "too many colons in address"
        else finish host 0%nat 0%nat
  end.

Definition JoinHostPort (host port : string) : string :=
  if negb (isNil (IndexByte ":" (bytes host))) then "[" +:+ host +:+ "]:" +:+ port
  else host +:+ ":" +:+ port.

(** ** IP addresses *)
Abbreviation IP := (list Z).

(** [parseIPv4Fields] of [net/netip]: [prev] is the previous byte, [fields]
    the octets already closed, in order. *)
Fixpoint ipv4_fields (l : list ascii) (prev : option ascii) (fields : list Z)
    (val : Z) (digLen : nat) : option (list Z) :=
  match l with
  | [] => if (length fields <? 3)%nat then None else Some (fields ++ [val])
  | c :: l' =>
      match digit_val c with
      | Some d =>
          if (digLen =? 1)%nat && (val =? 0) then None
          else
            let val' := val * 10 + d in
            if 255 <? val' then None
            else ipv4_fields l' (Some c) fields val' (S digLen)
      | None =>
          if bool_decide (c = "."%char) then
            if isNil prev || bool_decide (l' = []) || bool_decide (prev = Some "."%char) then None
            else if (length fields =? 3)%nat then None
            else ipv4_fields l' (Some c) (fields ++ [val]) 0 0
          else None
      end
  end.
Definition parseIPv4 (l : list ascii) : option (list Z) := ipv4_fields l None [] 0 0.

Definition hex_val (c : ascii) : option Z :=
  let n := Z.of_N (N_of_ascii c) in
  if (48 <=? n) && (n <=? 57) then Some (n - 48)
  else if (97 <=? n) && (n <=? 102) then Some (n - 87)
  else if (65 <=? n) && (n <=? 70) then Some (n - 55)
  else None.

(** One group of hex digits: the number of digits, the value and the rest;
    [None] when there are more than four digits. *)
Fixpoint hex_group (l : list ascii) (off : nat) (acc : Z) : option (nat * Z * list ascii) :=
  match l with
  | [] => Some (off, acc, [])
  | c :: l' =>
      match hex_val c with
      | None => Some (off, acc, l)
      | Some d =>
          let acc' := acc * 16 + d in
          if (3 <? off)%nat then None
          else if 65535 <? acc' then None
          else hex_group l' (S off) acc'
      end
  end.

(** The group loop of [parseIPv6]: [ip] holds the bytes read so far, [ell] the
    position of "::".  Eight groups fill the address, so nine rounds of fuel
    always reach an exit. *)
Fixpoint ipv6_groups (fuel : nat) (s : list ascii) (ip : list Z) (ell : option nat)
  : option (list ascii * list Z * option nat) :=
  match fuel with
  | O => None
  | S fuel' =>
      if (16 <=? length ip)%nat then Some (s, ip, ell)
      else
        match hex_group s 0 0 with
        | None => None
        | Some (off, acc, rest) =>
            if (off =? 0)%nat then None
            else if bool_decide (head rest = Some "."%char) then
              if isNil ell && negb (length ip =? 12)%nat then None
              else if (16 <? length ip + 4)%nat then None
              else
                match parseIPv4 s with
                | Some v4 => Some ([], ip ++ v4, ell)
                | None => None
                end
            else
              let ip' := ip ++ [acc / 256; acc mod 256] in
              match rest with
              | [] => Some ([], ip', ell)
              | c :: s1 =>
                  if negb (bool_decide (c = ":"%char)) then None
                  else
                    match s1 with
                    | [] => None
                    | c2 :: s2 =>
                        if bool_decide (c2 = ":"%char) then
                          if negb (isNil ell) then None
                          else
                            let ell' := Some (length ip') in
                            match s2 with
                            | [] => Some ([], ip', ell')
                            | _ => ipv6_groups fuel' s2 ip' ell'
                            end
                        else ipv6_groups fuel' s1 ip' ell
                    end
              end
        end
  end.

Definition parseIPv6 (l : list ascii) : option IP :=
  let '(s, ell) :=
    match l with
    | c1 :: c2 :: l' =>
        if bool_decide (c1 = ":"%char) && bool_decide (c2 = ":"%char) then (l', Some O)
        else (l, None)
    | _ => (l, None)
    end in
  if bool_decide (s = []) && negb (isNil ell) then Some (replicate 16 0)
  else
    match ipv6_groups 9 s [] ell with
    | None => None
    | Some (rest, ip, ell') =>
        if negb (bool_decide (rest = [])) then None
        else if (length ip <? 16)%nat then
          match ell' with
          | None => None
          | Some e => Some (take e ip ++ replicate (16 - length ip) 0 ++ drop e ip)
          end
        else match ell' with Some _ => None | None => Some ip end
    end.

Definition v4InV6Prefix : list Z := [0; 0; 0; 0; 0; 0; 0; 0; 0; 0; 255; 255].

(** [net.ParseIP]: [None] is the nil IP.  The first of ['.'], [':'] and ['%']
    selects the family; an address with a zone is rejected. *)
Definition ParseIP (str : string) : option IP :=
  let l := bytes str in
  match list_find (λ c, c = "."%char ∨ c = ":"%char ∨ c = "%"%char) l with
  | None => None
  | Some (_, c) =>
      if bool_decide (c = "."%char) then app v4InV6Prefix <$> parseIPv4 l
      else if bool_decide (c = ":"%char) then
        if isNil (IndexByte "%" l) then parseIPv6 l else None
      else None
  end.

Definition To4 (ip : IP) : option (list Z) :=
  if (length ip =? 4)%nat then Some ip
  else if (length ip =? 16)%nat && bool_decide (take 12 ip = v4InV6Prefix) then Some (drop 12 ip)
  else None.

Definition IsLinkLocalUnicast (ip : IP) : bool :=
  match To4 ip with
  | Some ip4 => bool_decide (ip4 !! 0%nat = Some 169) && bool_decide (ip4 !! 1%nat = Some 254)
  | None =>
      (length ip =? 16)%nat && bool_decide (ip !! 0%nat = Some 254)
      && match ip !! 1%nat with Some b => Z.land b 192 =? 128 | None => false end
  end.

(** [IP.String]. *)
Definition join_dots (l : list Z) : string :=
  match l with
  | a :: l' => fold_left (λ s b, s +:+ "." +:+ fmt_d b) l' (fmt_d a)
  | [] => ""
  end.

Definition hex_digit (v : Z) : ascii := nibble v.
(** [appendHex]: a 16-bit field without leading zeros. *)
Definition fmt_hex16 (v : Z) : string :=
  text ((if 4095 <? v then [hex_digit (Z.shiftr v 12)] else [])
        ++ (if 255 <? v then [hex_digit (Z.shiftr v 8)] else [])
        ++ (if 15 <? v then [hex_digit (Z.shiftr v 4)] else [])
        ++ [hex_digit v]).

Fixpoint groups16 (l : list Z) : list Z :=
  match l with
  | a :: b :: l' => a * 256 + b :: groups16 l'
  | _ => []
  end.

Fixpoint zero_run (g : list Z) : nat :=
  match g with
  | v :: g' => if v =? 0 then S (zero_run g') else O
  | [] => O
  end.

(** The first longest run of at least two zero groups, as (start, length). *)
Fixpoint best_run (i : nat) (g : list Z) (best : nat * nat) : nat * nat :=
  match g with
  | [] => best
  | _ :: g' =>
      let l := zero_run g in
      best_run (S i) g' (if (2 <=? l)%nat && (best.2 <? l)%nat then (i, l) else best)
  end.

Definition join_colons (g : list Z) : string :=
  match g with
  | a :: g' => fold_left (λ s b, s +:+ ":" +:+ fmt_hex16 b) g' (fmt_hex16 a)
  | [] => ""
  end.

Definition fmt_v6 (ip : IP) : string :=
  let g := groups16 ip in
  let '(st, n) := best_run 0 g (0%nat, 0%nat) in
  if (n =? 0)%nat then join_colons g
  else join_colons (take st g) +:+ "::" +:+ join_colons (drop (st + n) g).

Definition IP_String (ip : IP) : string :=
  match To4 ip with
  | Some ip4 => join_dots ip4
  | None => fmt_v6 ip
  end.

(** ** Byte search *)
Lemma IndexByte_None c l : IndexByte c l = None ↔ c ∉ l.
Proof.
  induction l as [|x l IH]; simpl; [set_solver|].
  case_bool_decide as E; [set_solver|].
  rewrite fmap_None, IH. set_solver.
Qed.

Lemma IndexByte_app_l c l k : c ∉ l → IndexByte c (l ++ c :: k) = Some (length l).
Proof.
  induction l as [|x l IH]; simpl; intros H; [by rewrite bool_decide_eq_true_2|].
  rewrite bool_decide_eq_false_2 by set_solver. rewrite IH by set_solver. done.
Qed.

Lemma LastIndexByte_None c l : c ∉ l → LastIndexByte c l = None.
Proof.
  induction l as [|x l IH]; simpl; intros H; [done|].
  rewrite IH by set_solver. by rewrite bool_decide_eq_false_2 by set_solver.
Qed.

Lemma LastIndexByte_app c l k : c ∉ k → LastIndexByte c (l ++ c :: k) = Some (length l).
Proof.
  induction l as [|x l IH]; simpl; intros H.
  - rewrite LastIndexByte_None by done. by rewrite bool_decide_eq_true_2.
  - by rewrite IH.
Qed.

Lemma isNil_IndexByte c l : isNil (IndexByte c l) = true ↔ c ∉ l.
Proof. rewrite <-IndexByte_None. by destruct (IndexByte c l). Qed.

Lemma isNil_IndexByte_not c l : c ∉ l → negb (isNil (IndexByte c l)) = false.
Proof. intros H. by rewrite (proj2 (isNil_IndexByte c l) H). Qed.
#[export] Hint Resolve isNil_IndexByte_not : autopeer.

(** A host and a port free of the delimiters survive the round trip through
    [JoinHostPort], whether or not the host needs brackets. *)
Lemma SplitHostPort_JoinHostPort host port :
  "["%char ∉ bytes host → "]"%char ∉ bytes host →
  ":"%char ∉ bytes port → "["%char ∉ bytes port → "]"%char ∉ bytes port →
  SplitHostPort (JoinHostPort host port) = Ok (host, port).
Proof.
  intros Hl Hr Pc Pl Pr. unfold JoinHostPort.
  destruct (isNil (IndexByte ":" (bytes host))) eqn:Hc; cbn [negb].
  - apply isNil_IndexByte in Hc. unfold SplitHostPort.
    rewrite !bytes_app. cbn [String.list_ascii_of_string app].
    rewrite LastIndexByte_app by done.
    rewrite bool_decide_eq_false_2.
    2:{ destruct (bytes host); simpl; [done|]. set_solver. }
    rewrite take_app_length, isNil_IndexByte_not by done.
    rewrite !isNil_IndexByte_not by (rewrite ?drop_0; set_solver).
    change (bytes host ++ ":"%char :: bytes port) with (bytes host ++ [":"%char] ++ bytes port).
    rewrite app_assoc, drop_app_length' by (rewrite length_app; simpl; lia).
    by rewrite !text_bytes.
  - unfold SplitHostPort. rewrite !bytes_app. cbn [String.list_ascii_of_string app].
    replace ("["%char :: bytes host ++ "]"%char :: ":"%char :: bytes port)
      with (("["%char :: bytes host ++ ["]"%char]) ++ ":"%char :: bytes port)
      by (simpl; by rewrite <-app_assoc).
    rewrite LastIndexByte_app by done.
    rewrite bool_decide_eq_true_2 by done.
    replace (("["%char :: bytes host ++ ["]"%char]) ++ ":"%char :: bytes port)
      with (("["%char :: bytes host) ++ "]"%char :: ":"%char :: bytes port)
      by (simpl; by rewrite <-app_assoc).
    rewrite IndexByte_app_l by set_solver.
    cbn [length]. rewrite !length_app. cbn [length].
    destruct (Nat.eqb_spec (S (S (length (bytes host))))
      (S (length (bytes host)) + S (S (length (bytes port))))); [lia|].
    destruct (Nat.eqb_spec (S (S (length (bytes host)))) (S (length (bytes host) + 1))); [|lia].
    cbn [app drop]. rewrite !isNil_IndexByte_not.
    + rewrite firstn_cons. cbn [drop]. rewrite take_app_length. rewrite drop_app_ge by lia.
      replace (S (length (bytes host) + 1) - length (bytes host))%nat with 2%nat by lia.
      cbn [drop]. by rewrite !drop_0, !text_bytes.
    + rewrite drop_app_ge by lia.
      replace (S (length (bytes host)) - length (bytes host))%nat with 1%nat by lia.
      cbn [drop]. set_solver.
    + rewrite drop_0. set_solver.
Qed.

(** ** [ParseIP] returns sixteen bytes *)
Definition is_byte (b : Z) : Prop := 0 ≤ b < 256.

Lemma digit_val_range c d : digit_val c = Some d → 0 ≤ d ≤ 9.
Proof. unfold digit_val. intros. cases. lia. Qed.

Lemma hex_val_range c d : hex_val c = Some d → 0 ≤ d ≤ 15.
Proof. unfold hex_val. intros. cases; lia. Qed.

Lemma ipv4_fields_wf l prev fields val n r :
  Forall is_byte fields → (length fields ≤ 3)%nat → is_byte val →
  ipv4_fields l prev fields val n = Some r → length r = 4%nat ∧ Forall is_byte r.
Proof.
  unfold is_byte. revert prev fields val n.
  induction l as [|c l IH]; intros prev fields val n Hf Hl Hv; cbn [ipv4_fields]; intros E.
  - destruct (Nat.ltb_spec (length fields) 3); simplify_eq.
    rewrite length_app, Forall_app, Forall_singleton. simpl. split; [lia|done].
  - destruct (digit_val c) as [d|] eqn:Ed.
    + apply digit_val_range in Ed. cases. eapply IH; [| | |eassumption]; try done. lia.
    + cases. destruct (Nat.eqb_spec (length fields) 3); [done|].
      eapply IH; [| | |eassumption].
      * by rewrite Forall_app, Forall_singleton.
      * rewrite length_app. simpl. lia.
      * lia.
Qed.

Lemma parseIPv4_wf l r : parseIPv4 l = Some r → length r = 4%nat ∧ Forall is_byte r.
Proof.
  intros E. apply (ipv4_fields_wf l None [] 0 0 r); [constructor|simpl; lia|split; lia|exact E].
Qed.

Lemma hex_group_range l off acc off' acc' rest :
  0 ≤ acc ≤ 65535 → hex_group l off acc = Some (off', acc', rest) → 0 ≤ acc' ≤ 65535.
Proof.
  revert off acc. induction l as [|c l IH]; intros off acc H; simpl; intros E; [by simplify_eq|].
  destruct (hex_val c) as [d|] eqn:Ed; [|by simplify_eq].
  apply hex_val_range in Ed. cases. eapply IH; [|eassumption]. lia.
Qed.

Definition half (ip : list Z) : Prop := Forall is_byte ip ∧ (length ip ≤ 16)%nat ∧ Nat.even (length ip) = true.

Lemma ipv6_groups_wf fuel s ip ell rest ip' ell' :
  half ip → ipv6_groups fuel s ip ell = Some (rest, ip', ell') →
  Forall is_byte ip' ∧ (length ip' ≤ 16)%nat.
Proof.
  revert s ip ell. induction fuel as [|fuel IH]; intros s ip ell (Hb & Hl & He); [done|].
  cbn [ipv6_groups]. destruct (Nat.leb_spec 16 (length ip)) as [Hg|Hg]; intros E; [by simplify_eq|].
  destruct (hex_group s 0 0) as [[[off acc] r]|] eqn:Eh; [|done].
  apply hex_group_range in Eh; [|lia].
  destruct (Nat.eqb_spec off 0); [done|]. destruct (bool_decide (head r = Some "."%char)).
  - destruct (isNil ell && negb (length ip =? 12)%nat); [done|].
    destruct (Nat.ltb_spec 16 (length ip + 4)); [done|].
    destruct (parseIPv4 s) as [v4|] eqn:E4; simplify_eq.
    apply parseIPv4_wf in E4 as [L4 B4]. rewrite Forall_app, length_app. split; [done|lia].
  - assert (half (ip ++ [acc / 256; acc mod 256])) as Hh.
    { assert (length ip ≤ 14)%nat.
      { destruct (decide (length ip = 15%nat)) as [E15|]; [|lia]. by rewrite E15 in He. }
      unfold half, is_byte. rewrite Forall_app, !Forall_cons, length_app, Nat.add_comm. simpl.
      pose proof (Z.mod_pos_bound acc 256). split_and!; try done; try lia.
      all: try (apply Z.div_pos; lia); apply Z.div_lt_upper_bound; lia. }
    cases; try done; try (by eapply IH); destruct Hh as (? & ? & ?); done.
Qed.

Lemma ParseIP_wf str ip : ParseIP str = Some ip → length ip = 16%nat ∧ Forall is_byte ip.
Proof.
  unfold ParseIP. intros E.
  destruct (list_find _ (bytes str)) as [[i c]|]; [|done].
  destruct (bool_decide (c = "."%char)).
  - apply fmap_Some in E as (v4 & E4 & ->). apply parseIPv4_wf in E4 as [L4 B4].
    rewrite length_app, L4, Forall_app. split; [done|]. split; [|done].
    unfold v4InV6Prefix, is_byte. repeat constructor; lia.
  - destruct (bool_decide (c = ":"%char)); [|done].
    destruct (isNil (IndexByte "%" (bytes str))); [|done].
    revert E. unfold parseIPv6. generalize (bytes str). intros l.
    destruct (match l with
      | c1 :: c2 :: l' => if bool_decide (c1 = ":"%char) && bool_decide (c2 = ":"%char)
                          then (l', Some O) else (l, None)
      | _ => (l, None) end) as [s ell].
    destruct (bool_decide (s = []) && negb (isNil ell)); intros E.
    { simplify_eq. split; [done|]. apply Forall_replicate. split; lia. }
    destruct (ipv6_groups 9 s [] ell) as [[[rest ip'] ell']|] eqn:Eg; [|done].
    apply ipv6_groups_wf in Eg as [Hb Hl].
    2:{ split_and!; [constructor|simpl; lia|done]. }
    destruct (negb (bool_decide (rest = []))); [done|].
    destruct (Nat.ltb_spec (length ip') 16).
    + destruct ell' as [e|]; simplify_eq. rewrite !length_app, length_replicate.
      pose proof (take_drop e ip') as Htd. apply (f_equal length) in Htd. rewrite length_app in Htd.
      split; [lia|]. rewrite !Forall_app. split_and!.
      * by apply Forall_take.
      * apply Forall_replicate. split; lia.
      * by apply Forall_drop.
    + destruct ell'; simplify_eq. split; [lia|done].
Qed.

Lemma land_192 b : is_byte b → Z.land b 192 = 128 ↔ 128 ≤ b < 192.
Proof.
  intros Hb.
  assert (forallb (λ b, bool_decide (Z.land b 192 = 128 ↔ 128 ≤ b < 192)) (seqZ 0 256) = true)
    as Hall by by vm_compute.
  rewrite forallb_forall in Hall. specialize (Hall b).
  rewrite bool_decide_eq_true in Hall. apply Hall.
  apply list_elem_of_In, elem_of_seqZ. unfold is_byte in Hb. lia.
Qed.
