(* ===== verification/Regex.v ===== *)
(** * Anchored regular expressions

    The center validates keys and host names with anchored patterns of Go's
    [regexp] package ([^...$] without flags: the whole text must match).  This
    file gives their syntax, the language each denotes, and an executable
    matcher by derivatives, proved to decide the language. *)
From S2P Require Import Prelude.
From stdpp Require Import options.

Inductive regex : Type :=
| RVoid
| REps
| RClass (P : ascii → bool)
| RSeq (r1 r2 : regex)
| RAlt (r1 r2 : regex)
| RStar (r : regex).

(** The language of an expression. *)
Inductive matches : regex → list ascii → Prop :=
| m_eps : matches REps []
| m_class P c : P c = true → matches (RClass P) [c]
| m_seq r1 r2 l1 l2 : matches r1 l1 → matches r2 l2 → matches (RSeq r1 r2) (l1 ++ l2)
| m_alt_l r1 r2 l : matches r1 l → matches (RAlt r1 r2) l
| m_alt_r r1 r2 l : matches r2 l → matches (RAlt r1 r2) l
| m_star_nil r : matches (RStar r) []
| m_star_app r l1 l2 : matches r l1 → matches (RStar r) l2 → matches (RStar r) (l1 ++ l2).
#[export] Hint Constructors matches : autopeer.

(** [r+], [r?] and [r{0,n}]. *)
Definition RPlus (r : regex) : regex := RSeq r (RStar r).
Definition ROpt (r : regex) : regex := RAlt REps r.
Fixpoint RUpto (n : nat) (r : regex) : regex :=
  match n with
  | O => REps
  | S n' => ROpt (RSeq r (RUpto n' r))
  end.

(** ** The matcher *)
Fixpoint nullable (r : regex) : bool :=
  match r with
  | RVoid | RClass _ => false
  | REps | RStar _ => true
  | RSeq r1 r2 => nullable r1 && nullable r2
  | RAlt r1 r2 => nullable r1 || nullable r2
  end.

(** Constructors that drop dead branches, so that derivatives stay small. *)
Definition mkSeq (r1 r2 : regex) : regex :=
  match r1 with
  | RVoid => RVoid
  | REps => r2
  | _ => RSeq r1 r2
  end.
Definition mkAlt (r1 r2 : regex) : regex :=
  match r1, r2 with
  | RVoid, _ => r2
  | _, RVoid => r1
  | _, _ => RAlt r1 r2
  end.

Fixpoint deriv (c : ascii) (r : regex) : regex :=
  match r with
  | RVoid | REps => RVoid
  | RClass P => if P c then REps else RVoid
  | RSeq r1 r2 =>
      let d := mkSeq (deriv c r1) r2 in
      if nullable r1 then mkAlt d (deriv c r2) else d
  | RAlt r1 r2 => mkAlt (deriv c r1) (deriv c r2)
  | RStar r1 => mkSeq (deriv c r1) (RStar r1)
  end.

Fixpoint match_re (r : regex) (l : list ascii) : bool :=
  match l with
  | [] => nullable r
  | c :: l' => match_re (deriv c r) l'
  end.

Definition MatchString (r : regex) (s : string) : bool := match_re r (bytes s).

(** ** Correctness *)
Ltac inv_matches :=
  repeat match goal with
  | H : matches RVoid _ |- _ => inversion H
  | H : matches REps _ |- _ => inversion H; clear H; subst
  | H : matches (RClass _) _ |- _ => inversion H; clear H; subst
  | H : matches (RAlt _ _) _ |- _ => inversion H; clear H; subst
  | H : matches (RSeq _ _) _ |- _ => inversion H; clear H; subst
  end.

Lemma nullable_correct r : nullable r = true ↔ matches r [].
Proof.
  induction r as [| |P|r1 IH1 r2 IH2|r1 IH1 r2 IH2|r IH]; simpl.
  - split; [done|]. by inversion 1.
  - split; eauto with autopeer.
  - split; [done|]. by inversion 1.
  - rewrite andb_true_iff, IH1, IH2. split.
    + intros [? ?]. apply (m_seq _ _ [] []); done.
    + inversion 1 as [| |? ? l1 l2 M1 M2 Ht E| | | |]; subst.
      apply app_eq_nil in E as [-> ->]. done.
  - rewrite orb_true_iff, IH1, IH2. split.
    + intros [?|?]; eauto with autopeer.
    + inversion 1; eauto.
  - split; eauto with autopeer.
Qed.

Lemma mkSeq_correct r1 r2 l : matches (mkSeq r1 r2) l ↔ matches (RSeq r1 r2) l.
Proof.
  destruct r1; simpl; try done.
  - split; intros; inv_matches.
  - split.
    + intros H. apply (m_seq REps _ [] l); eauto with autopeer.
    + intros H. inv_matches. done.
Qed.

Lemma mkAlt_correct r1 r2 l : matches (mkAlt r1 r2) l ↔ matches (RAlt r1 r2) l.
Proof.
  assert (∀ r, matches r l ↔ matches (RAlt RVoid r) l) as HL.
  { intros r. split; [eauto with autopeer|]. intros. by inv_matches. }
  assert (∀ r, matches r l ↔ matches (RAlt r RVoid) l) as HR.
  { intros r. split; [eauto with autopeer|]. intros. by inv_matches. }
  destruct r1, r2; simpl; auto; done.
Qed.

Lemma star_cons r c l :
  matches (RStar r) (c :: l) ↔ ∃ l1 l2, l = l1 ++ l2 ∧ matches r (c :: l1) ∧ matches (RStar r) l2.
Proof.
  split.
  - intros H. remember (RStar r) as r' eqn:Er. remember (c :: l) as cl eqn:El.
    revert Er El. induction H as [| | | | | |r' l1 l2 M1 _ M2 IH]; intros; simplify_eq.
    destruct l1 as [|c' l1]; simplify_eq/=.
    + apply IH; done.
    + eauto.
  - intros (l1 & l2 & -> & M1 & M2). apply (m_star_app r (c :: l1) l2); done.
Qed.

Lemma seq_cons r1 r2 c l :
  matches (RSeq r1 r2) (c :: l) ↔
    (∃ l1 l2, l = l1 ++ l2 ∧ matches r1 (c :: l1) ∧ matches r2 l2)
    ∨ (matches r1 [] ∧ matches r2 (c :: l)).
Proof.
  split.
  - inversion 1 as [| |? ? l1 l2 M1 M2 Ht E| | | |]; subst.
    destruct l1 as [|c' l1]; simplify_eq/=; [by right|left]. eauto.
  - intros [(l1 & l2 & -> & M1 & M2)|[M1 M2]].
    + apply (m_seq _ _ (c :: l1) l2); done.
    + apply (m_seq _ _ [] (c :: l)); done.
Qed.

Lemma deriv_correct c r l : matches (deriv c r) l ↔ matches r (c :: l).
Proof.
  revert l. induction r as [| |P|r1 IH1 r2 IH2|r1 IH1 r2 IH2|r IH]; intros l; simpl.
  - split; intros; inv_matches.
  - split; intros; inv_matches.
  - destruct (P c) eqn:E; split; intros; inv_matches; eauto with autopeer. congruence.
  - assert (matches (RSeq (deriv c r1) r2) l ↔
      ∃ l1 l2, l = l1 ++ l2 ∧ matches r1 (c :: l1) ∧ matches r2 l2) as HS.
    { split.
      - intros H. inv_matches. setoid_rewrite <-IH1. eauto.
      - intros (l1 & l2 & -> & M1 & M2). constructor; [by apply IH1|done]. }
    rewrite seq_cons. destruct (nullable r1) eqn:Hn.
    + rewrite mkAlt_correct, <-HS. apply nullable_correct in Hn. split.
      * intros H. inv_matches; rewrite ?mkSeq_correct in *; rewrite ?IH2 in *; eauto.
      * intros [H|[_ H]].
        { apply m_alt_l. by apply mkSeq_correct. }
        { apply m_alt_r. by apply IH2. }
    + rewrite mkSeq_correct, HS. split; [eauto|]. intros [H|[H _]]; [done|].
      apply nullable_correct in H. congruence.
  - rewrite mkAlt_correct. split; intros; inv_matches; rewrite ?IH1, ?IH2 in *; eauto with autopeer;
      [apply m_alt_l|apply m_alt_r]; naive_solver.
  - rewrite mkSeq_correct, star_cons. split.
    + intros H. inv_matches. setoid_rewrite <-IH. eauto.
    + intros (l1 & l2 & -> & M1 & M2). constructor; [by apply IH|done].
Qed.

Lemma match_re_correct r l : match_re r l = true ↔ matches r l.
Proof.
  revert r. induction l as [|c l IH]; intros r; simpl.
  - apply nullable_correct.
  - by rewrite IH, deriv_correct.
Qed.

(** ** Languages of the patterns used *)
Lemma matches_star_class P l : matches (RStar (RClass P)) l ↔ Forall (λ c, P c = true) l.
Proof.
  split.
  - intros H. remember (RStar (RClass P)) as r eqn:E. revert E.
    induction H as [| | | | | |r l1 l2 M1 _ M2 IH]; intros; simplify_eq; [done|].
    inv_matches. apply Forall_app. split; [by apply Forall_singleton|]. by apply IH.
  - induction 1 as [|c l Hc Hl IH]; [constructor|].
    apply (m_star_app _ [c] l); eauto with autopeer.
Qed.

Lemma matches_plus_class P l :
  matches (RPlus (RClass P)) l ↔ l ≠ [] ∧ Forall (λ c, P c = true) l.
Proof.
  unfold RPlus. destruct l as [|c l].
  - split; [|naive_solver]. intros H. by apply nullable_correct in H.
  - rewrite seq_cons. split.
    + intros [(l1 & l2 & -> & M1 & M2)|[M1 _]]; inv_matches.
      apply matches_star_class in M2. split; [done|]. simpl. by constructor.
    + intros [_ H]. apply Forall_cons in H as [Hc Hl]. left.
      exists [], l. split_and!; [done|by constructor|by apply matches_star_class].
Qed.

Lemma matches_upto_class P n l :
  matches (RUpto n (RClass P)) l → length l ≤ n ∧ Forall (λ c, P c = true) l.
Proof.
  revert l. induction n as [|n IH]; intros l H; simpl in H.
  - inv_matches. simpl. split; [lia|constructor].
  - unfold ROpt in H. inv_matches; simpl; [split; [lia|constructor]|].
    match goal with M : matches (RUpto _ _) _ |- _ => apply IH in M as [? ?] end.
    rewrite ?length_app. simpl. split; [lia|]. by constructor.
Qed.
