(* ===== verification/Model.v ===== *)
(** * The data model ([internal/model/model.go])

    The rows of the [peers] and [nodes] tables, with the fields the control
    plane reads and writes.  Instants are Unix nanoseconds ([Z]); a Go pointer
    is an option. *)
From S2P Require Import Prelude.
From stdpp Require Import options.

Record Node : Type := MkNode {
  node_ID : string;
  node_Name : string;
  node_Location : string;
  node_AgentToken : string;
  node_AgentPubkey : string;
  node_PublicIP : string;
  node_OurASN : Z;
  node_OurLLA : string;
  node_OurWgPubkey : string;
  node_BirdPeerDir : string;
  node_WgDir : string;
  node_WgPortPrefix : Z;
  node_Online : bool;
  node_Enabled : bool;
  node_AgentVersion : string;
  node_AgentState : string;
  node_AgentStateChangedAt : Z;
  node_CreatedAt : Z
}.

Record Peer : Type := MkPeer {
  peer_ID : string;
  peer_NodeID : string;
  peer_RemoteASN : Z;
  peer_RemotePubkey : string;
  peer_RemoteEndpoint : string;
  peer_RemoteLLA : string;
  peer_ContactEmail : string;
  peer_WgListenPort : Z;
  peer_WgInterfaceName : string;
  peer_BgpProtoName : string;
  peer_BirdConfigFilename : string;
  peer_WgManaged : bool;
  peer_MTU : option Z;
  peer_WgPreSharedKey : option string;
  peer_Status : string;
  peer_RejectReason : option string;
  peer_EndpointMismatchSince : option Z;
  peer_BGPSuspendedByEndpoint : bool;
  peer_LastActiveAt : option Z;
  peer_InactivityWarningStage : Z;
  peer_CreatedAt : Z;
  peer_UpdatedAt : Z
}.

#[export] Instance Node_eq_dec : EqDecision Node.
Proof. solve_decision. Defined.
#[export] Instance Peer_eq_dec : EqDecision Peer.
Proof. solve_decision. Defined.

(** The columns a statement can assign: an [UPDATE ... SET] is a list of these. *)
Inductive column : Type :=
| set_ID (v : string)
| set_NodeID (v : string)
| set_RemoteASN (v : Z)
| set_RemotePubkey (v : string)
| set_RemoteEndpoint (v : string)
| set_RemoteLLA (v : string)
| set_ContactEmail (v : string)
| set_WgListenPort (v : Z)
| set_WgInterfaceName (v : string)
| set_BgpProtoName (v : string)
| set_BirdConfigFilename (v : string)
| set_WgManaged (v : bool)
| set_MTU (v : option Z)
| set_WgPreSharedKey (v : option string)
| set_Status (v : string)
| set_RejectReason (v : option string)
| set_EndpointMismatchSince (v : option Z)
| set_BGPSuspendedByEndpoint (v : bool)
| set_LastActiveAt (v : option Z)
| set_InactivityWarningStage (v : Z)
| set_CreatedAt (v : Z)
| set_UpdatedAt (v : Z).

Definition assign (c : column) (p : Peer) : Peer :=
  let '(MkPeer id node asn pk ep lla em port ifn proto bird mgd mtu psk st rr ems bse laa iws ca ua) := p in
  match c with
  | set_ID v => MkPeer v node asn pk ep lla em port ifn proto bird mgd mtu psk st rr ems bse laa iws ca ua
  | set_NodeID v => MkPeer id v asn pk ep lla em port ifn proto bird mgd mtu psk st rr ems bse laa iws ca ua
  | set_RemoteASN v => MkPeer id node v pk ep lla em port ifn proto bird mgd mtu psk st rr ems bse laa iws ca ua
  | set_RemotePubkey v => MkPeer id node asn v ep lla em port ifn proto bird mgd mtu psk st rr ems bse laa iws ca ua
  | set_RemoteEndpoint v => MkPeer id node asn pk v lla em port ifn proto bird mgd mtu psk st rr ems bse laa iws ca ua
  | set_RemoteLLA v => MkPeer id node asn pk ep v em port ifn proto bird mgd mtu psk st rr ems bse laa iws ca ua
  | set_ContactEmail v => MkPeer id node asn pk ep lla v port ifn proto bird mgd mtu psk st rr ems bse laa iws ca ua
  | set_WgListenPort v => MkPeer id node asn pk ep lla em v ifn proto bird mgd mtu psk st rr ems bse laa iws ca ua
  | set_WgInterfaceName v => MkPeer id node asn pk ep lla em port v proto bird mgd mtu psk st rr ems bse laa iws ca ua
  | set_BgpProtoName v => MkPeer id node asn pk ep lla em port ifn v bird mgd mtu psk st rr ems bse laa iws ca ua
  | set_BirdConfigFilename v => MkPeer id node asn pk ep lla em port ifn proto v mgd mtu psk st rr ems bse laa iws ca ua
  | set_WgManaged v => MkPeer id node asn pk ep lla em port ifn proto bird v mtu psk st rr ems bse laa iws ca ua
  | set_MTU v => MkPeer id node asn pk ep lla em port ifn proto bird mgd v psk st rr ems bse laa iws ca ua
  | set_WgPreSharedKey v => MkPeer id node asn pk ep lla em port ifn proto bird mgd mtu v st rr ems bse laa iws ca ua
  | set_Status v => MkPeer id node asn pk ep lla em port ifn proto bird mgd mtu psk v rr ems bse laa iws ca ua
  | set_RejectReason v => MkPeer id node asn pk ep lla em port ifn proto bird mgd mtu psk st v ems bse laa iws ca ua
  | set_EndpointMismatchSince v => MkPeer id node asn pk ep lla em port ifn proto bird mgd mtu psk st rr v bse laa iws ca ua
  | set_BGPSuspendedByEndpoint v => MkPeer id node asn pk ep lla em port ifn proto bird mgd mtu psk st rr ems v laa iws ca ua
  | set_LastActiveAt v => MkPeer id node asn pk ep lla em port ifn proto bird mgd mtu psk st rr ems bse v iws ca ua
  | set_InactivityWarningStage v => MkPeer id node asn pk ep lla em port ifn proto bird mgd mtu psk st rr ems bse laa v ca ua
  | set_CreatedAt v => MkPeer id node asn pk ep lla em port ifn proto bird mgd mtu psk st rr ems bse laa iws v ua
  | set_UpdatedAt v => MkPeer id node asn pk ep lla em port ifn proto bird mgd mtu psk st rr ems bse laa iws ca v
  end.

Definition assign_all (cs : list column) (p : Peer) : Peer := fold_left (λ p c, assign c p) cs p.

(** An update that leaves the identifying columns alone keeps the row's key. *)
Definition moves_key (c : column) : bool :=
  match c with set_ID _ | set_NodeID _ | set_RemoteASN _ | set_WgListenPort _ => true | _ => false end.

Lemma assign_keys c p :
  moves_key c = false →
  peer_ID (assign c p) = peer_ID p ∧ peer_NodeID (assign c p) = peer_NodeID p
  ∧ peer_RemoteASN (assign c p) = peer_RemoteASN p
  ∧ peer_WgListenPort (assign c p) = peer_WgListenPort p.
Proof. by destruct p, c. Qed.

Lemma assign_all_keys cs p :
  forallb (λ c, negb (moves_key c)) cs = true →
  peer_ID (assign_all cs p) = peer_ID p ∧ peer_NodeID (assign_all cs p) = peer_NodeID p
  ∧ peer_RemoteASN (assign_all cs p) = peer_RemoteASN p
  ∧ peer_WgListenPort (assign_all cs p) = peer_WgListenPort p.
Proof.
  revert p. induction cs as [|c cs IH]; intros p; simpl; [done|].
  intros H. boolify. destruct (assign_keys c p) as (E1 & E2 & E3 & E4); [done|].
  unfold assign_all in *. simpl. rewrite <-E1, <-E2, <-E3, <-E4. by apply IH.
Qed.
