(* ===== verification/Peering.v ===== *)
(** * Peering rules ([internal/peering/peering.go])

    How a peering request becomes a peer record: interface name, listen port,
    field validation and the pending record itself. *)
From S2P Require Import Prelude GoLib GoNet Regex Model.
From stdpp Require Import options.
Local Open Scope Z_scope.
Local Open Scope go_scope.

Definition DefaultWgPortPrefix : Z := 5.

(** ** Patterns *)
Definition in_range (lo hi : ascii) (c : ascii) : bool :=
  (N_of_ascii lo <=? N_of_ascii c)%N && (N_of_ascii c <=? N_of_ascii hi)%N.
Definition alnum (c : ascii) : bool :=
  in_range "a" "z" c || in_range "A" "Z" c || in_range "0" "9" c.
Definition base64_char (c : ascii) : bool :=
  alnum c || bool_decide (c = "+"%char) || bool_decide (c = "/"%char).
Definition is_char (d c : ascii) : bool := bool_decide (c = d).
Definition label_char (c : ascii) : bool := alnum c || is_char "-" c.

(** [^[A-Za-z0-9+/]+=*$] *)
Definition base64Re : regex := RSeq (RPlus (RClass base64_char)) (RStar (RClass (is_char "="))).

(** [[a-zA-Z0-9]([a-zA-Z0-9\-]{0,61}[a-zA-Z0-9])?] *)
Definition label_re : regex :=
  RSeq (RClass alnum) (ROpt (RSeq (RUpto 61 (RClass label_char)) (RClass alnum))).
Definition hostnameRe : regex :=
  RSeq label_re (RStar (RSeq (RClass (is_char ".")) label_re)).

(** ** Interface name and port *)
Definition WgInterfaceName (asn : Z) : string := "dn42" +:+ fmt_d asn.

(** Go's [%] truncates toward zero; the sum is an [int]. *)
Definition WgPort (asn portPrefix : Z) : Z :=
  let portPrefix := if portPrefix =? 0 then DefaultWgPortPrefix else portPrefix in
  wrap64 (wrap64 (portPrefix * 10000) + Z.rem asn 10000).

(** ** Validation *)
Definition invalid {A} (msg : string) : result A := Err msg.

Definition ValidatePubkey (pubkey : string) : result unit :=
  if negb (MatchString base64Re pubkey) || (String.length pubkey <? 40)%nat
  then invalid "Invalid WireGuard public key (must be Base64)" else Ok tt.

Definition endpoint_msg : string := "Invalid endpoint (format: IP:Port or [IPv6]:Port)".
Definition ValidateEndpoint (ep : string) : result unit :=
  match SplitHostPort ep with
  | Err _ => invalid endpoint_msg
  | Ok (host, portStr) =>
      match Atoi portStr with
      | None => invalid endpoint_msg
      | Some port =>
          if (port <? 1) || (65535 <? port) then invalid endpoint_msg
          else if isNil (ParseIP host) && negb (MatchString hostnameRe host)
          then invalid endpoint_msg else Ok tt
      end
  end.

Definition ValidateLLA (lla : string) : result unit :=
  match ParseIP lla with
  | None => invalid "Invalid link-local address (must be fe80::/10)"
  | Some ip =>
      if negb (IsLinkLocalUnicast ip) then invalid "Invalid link-local address (must be fe80::/10)"
      else Ok tt
  end.

Definition ValidateMTU (mtu : option Z) : result unit :=
  match mtu with
  | Some m => if (m <? 576) || (9000 <? m) then invalid "MTU must be between 576 and 9000" else Ok tt
  | None => Ok tt
  end.

(** [GeneratePSK] reads 32 bytes from the system's random source, passed here
    as [rnd] ([None] when reading fails). *)
Definition GeneratePSK (rnd : option (list ascii)) : result string :=
  match rnd with
  | None => Err "generate preshared key"
  | Some key => Ok (EncodeToString64 key)
  end.

(** ** The pending record *)
Record Input : Type := MkInput {
  in_ASN : Z;
  in_NodeID : string;
  in_PortPrefix : Z;
  in_Pubkey : string;
  in_Endpoint : string;
  in_LLA : string;
  in_MTU : option Z;
  in_EnablePSK : bool
}.

(** The peer with Go's zero values for every field the code leaves unset. *)
Definition zeroPeer : Peer :=
  MkPeer "" "" 0 "" "" "" "" 0 "" "" "" false None None "" None None false None 0 0 0.

Definition BuildPendingPeer (rnd : option (list ascii)) (inp : Input) : result Peer :=
  if in_NodeID inp =s "" then invalid "node_id is required"
  else
    _ <-? ValidatePubkey (in_Pubkey inp) ;;
    _ <-? ValidateEndpoint (in_Endpoint inp) ;;
    _ <-? ValidateLLA (in_LLA inp) ;;
    _ <-? ValidateMTU (in_MTU inp) ;;
    psk <-? (if in_EnablePSK inp then
               key <-? GeneratePSK rnd ;; Ok (Some key)
             else Ok None) ;;
    Ok {| peer_ID := peer_ID zeroPeer;
          peer_NodeID := in_NodeID inp;
          peer_RemoteASN := in_ASN inp;
          peer_RemotePubkey := in_Pubkey inp;
          peer_RemoteEndpoint := in_Endpoint inp;
          peer_RemoteLLA := in_LLA inp;
          peer_ContactEmail := peer_ContactEmail zeroPeer;
          peer_WgListenPort := WgPort (in_ASN inp) (in_PortPrefix inp);
          peer_WgInterfaceName := WgInterfaceName (in_ASN inp);
          peer_BgpProtoName := peer_BgpProtoName zeroPeer;
          peer_BirdConfigFilename := peer_BirdConfigFilename zeroPeer;
          peer_WgManaged := true;
          peer_MTU := in_MTU inp;
          peer_WgPreSharedKey := psk;
          peer_Status := "pending";
          peer_RejectReason := peer_RejectReason zeroPeer;
          peer_EndpointMismatchSince := peer_EndpointMismatchSince zeroPeer;
          peer_BGPSuspendedByEndpoint := peer_BGPSuspendedByEndpoint zeroPeer;
          peer_LastActiveAt := peer_LastActiveAt zeroPeer;
          peer_InactivityWarningStage := peer_InactivityWarningStage zeroPeer;
          peer_CreatedAt := peer_CreatedAt zeroPeer;
          peer_UpdatedAt := peer_UpdatedAt zeroPeer |}.

(** ** Properties of the allocation rules *)
Lemma WgPort_small asn prefix :
  is_int64 asn → 0 ≤ prefix ≤ 100000 →
  WgPort asn prefix = (if prefix =? 0 then 5 else prefix) * 10000 + Z.rem asn 10000.
Proof.
  intros Ha Hp. unfold WgPort, DefaultWgPortPrefix.
  pose proof (Z.rem_bound_abs asn 10000 ltac:(lia)).
  assert (0 ≤ (if prefix =? 0 then 5 else prefix) ≤ 100000) by (case_match; lia).
  generalize dependent (if prefix =? 0 then 5 else prefix). intros b Hb.
  rewrite !wrap64_id; [done|..]; unfold is_int64, int64_min, int64_max in *;
    rewrite ?wrap64_id; unfold is_int64, int64_min, int64_max; lia.
Qed.

(** C37: Port allocation.  For a non-negative ASN on a node with a port prefix
    of at most 5 (or the default, 0), the port is a valid UDP port inside the
    node's block of ten thousand; two ASNs on such a node collide exactly when
    they agree modulo ten thousand, which is why creation checks for a port
    conflict besides the (node, ASN) one. *)
Theorem WgPort_block (asn1 asn2 prefix : Z)
  (H1 : 0 ≤ asn1) (B1 : is_int64 asn1) (H2 : 0 ≤ asn2) (B2 : is_int64 asn2)
  (Hp : 0 ≤ prefix ≤ 5) :
  (let base := (if prefix =? 0 then 5 else prefix) * 10000 in
   base ≤ WgPort asn1 prefix < base + 10000 ∧ 1 ≤ WgPort asn1 prefix ≤ 65535)
  ∧ (WgPort asn1 prefix = WgPort asn2 prefix ↔ asn1 mod 10000 = asn2 mod 10000).
Proof.
  rewrite !WgPort_small by (done || lia).
  rewrite !Z.rem_mod_nonneg by lia.
  pose proof (Z.mod_pos_bound asn1 10000 ltac:(lia)).
  assert (prefix = 0 ∨ 1 ≤ prefix ≤ 5) as [->|?] by lia; simpl.
  - split; [lia|]. split; intros; lia.
  - destruct (Z.eqb_spec prefix 0); [lia|]. split; [lia|]. split; intros; lia.
Qed.

Lemma WgPort_block_witness :
  (50000 ≤ WgPort 4242420000 5 < 60000)
  ∧ (WgPort 4242421234 5 = WgPort 4201271234 5 ↔ 4242421234 mod 10000 = 4201271234 mod 10000).
Proof.
  pose proof (WgPort_block 4242421234 4201271234 5) as H.
  split; [vm_compute; split; [discriminate|done]|].
  apply H; vm_compute; try split; discriminate.
Defined.

(** The port prefix of a node is never range-checked: with prefix 6 an
    ASN ending in 9999 gets a listen port above 65535, which no agent can
    configure. *)
Theorem WgPort_prefix_six_overflows : WgPort 4242429999 6 = 69999 ∧ 65535 < WgPort 4242429999 6.
Proof. by vm_compute. Qed.

Lemma drop_bytes_app p s : drop_bytes (String.length p) (p +:+ s) = s.
Proof. induction p as [|c p IH]; [done|]. rewrite append_cons. simpl. apply IH. Qed.

Lemma HasPrefix_app p s : HasPrefix (p +:+ s) p = true.
Proof.
  unfold HasPrefix. induction p as [|c p IH]; [by destruct s|].
  rewrite append_cons. simpl. by destruct (ascii_dec c c).
Qed.

Lemma TrimPrefix_app p s : TrimPrefix (p +:+ s) p = s.
Proof. unfold TrimPrefix. by rewrite HasPrefix_app, drop_bytes_app. Qed.

(** C39: The interface name of an ASN reads back: stripping the [dn42] prefix
    and parsing the rest gives the ASN, so distinct ASNs have distinct
    interfaces and an agent's scan recovers the ASN from the name alone. *)
Theorem WgInterfaceName_roundtrip (asn : Z) (H : is_int64 asn) :
  ParseInt64 (TrimPrefix (WgInterfaceName asn) "dn42") = Some asn.
Proof. unfold WgInterfaceName. rewrite TrimPrefix_app. by apply ParseInt64_fmt_d. Qed.

Lemma WgInterfaceName_roundtrip_witness :
  ParseInt64 (TrimPrefix (WgInterfaceName 4242420266) "dn42") = Some 4242420266.
Proof. apply WgInterfaceName_roundtrip. vm_compute. split; discriminate. Defined.

(** ** Properties of the validators *)
Lemma base64Re_language l :
  matches base64Re l ↔
  ∃ body k, l = body ++ replicate k "="%char ∧ body ≠ [] ∧ Forall (λ c, base64_char c = true) body.
Proof.
  unfold base64Re. split.
  - intros H. inv_matches.
    match goal with M : matches (RPlus _) _ |- _ => apply matches_plus_class in M as [? ?] end.
    match goal with M : matches (RStar _) ?l2 |- _ => apply matches_star_class in M as Htl; rename l2 into tl end.
    eexists _, (length tl). split_and!; [|done|done]. f_equal.
    symmetry. apply replicate_as_elem_of. split; [done|].
    intros c Hc. rewrite Forall_forall in Htl. apply Htl in Hc. unfold is_char in Hc. by boolify.
  - intros (body & k & -> & Hne & Hall). constructor.
    + by apply matches_plus_class.
    + apply matches_star_class. apply Forall_replicate. unfold is_char. by rewrite bool_decide_eq_true_2.
Qed.

Lemma ValidatePubkey_accepts pubkey :
  ValidatePubkey pubkey = Ok tt ↔ (40 ≤ String.length pubkey)%nat ∧ matches base64Re (bytes pubkey).
Proof.
  rewrite <-match_re_correct. unfold ValidatePubkey, MatchString.
  destruct (match_re base64Re (bytes pubkey)); simpl; [|split; [done|naive_solver]].
  destruct (Nat.ltb_spec (String.length pubkey) 40); split; try done; naive_solver lia.
Qed.

(** A public key is accepted exactly when it is at least 40 bytes long and
    is a non-empty run of base64 characters followed by padding. *)
Theorem ValidatePubkey_spec (pubkey : string) :
  ValidatePubkey pubkey = Ok tt ↔
  (40 ≤ String.length pubkey)%nat ∧
  ∃ body k, bytes pubkey = body ++ replicate k "="%char ∧ body ≠ []
            ∧ Forall (λ c, base64_char c = true) body.
Proof. by rewrite ValidatePubkey_accepts, base64Re_language. Qed.

(** A link-local address is accepted exactly when it parses to an address
    of fe80::/10 or to an IPv4 address of 169.254.0.0/16.  The second half is
    not what the rejection message announces: an IPv4 link-local address passes
    as a peer's LLA. *)
Theorem ValidateLLA_spec (lla : string) :
  ValidateLLA lla = Ok tt ↔
  ∃ ip, ParseIP lla = Some ip ∧
    ((∃ a b, To4 ip = Some [169; 254; a; b])
     ∨ (To4 ip = None ∧ ∃ b rest, ip = 254 :: b :: rest ∧ 128 ≤ b < 192)).
Proof.
  unfold ValidateLLA. destruct (ParseIP lla) as [ip|] eqn:Ep; [|naive_solver].
  apply ParseIP_wf in Ep as [Hlen Hb].
  assert (IsLinkLocalUnicast ip = true ↔
    (∃ a b, To4 ip = Some [169; 254; a; b])
    ∨ (To4 ip = None ∧ ∃ b rest, ip = 254 :: b :: rest ∧ 128 ≤ b < 192)) as Hll.
  { unfold IsLinkLocalUnicast, To4. rewrite Hlen. cbn [Nat.eqb andb].
    do 16 (destruct ip as [|? ip]; [done|]). destruct ip; [clear Hlen|done].
    rewrite !Forall_cons in Hb. destruct_and!.
    case_bool_decide as E4; cbn [drop list_lookup lookup andb].
    - rewrite andb_true_iff, !bool_decide_eq_true. split; [naive_solver|].
      intros [(a & b & [= -> -> _ _])|[? _]]; done.
    - rewrite andb_true_iff, bool_decide_eq_true, Z.eqb_eq, land_192 by done.
      naive_solver. }
  destruct (IsLinkLocalUnicast ip); simpl; split; intros; try done; naive_solver.
Qed.

(** The validator and its message disagree: an IPv4 link-local address is
    not in fe80::/10, yet it is accepted. *)
Theorem ValidateLLA_accepts_ipv4 : ValidateLLA "169.254.10.1" = Ok tt.
Proof. by vm_compute. Qed.

Lemma fmt_d_port_digits port :
  1 ≤ port ≤ 65535 → Forall (λ c, is_Some (digit_val c)) (bytes (fmt_d port)).
Proof.
  intros H. destruct port as [|p|p]; try lia.
  change (fmt_d (Zpos p)) with (pretty (Npos p)).
  destruct (pretty_N_bytes (Npos p)) as (_ & _ & _ & _ & P). clear H.
  revert P. generalize (Z.of_N (Npos p)). generalize 0.
  induction (bytes (pretty (Npos p))) as [|c l IH]; intros acc v; simpl; [done|].
  destruct (digit_val c) eqn:E; [|done]. intros P. constructor; [by eexists|]. by eapply IH.
Qed.

(** Completeness of endpoint validation: a bracket-free host that is an IP
    literal (IPv4 or IPv6) or matches the host name pattern, joined with any
    port from 1 to 65535, is accepted. *)
Lemma ValidateEndpoint_complete (host : string) (port : Z)
  (Hbr : "["%char ∉ bytes host ∧ "]"%char ∉ bytes host)
  (Hport : 1 ≤ port ≤ 65535)
  (Hhost : is_Some (ParseIP host) ∨ matches hostnameRe (bytes host)) :
  ValidateEndpoint (JoinHostPort host (fmt_d port)) = Ok tt.
Proof.
  pose proof (fmt_d_port_digits port Hport) as Hd.
  assert (∀ c, digit_val c = None → c ∉ bytes (fmt_d port)) as Hnot.
  { intros c Hc Hin. rewrite Forall_forall in Hd. apply Hd in Hin as [? ?]. congruence. }
  unfold ValidateEndpoint.
  rewrite SplitHostPort_JoinHostPort by (try apply Hnot; naive_solver).
  unfold Atoi. rewrite ParseInt64_fmt_d
    by (unfold is_int64, int64_min, int64_max; lia).
  destruct (Z.ltb_spec port 1), (Z.ltb_spec 65535 port); try lia. cbn [orb].
  destruct Hhost as [[ip ->]|Hm]; [done|].
  apply match_re_correct in Hm. unfold MatchString. rewrite Hm.
  by rewrite andb_false_r.
Qed.

(** C38: Endpoint validation decides its specification: an endpoint is accepted
    exactly when it splits into a host that is an IP literal or matches the host
    name pattern, and a port that reads as a number from 1 to 65535. *)
Theorem ValidateEndpoint_spec (ep : string) :
  ValidateEndpoint ep = Ok tt ↔ ∃ host portStr port,
    SplitHostPort ep = Ok (host, portStr) ∧ Atoi portStr = Some port ∧ 1 ≤ port ≤ 65535
    ∧ (is_Some (ParseIP host) ∨ matches hostnameRe (bytes host)).
Proof.
  unfold ValidateEndpoint. split.
  - destruct (SplitHostPort ep) as [[host portStr]|]; [|done].
    destruct (Atoi portStr) as [port|] eqn:Ea; [|done].
    destruct (Z.ltb_spec port 1), (Z.ltb_spec 65535 port); try done. cbn [orb].
    destruct (ParseIP host) as [ip|] eqn:Ep; cbn [isNil andb].
    + intros _. exists host, portStr, port. split_and!; try done. by left; eexists.
    + destruct (MatchString hostnameRe host) eqn:Em; [|done]. intros _.
      exists host, portStr, port. split_and!; try done. right. by apply match_re_correct.
  - intros (host & portStr & port & -> & -> & Hp & Hh).
    destruct (Z.ltb_spec port 1), (Z.ltb_spec 65535 port); try lia. cbn [orb].
    destruct Hh as [[ip ->]|Hm]; [done|]. apply match_re_correct in Hm. unfold MatchString. rewrite Hm.
    by rewrite andb_false_r.
Qed.

(** ** Pre-shared keys *)
Lemma sextet_base64 v : base64_char (sextet v) = true.
Proof.
  unfold sextet. generalize (Z.to_nat (Z.land v 63)). intros n.
  assert (forallb base64_char base64_alphabet = true) as H by by vm_compute.
  rewrite forallb_forall in H.
  destruct (nth_in_or_default n base64_alphabet "A"%char) as [Hin| ->]; [by apply H|done].
Qed.

Lemma base64_encode_app3 n l k :
  length l = (3 * n)%nat →
  base64_encode (l ++ k) = base64_encode l ++ base64_encode k
  ∧ Forall (λ c, base64_char c = true) (base64_encode l) ∧ length (base64_encode l) = (4 * n)%nat.
Proof.
  revert l. induction n as [|n IH]; intros l Hl.
  - destruct l; [|done]. done.
  - do 3 (destruct l as [|? l]; [simpl in Hl; lia|]).
    destruct (IH l) as (E & F & L); [simpl in Hl; lia|].
    cbn [app base64_encode length]. rewrite E, L. split_and!; [done| |lia].
    repeat (constructor; [apply sextet_base64|]). done.
Qed.

(** A generated pre-shared key is 44 bytes of standard base64 ending in
    one padding character, the format WireGuard's tools expect, and would pass
    the key validator. *)
Theorem GeneratePSK_valid (rnd : list ascii) (Hlen : length rnd = 32%nat) :
  ∃ key, GeneratePSK (Some rnd) = Ok key ∧ String.length key = 44%nat
    ∧ HasSuffix key "=" = true ∧ ValidatePubkey key = Ok tt.
Proof.
  simpl. eexists. split; [done|]. unfold EncodeToString64.
  destruct (base64_encode_app3 10 (take 30 rnd) (drop 30 rnd)) as (E & F & L).
  { rewrite length_take. lia. }
  rewrite take_drop in E. rewrite E.
  assert (∃ x y z, base64_encode (drop 30 rnd) = [x; y; z; "="%char]
    ∧ Forall (λ c, base64_char c = true) [x; y; z]) as (x & y & z & -> & Hxyz).
  { assert (length (drop 30 rnd) = 2%nat) as Hd by (rewrite length_drop; lia).
    destruct (drop 30 rnd) as [|a [|b [|? ?]]]; try done. simpl. eexists _, _, _.
    split; [done|]. repeat (constructor; [apply sextet_base64|]). constructor. }
  set (body := base64_encode (take 30 rnd)) in *.
  assert (String.length (text (body ++ [x; y; z; "="%char])) = 44%nat) as HL.
  { rewrite <-length_bytes, bytes_text, length_app, L. done. }
  split_and!; [done| |].
  - unfold HasSuffix, reverse_string. rewrite bytes_text.
    replace (body ++ [x; y; z; "="%char]) with ((body ++ [x; y; z]) ++ ["="%char])
      by by rewrite <-app_assoc.
    rewrite reverse_snoc. cbn. by destruct (text (reverse (body ++ [x; y; z]))).
  - apply ValidatePubkey_accepts. split; [lia|]. rewrite bytes_text. apply base64Re_language.
    exists (body ++ [x; y; z]), 1%nat. split_and!.
    + by rewrite <-app_assoc.
    + by destruct body.
    + by apply Forall_app.
Qed.

Lemma GeneratePSK_valid_witness :
  ∃ key, GeneratePSK (Some (replicate 32 (chr 7))) = Ok key ∧ String.length key = 44%nat
    ∧ HasSuffix key "=" = true ∧ ValidatePubkey key = Ok tt.
Proof. apply GeneratePSK_valid. by vm_compute. Defined.
