(* ===== verification/Json.v ===== *)
(** * JSON values

    The generic values handlers exchange: what [encoding/json] decodes into
    [any].  Objects are association lists in the order of the document; the
    code only looks keys up, deletes them and descends into them. *)
From S2P Require Import Prelude.
From Stdlib Require Export SpecFloat.
From stdpp Require Import options.

Inductive json : Type :=
| JNull
| JBool (b : bool)
| JNum (n : Z)
| JFloat (f : spec_float)
| JStr (s : string)
| JArr (l : list json)
| JObj (fields : list (string * json)).

Abbreviation obj := (list (string * json)).

(** [t[key]] and [delete(t, key)] on a decoded object. *)
Definition obj_get (key : string) (o : obj) : option json :=
  snd <$> (list_find (λ kv, kv.1 = key) o ≫= λ '(_, kv), Some kv).
Definition obj_delete (key : string) (o : obj) : obj := filter (λ kv, kv.1 ≠ key) o.

(** Replace the value stored under [key], where there is one. *)
Definition obj_update (key : string) (f : json → json) (o : obj) : obj :=
  map (λ kv, if decide (kv.1 = key) then (kv.1, f kv.2) else kv) o.

(** Optional values as JSON: a nil pointer encodes as [null]. *)
Definition jopt {A} (f : A → json) (o : option A) : json :=
  match o with Some a => f a | None => JNull end.
