(* ===== verification/ApiVersion.v ===== *)
(** * API versions ([internal/apiversion], [handler.JSONVersioned],
      [middleware.APIVersion])

    Handlers build the latest shape of a response; a client pinned to an older
    dated version gets it through the chain of registered downgrades. *)
From S2P Require Import Prelude GoLib Json.
From stdpp Require Import sorting.
From stdpp Require Import options.
Local Open Scope go_scope.

(** ** Versions *)
Definition versions : list string := ["2025-01-01"; "2026-06-06"; "2026-06-07"].

Definition Latest : string := default "" (last versions).
Definition Versions : list string := versions.

Fixpoint known_in (v : string) (vs : list string) : bool :=
  match vs with
  | [] => false
  | x :: vs' => if x =s v then true else known_in v vs'
  end.
Definition IsKnown (v : string) : bool := known_in v versions.

(** [Resolve]: [None] is the pair [("", false)]. *)
Definition Resolve (header : string) : option string :=
  let h := TrimSpace header in
  if h =s "" then Some Latest
  else if IsKnown h then Some h
  else None.

(** ** Changes *)
Inductive Resource : Type := ResourcePeer | OtherResource (name : string).
#[export] Instance Resource_eq_dec : EqDecision Resource.
Proof. solve_decision. Defined.

Definition Transform : Type := obj → obj.

Record VersionChange : Type := MkChange {
  vc_Version : string;
  vc_Resource : Resource;
  vc_Description : string;
  vc_Apply : Transform
}.

Definition register (c : VersionChange) (changes : list VersionChange) : list VersionChange :=
  changes ++ [c].

(** The registrations of [changes.go]'s [init], in order. *)
Definition change_2026_06_06 : VersionChange :=
  MkChange "2026-06-06" ResourcePeer
    "Add endpoint_mismatch_since and bgp_suspended_by_endpoint to peer objects"
    (λ o, obj_delete "bgp_suspended_by_endpoint" (obj_delete "endpoint_mismatch_since" o)).
Definition change_2026_06_07 : VersionChange :=
  MkChange "2026-06-07" ResourcePeer "Add wg_preshared_key to peer objects"
    (λ o, obj_delete "wg_preshared_key" o).
Definition init_changes : list VersionChange :=
  register change_2026_06_07 (register change_2026_06_06 []).

(** Byte-wise string order, Go's [>] on strings. *)
Definition str_gt (a b : string) : bool := String.ltb b a.

Definition newer_first (c d : VersionChange) : Prop :=
  (String.leb (vc_Version d) (vc_Version c)) = true.
#[export] Instance newer_first_dec c d : Decision (newer_first c d).
Proof. unfold newer_first. apply _. Defined.

Definition changesForResourceNewestFirst (changes : list VersionChange) (res : Resource)
  : list VersionChange :=
  merge_sort newer_first (filter (λ c, vc_Resource c = res) changes).

(** ** Downgrading a value *)
Definition applyToElem (fn : Transform) (el : json) : json :=
  match el with JObj o => JObj (fn o) | _ => el end.

(** The recursive call of the source is on the field's value with an empty
    [listKey], so it ends in the two last cases. *)
Definition applyBare (v : json) (fn : Transform) : json :=
  match v with
  | JObj o => JObj (fn o)
  | JArr l => JArr (map (applyToElem fn) l)
  | _ => v
  end.
Definition applyToValue (v : json) (listKey : string) (fn : Transform) : json :=
  match v with
  | JObj o =>
      if listKey <>s "" then JObj (obj_update listKey (λ inner, applyBare inner fn) o)
      else JObj (fn o)
  | _ => applyBare v fn
  end.

Definition Downgrade (changes : list VersionChange) (res : Resource) (target : string)
    (v : json) (listKey : string) : json :=
  if target =s Latest then v
  else fold_left (λ v c, if str_gt (vc_Version c) target then applyToValue v listKey (vc_Apply c) else v)
         (changesForResourceNewestFirst changes res) v.

(** ** The HTTP side *)

(** [middleware.APIVersion]: 400 with the trimmed header, or the version put
    in the request context. *)
Definition APIVersion (header : string) : string + string :=
  match Resolve header with
  | None => inr ("Unknown Autopeer-Version: " +:+ TrimSpace header)
  | Some resolved => inl resolved
  end.

(** [JSONVersioned] writes [data] (already in its decoded generic form); [""]
    as the context's version means the middleware did not run. *)
Definition JSONVersioned (ctxVersion : string) (res : Resource) (listKey : string) (data : json) : json :=
  let target := if ctxVersion =s "" then Latest else ctxVersion in
  if target =s Latest then data
  else Downgrade init_changes res target data listKey.

(** ** Specification: which fields a version hides *)

(** The version that introduced each late field of a peer object. *)
Definition introduced : list (string * string) :=
  [("endpoint_mismatch_since", "2026-06-06"); ("bgp_suspended_by_endpoint", "2026-06-06");
   ("wg_preshared_key", "2026-06-07")].
Definition hidden (target : string) : list string :=
  map fst (filter (λ kv, str_gt kv.2 target = true) introduced).
Definition strip (ks : list string) : Transform := filter (λ kv, kv.1 ∉ ks).

Lemma applyBare_compose v f g : applyBare (applyBare v f) g = applyBare v (g ∘ f).
Proof.
  destruct v; simpl; try done. f_equal. rewrite map_map. apply map_ext. by intros [].
Qed.

Lemma applyToValue_compose v k f g :
  applyToValue (applyToValue v k f) k g = applyToValue v k (g ∘ f).
Proof.
  destruct v as [| | | | | |o]; try apply applyBare_compose; simpl.
  case_bool_decide; simpl.
  - by rewrite bool_decide_eq_true_2.
  - rewrite bool_decide_eq_false_2 by done. simpl. f_equal. unfold obj_update.
    rewrite map_map. apply map_ext. intros [k' v']. simpl.
    repeat (case_decide; simplify_eq/=); try done. by rewrite applyBare_compose.
Qed.

Lemma applyBare_ext v f g : (∀ o, f o = g o) → applyBare v f = applyBare v g.
Proof.
  intros H. destruct v; simpl; try done; f_equal; [|done].
  apply map_ext. intros []; simpl; try done. by rewrite H.
Qed.

Lemma applyToValue_ext v k f g : (∀ o, f o = g o) → applyToValue v k f = applyToValue v k g.
Proof.
  intros H. destruct v as [| | | | | |o]; try (by apply applyBare_ext); simpl.
  case_bool_decide; simpl; f_equal; [done|].
  unfold obj_update. apply map_ext. intros [k' v']. simpl. case_decide; [|done].
  by rewrite (applyBare_ext _ f g).
Qed.

Lemma applyBare_id v f : (∀ o, f o = o) → applyBare v f = v.
Proof.
  intros H. destruct v as [| | | | |l|o]; simpl; try done; f_equal; [|done].
  induction l as [|el l IH]; simpl; [done|]. rewrite IH. f_equal.
  destruct el; simpl; [done..|]. by rewrite H.
Qed.

Lemma applyToValue_id v k f : (∀ o, f o = o) → applyToValue v k f = v.
Proof.
  intros H. destruct v as [| | | | | |o]; try (by apply applyBare_id); simpl.
  case_bool_decide; simpl; f_equal; [done|].
  unfold obj_update. induction o as [|[k' v'] o IH]; simpl; [done|]. rewrite IH.
  case_decide; simpl; [|done]. by rewrite applyBare_id.
Qed.

Lemma strip_strip ks ks' o : strip ks' (strip ks o) = strip (ks ++ ks') o.
Proof.
  unfold strip. rewrite list_filter_filter. apply list_filter_iff. intros []. set_solver.
Qed.

Lemma strip_nil o : strip [] o = o.
Proof.
  unfold strip. induction o as [|kv o IH]; [done|]. rewrite filter_cons_True by set_solver. by rewrite IH.
Qed.

Lemma strip_equiv ks ks' o : (∀ k, k ∈ ks ↔ k ∈ ks') → strip ks o = strip ks' o.
Proof. intros H. unfold strip. apply list_filter_iff. intros kv. by rewrite H. Qed.

Lemma obj_delete_strip k o : obj_delete k o = strip [k] o.
Proof. unfold obj_delete, strip. apply list_filter_iff. intros []. set_solver. Qed.

Lemma changes_sorted :
  changesForResourceNewestFirst init_changes ResourcePeer = [change_2026_06_07; change_2026_06_06].
Proof. reflexivity. Qed.

Lemma IsKnown_cases t :
  IsKnown t = true → t = "2025-01-01" ∨ t = "2026-06-06" ∨ t = "2026-06-07".
Proof. unfold IsKnown. simpl. repeat case_bool_decide; naive_solver. Qed.

Lemma Downgrade_hidden target v listKey :
  IsKnown target = true →
  Downgrade init_changes ResourcePeer target v listKey = applyToValue v listKey (strip (hidden target)).
Proof.
  intros Hk. unfold Downgrade. rewrite changes_sorted.
  apply IsKnown_cases in Hk as [->|[->| ->]].
  - rewrite bool_decide_eq_false_2 by done. cbn [fold_left].
    change (str_gt (vc_Version change_2026_06_07) "2025-01-01") with true.
    change (str_gt (vc_Version change_2026_06_06) "2025-01-01") with true. cbv iota.
    rewrite applyToValue_compose. apply applyToValue_ext. intros o. simpl.
    rewrite !obj_delete_strip, !strip_strip. apply strip_equiv.
    intros k. unfold hidden. simpl. set_solver.
  - rewrite bool_decide_eq_false_2 by done. cbn [fold_left].
    change (str_gt (vc_Version change_2026_06_07) "2026-06-06") with true.
    change (str_gt (vc_Version change_2026_06_06) "2026-06-06") with false. cbv iota.
    apply applyToValue_ext. intros o. simpl. by rewrite obj_delete_strip.
  - rewrite bool_decide_eq_true_2 by done. symmetry. apply applyToValue_id. apply strip_nil.
Qed.

(** ** Properties *)

(** *** What a downgraded response looks like, stated without the code *)
Section cuts.
Context (ks : list string).

(** [without o o']: [o'] has the fields of [o], in order, but those named in [ks]. *)
Inductive without : obj → obj → Prop :=
| without_nil : without [] []
| without_drop k v o o' : k ∈ ks → without o o' → without ((k, v) :: o) o'
| without_keep k v o o' : k ∉ ks → without o o' → without ((k, v) :: o) ((k, v) :: o').

Definition is_obj (v : json) : Prop := ∃ o, v = JObj o.
Definition is_arr (v : json) : Prop := ∃ l, v = JArr l.

(** A list element: a peer object loses the fields, anything else stays. *)
Inductive cut_elem : json → json → Prop :=
| cut_elem_obj o o' : without o o' → cut_elem (JObj o) (JObj o')
| cut_elem_other v : ¬ is_obj v → cut_elem v v.
(** A peer object, a list of them, or anything else. *)
Inductive cut_peers : json → json → Prop :=
| cut_one o o' : without o o' → cut_peers (JObj o) (JObj o')
| cut_list l l' : Forall2 cut_elem l l' → cut_peers (JArr l) (JArr l')
| cut_scalar v : ¬ is_obj v → ¬ is_arr v → cut_peers v v.
(** A wrapper's field: the peers under the list key, all others as they are. *)
Inductive cut_field (listKey : string) : string * json → string * json → Prop :=
| cut_field_list v v' : cut_peers v v' → cut_field listKey (listKey, v) (listKey, v')
| cut_field_other k v : k ≠ listKey → cut_field listKey (k, v) (k, v).
Inductive cut_response (listKey : string) : json → json → Prop :=
| cut_wrapper o o' : listKey ≠ "" → Forall2 (cut_field listKey) o o' → cut_response listKey (JObj o) (JObj o')
| cut_bare v v' : listKey = "" ∨ ¬ is_obj v → cut_peers v v' → cut_response listKey v v'.

(** The code's transformations against these relations. *)
Lemma without_strip o o' : without o o' ↔ strip ks o = o'.
Proof.
  split.
  - induction 1 as [|k v o o' Hk _ IH|k v o o' Hk _ IH]; [done| |]; unfold strip in *.
    + by rewrite filter_cons_False by (cbn; tauto).
    + rewrite filter_cons_True by done. by rewrite IH.
  - intros <-. induction o as [|[k v] o IH]; [constructor|]. unfold strip in *. destruct (decide (k ∈ ks)).
    + rewrite filter_cons_False by (cbn; tauto). by constructor.
    + rewrite filter_cons_True by done. by constructor.
Qed.
Lemma cut_elem_strip v v' : cut_elem v v' ↔ applyToElem (strip ks) v = v'.
Proof.
  split.
  - destruct 1 as [o o' H|v H]; cbn; [by apply without_strip in H as ->|]. destruct v; try done. destruct H. by eexists.
  - intros <-. destruct v; try (apply cut_elem_other; intros [? [=]]; fail). by apply cut_elem_obj, without_strip.
Qed.
Lemma Forall2_function {A B} (R : A → B → Prop) (f : A → B) l l' :
  (∀ x y, R x y ↔ f x = y) → Forall2 R l l' ↔ map f l = l'.
Proof.
  intros H. split.
  - induction 1 as [|x y l l' Hx _ IH]; [done|]. cbn. apply H in Hx as ->. by rewrite IH.
  - intros <-. induction l; cbn; constructor; [by apply H|done].
Qed.
Lemma cut_peers_strip v v' : cut_peers v v' ↔ applyBare v (strip ks) = v'.
Proof.
  pose proof (Forall2_function cut_elem (applyToElem (strip ks))) as Hl. split.
  - destruct 1 as [o o' H|l l' H|v Ho Ha]; cbn.
    + by apply without_strip in H as ->.
    + apply Hl in H as <-; [done|apply cut_elem_strip].
    + destruct v; try done; [destruct Ha|destruct Ho]; by eexists.
  - intros <-. destruct v as [| | | | |l|o]; try (apply cut_scalar; intros [? [=]]; fail); cbn.
    + apply cut_list, Hl; [apply cut_elem_strip|done].
    + by apply cut_one, without_strip.
Qed.
Lemma cut_field_strip listKey kv kv' :
  cut_field listKey kv kv'
  ↔ (if decide (kv.1 = listKey) then (kv.1, applyBare kv.2 (strip ks)) else kv) = kv'.
Proof.
  split.
  - destruct 1 as [v v' H|k v Hk]; cbn; [|by rewrite decide_False].
    rewrite decide_True by done. by apply cut_peers_strip in H as ->.
  - intros <-. destruct kv as [k v]. cbn. case_decide as E; [|by apply cut_field_other].
    subst. by apply cut_field_list, cut_peers_strip.
Qed.
Lemma cut_response_strip listKey v v' : cut_response listKey v v' ↔ applyToValue v listKey (strip ks) = v'.
Proof.
  pose proof (Forall2_function (cut_field listKey)
    (λ kv, if decide (kv.1 = listKey) then (kv.1, applyBare kv.2 (strip ks)) else kv)) as Hl. split.
  - destruct 1 as [o o' Hk H|v v' Hk H].
    + cbn. rewrite bool_decide_eq_false_2 by done. cbn. f_equal. unfold obj_update. by apply Hl in H; [|apply cut_field_strip].
    + apply cut_peers_strip in H. destruct v; try done. cbn. destruct Hk as [->|[]]; [done|by eexists].
  - intros <-. destruct v as [| | | | | |o];
      try (apply cut_bare; [right; by intros [? [=]]|by apply cut_peers_strip]).
    cbn. case_bool_decide as E; cbn.
    + apply cut_bare; [by left|]. by apply cut_one, without_strip.
    + apply cut_wrapper; [done|]. apply Hl; [apply cut_field_strip|done].
Qed.
End cuts.

(** C32: Downgrading is exact.  The answer to a client of a known version is
    the latest response in which the peer objects - the response itself, the
    elements of a list, or either under the list key of a wrapper - have lost
    exactly the fields introduced after that version; every other field of a
    peer, every other field of a wrapper and every value that is no peer are as
    they were, in the same order. *)
Theorem Downgrade_exact (target : string) (v v' : json) (listKey : string)
  (Hk : IsKnown target = true) :
  Downgrade init_changes ResourcePeer target v listKey = v' ↔ cut_response (hidden target) listKey v v'.
Proof. by rewrite Downgrade_hidden, cut_response_strip. Qed.

(** A list under its key, and a bare peer, for a client of 2026-06-06. *)
Lemma Downgrade_exact_witness :
  let peer := [("id", JStr "a"); ("wg_preshared_key", JStr "s")] in
  cut_response ["wg_preshared_key"] "peers" (JObj [("peers", JArr [JObj peer]); ("total", JNum 1)])
    (JObj [("peers", JArr [JObj [("id", JStr "a")]]); ("total", JNum 1)])
  ∧ cut_response ["wg_preshared_key"] "" (JObj peer) (JObj [("id", JStr "a")]).
Proof. split; apply (Downgrade_exact "2026-06-06"); reflexivity. Defined.

(** Downgrades compose: going to a version and then to an older one is
    the same as going to the older one directly, so a response may be
    downgraded twice without harm; at the latest version it is the identity. *)
Theorem Downgrade_compose (t1 t2 : string) (v : json) (listKey : string)
  (H1 : IsKnown t1 = true) (H2 : IsKnown t2 = true) (Hle : String.leb t2 t1 = true) :
  Downgrade init_changes ResourcePeer t2 (Downgrade init_changes ResourcePeer t1 v listKey) listKey
    = Downgrade init_changes ResourcePeer t2 v listKey
  ∧ Downgrade init_changes ResourcePeer Latest v listKey = v.
Proof.
  split; [|done].
  rewrite !Downgrade_hidden by done. rewrite applyToValue_compose.
  apply applyToValue_ext. intros o. simpl. rewrite strip_strip. apply strip_equiv.
  intros k. rewrite elem_of_app.
  apply IsKnown_cases in H1 as [->|[->| ->]], H2 as [->|[->| ->]]; try discriminate Hle;
    unfold hidden; simpl; set_solver.
Qed.

Lemma Downgrade_compose_witness :
  Downgrade init_changes ResourcePeer "2025-01-01"
    (Downgrade init_changes ResourcePeer "2026-06-06" (JObj [("wg_preshared_key", JNull)]) "") "" = JObj [].
Proof. rewrite (proj1 (Downgrade_compose "2026-06-06" "2025-01-01" _ "" eq_refl eq_refl eq_refl)). reflexivity. Defined.

(** Version negotiation: a blank header selects the latest version, a
    known version (with surrounding space) selects itself, anything else is
    refused; so whatever reaches a handler is a known version. *)
Theorem Resolve_spec (header : string) :
  (TrimSpace header = "" → Resolve header = Some Latest)
  ∧ (IsKnown (TrimSpace header) = true → Resolve header = Some (TrimSpace header))
  ∧ (∀ v, Resolve header = Some v → IsKnown v = true)
  ∧ (Resolve header = None ↔ TrimSpace header ≠ "" ∧ IsKnown (TrimSpace header) = false).
Proof.
  unfold Resolve. case_bool_decide as E.
  - rewrite E. split_and!; try done; naive_solver.
  - destruct (IsKnown (TrimSpace header)) eqn:Ek; split_and!; naive_solver.
Qed.
