(* ===== verification/Lock.v ===== *)
(** * Locks ([internal/lock/lock.go])

    The distributed locker on Redis (token-guarded keys with a lifetime), the
    process-local one, and lease renewal.  The Redis server is modelled by what
    the code uses of it: SET NX with an expiry, GET, DEL and PEXPIRE on keys
    that vanish at their expiry instant. *)
From S2P Require Import Prelude GoLib.
From stdpp Require Import options.
Local Open Scope Z_scope.
Local Open Scope go_scope.

Definition Second : Z := 1000000000.
Definition Minute : Z := 60 * Second.
Definition Hour : Z := 60 * Minute.
Definition Millisecond : Z := 1000000.

(** ** Redis keys *)
Record Redis : Type := MkRedis {
  r_keys : gmap string (string * Z);   (* value and expiry instant *)
  r_now : Z
}.

Definition r_get (r : Redis) (k : string) : option string :=
  match r_keys r !! k with
  | Some (v, e) => if r_now r <? e then Some v else None
  | None => None
  end.
Definition r_setnx (r : Redis) (k v : string) (ttl : Z) : bool * Redis :=
  match r_get r k with
  | Some _ => (false, r)
  | None => (true, MkRedis (<[k := (v, r_now r + ttl)]> (r_keys r)) (r_now r))
  end.
Definition r_del (r : Redis) (k : string) : Redis := MkRedis (delete k (r_keys r)) (r_now r).
Definition r_pexpire (r : Redis) (k : string) (ms : Z) : Redis :=
  match r_keys r !! k with
  | Some (v, _) => MkRedis (<[k := (v, r_now r + ms * Millisecond)]> (r_keys r)) (r_now r)
  | None => r
  end.
(** Time passes; nothing else changes. *)
Definition r_tick (r : Redis) (d : Z) : Redis := MkRedis (r_keys r) (r_now r + d).

(** ** Leases *)
Inductive Lease : Type :=
| redisLease (key token : string)
| localLease (key : string).

(** The triple [(Lease, bool, error)] an [Acquire] returns. *)
Inductive Acquired : Type :=
| AcqErr (msg : string)
| AcqBusy
| AcqLease (l : Lease).

(** [randomToken]: 16 random bytes in hex ([None] when reading them fails). *)
Definition randomToken (rnd : option (list ascii)) : result string :=
  match rnd with
  | None => Err "read random"
  | Some buf => Ok (EncodeToHex buf)
  end.

(** [RedisLocker.Acquire].  [client] is false for a nil locker or client;
    [down] is the error of the SET NX call, if any. *)
Definition RedisLocker_Acquire (client : bool) (prefix : string) (rnd : option (list ascii))
    (down : option string) (r : Redis) (key : string) (ttl : Z) : Acquired * Redis :=
  if negb client then (AcqErr "redis locker not configured", r)
  else
    match randomToken rnd with
    | Err e => (AcqErr e, r)
    | Ok token =>
        let fullKey := prefix +:+ "lock:" +:+ key in
        match down with
        | Some e => (AcqErr e, r)
        | None =>
            let '(ok, r') := r_setnx r fullKey token ttl in
            if ok : bool then (AcqLease (redisLease fullKey token), r') else (AcqBusy, r')
        end
    end.

(** [redisLease.Refresh]: [None] is a nil error. *)
Definition redisLease_Refresh (r : Redis) (key token : string) (down : option string) (ttl : Z)
  : option string * Redis :=
  match down with
  | Some e => (Some e, r)
  | None =>
      if bool_decide (r_get r key = Some token)
      then (None, r_pexpire r key (Z.quot ttl Millisecond))
      else (Some "lock lease lost", r)
  end.

(** [redisLease.Release]. *)
Definition redisLease_Release (r : Redis) (key token : string) (down : option string)
  : option string * Redis :=
  match down with
  | Some e => (Some e, r)
  | None =>
      if bool_decide (r_get r key = Some token) then (None, r_del r key) else (None, r)
  end.

(** ** The local locker: a set of held keys *)
Definition LocalLocker : Type := gset string.

Definition LocalLocker_Acquire (l : gset string) (key : string) : Acquired * gset string :=
  if bool_decide (key ∈ l) then (AcqBusy, l) else (AcqLease (localLease key), {[key]} ∪ l).
Definition localLease_Refresh (l : gset string) (key : string) : option string * gset string := (None, l).
Definition localLease_Release (l : gset string) (key : string) : gset string := l ∖ {[key]}.

(** ** Renewal *)

(** The interval of [WithRenewal]'s ticker. *)
Definition renewEvery (ttl : Z) : Z :=
  let e := Z.quot ttl 2 in if e <? Second then Second else e.

(** The renewal goroutine: one refresh per tick until one fails (then the
    run's context is cancelled and the error is reported) or [fn] is done.
    [downs] gives, tick by tick, the outcome of reaching Redis; the list ends
    when [fn] returns. *)
Fixpoint renew (r : Redis) (key token : string) (ttl : Z) (downs : list (option string))
  : option string * Redis :=
  match downs with
  | [] => (None, r)
  | down :: downs' =>
      let '(err, r') := redisLease_Refresh (r_tick r (renewEvery ttl)) key token down ttl in
      match err with
      | Some e => (Some e, r')
      | None => renew r' key token ttl downs'
      end
  end.

(** ** What a locker promises *)

(** The contract handlers rely on, independent of the implementation: [held s
    k] says that an unexpired lease on [k] exists in state [s]. *)
Class LockerSpec (S : Type) : Type := {
  held : S → string → Prop;
  try_acquire : S → string → Acquired * S;
  give_back : S → Lease → S;
  (** a second acquire is refused while the key is held *)
  held_busy : ∀ s k, held s k → try_acquire s k = (AcqBusy, s);
  (** a lease is granted only for a free key, and then the key is held *)
  lease_fresh : ∀ s k l s', try_acquire s k = (AcqLease l, s') → ¬ held s k ∧ held s' k;
  (** giving the lease back frees the key *)
  release_frees : ∀ s k l s', try_acquire s k = (AcqLease l, s') → ¬ held (give_back s' l) k;
  (** other keys are unaffected *)
  acquire_frame : ∀ s k k' a s', try_acquire s k = (a, s') → k ≠ k' → held s' k' ↔ held s k'
}.

(** The local locker discharges it. *)
Definition local_give_back (l : gset string) (le : Lease) : gset string :=
  match le with localLease k => localLease_Release l k | redisLease _ _ => l end.

#[local] Obligation Tactic := idtac.
#[export] Program Instance local_LockerSpec : LockerSpec (gset string) := {|
  held l k := k ∈ l;
  try_acquire := LocalLocker_Acquire;
  give_back := local_give_back
|}.
Next Obligation. intros s k H. unfold LocalLocker_Acquire. by rewrite bool_decide_eq_true_2. Qed.
Next Obligation.
  intros s k l s'. unfold LocalLocker_Acquire. case_bool_decide; [done|].
  intros [= <- <-]. split; [done|set_solver].
Qed.
Next Obligation.
  intros s k l s'. unfold LocalLocker_Acquire. case_bool_decide; [done|].
  intros [= <- <-]. simpl. unfold localLease_Release. set_solver.
Qed.
Next Obligation.
  intros s k k' a s'. unfold LocalLocker_Acquire. case_bool_decide; intros [= <- <-]; set_solver.
Qed.

(** ** Lemmas on Redis keys *)
Lemma r_get_Some r k v :
  r_get r k = Some v ↔ ∃ e, r_keys r !! k = Some (v, e) ∧ r_now r < e.
Proof.
  unfold r_get. destruct (r_keys r !! k) as [[v' e]|]; [|naive_solver].
  destruct (Z.ltb_spec (r_now r) e).
  - naive_solver.
  - split; [done|]. intros (e' & [= -> ->] & ?). lia.
Qed.

Lemma r_get_None r k v e : r_get r k = None → r_keys r !! k = Some (v, e) → e ≤ r_now r.
Proof. unfold r_get. intros H E. rewrite E in H. by destruct (Z.ltb_spec (r_now r) e). Qed.

Lemma full_key_inj (prefix k k' : string) :
  prefix +:+ "lock:" +:+ k = prefix +:+ "lock:" +:+ k' → k = k'.
Proof. intros H. by do 2 apply (inj (String.append _)) in H. Qed.

(** The Redis locker, with a reachable server, a positive lifetime and a
    supply of random tokens, discharges the contract too. *)
Section redis_spec.
Context (prefix : string) (ttl : Z) (Httl : 0 < ttl).

Record RedisSt : Type := MkRedisSt { rs_redis : Redis; rs_rnd : list (list ascii) }.

Definition rs_acquire (s : RedisSt) (key : string) : Acquired * RedisSt :=
  let '(a, r) := RedisLocker_Acquire true prefix (Some (default [] (head (rs_rnd s)))) None
                   (rs_redis s) key ttl in
  match a with
  | AcqLease _ => (a, MkRedisSt r (tail (rs_rnd s)))
  | _ => (a, s)
  end.
Definition rs_release (s : RedisSt) (l : Lease) : RedisSt :=
  match l with
  | redisLease key token => MkRedisSt (redisLease_Release (rs_redis s) key token None).2 (rs_rnd s)
  | localLease _ => s
  end.

Lemma rs_acquire_lease s k l s' :
  rs_acquire s k = (AcqLease l, s') →
  ∃ token, r_get (rs_redis s) (prefix +:+ "lock:" +:+ k) = None
    ∧ l = redisLease (prefix +:+ "lock:" +:+ k) token
    ∧ rs_redis s' = MkRedis (<[prefix +:+ "lock:" +:+ k := (token, r_now (rs_redis s) + ttl)]>
                        (r_keys (rs_redis s))) (r_now (rs_redis s)).
Proof.
  unfold rs_acquire, RedisLocker_Acquire, r_setnx. cbn [negb randomToken].
  destruct (r_get (rs_redis s) _) eqn:E; intros; simplify_eq/=. eauto.
Qed.

Program Definition redis_LockerSpec : LockerSpec RedisSt := {|
  held s k := is_Some (r_get (rs_redis s) (prefix +:+ "lock:" +:+ k));
  try_acquire := rs_acquire;
  give_back := rs_release
|}.
Next Obligation.
  intros s k [v Hv]. unfold rs_acquire, RedisLocker_Acquire, r_setnx. cbn [negb randomToken].
  by rewrite Hv.
Qed.
Next Obligation.
  intros s k l s' (token & Hn & -> & Hs)%rs_acquire_lease. rewrite Hn, Hs. split; [by intros []|].
  unfold r_get. simpl. rewrite lookup_insert_eq. case_match; [done|]. boolify. lia.
Qed.
Next Obligation.
  intros s k l s' (token & Hn & -> & Hs)%rs_acquire_lease. simpl. rewrite Hs.
  unfold redisLease_Release. rewrite bool_decide_eq_true_2.
  - simpl. unfold r_get, r_del. simpl. rewrite lookup_delete_eq. by intros [].
  - apply r_get_Some. eexists. simpl. rewrite lookup_insert_eq. split; [done|lia].
Qed.
Next Obligation.
  intros s k k' a s'. unfold rs_acquire, RedisLocker_Acquire, r_setnx. cbn [negb randomToken].
  intros E Hne. destruct (r_get (rs_redis s) (prefix +:+ "lock:" +:+ k)); simplify_eq/=; [done|].
  unfold r_get. simpl. rewrite lookup_insert_ne; [done|]. by intros ?%full_key_inj.
Qed.
End redis_spec.

(** Exclusion at the interface: against any locker that meets the contract,
    after one caller got a lease on a key a second attempt is told the key is
    busy and leaves the state alone, other keys are unaffected, and giving the
    lease back frees the key. *)
Lemma locker_exclusion {S : Type} `{!LockerSpec S} (s s' : S) (k : string) (l : Lease)
  (H : try_acquire s k = (AcqLease l, s')) :
  try_acquire s' k = (AcqBusy, s')
  ∧ ¬ held (give_back s' l) k
  ∧ (∀ k', k ≠ k' → held s' k' ↔ held s k').
Proof.
  split_and!.
  - apply held_busy. by eapply lease_fresh.
  - by eapply release_frees.
  - intros k'. by eapply acquire_frame.
Qed.

(** ** Many clients on one Redis server

    Centers and requests interleave acquires, refreshes and releases while
    time passes.  Each client remembers the lease it got and until when it may
    rely on it; tokens drawn from the random source do not repeat. *)
Record Clients : Type := MkClients {
  cl_redis : Redis;
  cl_leases : gmap nat (string * string * Z);   (* key, token, valid until *)
  cl_used : gset string
}.

Inductive lock_step (prefix : string) : Clients → Clients → Prop :=
| ls_acquire s c rnd key ttl a r' :
    cl_leases s !! c = None →
    EncodeToHex rnd ∉ cl_used s →
    RedisLocker_Acquire true prefix (Some rnd) None (cl_redis s) key ttl = (a, r') →
    lock_step prefix s
      (MkClients r'
         (match a with
          | AcqLease (redisLease k t) => <[c := (k, t, r_now (cl_redis s) + ttl)]> (cl_leases s)
          | _ => cl_leases s
          end)
         ({[EncodeToHex rnd]} ∪ cl_used s))
| ls_refresh s c k t e ttl err r' :
    cl_leases s !! c = Some (k, t, e) →
    redisLease_Refresh (cl_redis s) k t None ttl = (err, r') →
    lock_step prefix s
      (MkClients r'
         (match err with
          | None => <[c := (k, t, r_now (cl_redis s) + Z.quot ttl Millisecond * Millisecond)]> (cl_leases s)
          | Some _ => cl_leases s
          end)
         (cl_used s))
| ls_release s c k t e err r' :
    cl_leases s !! c = Some (k, t, e) →
    redisLease_Release (cl_redis s) k t None = (err, r') →
    lock_step prefix s (MkClients r' (delete c (cl_leases s)) (cl_used s))
| ls_tick s d :
    0 ≤ d → lock_step prefix s (MkClients (r_tick (cl_redis s) d) (cl_leases s) (cl_used s)).

Definition clients_init (now : Z) : Clients := MkClients (MkRedis ∅ now) ∅ ∅.

Record lock_inv (s : Clients) : Prop := {
  li_used : ∀ c k t e, cl_leases s !! c = Some (k, t, e) → t ∈ cl_used s;
  li_tokens : ∀ c c' k k' t e e',
    cl_leases s !! c = Some (k, t, e) → cl_leases s !! c' = Some (k', t, e') → c = c';
  li_live : ∀ c k t e,
    cl_leases s !! c = Some (k, t, e) → r_now (cl_redis s) < e → r_keys (cl_redis s) !! k = Some (t, e)
}.

Lemma lock_inv_init now : lock_inv (clients_init now).
Proof. split; intros *; simpl; by rewrite lookup_empty. Qed.

Lemma lock_inv_acquire prefix s c rnd key ttl a r' :
  cl_leases s !! c = None → EncodeToHex rnd ∉ cl_used s →
  RedisLocker_Acquire true prefix (Some rnd) None (cl_redis s) key ttl = (a, r') →
  lock_inv s →
  lock_inv (MkClients r'
    (match a with
     | AcqLease (redisLease k t) => <[c := (k, t, r_now (cl_redis s) + ttl)]> (cl_leases s)
     | _ => cl_leases s
     end) ({[EncodeToHex rnd]} ∪ cl_used s)).
Proof.
  intros Hc Hf Ha [Hu Ht Hl]. unfold RedisLocker_Acquire, r_setnx in Ha. cbn [negb randomToken] in Ha.
  destruct (r_get (cl_redis s) (prefix +:+ "lock:" +:+ key)) eqn:Eg; simplify_eq.
  - split; simpl; [|done..]. intros. apply elem_of_union_r. eauto.
  - split; simpl.
    + intros c' k t e. rewrite lookup_insert. case_decide; [set_solver|].
      intros Hlk. apply elem_of_union_r. eauto.
    + intros c1 c2 k k' t e e'. rewrite !lookup_insert.
      repeat case_decide; simplify_eq; try done; intros; simplify_eq; try (by eauto).
      all: exfalso; eauto.
    + intros c' k t e. rewrite lookup_insert. case_decide as Hcc.
      * intros [= <- <- <-] _. by rewrite lookup_insert_eq.
      * intros Hlk Hlt. specialize (Hl _ _ _ _ Hlk Hlt).
        rewrite lookup_insert_ne; [done|]. intros <-.
        pose proof (r_get_None _ _ _ _ Eg Hl). lia.
Qed.

Lemma lock_inv_step prefix s s' : lock_step prefix s s' → lock_inv s → lock_inv s'.
Proof.
  destruct 1 as [s c rnd key ttl a r' Hc Hf Ha|s c k t e ttl err r' Hc Hr|s c k t e err r' Hc Hr|s d Hd];
    intros Hinv.
  - by eapply lock_inv_acquire.
  - destruct Hinv as [Hu Ht Hl]. unfold redisLease_Refresh in Hr.
    case_bool_decide as Eg; simplify_eq; [|by split].
    apply r_get_Some in Eg as (e0 & Ek & He0). unfold r_pexpire. rewrite Ek. split; simpl.
    + intros c' k' t' e'. rewrite lookup_insert. case_decide; intros; simplify_eq; eauto.
    + intros c1 c2 k1 k2 t' e1 e2. rewrite !lookup_insert.
      repeat case_decide; simplify_eq; try done; intros; simplify_eq; eauto.
    + intros c' k' t' e'. rewrite lookup_insert. case_decide as Hcc.
      * intros [= <- <- <-] _. by rewrite lookup_insert_eq.
      * intros Hlk Hlt. specialize (Hl _ _ _ _ Hlk Hlt).
        rewrite lookup_insert_ne; [done|]. intros <-. simplify_eq. by destruct Hcc; eauto.
  - destruct Hinv as [Hu Ht Hl]. split; simpl.
    + intros c' k' t' e' [_ ?]%lookup_delete_Some. eauto.
    + intros c1 c2 k1 k2 t' e1 e2 [_ ?]%lookup_delete_Some [_ ?]%lookup_delete_Some. eauto.
    + intros c' k' t' e' [Hne Hlk]%lookup_delete_Some.
      unfold redisLease_Release in Hr. case_bool_decide as Eg; simplify_eq/=; [|eauto].
      intros Hlt. specialize (Hl _ _ _ _ Hlk Hlt).
      apply r_get_Some in Eg as (e0 & Ek & He0).
      rewrite lookup_delete_ne; [done|]. intros <-. simplify_eq. by destruct Hne; eauto.
  - destruct Hinv as [Hu Ht Hl]. split; simpl; [done..|]. intros. eapply Hl; [done|]. lia.
Qed.

(** C22: Mutual exclusion of the distributed lock: however acquires,
    refreshes and releases of any number of clients interleave with the passing
    of time (expired leases and late releases included), two clients never hold
    unexpired leases on the same key. *)
Theorem redis_mutex (prefix : string) (now : Z) (s : Clients)
    (c1 c2 : nat) (k t1 t2 : string) (e1 e2 : Z)
  (Hreach : rtc (lock_step prefix) (clients_init now) s)
  (H1 : cl_leases s !! c1 = Some (k, t1, e1)) (L1 : r_now (cl_redis s) < e1)
  (H2 : cl_leases s !! c2 = Some (k, t2, e2)) (L2 : r_now (cl_redis s) < e2) :
  c1 = c2.
Proof.
  assert (lock_inv s) as [Hu Ht Hl].
  { clear -Hreach. remember (clients_init now) as s0 eqn:E.
    assert (lock_inv s0) as H0 by (subst; apply lock_inv_init). clear E.
    induction Hreach; eauto using lock_inv_step. }
  pose proof (Hl _ _ _ _ H1 L1). pose proof (Hl _ _ _ _ H2 L2). simplify_eq. eauto.
Qed.

(** The state after client 1 took the lock on "a" at instant 0 for 30 s. *)
Definition one_client : Clients :=
  MkClients (MkRedis {["lock:a" := (EncodeToHex [chr 1], 30 * Second)]} 0)
    {[1%nat := ("lock:a", EncodeToHex [chr 1], 30 * Second)]} {[EncodeToHex [chr 1]]}.

Lemma redis_mutex_witness : 1%nat = 1%nat.
Proof.
  apply (redis_mutex "" 0 one_client 1 1 "lock:a" (EncodeToHex [chr 1]) (EncodeToHex [chr 1])
    (30 * Second) (30 * Second)); [|reflexivity..].
  eapply rtc_l; [|apply rtc_refl].
  apply (ls_acquire "" (clients_init 0) 1 [chr 1] "a" (30 * Second)
    (AcqLease (redisLease "lock:a" (EncodeToHex [chr 1]))) (MkRedis {["lock:a" := (EncodeToHex [chr 1], 30 * Second)]} 0));
    [reflexivity|set_solver|reflexivity].
Defined.

(** C23: Renewal keeps the lease: with a lifetime of at least two seconds and a
    reachable server, every refresh of [WithRenewal] succeeds and the key
    carries the holder's token at every instant until the protected function
    returns, however long it runs. *)
Theorem renew_keeps_lease (r : Redis) (key token : string) (ttl : Z) (ticks : nat)
  (Httl : 2 * Second ≤ ttl)
  (Hheld : r_keys r !! key = Some (token, r_now r + ttl)) :
  ∃ r', renew r key token ttl (replicate ticks None) = (None, r')
    ∧ r_now r' = r_now r + Z.of_nat ticks * renewEvery ttl
    ∧ ∀ d, 0 ≤ d ≤ renewEvery ttl → r_get (r_tick r' d) key = Some token.
Proof.
  assert (renewEvery ttl = Z.quot ttl 2) as Hev.
  { unfold renewEvery, Second in *. case_match; boolify; [|done].
    pose proof (Z.quot_le_mono 2000000000 ttl 2 ltac:(lia) ltac:(lia)).
    change (Z.quot 2000000000 2) with 1000000000 in *. lia. }
  set (m := Z.quot ttl Millisecond * Millisecond).
  assert (ttl - Millisecond < m ≤ ttl) as Hm.
  { unfold m, Millisecond, Second in *. pose proof (Z.quot_rem ttl 1000000 ltac:(lia)).
    pose proof (Z.rem_bound_pos ttl 1000000 ltac:(lia) ltac:(lia)). lia. }
  assert (0 < renewEvery ttl < ttl - Millisecond) as Hlt.
  { rewrite Hev. unfold Millisecond, Second in *.
    pose proof (Z.quot_rem ttl 2 ltac:(lia)).
    pose proof (Z.rem_bound_pos ttl 2 ltac:(lia) ltac:(lia)). lia. }
  assert (∃ e, r_keys r !! key = Some (token, e) ∧ r_now r + ttl - Millisecond < e) as Hinv.
  { eexists. split; [done|]. unfold Millisecond. lia. }
  clear Hheld. revert r Hinv. induction ticks as [|n IH]; intros r (e & He & Hgt).
  - exists r. split_and!; [done|lia|]. intros d Hd. apply r_get_Some. exists e. simpl. split; [done|lia].
  - cbn [replicate renew]. unfold redisLease_Refresh.
    rewrite bool_decide_eq_true_2.
    2:{ apply r_get_Some. exists e. simpl. split; [done|lia]. }
    unfold r_pexpire. cbn [r_tick r_keys r_now]. rewrite He.
    edestruct (IH (MkRedis (<[key := (token, r_now r + renewEvery ttl + m)]> (r_keys r))
      (r_now r + renewEvery ttl))) as (r' & E & Hn & Hd).
    { eexists. simpl. rewrite lookup_insert_eq. split; [done|]. lia. }
    exists r'. split_and!; [exact E| |exact Hd]. rewrite Hn. simpl. lia.
Qed.

Lemma renew_keeps_lease_witness :
  ∃ r', renew (MkRedis {["lock:reconcile:run" := ("tok", 5 * Minute)]} 0) "lock:reconcile:run" "tok"
          (5 * Minute) (replicate 3 None) = (None, r')
    ∧ r_now r' = 0 + Z.of_nat 3 * renewEvery (5 * Minute)
    ∧ ∀ d, 0 ≤ d ≤ renewEvery (5 * Minute) → r_get (r_tick r' d) "lock:reconcile:run" = Some "tok".
Proof. apply renew_keeps_lease; [vm_compute; discriminate|reflexivity]. Defined.
