(* ===== verification/Effects.v ===== *)
(** * Effectful programs

    Handlers and workers are programs over a shared world [W]: a tree of atomic
    actions (one SQL statement, one agent command, one lock or cache call).
    [exec] runs a program alone; [pool_step] interleaves any number of programs
    action by action, which is how the requests and workers of the center run;
    [safe] is rely/guarantee reasoning about a program among others. *)
From S2P Require Import Prelude.
From stdpp Require Import options.

Inductive prog (W A : Type) : Type :=
| Ret (a : A)
| Do (R : Type) (f : W → R * W) (k : R → prog W A).
Arguments Ret {W A} a.
Arguments Do {W A R} f k.

#[export] Instance prog_mret W : MRet (prog W) := λ A a, Ret a.
#[export] Instance prog_mbind W : MBind (prog W) :=
  λ A B g, fix bind (p : prog W A) : prog W B :=
    match p with
    | Ret a => g a
    | Do f k => Do f (λ r, bind (k r))
    end.

(** One atomic action. *)
Definition act {W R} (f : W → R * W) : prog W R := Do f Ret.
Definition modify {W} (f : W → W) : prog W unit := act (λ w, (tt, f w)).
Definition gets {W R} (f : W → R) : prog W R := act (λ w, (f w, w)).

(** [for _, x := range l]. *)
Fixpoint forM {W A} (l : list A) (body : A → prog W unit) : prog W unit :=
  match l with
  | [] => mret tt
  | x :: l' => body x ;; forM l' body
  end.

(** A loop that threads an accumulator. *)
Fixpoint foldM {W A B} (body : B → A → prog W B) (acc : B) (l : list A) : prog W B :=
  match l with
  | [] => mret acc
  | x :: l' => acc' ← body acc x ; foldM body acc' l'
  end.

(** ** Running alone *)
Fixpoint exec {W A} (p : prog W A) (w : W) : A * W :=
  match p with
  | Ret a => (a, w)
  | Do f k => let '(r, w') := f w in exec (k r) w'
  end.

Lemma exec_bind {W A B} (p : prog W A) (g : A → prog W B) w :
  exec (p ≫= g) w = let '(a, w') := exec p w in exec (g a) w'.
Proof.
  revert w. induction p as [a|R f k IH]; intros w; [done|].
  simpl. destruct (f w) as [r w']. apply IH.
Qed.

Lemma exec_act {W R} (f : W → R * W) w : exec (act f) w = f w.
Proof. simpl. by destruct (f w). Qed.

(** ** Running among others *)
Section pool.
Context {W A : Type}.

(** Thread [i] performs its next action. *)
Inductive pool_step : W * list (prog W A) → nat → W * list (prog W A) → Prop :=
| pool_step_do w ts i R (f : W → R * W) k :
    ts !! i = Some (Do f k) →
    pool_step (w, ts) i ((f w).2, <[i := k (f w).1]> ts).

Inductive pool_steps : W * list (prog W A) → W * list (prog W A) → Prop :=
| pool_refl c : pool_steps c c
| pool_trans c1 i c2 c3 : pool_step c1 i c2 → pool_steps c2 c3 → pool_steps c1 c3.

(** One interleaving, as the list of the threads that move. *)
Definition turn (c : W * list (prog W A)) (i : nat) : W * list (prog W A) :=
  match c.2 !! i with
  | Some (Do f k) => let '(r, w') := f c.1 in (w', <[i := k r]> c.2)
  | _ => c
  end.
Definition can_move (c : W * list (prog W A)) (i : nat) : bool :=
  match c.2 !! i with Some (Do _ _) => true | _ => false end.
Lemma turn_step c i : can_move c i = true → pool_step c i (turn c i).
Proof.
  destruct c as [w ts]. unfold can_move, turn. simpl. destruct (ts !! i) as [[a|R f k]|] eqn:Hi; [done| |done].
  intros _. pose proof (pool_step_do w ts i R f k Hi) as H. by destruct (f w).
Qed.
Definition schedule (is_ : list nat) (c : W * list (prog W A)) : W * list (prog W A) := foldl turn c is_.

Lemma schedule_steps is_ c : pool_steps c (schedule is_ c).
Proof.
  revert c. induction is_ as [|i is_ IH]; intros c; [constructor|]. simpl.
  destruct (can_move c i) eqn:Hm; [eapply pool_trans; [by apply turn_step|apply IH]|].
  replace (turn c i) with c; [apply IH|]. revert Hm. unfold can_move, turn. by repeat case_match.
Qed.
End pool.

(** Every action of the program, whatever state it runs in, is related by [G]. *)
Fixpoint all_acts {W A} (G : W → W → Prop) (p : prog W A) : Prop :=
  match p with
  | Ret _ => True
  | Do f k => (∀ w, G w (f w).2) ∧ ∀ r, all_acts G (k r)
  end.

Lemma rtc_within {W} (G : W → W → Prop) `{!PreOrder G} w w' : rtc G w w' → G w w'.
Proof. induction 1; [reflexivity|by etransitivity]. Qed.

Section acts.
Context {W : Type} (G : W → W → Prop).

Lemma all_acts_bind {A B} (p : prog W A) (g : A → prog W B) :
  all_acts G p → (∀ a, all_acts G (g a)) → all_acts G (p ≫= g).
Proof. intros Hp Hg. induction p as [a|R f k IH]; [apply Hg|]. destruct Hp as [Hf Hk]. split; [done|]. intros r. by apply IH. Qed.
Lemma all_acts_act {R} (f : W → R * W) : (∀ w, G w (f w).2) → all_acts G (act f).
Proof. intros H. by split. Qed.
Lemma all_acts_forM {A} (l : list A) body : (∀ x, all_acts G (body x)) → all_acts G (forM l body).
Proof. intros H. induction l as [|x l IH]; [done|]. cbn [forM]. by apply all_acts_bind. Qed.
Lemma all_acts_foldM {A B} (body : B → A → prog W B) l : ∀ acc,
  (∀ acc x, all_acts G (body acc x)) → all_acts G (foldM body acc l).
Proof. induction l as [|x l IH]; intros acc H; [done|]. cbn [foldM]. apply all_acts_bind; [done|]. intros acc'. by apply IH. Qed.
Lemma all_acts_weaken {A} (G' : W → W → Prop) (p : prog W A) : (∀ w w', G w w' → G' w w') → all_acts G p → all_acts G' p.
Proof. intros HG. induction p as [a|R f k IH]; [done|]. intros [Hf Hk]. split; [auto|]. intros r. by apply IH. Qed.
Lemma all_acts_exec {A} (p : prog W A) w : all_acts G p → rtc G w (exec p w).2.
Proof.
  revert w. induction p as [a|R f k IH]; intros w Hp; [apply rtc_refl|]. destruct Hp as [Hf Hk]. cbn.
  eapply rtc_l; [apply Hf|]. destruct (f w) as [r w']. by apply IH.
Qed.
(** Threads made of such programs reach only what [G] reaches. *)
Lemma all_acts_pool {A} (c c' : W * list (prog W A)) :
  pool_steps c c' → Forall (all_acts G) c.2 → rtc G c.1 c'.1 ∧ Forall (all_acts G) c'.2.
Proof.
  induction 1 as [c|c1 i c2 c3 Hs _ IH]; intros Hf; [by split; [apply rtc_refl|]|].
  destruct Hs as [w ts i R f k Hi]. cbn in *. pose proof (proj1 (Forall_lookup _ _) Hf i _ Hi) as [Hfs Hks].
  destruct IH as [IH1 IH2]; [by apply Forall_insert|]. split; [|done]. eapply rtc_l; [apply Hfs|done].
Qed.
End acts.

(** A program over a part of a larger state. *)
Fixpoint along {S W A} (get : S → W) (put : W → S → S) (p : prog W A) : prog S A :=
  match p with
  | Ret a => Ret a
  | Do f k => Do (λ s, let '(r, w) := f (get s) in (r, put w s)) (λ r, along get put (k r))
  end.
Lemma all_acts_along {S W A} (get : S → W) (put : W → S → S) (G : W → W → Prop) (G' : S → S → Prop) (p : prog W A) :
  (∀ s w', G (get s) w' → G' s (put w' s)) → all_acts G p → all_acts G' (along get put p).
Proof.
  intros H. induction p as [a|R f k IH]; [done|]. intros [Hf Hk]. split; [|intros r; by apply IH].
  intros s. specialize (Hf (get s)). destruct (f (get s)) as [r w']. by apply H.
Qed.

(** [safe R G Q p w]: started at [w], with any interference from [R] before
    every action, [p] performs only actions related by [G], and returns values
    satisfying [Q]. *)
Fixpoint safe {W A} (R G : W → W → Prop) (Q : A → W → Prop) (p : prog W A) (w : W) : Prop :=
  match p with
  | Ret a => Q a w
  | Do f k => ∀ w1, R w w1 → G w1 (f w1).2 ∧ safe R G Q (k (f w1).1) (f w1).2
  end.

Section rely.
Set Default Proof Using "Type*".
Context {W : Type} (R : W → W → Prop) `{!PreOrder R}.

Lemma safe_bind {A B} G (Q : A → W → Prop) (Q' : B → W → Prop) p (g : A → prog W B) w :
  safe R G Q p w → (∀ a w', Q a w' → safe R G Q' (g a) w') → safe R G Q' (p ≫= g) w.
Proof.
  intros Hp Hg. revert w Hp. induction p as [a|X f k IH]; intros w Hp; [by apply Hg|].
  intros w1 H1. destruct (Hp w1 H1) as [HG Hs]. split; [done|]. by apply IH.
Qed.

Lemma safe_weaken {A} (G G' : W → W → Prop) (Q Q' : A → W → Prop) p w :
  (∀ w w', G w w' → G' w w') → (∀ a w, Q a w → Q' a w) → safe R G Q p w → safe R G' Q' p w.
Proof.
  intros HG HQ. revert w. induction p as [a|X f k IH]; intros w Hp; [by apply HQ|].
  intros w1 H1. destruct (Hp w1 H1). split; [by apply HG|]. by apply IH.
Qed.

(** Safety survives interference when the postcondition does. *)
Lemma safe_stable {A} G (Q : A → W → Prop) p w w' :
  (∀ a w w', R w w' → Q a w → Q a w') → safe R G Q p w → R w w' → safe R G Q p w'.
Proof.
  intros HQ. destruct p as [a|X f k]; simpl; [by eauto|].
  intros Hs Hr w1 H1. apply Hs. by transitivity w'.
Qed.

(** In every interleaving, every thread keeps its guarantee: interference
    stays within [R] because the guarantees are within [R]. *)
Lemma pool_safe {A} (G : nat → W → W → Prop) (Q : nat → A → W → Prop)
    (w : W) (ts : list (prog W A)) (c : W * list (prog W A)) :
  (∀ i w w', G i w w' → R w w') →
  (∀ i a w w', R w w' → Q i a w → Q i a w') →
  (∀ i p, ts !! i = Some p → safe R (G i) (Q i) p w) →
  pool_steps (w, ts) c →
  R w c.1
  ∧ (∀ i p, c.2 !! i = Some p → safe R (G i) (Q i) p c.1)
  ∧ (∀ i c', pool_step c i c' → G i c.1 c'.1).
Proof.
  intros HG HQ Hsafe Hsteps. remember (w, ts) as c0 eqn:E.
  revert w ts E Hsafe. induction Hsteps as [c0|c1 j c2 c3 Hstep _ IH]; intros w ts -> Hsafe.
  - split_and!; [done|done|]. intros i c' Hs. inversion Hs as [? ? ? X f k Hi]; subst. simpl.
    by apply (Hsafe i _ Hi w).
  - inversion Hstep as [? ? ? X f k Hi]; subst.
    destruct (Hsafe j _ Hi w) as [HGj Hj]; [done|].
    destruct (IH _ _ eq_refl) as (HR & Hs & Hst).
    + intros i p Hip. rewrite list_lookup_insert in Hip.
      case_decide as Hij; [destruct Hij as [-> _]; by simplify_eq|].
      eapply safe_stable; [by apply HQ|by apply Hsafe|by eapply HG].
    + split_and!; [|done..]. transitivity (f w).2; [by eapply HG|done].
Qed.

Lemma exec_safe {A} G (Q : A → W → Prop) p w :
  (∀ w w', G w w' → R w w') → safe R G Q p w →
  R w (exec p w).2 ∧ Q (exec p w).1 (exec p w).2.
Proof.
  intros HG. revert w. induction p as [a|X f k IH]; intros w Hp; [done|].
  simpl. destruct (Hp w) as [Hg Hs]; [done|]. destruct (f w) as [r w'] eqn:E. simpl in *.
  destruct (IH r w' Hs) as [HR HQ]. split; [|done]. transitivity w'; [by apply HG|done].
Qed.
End rely.

(** [under I G Q p]: as long as every state [p] meets satisfies [I], its actions
    are related by [G] and its results satisfy [Q]. *)
Fixpoint under {W A} (I : W → Prop) (G : W → W → Prop) (Q : A → Prop) (p : prog W A) : Prop :=
  match p with
  | Ret a => Q a
  | Do f k => ∀ w, I w → G w (f w).2 ∧ under I G Q (k (f w).1)
  end.

Section under.
Context {W : Type} (I : W → Prop) (G : W → W → Prop).

Lemma under_bind {A B} (Q : A → Prop) (Q' : B → Prop) (p : prog W A) (g : A → prog W B) :
  under I G Q p → (∀ a, Q a → under I G Q' (g a)) → under I G Q' (p ≫= g).
Proof.
  intros Hp Hg. induction p as [a|R f k IH]; [by apply Hg|]. intros w Hw. destruct (Hp w Hw) as [HG Hk].
  split; [done|]. by apply IH.
Qed.
Lemma under_act {R} (Q : R → Prop) (f : W → R * W) : (∀ w, I w → G w (f w).2 ∧ Q (f w).1) → under I G Q (act f).
Proof. done. Qed.
Lemma under_weaken {A} (I' : W → Prop) (G' : W → W → Prop) (Q Q' : A → Prop) (p : prog W A) :
  (∀ w, I' w → I w) → (∀ w w', I' w → G w w' → G' w w') → (∀ a, Q a → Q' a) → under I G Q p → under I' G' Q' p.
Proof.
  intros HI HG HQ. induction p as [a|R f k IH]; [apply HQ|]. intros Hp w Hw. destruct (Hp w (HI w Hw)) as [H1 H2].
  split; [by apply HG|by apply IH].
Qed.
Lemma under_forM {A} (l : list A) body :
  (∀ x, under I G (λ _, True) (body x)) → under I G (λ _, True) (forM l body).
Proof. intros H. induction l as [|x l IH]; [done|]. cbn [forM]. by apply under_bind with (λ _, True). Qed.
Lemma under_acts {A} (p : prog W A) (G' : W → W → Prop) :
  (∀ w w', I w → G' w w' → G w w') → all_acts G' p → under I G (λ _, True) p.
Proof.
  intros H. induction p as [a|R f k IH]; [done|]. intros [Hf Hk] w Hw. split; [by apply H|]. by apply IH.
Qed.

(** Threads of such programs keep [I], and each finishes with a result that
    satisfies its own condition. *)
Lemma under_pool {A} (Q : nat → A → Prop) (c c' : W * list (prog W A)) :
  (∀ w w', I w → G w w' → I w') → pool_steps c c' → I c.1 → (∀ i p, c.2 !! i = Some p → under I G (Q i) p) →
  rtc G c.1 c'.1 ∧ I c'.1 ∧ (∀ i p, c'.2 !! i = Some p → under I G (Q i) p).
Proof.
  intros HI. induction 1 as [c|c1 i c2 c3 Hs _ IH]; intros Hc Hts; [by split_and!; [apply rtc_refl|..]|].
  destruct Hs as [w ts i R f k Hi]. cbn in *. destruct (Hts i _ Hi w Hc) as [HG Hk].
  destruct IH as (H1 & H2 & H3); [by eapply HI| |by split_and!; [by eapply rtc_l|..]].
  intros j p. rewrite list_lookup_insert. case_decide as Hj; [destruct Hj as [-> _]; by intros [= <-]|apply Hts].
Qed.
End under.

(** ** Spending *)

(** [pays I G Phi reward p credit w]: started at [w], with any interference
    within [G] that keeps [I], [p] stays within [G] and [I], and what it can
    return is worth at most its credit and what its own actions raise [Phi] by. *)
Fixpoint pays {W A} (I : W → Prop) (G : W → W → Prop) (Phi : W → Z) (reward : A → Z) (p : prog W A) (credit : Z) (w : W)
  : Prop :=
  (0 ≤ credit)%Z ∧
  match p with
  | Ret a => (reward a ≤ credit)%Z
  | Do f k => ∀ w1, G w w1 → I w1 →
      G w1 (f w1).2 ∧ I (f w1).2 ∧ pays I G Phi reward (k (f w1).1) (credit + Phi (f w1).2 - Phi w1)%Z (f w1).2
  end.
(** What a thread has earned. *)
Definition earned {W A} (reward : A → Z) (p : prog W A) : Z := match p with Ret a => reward a | Do _ _ => 0%Z end.
Definition sum_Z (l : list Z) : Z := foldr Z.add 0%Z l.
Lemma sum_Z_insert l i x d : l !! i = Some x → sum_Z (<[i := (x + d)%Z]> l) = (sum_Z l + d)%Z.
Proof.
  revert i. induction l as [|y l IH]; intros [|i] Hi; [done..| |]; cbn in Hi |- *; unfold sum_Z in *; cbn.
  - simplify_eq. lia.
  - rewrite IH by done. lia.
Qed.

Section pays.
Set Default Proof Using "Type*".
Context {W : Type} (I : W → Prop) (G : W → W → Prop) (Phi : W → Z).
Context (Grefl : ∀ w, I w → G w w) (Gtrans : Transitive G) (GI : ∀ w w', I w → G w w' → I w').

Lemma pays_mono {A} (reward : A → Z) p c c' w : (c ≤ c')%Z → pays I G Phi reward p c w → pays I G Phi reward p c' w.
Proof using.
  revert c c' w. induction p as [a|R f k IH]; intros c c' w Hc [H0 H]; (split; [lia|]); [lia|].
  intros w1 Hw HI. destruct (H w1 Hw HI) as (H1 & H2 & Hk). split_and!; [done..|]. eapply IH; [|done]. lia.
Qed.
Lemma pays_stable {A} (reward : A → Z) p c w w' : G w w' → pays I G Phi reward p c w → pays I G Phi reward p c w'.
Proof using Gtrans.
  destruct p as [a|R f k]; [done|]. intros Hw [H0 H]. split; [done|]. intros w1 H1. apply H. by transitivity w'.
Qed.
(** One action, whose effect on [Phi] is looked at. *)
Lemma pays_act {R B} (reward : B → Z) (f : W → R * W) (g : R → prog W B) c w :
  (0 ≤ c)%Z →
  (∀ w1, G w w1 → I w1 → G w1 (f w1).2 ∧ pays I G Phi reward (g (f w1).1) (c + Phi (f w1).2 - Phi w1) (f w1).2) →
  pays I G Phi reward (act f ≫= g) c w.
Proof using GI.
  intros Hc H. split; [done|]. intros w1 H1 HI. destruct (H w1 H1 HI) as [H2 H3]. split_and!; [done|by eapply GI|done].
Qed.
(** A part that never lowers [Phi]. *)
Lemma pays_bind {A B} (G' : W → W → Prop) (Q : A → Prop) (reward : B → Z) (p : prog W A) (g : A → prog W B) c w :
  (∀ w w', I w → G' w w' → G w w' ∧ (Phi w ≤ Phi w')%Z) → (0 ≤ c)%Z → I w →
  under I G' Q p → (∀ a w', Q a → G w w' → I w' → pays I G Phi reward (g a) c w') → pays I G Phi reward (p ≫= g) c w.
Proof.
  intros HG Hc. revert w. induction p as [a|R f k IH]; intros w Hw Hp Hg; [by apply Hg; [..|apply Grefl|]|].
  split; [done|]. intros w1 H1 HI. destruct (Hp w1 HI) as [H2 H3]. destruct (HG _ _ HI H2) as [H4 H5].
  assert (I (f w1).2) as HI2 by by eapply GI. split_and!; [done..|].
  apply pays_mono with c; [lia|]. apply IH; [done..|]. intros a w' Ha Hw'. apply Hg; [done|].
  transitivity (f w1).2; [|done]. by transitivity w1.
Qed.
Lemma pays_all {A} (G' : W → W → Prop) (reward : A → Z) (p : prog W A) c w :
  (∀ w w', I w → G' w w' → G w w' ∧ (Phi w ≤ Phi w')%Z) → (0 ≤ c)%Z →
  under I G' (λ a, (reward a ≤ c)%Z) p → pays I G Phi reward p c w.
Proof using GI.
  intros HG Hc. revert w. induction p as [a|R f k IH]; intros w Hp; [done|]. split; [done|]. intros w1 H1 HI.
  destruct (Hp w1 HI) as [H2 H3]. destruct (HG _ _ HI H2) as [H4 H5]. split_and!; [done|by eapply GI|].
  apply pays_mono with c; [lia|]. by apply IH.
Qed.

Lemma pays_safe {A} (G' : W → W → Prop) (Q : A → W → Prop) (reward : A → Z) (p : prog W A) c w :
  (∀ w w', I w → G' w w' → G w w' ∧ (Phi w ≤ Phi w')%Z) → (0 ≤ c)%Z → (∀ a, reward a ≤ c)%Z →
  safe G G' Q p w → pays I G Phi reward p c w.
Proof using GI.
  intros HG Hc Hr. revert w. induction p as [a|R f k IH]; intros w Hp; [done|]. split; [done|]. intros w1 H1 HI.
  destruct (Hp w1 H1) as [H2 H3]. destruct (HG _ _ HI H2) as [H4 H5]. split_and!; [done|by eapply GI|].
  apply pays_mono with c; [lia|]. by apply IH.
Qed.
(** What a part earned pays for the rest. *)
Lemma pays_seq {A B} (reward : B → Z) (price : A → Z) (p : prog W A) (g : A → prog W B) c w :
  I w → pays I G Phi price p c w → (∀ a w', G w w' → I w' → pays I G Phi reward (g a) (price a) w') →
  pays I G Phi reward (p ≫= g) c w.
Proof.
  revert c w. induction p as [a|R f k IH]; intros c w Hw [H0 H] Hg.
  - eapply pays_mono; [exact H|]. by apply Hg; [apply Grefl|].
  - split; [done|]. intros w1 H1 HI. destruct (H w1 H1 HI) as (H2 & H3 & Hk). split_and!; [done..|]. apply IH; [done..|].
    intros a w' Hw'. apply Hg. transitivity (f w1).2; [|done]. by transitivity w1.
Qed.

(** A result that is only relabelled. *)
Lemma pays_map {A B} (reward : B → Z) (p : prog W A) (g : A → B) c w :
  pays I G Phi (λ a, reward (g a)) p c w → pays I G Phi reward (p ≫= λ a, mret (g a)) c w.
Proof using.
  revert c w. induction p as [a|R f k IH]; intros c w [H0 H]; [done|]. split; [done|]. intros w1 H1 HI.
  destruct (H w1 H1 HI) as (H2 & H3 & Hk). split_and!; [done..|]. by apply IH.
Qed.

(** Whatever the interleaving, the threads together earn no more than their
    credit and the rise of [Phi]. *)
Lemma pays_pool {A} (reward : A → Z) (c c' : W * list (prog W A)) cs :
  pool_steps c c' → I c.1 → Forall2 (λ p k, pays I G Phi reward p k c.1) c.2 cs →
  (sum_Z (earned reward <$> c'.2) ≤ sum_Z cs + Phi c'.1 - Phi c.1)%Z.
Proof.
  intros Hs. revert cs. induction Hs as [c|c1 i c2 c3 Hs _ IH]; intros cs Hc Hts.
  - assert (sum_Z (earned reward <$> c.2) ≤ sum_Z cs)%Z; [|lia]. destruct c as [w ts]. cbn [fst snd] in *. clear Hc.
    induction Hts as [|p k l l' Hp _ IH]; [done|].
    rewrite fmap_cons. change (sum_Z (?x :: ?l)) with (x + sum_Z l)%Z. destruct p as [a|R f g]; destruct Hp as [H0 H]; cbn [earned]; lia.
  - destruct Hs as [w ts i R f k Hi]. cbn [fst snd] in *.
    destruct (Forall2_lookup_l _ _ _ _ _ Hts Hi) as (ci & Hci & H0 & Hp).
    destruct (Hp w (Grefl w Hc) Hc) as (HG & HI & Hk).
    assert (H2 : (sum_Z (earned reward <$> c3.2) ≤ sum_Z (<[i := (ci + Phi (f w).2 - Phi w)%Z]> cs) + Phi c3.1 - Phi (f w).2)%Z).
    { apply IH; [done|]. apply Forall2_insert; [|done]. eapply Forall2_impl; [exact Hts|]. intros p x. by apply pays_stable. }
    revert H2. replace (ci + Phi (f w).2 - Phi w)%Z with (ci + (Phi (f w).2 - Phi w))%Z by lia.
    rewrite (sum_Z_insert _ _ ci) by done. lia.
Qed.
End pays.
