(* ===== verification/Cache.v ===== *)
(** * The cache ([internal/cache/cache.go], [internal/cache/keys.go])

    A key/value store with lifetimes in four buckets, backed by Redis or by a
    local bbolt file.  Alerts, settings, registry answers and rate limits live
    here.  A stored byte string is represented by the JSON value it encodes. *)
From S2P Require Import Prelude GoLib Json Lock.
From stdpp Require Import sorting options.
Local Open Scope Z_scope.
Local Open Scope go_scope.

Definition BucketAlerts : string := "alerts".
Definition BucketRegistry : string := "registry".
Definition BucketRateLimit : string := "rate_limit".
Definition BucketSettings : string := "settings".
Definition buckets : list string := [BucketAlerts; BucketRegistry; BucketRateLimit; BucketSettings].

(** keys.go *)
Definition AlertBGPDown : string := "a:bgp_d:".
Definition AlertBGPFail : string := "a:bgp_f:".
Definition AlertHandshake : string := "a:hs:".
Definition AlertNodeOff : string := "a:noff:".
Definition AlertLatency : string := "a:lat:".
Definition AlertEndpoint : string := "a:ep:".
Definition LatencyActive : string := "lat:act:".
Definition SettingVal : string := "s:v:".
Definition SettingThr : string := "s:t:".
Definition SiteSettingVal : string := "ss:v:".
Definition ASNKey (prefix : string) (asn : Z) : string := prefix +:+ fmt_d asn.
Definition PeerKey (prefix peerID : string) : string := prefix +:+ peerID.
Definition SettingKey (prefix key : string) : string := prefix +:+ key.

(** The Redis side: values with an optional expiry instant. *)
Abbreviation RedisMap := (gmap string (json * option Z)).
(** The bbolt file: raw values by bucket and key. *)
Abbreviation Bolt := (gmap (string * string) json).

Record Cache : Type := MkCache {
  ca_db : option Bolt;           (* nil when Redis is configured *)
  ca_redis : option RedisMap;    (* nil without a Redis client *)
  ca_prefix : string;
  ca_fallback : bool
}.

Definition set_redis (m : RedisMap) (c : Cache) : Cache :=
  MkCache (ca_db c) (Some m) (ca_prefix c) (ca_fallback c).
Definition set_db (b : Bolt) (c : Cache) : Cache :=
  MkCache (Some b) (ca_redis c) (ca_prefix c) (ca_fallback c).

(** [openWithConfig]: [cfg] gives the prefix and the fallback switch, [redis]
    the client's data if there is a client, [file] the content of the cache file. *)
Definition openWithConfig (cfg : option (string * bool)) (redis : option RedisMap) (file : Bolt)
  : result Cache :=
  let prefix := default "" (fst <$> cfg) in
  let fallback := default true (snd <$> cfg) in
  match redis with
  | Some m => Ok (MkCache None (Some m) prefix fallback)
  | None =>
      if negb fallback
      then Err "cache has no backend: redis unavailable and local fallback disabled"
      else Ok (MkCache (Some file) None prefix fallback)
  end.

Definition redisKey (c : Cache) (bucket key : string) : string :=
  ca_prefix c +:+ bucket +:+ ":" +:+ key.

(** Redis commands used on values. *)
Definition rm_get (now : Z) (m : RedisMap) (k : string) : option json :=
  match m !! k with
  | Some (v, Some e) => if now <? e then Some v else None
  | Some (v, None) => Some v
  | None => None
  end.
(** Remaining lifetime: what PTTL reports when positive. *)
Definition rm_expiry (now : Z) (m : RedisMap) (k : string) : option Z :=
  match m !! k with
  | Some (_, Some e) => if now <? e then Some e else None
  | _ => None
  end.
Definition rm_set (now : Z) (m : RedisMap) (k : string) (v : json) (ttl : Z) : RedisMap :=
  <[k := (v, if 0 <? ttl then Some (now + ttl) else None)]> m.

(** [time.Time.Unix]. *)
Definition unix (now : Z) : Z := now / Second.

(** The envelope [{"v": value, "e": expiry}] of an expiring local value. *)
Definition envelope (v : json) (e : Z) : json := JObj [("v", v); ("e", JNum e)].

(** Decoding the envelope: the struct's fields default to their zero values
    when absent; a value that is not an object does not decode. *)
Definition open_envelope (raw : json) : option (json * Z) :=
  match raw with
  | JObj o =>
      match obj_get "v" o with
      | None => None
      | Some v =>
          match obj_get "e" o with
          | Some (JNum e) => Some (v, e)
          | Some JNull | None => Some (v, 0)
          | Some _ => None
          end
      end
  | _ => None
  end.

Definition is_bucket (bucket : string) : bool := bool_decide (bucket ∈ buckets).

(** [putLocal] (and [putLocalRaw], which differs only in who encodes). *)
Definition putLocal (now : Z) (b : Bolt) (bucket key : string) (value : json) (ttl : Z) : Bolt :=
  if is_bucket bucket
  then <[(bucket, key) := if 0 <? ttl then envelope value (unix (now + ttl)) else value]> b
  else b.

(** [json.Unmarshal] into a typed destination: [null] succeeds and leaves the
    destination alone. *)
Definition unmarshal {A} (dec : json → option A) (raw : json) : option (option A) :=
  match raw with JNull => Some None | _ => Some <$> dec raw end.

(** What a lookup hands back: the [found] flag, the decoded value (absent when
    the destination was left alone) and the error. *)
Record Found (A : Type) : Type := MkFound { f_ok : bool; f_val : option A; f_err : option string }.
Arguments MkFound {A}. Arguments f_ok {A}. Arguments f_val {A}. Arguments f_err {A}.

Definition getLocal {A} (dec : json → option A) (now : Z) (b : Bolt) (bucket key : string) : Found A :=
  match b !! (bucket, key) with
  | None => MkFound false None None
  | Some raw =>
      match open_envelope raw with
      | Some (v, e) =>
          if (0 <? e) && (e <? unix now) then MkFound false None None
          else match unmarshal dec v with
               | Some a => MkFound true a None
               | None => MkFound true None (Some "json: cannot unmarshal")
               end
      | None =>
          match unmarshal dec raw with
          | Some a => MkFound true a None
          | None => MkFound false None None
          end
      end
  end.

(** [down]: the error of the Redis call, if it fails; [berr]: of the local write. *)
Definition Put (now : Z) (down berr : option string) (c : Cache) (bucket key : string) (value : json) (ttl : Z)
  : option string * Cache :=
  let redisErr := match ca_redis c with Some _ => down | None => None end in
  let redisOK := match ca_redis c with Some _ => isNil down | None => false end in
  let c1 := match ca_redis c with
            | Some m => if isNil down then set_redis (rm_set now m (redisKey c bucket key) value ttl) c else c
            | None => c
            end in
  let useLocal := ca_fallback c && negb (isNil (ca_db c)) in
  let localErr := if useLocal then berr else None in
  let c2 := match ca_db c with
            | Some b => if useLocal && isNil berr then set_db (putLocal now b bucket key value ttl) c1 else c1
            | None => c1
            end in
  let err :=
    if negb (isNil redisErr) && negb (ca_fallback c) then redisErr
    else if negb redisOK && negb (isNil localErr) then localErr
    else if isNil (ca_redis c) && (negb (ca_fallback c) || isNil (ca_db c))
    then Some "cache has no available backend"
    else None in
  (err, c2).

Definition Get {A} (dec : json → option A) (now : Z) (down : option string) (c : Cache) (bucket key : string)
  : Found A * Cache :=
  let local :=
    match ca_db c with
    | None => (MkFound false None None, c)
    | Some b => (getLocal dec now b bucket key, c)
    end in
  match ca_redis c with
  | None => local
  | Some m =>
      match down with
      | None =>
          match rm_get now m (redisKey c bucket key) with
          | None => (MkFound false None None, c)
          | Some raw =>
              match unmarshal dec raw with
              | None => (MkFound false None None, c)
              | Some a =>
                  (MkFound true a None,
                   match ca_db c, rm_expiry now m (redisKey c bucket key) with
                   | Some b, Some e =>
                       if ca_fallback c then set_db (putLocal now b bucket key raw (e - now)) c else c
                   | _, _ => c
                   end)
              end
          end
      | Some e => if negb (ca_fallback c) then (MkFound false None (Some e), c) else local
      end
  end.

Definition Delete (down : option string) (c : Cache) (bucket key : string) : option string * Cache :=
  let c1 := match ca_redis c with
            | Some m => if isNil down then set_redis (delete (redisKey c bucket key) m) c else c
            | None => c
            end in
  let redisErr := match ca_redis c with Some _ => down | None => None end in
  (redisErr, match ca_db c with Some b => set_db (delete (bucket, key) b) c1 | None => c1 end).

Definition dec_num (j : json) : option Z := match j with JNum n => Some n | _ => None end.
Definition dec_bool (j : json) : option bool := match j with JBool b => Some b | _ => None end.
Definition dec_str (j : json) : option string := match j with JStr s => Some s | _ => None end.

(** The increment script run by Redis: the remaining lifetime is kept.  The
    source passes the lifetime in whole milliseconds; every caller's lifetime is
    a multiple of one, so the model keeps nanoseconds. *)
Definition incrScript (now : Z) (m : RedisMap) (k : string) (ttl : Z) : Z * RedisMap :=
  let current := match rm_get now m k with Some raw => default 0 (dec_num raw) | None => 0 end in
  let current := current + 1 in
  (current,
   match rm_expiry now m k with
   | Some e => <[k := (JNum current, Some e)]> m
   | None => rm_set now m k (JNum current) ttl
   end).

(** The local increment: the lifetime starts again with every call. *)
Definition incLocal (now : Z) (b : Bolt) (bucket key : string) (ttl : Z) : Z * Bolt :=
  let v := match b !! (bucket, key) with
           | None => 0
           | Some raw =>
               match open_envelope raw with
               | Some (v, e) => if (e =? 0) || (unix now <=? e) then default 0 (dec_num v) else 0
               | None => default 0 (dec_num raw)
               end
           end + 1 in
  (v, <[(bucket, key) := if 0 <? ttl then envelope (JNum v) (unix (now + ttl)) else JNum v]> b).

Definition IncInt (now : Z) (down : option string) (c : Cache) (bucket key : string) (ttl : Z)
  : (Z * option string) * Cache :=
  let local :=
    match ca_db c with
    | None => ((0, Some "cache has no available backend"), c)
    | Some b =>
        if is_bucket bucket
        then let '(v, b') := incLocal now b bucket key ttl in ((v, None), set_db b' c)
        else ((0, Some "bucket not found"), c)
    end in
  match ca_redis c with
  | None => local
  | Some m =>
      match down with
      | None =>
          let '(v, m') := incrScript now m (redisKey c bucket key) ttl in
          let c1 := set_redis m' c in
          ((v, None),
           match ca_db c with
           | Some b => if ca_fallback c then set_db (putLocal now b bucket key (JNum v) ttl) c1 else c1
           | None => c1
           end)
      | Some e => if negb (ca_fallback c) then ((0, Some e), c) else local
      end
  end.

(** ** Facts *)

(** A cache as [openWithConfig] builds it: one backend, never both. *)
Definition cache_wf (c : Cache) : Prop :=
  (∃ m, ca_redis c = Some m ∧ ca_db c = None)
  ∨ (∃ b, ca_redis c = None ∧ ca_db c = Some b ∧ ca_fallback c = true).

Lemma open_wf cfg redis file c : openWithConfig cfg redis file = Ok c → cache_wf c.
Proof.
  unfold openWithConfig, cache_wf. destruct redis as [m|]; [intros [= <-]; left; by eexists|].
  case_match eqn:E; [done|]. intros [= <-]. right. apply negb_false_iff in E. by eexists.
Qed.

(** The instant at which a value stored at [now] for [ttl] is gone: exact on
    Redis, at the end of the second on the local file. *)
Definition gone (c : Cache) (now ttl now' : Z) : bool :=
  match ca_redis c with
  | Some _ => now + ttl <=? now'
  | None => unix (now + ttl) <? unix now'
  end.

Lemma append_colon_inj (a b x y : string) :
  (":" %char ∉ bytes a) → (":" %char ∉ bytes b) →
  a +:+ ":" +:+ x = b +:+ ":" +:+ y → a = b ∧ x = y.
Proof.
  revert b. induction a as [|c a IH]; intros [|d b] Ha Hb; rewrite ?append_cons; simpl.
  - change ("" +:+ ?t) with t. intros H. by simplify_eq.
  - intros H. exfalso. apply Hb. simpl. injection H as <- _. set_solver.
  - intros H. exfalso. apply Ha. simpl. injection H as -> _. set_solver.
  - intros H. injection H as -> H. destruct (IH b) as [-> ->]; [set_solver..|exact H|done].
Qed.

Lemma redisKey_inj c b b' k k' :
  is_bucket b = true → is_bucket b' = true → redisKey c b k = redisKey c b' k' → b = b' ∧ k = k'.
Proof.
  intros Hb Hb' H. unfold redisKey in H. apply (inj (String.append _)) in H.
  assert (∀ x, is_bucket x = true → ":"%char ∉ bytes x) as Hc.
  { intros x Hx. apply bool_decide_eq_true in Hx. unfold buckets in Hx.
    rewrite !elem_of_cons, elem_of_nil in Hx.
    destruct Hx as [->|[->|[->|[->|[]]]]]; compute_done. }
  apply append_colon_inj in H; auto.
Qed.

Lemma unix_mono a b : a ≤ b → unix a ≤ unix b.
Proof. intros. unfold unix, Second. by apply Z.div_le_mono. Qed.

Lemma unix_pos a : Second ≤ a → 0 < unix a.
Proof.
  intros H. unfold unix. assert (1 ≤ a / Second); [|lia].
  apply Z.div_le_lower_bound; unfold Second in *; lia.
Qed.

(** The local file behaves like Redis up to the rounding of the expiry. *)
Lemma getLocal_putLocal {A} (dec : json → option A) now now' b bucket key v a ttl :
  is_bucket bucket = true → 0 < ttl → Second ≤ now → unmarshal dec v = Some (Some a) →
  getLocal dec now' (putLocal now b bucket key v ttl) bucket key
  = if unix (now + ttl) <? unix now' then MkFound false None None else MkFound true (Some a) None.
Proof.
  intros Hb Httl Hnow Hv. unfold getLocal, putLocal. rewrite Hb, lookup_insert_eq.
  destruct (Z.ltb_spec 0 ttl); [|lia]. unfold envelope. simpl.
  destruct (Z.ltb_spec 0 (unix (now + ttl))) as [_|Hp]; simpl; [by rewrite Hv|].
  pose proof (unix_pos (now + ttl)). lia.
Qed.

(** C30: The cache keeps its promise on either backend: a value stored for
    [ttl] is found, and decodes to what was stored, until its expiry, and is
    reported absent from then on (at the expiry instant on Redis, at the end of
    that second on the local file); no other key's lookup is affected. *)
Theorem Put_Get {A} (dec : json → option A) (c c' : Cache) (now now' ttl : Z) (err : option string)
    (bucket key : string) (v : json) (a : A)
  (Hwf : cache_wf c) (Hb : is_bucket bucket = true) (Httl : 0 < ttl) (Hnow : Second ≤ now)
  (Hv : unmarshal dec v = Some (Some a))
  (Hput : Put now None None c bucket key v ttl = (err, c')) :
  err = None ∧ cache_wf c'
  ∧ fst (Get dec now' None c' bucket key)
    = (if gone c now ttl now' then MkFound false None None else MkFound true (Some a) None)
  ∧ (∀ bucket' key', is_bucket bucket' = true → (bucket', key') ≠ (bucket, key) →
       fst (Get dec now' None c' bucket' key') = fst (Get dec now' None c bucket' key')).
Proof.
  destruct c as [db rd prefix fb].
  destruct Hwf as [(m & Hm & Hd)|(b & Hm & Hd & Hf)]; simpl in *; subst; simpl in Hput.
  - unfold Put in Hput. cbn in Hput. simplify_eq. split_and!; [done|left; by eexists| |].
    + unfold Get, gone. simpl. unfold rm_get, rm_set, redisKey. simpl. rewrite lookup_insert_eq.
      destruct (Z.ltb_spec 0 ttl); [|lia].
      destruct (Z.ltb_spec now' (now + ttl)), (Z.leb_spec (now + ttl) now'); try lia; [|done].
      by rewrite Hv.
    + intros b' k' Hb' Hne. unfold Get. simpl. unfold rm_get, rm_set, redisKey. simpl.
      rewrite lookup_insert_ne; [by repeat case_match|].
      intros E. apply Hne. change prefix with (ca_prefix (MkCache None None prefix fb)) in E.
      apply (redisKey_inj (MkCache None None prefix fb)) in E as [-> ->]; auto.
  - unfold Put in Hput. cbn in Hput. simplify_eq. split_and!; [done|right; by eexists| |].
    + unfold Get, gone. cbn. by apply getLocal_putLocal.
    + intros b' k' Hb' Hne. unfold Get. simpl. unfold getLocal, putLocal. rewrite Hb.
      by rewrite lookup_insert_ne by congruence.
Qed.

Lemma Put_Get_witness :
  fst (Get dec_bool (2 * Hour) None
         (snd (Put Hour None None (MkCache (Some ∅) None "" true) BucketAlerts "a:hs:p1" (JBool true) (24 * Hour)))
         BucketAlerts "a:hs:p1")
  = MkFound true (Some true) None.
Proof.
  exact (proj1 (proj2 (proj2 (Put_Get dec_bool (MkCache (Some ∅) None "" true)
    (snd (Put Hour None None (MkCache (Some ∅) None "" true) BucketAlerts "a:hs:p1" (JBool true) (24 * Hour)))
    Hour (2 * Hour) (24 * Hour) None BucketAlerts "a:hs:p1" (JBool true) true
    (or_intror (ex_intro _ ∅ (conj eq_refl (conj eq_refl eq_refl)))) eq_refl eq_refl
    ltac:(vm_compute; discriminate) eq_refl eq_refl)))).
Defined.

(** Repeated increments at the given instants. *)
Fixpoint incs (c : Cache) (bucket key : string) (ttl : Z) (nows : list Z) : list Z * Cache :=
  match nows with
  | [] => ([], c)
  | now :: nows' =>
      let '((v, _), c1) := IncInt now None c bucket key ttl in
      let '(vs, c2) := incs c1 bucket key ttl nows' in (v :: vs, c2)
  end.

(** What a key holds: a value until an instant; or nothing any more. *)
Definition stored (c : Cache) (bucket key : string) (v : json) (e : Z) : Prop :=
  match ca_redis c with
  | Some m => m !! redisKey c bucket key = Some (v, Some e)
  | None => ∃ b, ca_db c = Some b ∧ b !! (bucket, key) = Some (envelope v (unix e))
  end.
Definition dead (c : Cache) (bucket key : string) (t : Z) : Prop :=
  match ca_redis c with
  | Some m => ∀ v e, m !! redisKey c bucket key = Some (v, e) → ∃ x, e = Some x ∧ x ≤ t
  | None => ∃ b, ca_db c = Some b ∧
      ∀ raw, b !! (bucket, key) = Some raw → ∃ v e, open_envelope raw = Some (v, e) ∧ 0 < e < unix t
  end.

(** The counter stored under a key, as the next increment will read it. *)
Definition counter (c : Cache) (bucket key : string) (n e : Z) : Prop := stored c bucket key (JNum n) e.

Lemma open_envelope_envelope v e : open_envelope (envelope v e) = Some (v, e).
Proof. reflexivity. Qed.

Lemma IncInt_counter c bucket key ttl now n e :
  cache_wf c → is_bucket bucket = true → 0 < ttl → now < e →
  counter c bucket key n e →
  ∃ c' e', IncInt now None c bucket key ttl = ((n + 1, None), c') ∧ cache_wf c'
    ∧ counter c' bucket key (n + 1) e' ∧ (e' = e ∨ e' = now + ttl).
Proof.
  intros Hwf Hb Httl He. destruct c as [db rd prefix fb].
  destruct Hwf as [(m & Hm & Hd)|(b & Hm & Hd & Hf)]; simpl in *; subst; unfold counter, stored; simpl.
  - intros Hc. unfold IncInt, incrScript, rm_get, rm_expiry. cbn. rewrite Hc.
    destruct (Z.ltb_spec now e); [|lia]. eexists _, e. split; [done|].
    split; [left; by eexists|]. cbn. split; [by rewrite lookup_insert_eq|by left].
  - intros (? & [= <-] & Hc). unfold IncInt, incLocal. cbn [ca_redis ca_db].
    rewrite Hb, Hc, open_envelope_envelope. cbn [dec_num default].
    pose proof (unix_mono now e ltac:(lia)). rewrite (proj2 (Z.leb_le (unix now) (unix e))) by done.
    rewrite orb_true_r. eexists _, (now + ttl). split; [done|].
    split; [right; by eexists|]. split; [|by right]. eexists. split; [done|]. cbn.
    rewrite lookup_insert_eq. by destruct (Z.ltb_spec 0 ttl); [|lia].
Qed.

Lemma IncInt_first c bucket key ttl now :
  cache_wf c → is_bucket bucket = true → 0 < ttl →
  f_ok (fst (Get Some now None c bucket key)) = false →
  ∃ c', IncInt now None c bucket key ttl = ((1, None), c') ∧ cache_wf c'
    ∧ counter c' bucket key 1 (now + ttl).
Proof.
  intros Hwf Hb Httl. destruct c as [db rd prefix fb].
  destruct Hwf as [(m & Hm & Hd)|(b & Hm & Hd & Hf)]; simpl in *; subst.
  - unfold Get, IncInt, incrScript, rm_get, rm_expiry, counter, stored. cbn.
    set (k := redisKey _ _ _). intros H.
    assert ((match m !! k with
             | Some (v, Some e) => if now <? e then Some v else None
             | Some (v, None) => Some v
             | None => None end) = None ∧
            (match m !! k with
             | Some (_, Some e) => if now <? e then Some e else None
             | _ => None end) = None) as [-> ->].
    { destruct (m !! k) as [[v [e|]]|]; [destruct (now <? e); [by destruct v|done]|by destruct v|done]. }
    eexists. split; [done|]. split; [left; by eexists|]. cbn. unfold rm_set.
    destruct (Z.ltb_spec 0 ttl); [|lia]. by rewrite lookup_insert_eq.
  - unfold Get, getLocal, IncInt, incLocal, counter, stored. cbn. rewrite Hb.
    destruct (b !! (bucket, key)) as [raw|] eqn:E.
    + destruct (open_envelope raw) as [[v e]|]; [|by destruct raw].
      destruct (Z.ltb_spec 0 e), (Z.ltb_spec e (unix now)); cbn; try by destruct v.
      intros _. destruct (Z.eqb_spec e 0), (Z.leb_spec (unix now) e); try lia. cbn.
      eexists. split; [done|]. split; [right; by eexists|]. eexists. split; [done|].
      rewrite lookup_insert_eq. by destruct (Z.ltb_spec 0 ttl); [|lia].
    + intros _. cbn. eexists. split; [done|]. split; [right; by eexists|]. eexists. split; [done|].
      rewrite lookup_insert_eq. by destruct (Z.ltb_spec 0 ttl); [|lia].
Qed.

(** An operation on one key leaves the others alone. *)
Definition others_kept (c c' : Cache) (bucket key : string) : Prop :=
  ∀ b' k', is_bucket b' = true → (b', k') ≠ (bucket, key) →
    (∀ v e, stored c b' k' v e → stored c' b' k' v e) ∧ (∀ t, dead c b' k' t → dead c' b' k' t).

Lemma dead_mono c bucket key t t' : t ≤ t' → dead c bucket key t → dead c bucket key t'.
Proof.
  intros Ht. unfold dead. destruct (ca_redis c).
  - intros H v e Hm. destruct (H v e Hm) as (x & -> & ?). exists x. split; [done|lia].
  - intros (b & Hb & H). exists b. split; [done|]. intros raw Hr. destruct (H raw Hr) as (v & e & Ho & He).
    exists v, e. split; [done|]. pose proof (unix_mono t t' Ht). lia.
Qed.

Lemma Get_stored {A} (dec : json → option A) c bucket key now v a e :
  cache_wf c → stored c bucket key v e → now < e → unmarshal dec v = Some (Some a) →
  Get dec now None c bucket key = (MkFound true (Some a) None, c).
Proof.
  intros Hwf Hs He Hv. destruct c as [db rd prefix fb].
  destruct Hwf as [(m & Hm & Hd)|(b & Hm & Hd & Hf)]; simpl in *; subst; unfold stored in Hs; simpl in Hs.
  - unfold Get, rm_get. cbn. rewrite Hs, (proj2 (Z.ltb_lt now e) He), Hv. done.
  - destruct Hs as (? & [= <-] & Hs). unfold Get, getLocal. cbn [ca_db ca_redis]. rewrite Hs, open_envelope_envelope.
    pose proof (unix_mono now e ltac:(lia)). rewrite (proj2 (Z.ltb_ge (unix e) (unix now))) by done.
    by rewrite andb_false_r, Hv.
Qed.

Lemma Get_dead {A} (dec : json → option A) c bucket key now :
  cache_wf c → dead c bucket key now →
  Get dec now None c bucket key = (MkFound false None None, c).
Proof.
  intros Hwf Hs. destruct c as [db rd prefix fb].
  destruct Hwf as [(m & Hm & Hd)|(b & Hm & Hd & Hf)]; simpl in *; subst; unfold dead in Hs; simpl in Hs.
  - unfold Get, rm_get. cbn. destruct (m !! _) as [[v e]|] eqn:E; [|done].
    destruct (Hs v e eq_refl) as (x & -> & Hx). by rewrite (proj2 (Z.ltb_ge now x) Hx).
  - destruct Hs as (? & [= <-] & Hs). unfold Get, getLocal. cbn [ca_db ca_redis].
    destruct (b !! _) as [raw|]; [|done]. destruct (Hs raw eq_refl) as (v & e & -> & He & Hx).
    by rewrite (proj2 (Z.ltb_lt 0 e) He), (proj2 (Z.ltb_lt e (unix now)) Hx).
Qed.

(** Writing one cell of either backend. *)
Lemma others_redis m x prefix fb bucket key :
  is_bucket bucket = true → (∀ k, k ≠ prefix +:+ bucket +:+ ":" +:+ key → x !! k = m !! k) →
  others_kept (MkCache None (Some m) prefix fb) (MkCache None (Some x) prefix fb) bucket key.
Proof.
  intros Hb Hx b' k' Hb' Hne. unfold stored, dead, redisKey. simpl.
  rewrite Hx; [done|]. intros E. apply Hne.
  change prefix with (ca_prefix (MkCache None None prefix fb)) in E.
  apply (redisKey_inj (MkCache None None prefix fb)) in E as [-> ->]; done.
Qed.
Lemma others_local b x prefix fb bucket key :
  (∀ k, k ≠ (bucket, key) → x !! k = b !! k) →
  others_kept (MkCache (Some b) None prefix fb) (MkCache (Some x) None prefix fb) bucket key.
Proof.
  intros Hx b' k' Hb' Hne. unfold stored, dead. simpl. split.
  - intros v e (? & [= <-] & H). exists x. by rewrite Hx.
  - intros t (? & [= <-] & H). exists x. by rewrite Hx.
Qed.

Lemma Put_stored c bucket key now v ttl :
  cache_wf c → is_bucket bucket = true → 0 < ttl →
  ∃ c', Put now None None c bucket key v ttl = (None, c') ∧ cache_wf c' ∧ stored c' bucket key v (now + ttl)
    ∧ others_kept c c' bucket key.
Proof.
  intros Hwf Hb Ht. destruct c as [db rd prefix fb]. pose proof (proj2 (Z.ltb_lt 0 ttl) Ht) as Ht'.
  destruct Hwf as [(m & Hm & Hd)|(b & Hm & Hd & Hf)]; simpl in *; subst; unfold Put; cbn.
  - eexists. split; [done|]. split; [left; by eexists|]. unfold stored, rm_set. cbn. rewrite Ht'.
    split; [apply lookup_insert_eq|]. apply others_redis; [done|]. intros k Hk. by apply lookup_insert_ne.
  - eexists. split; [done|]. split; [right; by eexists|]. unfold stored, putLocal. cbn. rewrite Hb, Ht'. split.
    + eexists. split; [done|apply lookup_insert_eq].
    + apply others_local. intros k Hk. by apply lookup_insert_ne.
Qed.

Lemma Delete_dead c bucket key :
  cache_wf c → is_bucket bucket = true →
  ∃ c', Delete None c bucket key = (None, c') ∧ cache_wf c' ∧ (∀ t, dead c' bucket key t)
    ∧ others_kept c c' bucket key.
Proof.
  intros Hwf Hb. destruct c as [db rd prefix fb].
  destruct Hwf as [(m & Hm & Hd)|(b & Hm & Hd & Hf)]; simpl in *; subst; unfold Delete; cbn.
  - eexists. split; [done|]. split; [left; by eexists|]. split.
    + intros t. unfold dead. cbn. intros v e. unfold redisKey. simpl. by rewrite lookup_delete_eq.
    + apply others_redis; [done|]. intros k Hk. by apply lookup_delete_ne.
  - eexists. split; [done|]. split; [right; by eexists|]. split.
    + intros t. unfold dead. cbn. eexists. split; [done|]. intros raw. by rewrite lookup_delete_eq.
    + apply others_local. intros k Hk. by apply lookup_delete_ne.
Qed.

Lemma IncInt_others c bucket key now ttl :
  cache_wf c → is_bucket bucket = true → others_kept c (IncInt now None c bucket key ttl).2 bucket key.
Proof.
  intros Hwf Hb. destruct c as [db rd prefix fb].
  destruct Hwf as [(m & Hm & Hd)|(b & Hm & Hd & Hf)]; simpl in *; subst; unfold IncInt; cbn.
  - unfold incrScript, rm_set. destruct (rm_expiry _ _ _); cbn; (apply others_redis; [done|]); intros k Hk;
      by apply lookup_insert_ne.
  - rewrite Hb. unfold incLocal. cbn. apply others_local. intros k Hk. by apply lookup_insert_ne.
Qed.

(** C31: Counting (login attempts, failed BGP probes): on either backend, the
    n-th increment of a counter within its lifetime returns n, starting over
    from 1 when the key was absent or expired. *)
Theorem IncInt_counts (c : Cache) (bucket key : string) (ttl t0 : Z) (nows : list Z)
  (Hwf : cache_wf c) (Hb : is_bucket bucket = true) (Httl : 0 < ttl)
  (Hfresh : f_ok (fst (Get Some t0 None c bucket key)) = false)
  (Hsorted : Sorted Z.le (t0 :: nows)) (Hwindow : Forall (λ now, now < t0 + ttl) nows) :
  fst (incs c bucket key ttl (t0 :: nows)) = map Z.of_nat (seq 1 (S (length nows))).
Proof.
  assert (∀ nows now n e c, cache_wf c → counter c bucket key (Z.of_nat n) e → t0 + ttl ≤ e ≤ now + ttl →
    Sorted Z.le (now :: nows) → Forall (λ now, now < t0 + ttl) nows →
    fst (incs c bucket key ttl nows) = map Z.of_nat (seq (S n) (length nows))) as Hrest.
  { clear -Hb Httl. induction nows as [|x nows IH]; intros now n e c Hwf Hc He Hs Hw; [done|].
    apply Sorted_inv in Hs as [Hs Hx%HdRel_inv]. apply Forall_cons in Hw as [Hx' Hw].
    destruct (IncInt_counter c bucket key ttl x (Z.of_nat n) e) as (c' & e' & E & Hwf' & Hc' & He');
      [done..|lia|done|].
    cbn [incs]. rewrite E. specialize (IH x (S n) e' c' Hwf').
    destruct (incs c' _ _ _ nows) as [vs c2]. cbn in *.
    rewrite IH by (try done; try lia; by rewrite Nat2Z.inj_succ). f_equal. lia. }
  destruct (IncInt_first c bucket key ttl t0) as (c' & E & Hwf' & Hc'); [done..|].
  cbn [incs]. rewrite E. destruct (incs c' _ _ _ nows) as [vs c2] eqn:Ei. cbn. f_equal.
  change vs with (vs, c2).1. rewrite <-Ei. eapply (Hrest nows t0 1%nat); [done..|lia|done|done].
Qed.

Lemma IncInt_counts_witness :
  fst (incs (MkCache None (Some ∅) "ap:" false) BucketAlerts "a:bgp_f:p1" Hour [Minute; 2 * Minute; 3 * Minute])
  = [1; 2; 3].
Proof.
  exact (IncInt_counts (MkCache None (Some ∅) "ap:" false) BucketAlerts "a:bgp_f:p1" Hour Minute [2 * Minute; 3 * Minute]
    (or_introl (ex_intro _ ∅ (conj eq_refl eq_refl))) eq_refl eq_refl eq_refl
    ltac:(repeat constructor; vm_compute; discriminate) ltac:(repeat constructor; reflexivity)).
Defined.
