(* ===== verification/World.v ===== *)
(** * The world of the control plane

    What requests, bot messages, heartbeats and workers share: the PostgreSQL
    rows, the cache, the lock server, the agents' connections, the clock, and
    the log of what left the process (agent commands with their answers, audit
    rows, mails, bot notifications).  What the program cannot decide is an
    oracle in the world: which statements fail, what agents answer and how long
    they take, which UUIDs and random bytes are drawn.  The primitive
    operations on it are the atomic actions all programs are made of. *)
From S2P Require Import Prelude GoLib Json Model Lock Cache Effects.
From stdpp Require Import options.
Local Open Scope Z_scope.
Local Open Scope go_scope.

(** ** Messages to agents ([internal/ws/protocol.go]) *)
Record PeerAddPayload : Type := MkPeerAdd {
  pa_PeerID : string;
  pa_ASN : Z;
  pa_RemoteEndpoint : string;
  pa_RemoteWgPubkey : string;
  pa_RemoteLLA : string;
  pa_ListenPort : Z;
  pa_WgInterface : string;
  pa_MTU : option Z;
  pa_WgPreSharedKey : option string
}.

(** An entry of an agent's scan ([peerImportEntry]). *)
Record peerImportEntry : Type := MkImportEntry {
  pi_ASN : Z;
  pi_RemotePubkey : string;
  pi_RemoteEndpoint : string;
  pi_RemoteLLA : string;
  pi_WgListenPort : Z;
  pi_WgInterface : string;
  pi_BgpProtoName : string;
  pi_BirdConfigFilename : string;
  pi_WgManaged : bool
}.

Record PeerSyncEntry : Type := MkSyncEntry {
  se_PeerID : string;
  se_ASN : Z;
  se_RemoteEndpoint : string;
  se_RemoteWgPubkey : string;
  se_RemoteLLA : string;
  se_ListenPort : Z;
  se_WgInterface : string;
  se_BgpProtoName : string;
  se_BirdConfigFilename : string;
  se_MTU : option Z;
  se_WgPreSharedKey : option string
}.

Inductive Cmd : Type :=
| TypePeerAdd (p : PeerAddPayload)
| TypePeerRemove (peerID : string) (asn : Z)
| TypePeersImport
| TypeBirdEnable (peerID protoName : string)
| TypeBirdDisable (peerID protoName : string).

#[export] Instance PeerAddPayload_eq_dec : EqDecision PeerAddPayload.
Proof. solve_decision. Defined.
#[export] Instance Cmd_eq_dec : EqDecision Cmd.
Proof. solve_decision. Defined.

(** A response: [success] is a pointer; [peers] are the entries decoded from
    the payload of an import scan. *)
Record Message : Type := MkMessage {
  msg_Success : option bool;
  msg_Error : string;
  msg_Peers : list peerImportEntry
}.

(** The pair a command returns: an error (not connected, buffer full, timeout,
    disconnect), or the agent's answer. *)
Inductive Answer : Type :=
| NoAnswer (err : string)
| Answered (m : Message).

(** [resp.Success != nil && !*resp.Success]. *)
Definition refused (m : Message) : bool :=
  match msg_Success m with Some false => true | _ => false end.

(** ** What leaves the process *)
Inductive event : Type :=
| EvCmd (nodeID : string) (c : Cmd) (a : Answer)
| EvSync (nodeID : string) (peers : list PeerSyncEntry)
| EvAudit (action operator : string) (target : option string) (detail : obj)
| EvMail (to_ template : string) (vars : obj)
| EvBotPeer (asn : Z) (notifKey event : string) (data : obj)
| EvBotAdmin (event : string) (data : obj)
| EvBotUser (tgUserID : Z) (event : string) (data : obj).

(** ** Stored rows *)
Record PeerMetric : Type := MkMetric {
  pm_Time : Z;
  pm_PeerID : string;
  pm_RxBytes : Z;
  pm_TxBytes : Z;
  pm_BGPState : string;
  pm_RttMs : option spec_float;
  pm_LastHandshake : option Z;
  pm_RoutesImported : option Z;
  pm_RoutesExported : option Z;
  pm_RoutesPreferred : option Z;
  pm_BGPUptimeSecs : option Z;
  pm_WgActualEndpoint : string
}.

(** [model.NodeMetric]. *)
Record NodeMetric : Type := MkNodeMetric {
  nm_Time : Z;
  nm_NodeID : string;
  nm_MemAllocMB : option Z;
  nm_MemSysMB : option Z;
  nm_NumGoroutine : option Z;
  nm_UptimeSecs : option Z
}.

Record DB : Type := MkDB {
  db_peers : gmap string Peer;
  db_nodes : gmap string Node;
  db_metrics : list PeerMetric;               (* newest first *)
  db_node_metrics : list NodeMetric;          (* newest first *)
  db_site : gmap string string;               (* site_settings *)
  db_notif : gmap string (string * string);   (* notification_settings: value, threshold *)
  db_bindings : gmap Z Z                      (* bot_user_bindings: Telegram user to ASN *)
}.

(** ** Oracles *)
Record Ext : Type := MkExt {
  e_db : list (option string);      (* outcome of each statement: an error, or none *)
  e_uuid : list string;             (* gen_random_uuid() *)
  e_rnd : list (option (list ascii));
  e_agent : list (Z * Answer);      (* per message: time the agent takes, and what comes back *)
  e_redis : list (option string)    (* outcome of each Redis call *)
}.

Record World : Type := MkWorld {
  w_db : DB;
  w_cache : Cache;
  w_redis : Redis;                  (* the lock server; its clock is the clock *)
  w_local : gset string;            (* keys held by the local locker *)
  w_conns : gset string;            (* nodes whose agent is connected and authenticated *)
  w_ext : Ext;
  w_log : list event                (* oldest first *)
}.

Definition w_now (w : World) : Z := r_now (w_redis w).
Definition w_peers (w : World) : gmap string Peer := db_peers (w_db w).
Definition w_nodes (w : World) : gmap string Node := db_nodes (w_db w).
Definition w_uuid (w : World) : list string := e_uuid (w_ext w).

Definition set_db_ (d : DB) (w : World) : World :=
  MkWorld d (w_cache w) (w_redis w) (w_local w) (w_conns w) (w_ext w) (w_log w).
Definition set_cache (c : Cache) (w : World) : World :=
  MkWorld (w_db w) c (w_redis w) (w_local w) (w_conns w) (w_ext w) (w_log w).
Definition set_locks (r : Redis) (l : gset string) (w : World) : World :=
  MkWorld (w_db w) (w_cache w) r l (w_conns w) (w_ext w) (w_log w).
Definition set_ext (e : Ext) (w : World) : World :=
  MkWorld (w_db w) (w_cache w) (w_redis w) (w_local w) (w_conns w) e (w_log w).
Definition emit (evs : list event) (w : World) : World :=
  MkWorld (w_db w) (w_cache w) (w_redis w) (w_local w) (w_conns w) (w_ext w) (w_log w ++ evs).
Definition set_peers (m : gmap string Peer) (w : World) : World :=
  set_db_ (MkDB m (w_nodes w) (db_metrics (w_db w)) (db_node_metrics (w_db w)) (db_site (w_db w)) (db_notif (w_db w)) (db_bindings (w_db w))) w.
Definition set_nodes (m : gmap string Node) (w : World) : World :=
  set_db_ (MkDB (w_peers w) m (db_metrics (w_db w)) (db_node_metrics (w_db w)) (db_site (w_db w)) (db_notif (w_db w)) (db_bindings (w_db w))) w.
Definition set_metrics (m : list PeerMetric) (w : World) : World :=
  set_db_ (MkDB (w_peers w) (w_nodes w) m (db_node_metrics (w_db w)) (db_site (w_db w)) (db_notif (w_db w)) (db_bindings (w_db w))) w.
Definition set_node_metrics (m : list NodeMetric) (w : World) : World :=
  set_db_ (MkDB (w_peers w) (w_nodes w) (db_metrics (w_db w)) m (db_site (w_db w)) (db_notif (w_db w)) (db_bindings (w_db w))) w.

(** Draws from the oracles; when one runs out, statements and calls succeed,
    no UUID or randomness is left, and agents are silent. *)
Definition draw_db (w : World) : option string * World :=
  let e := w_ext w in
  match e_db e with
  | [] => (None, w)
  | o :: l => (o, set_ext (MkExt l (e_uuid e) (e_rnd e) (e_agent e) (e_redis e)) w)
  end.
Definition draw_uuid (w : World) : option string * World :=
  let e := w_ext w in
  match e_uuid e with
  | [] => (None, w)
  | u :: l => (Some u, set_ext (MkExt (e_db e) l (e_rnd e) (e_agent e) (e_redis e)) w)
  end.
Definition draw_rnd (w : World) : option (list ascii) * World :=
  let e := w_ext w in
  match e_rnd e with
  | [] => (None, w)
  | o :: l => (o, set_ext (MkExt (e_db e) (e_uuid e) l (e_agent e) (e_redis e)) w)
  end.
Definition draw_agent (w : World) : (Z * Answer) * World :=
  let e := w_ext w in
  match e_agent e with
  | [] => ((30 * Second, NoAnswer "context deadline exceeded"), w)
  | a :: l => (a, set_ext (MkExt (e_db e) (e_uuid e) (e_rnd e) l (e_redis e)) w)
  end.
Definition draw_redis (w : World) : option string * World :=
  let e := w_ext w in
  match e_redis e with
  | [] => (None, w)
  | o :: l => (o, set_ext (MkExt (e_db e) (e_uuid e) (e_rnd e) (e_agent e) l) w)
  end.

(** Programs over this world. *)
Abbreviation M := (prog World).

(** A context: the instant of its deadline, if it has one. *)
Definition Ctx : Type := option Z.
Definition Background : Ctx := None.
Definition expired (ctx : Ctx) (now : Z) : bool :=
  match ctx with Some d => d <=? now | None => false end.

(** A statement: it fails without effect when its context has expired or the
    oracle says so. *)
Definition stmt_step {R} (ctx : Ctx) (onerr : string → R) (f : World → R * World) (w : World) : R * World :=
  if expired ctx (w_now w) then (onerr "context deadline exceeded", w)
  else match draw_db w with
       | (Some e, w') => (onerr e, w')
       | (None, w') => f w'
       end.
Definition stmt {R} (ctx : Ctx) (onerr : string → R) (f : World → R * World) : M R :=
  act (stmt_step ctx onerr f).

(** A read-only query. *)
Definition query {R} (ctx : Ctx) (f : World → result R) : M (result R) := stmt ctx Err (λ w, (f w, w)).

Definition now_ : M Z := gets w_now.
(** [context.WithTimeout(context.Background(), d)]. *)
Definition with_timeout (d : Z) : M Ctx := now ← now_; mret (Some (now + d)).
Definition rand_read : M (option (list ascii)) := act draw_rnd.

(** ** Agent commands: [Hub.SendCommand] as handlers see it. *)
Definition SendCommand_step (nodeID : string) (c : Cmd) (w : World) : Answer * World :=
  if bool_decide (nodeID ∈ w_conns w) then
    let '((d, a), w1) := draw_agent w in
    (a, emit [EvCmd nodeID c a]
          (set_locks (r_tick (w_redis w1) (Z.max 0 (Z.min d (30 * Second)))) (w_local w1) w1))
  else (NoAnswer ("agent not connected for node " +:+ nodeID), w).
Definition SendCommand (nodeID : string) (c : Cmd) : M Answer := act (SendCommand_step nodeID c).

(** ** Audit, mail and bot notifications *)

(** [AuditService.Log]: the row is inserted unless the statement fails; every
    caller ignores the error. *)
Definition auditLog (ctx : Ctx) (action operator : string) (target : option string) (detail : obj) : M unit :=
  stmt ctx (λ _, tt) (λ w, (tt, emit [EvAudit action operator target detail] w)).
Definition sendMail (to_ template : string) (vars : obj) : M unit :=
  modify (emit [EvMail to_ template vars]).
Definition notifyPeerBot (asn : Z) (notifKey ev : string) (data : obj) : M unit :=
  modify (emit [EvBotPeer asn notifKey ev data]).
Definition notifyBotAdmin (ev : string) (data : obj) : M unit :=
  modify (emit [EvBotAdmin ev data]).
Definition notifyBotUser (tgUserID : Z) (ev : string) (data : obj) : M unit :=
  modify (emit [EvBotUser tgUserID ev data]).

(** ** Cache calls *)
Definition cacheGet {A} (dec : json → option A) (bucket key : string) : M (Found A) :=
  act (λ w, let '(down, w1) := draw_redis w in
            let '(f, c) := Get dec (w_now w1) down (w_cache w1) bucket key in (f, set_cache c w1)).
Definition cachePut (bucket key : string) (v : json) (ttl : Z) : M (option string) :=
  act (λ w, let '(down, w1) := draw_redis w in
            let '(e, c) := Put (w_now w1) down None (w_cache w1) bucket key v ttl in (e, set_cache c w1)).
Definition cacheDelete (bucket key : string) : M (option string) :=
  act (λ w, let '(down, w1) := draw_redis w in
            let '(e, c) := Delete down (w_cache w1) bucket key in (e, set_cache c w1)).
Definition cacheIncInt (bucket key : string) (ttl : Z) : M (Z * option string) :=
  act (λ w, let '(down, w1) := draw_redis w in
            let '(r, c) := IncInt (w_now w1) down (w_cache w1) bucket key ttl in (r, set_cache c w1)).

(** ** Peer locks ([internal/handler/lock.go], [internal/ws/lock.go]) *)
Inductive Locker : Type :=
| NilLocker
| UseRedis (prefix : string)
| UseLocal.

Definition peerLockTTL : Z := 30 * Second.

Definition lockAcquire_step (l : Locker) (key : string) (ttl : Z) (w : World) : Acquired * World :=
  match l with
  | NilLocker => (AcqErr "nil locker", w)
  | UseRedis prefix =>
      let '(rnd, w1) := draw_rnd w in
      let '(down, w2) := draw_redis w1 in
      let '(a, r) := RedisLocker_Acquire true prefix rnd down (w_redis w2) key ttl in
      (a, set_locks r (w_local w2) w2)
  | UseLocal =>
      let '(a, s) := LocalLocker_Acquire (w_local w) key in (a, set_locks (w_redis w) s w)
  end.
Definition lockAcquire (l : Locker) (key : string) (ttl : Z) : M Acquired := act (lockAcquire_step l key ttl).

Definition leaseRelease_step (le : Lease) (w : World) : unit * World :=
  match le with
  | redisLease key token =>
      let '(down, w1) := draw_redis w in
      let '(_, r) := redisLease_Release (w_redis w1) key token down in (tt, set_locks r (w_local w1) w1)
  | localLease key => (tt, set_locks (w_redis w) (localLease_Release (w_local w) key) w)
  end.
Definition leaseRelease (le : Lease) : M unit := act (leaseRelease_step le).

(** [acquirePeerLock]: the lease to release, and whether the key is busy.
    A nil locker and a failing lock server let the operation proceed unlocked. *)
Definition acquirePeerLock (l : Locker) (key : string) : M (option Lease * bool) :=
  match l with
  | NilLocker => mret (None, false)
  | _ =>
      a ← lockAcquire l key peerLockTTL;
      mret (match a with
            | AcqErr _ => (None, false)
            | AcqBusy => (None, true)
            | AcqLease le => (Some le, false)
            end)
  end.
Definition releaseLease (o : option Lease) : M unit :=
  match o with Some le => leaseRelease le | None => mret tt end.

(** The prologue of every locked operation: [busy] is the answer when the key
    is held, and the deferred release runs however [body] returns. *)
Definition withPeerLock {A} (l : Locker) (key : string) (busy : A) (body : M A) : M A :=
  '(le, b) ← acquirePeerLock l key;
  if b : bool then mret busy
  else r ← body; releaseLease le ;; mret r.
