(* ===== verification/Store.v ===== *)
(** * The repositories ([internal/repository/peer.go], [node.go], [metrics.go],
    [settings.go])

    Each method is one statement on the stored rows; the constraints of the
    [peers] table (migrations 004, 018 and 041: primary key, one peer per node
    and ASN, one per node and port, existing node) are enforced where rows are
    written. *)
From S2P Require Import Prelude GoLib Json Model Lock Cache Effects World.
From stdpp Require Import sorting options.
Local Open Scope Z_scope.
Local Open Scope go_scope.

Definition ErrNoRows : string := "sql: no rows in result set".

(** Errors of a writing statement. *)
Inductive dberr : Type :=
| PgUnique (constraint : string)
| PgForeignKey (constraint : string)
| DbOther (msg : string).

Definition err_text (e : dberr) : string :=
  match e with
  | PgUnique c => "ERROR: duplicate key value violates unique constraint " +:+ c +:+ " (SQLSTATE=23505)"
  | PgForeignKey c => "ERROR: insert or update on table peers violates foreign key constraint " +:+ c +:+ " (SQLSTATE=23503)"
  | DbOther m => m
  end.

(** ** Constraints of the [peers] table *)
Definition same_asn (p q : Peer) : Prop :=
  peer_NodeID p = peer_NodeID q ∧ peer_RemoteASN p = peer_RemoteASN q.
Definition same_port (p q : Peer) : Prop :=
  peer_NodeID p = peer_NodeID q ∧ peer_WgListenPort p = peer_WgListenPort q.
#[export] Instance same_asn_dec p q : Decision (same_asn p q).
Proof. unfold same_asn. apply _. Defined.
#[export] Instance same_port_dec p q : Decision (same_port p q).
Proof. unfold same_port. apply _. Defined.

Definition asn_constraint : string := "peers_node_id_remote_asn_key".
Definition port_constraint : string := "peers_node_port_unique".

(** The constraint the row [p] stored under [id] would violate. *)
Definition violation (id : string) (p : Peer) (m : gmap string Peer) : option string :=
  if bool_decide (map_Exists (λ id' q, id' ≠ id ∧ same_asn p q) m) then Some asn_constraint
  else if bool_decide (map_Exists (λ id' q, id' ≠ id ∧ same_port p q) m) then Some port_constraint
  else None.

(** ** Reading peers *)
Definition peer_rows (w : World) : list Peer := snd <$> map_to_list (w_peers w).
Definition newest_first (p q : Peer) : Prop := peer_CreatedAt q ≤ peer_CreatedAt p.
Definition oldest_first (p q : Peer) : Prop := peer_CreatedAt p ≤ peer_CreatedAt q.
Definition by_id (p q : Peer) : Prop := String.le (peer_ID p) (peer_ID q).
#[export] Instance by_id_dec p q : Decision (by_id p q).
Proof. unfold by_id. apply _. Defined.
#[export] Instance newest_first_dec p q : Decision (newest_first p q).
Proof. unfold newest_first. apply _. Defined.
#[export] Instance oldest_first_dec p q : Decision (oldest_first p q).
Proof. unfold oldest_first. apply _. Defined.

(** [FROM peers p JOIN nodes n ON p.node_id = n.id]. *)
Definition with_node (w : World) (p : Peer) : option (Peer * Node) :=
  n ← w_nodes w !! peer_NodeID p; Some (p, n).
Definition join_nodes (w : World) (l : list Peer) : list (Peer * Node) := omap (with_node w) l.

Definition GetByID (ctx : Ctx) (id : string) : M (result Peer) :=
  query ctx (λ w, match w_peers w !! id with Some p => Ok p | None => Err ErrNoRows end).

Definition GetByIDAndASN (ctx : Ctx) (id : string) (asn : Z) : M (result Peer) :=
  query ctx (λ w, match w_peers w !! id with
              | Some p => if peer_RemoteASN p =? asn then Ok p else Err ErrNoRows
              | None => Err ErrNoRows
              end).

Definition GetByIDWithNode (ctx : Ctx) (id : string) : M (result (Peer * Node)) :=
  query ctx (λ w, match w_peers w !! id ≫= with_node w with Some r => Ok r | None => Err ErrNoRows end).

Definition GetByIDAndASNWithNode (ctx : Ctx) (id : string) (asn : Z) : M (result (Peer * Node)) :=
  query ctx (λ w, match w_peers w !! id with
              | Some p =>
                  if peer_RemoteASN p =? asn
                  then match with_node w p with Some r => Ok r | None => Err ErrNoRows end
                  else Err ErrNoRows
              | None => Err ErrNoRows
              end).

Definition ListByASN (ctx : Ctx) (asn : Z) : M (result (list (Peer * Node))) :=
  query ctx (λ w, Ok (join_nodes w
    (merge_sort newest_first (filter (λ p, peer_RemoteASN p = asn) (peer_rows w))))).

Definition ListByNode (ctx : Ctx) (nodeID : string) : M (result (list Peer)) :=
  query ctx (λ w, Ok (filter (λ p, peer_NodeID p = nodeID) (peer_rows w))).

Record PeerContactResult : Type := MkContact { pc_PeerID : string; pc_Email : string; pc_Name : string }.
Definition ListActiveByNode (ctx : Ctx) (nodeID : string) : M (result (list PeerContactResult)) :=
  query ctx (λ w, Ok (map (λ pn : Peer * Node, MkContact (peer_ID pn.1) (peer_ContactEmail pn.1) (node_Name pn.2))
    (join_nodes w (filter (λ p, peer_NodeID p = nodeID ∧ peer_Status p = "active") (peer_rows w))))).

Definition ListAll (ctx : Ctx) : M (result (list Peer)) :=
  query ctx (λ w, Ok (merge_sort oldest_first (peer_rows w))).

Definition ExistsByNodeAndASN (ctx : Ctx) (nodeID : string) (asn : Z) : M (result bool) :=
  query ctx (λ w, Ok (bool_decide (map_Exists (λ _ p, peer_NodeID p = nodeID ∧ peer_RemoteASN p = asn) (w_peers w)))).

Definition ExistsByNodeAndPort (ctx : Ctx) (nodeID : string) (port : Z) : M (result bool) :=
  query ctx (λ w, Ok (bool_decide (map_Exists (λ _ p, peer_NodeID p = nodeID ∧ peer_WgListenPort p = port) (w_peers w)))).

Definition pending_of (asn : Z) (w : World) : list Peer :=
  filter (λ p, peer_RemoteASN p = asn ∧ peer_Status p = "pending") (peer_rows w).
Definition CountPendingByASN (ctx : Ctx) (asn : Z) : M (result Z) :=
  query ctx (λ w, Ok (Z.of_nat (length (pending_of asn w)))).

(** [ResolvePeerIDByNodeAndASN]: "" when no row matches. *)
Definition ResolvePeerIDByNodeAndASN (ctx : Ctx) (nodeID : string) (asn : Z) : M (result string) :=
  query ctx (λ w, Ok (match filter (λ p, peer_NodeID p = nodeID ∧ peer_RemoteASN p = asn) (peer_rows w) with
                  | p :: _ => peer_ID p
                  | [] => ""
                  end)).

(** ** Metrics *)
Definition peer_metrics (w : World) (peerID : string) : list PeerMetric :=
  filter (λ m, pm_PeerID m = peerID) (db_metrics (w_db w)).

Definition QueryPeerMetrics (ctx : Ctx) (peerID : string) (hours : Z) : M (result (list PeerMetric)) :=
  query ctx (λ w, Ok (reverse (filter (λ m, w_now w - hours * Hour < pm_Time m) (peer_metrics w peerID)))).

Definition GetLatestPeerMetricSummary (ctx : Ctx) (peerID : string) : M (result PeerMetric) :=
  query ctx (λ w, match filter (λ m, w_now w - 10 * Minute < pm_Time m) (peer_metrics w peerID) with
              | m :: _ => Ok m
              | [] => Err ErrNoRows
              end).

Definition SummaryByASN (ctx : Ctx) (asn : Z) : M (result (list (string * option PeerMetric))) :=
  query ctx (λ w, Ok (map (λ p, (peer_ID p, head (peer_metrics w (peer_ID p))))
    (merge_sort by_id (filter (λ p, peer_RemoteASN p = asn) (peer_rows w))))).

(** What the columns hold: INTEGER has 32 bits, TIMESTAMPTZ ends with the year
    294276. *)
Definition fits_integer (o : option Z) : bool :=
  match o with Some z => (- 2 ^ 31 <=? z) && (z <? 2 ^ 31) | None => true end.
Definition fits_timestamptz (o : option Z) : bool :=
  match o with Some t => (0 <=? t) && (t <? 9224318016000 * Second) | None => true end.
Definition metric_fits (m : PeerMetric) : bool :=
  fits_timestamptz (pm_LastHandshake m) && fits_integer (pm_RoutesImported m) && fits_integer (pm_RoutesExported m)
  && fits_integer (pm_RoutesPreferred m) && fits_integer (pm_BGPUptimeSecs m).

Section uuids.
(** PostgreSQL's reading of a UUID literal, to the text it prints. *)
Context (uuid_in : string → option string).

(** [InsertPeerMetricFromHeartbeat]: only for a peer of the reporting node. *)
Definition InsertPeerMetricFromHeartbeat (ctx : Ctx) (peerID nodeID : string) (m : PeerMetric) : M (option string) :=
  stmt ctx Some (λ w,
    match uuid_in peerID with
    | None => (Some "invalid input syntax for type uuid", w)
    | Some peerID =>
    if negb (metric_fits m) then (Some "value out of range", w) else
    match w_peers w !! peerID with
    | Some p =>
        if bool_decide (peer_NodeID p = nodeID)
        then (None, set_metrics (MkMetric (w_now w) peerID (pm_RxBytes m) (pm_TxBytes m) (pm_BGPState m) (pm_RttMs m)
                (pm_LastHandshake m) (pm_RoutesImported m) (pm_RoutesExported m) (pm_RoutesPreferred m)
                (pm_BGPUptimeSecs m) (pm_WgActualEndpoint m) :: db_metrics (w_db w)) w)
        else (None, w)
    | None => (None, w)
    end
    end).

(** [MarkPeersActive]: one malformed id fails the statement for all. *)
Definition MarkPeersActive (ctx : Ctx) (ids : list string) (at_ : Z) : M (option string) :=
  match ids with
  | [] => mret None
  | _ => stmt ctx Some (λ w,
      match mapM uuid_in ids with
      | None => (Some "invalid input syntax for type uuid", w)
      | Some ids => (None, set_peers (map_imap (λ id p, Some
           (if bool_decide (id ∈ ids)
            then assign_all [set_LastActiveAt (Some at_); set_InactivityWarningStage 0] p else p)) (w_peers w)) w)
      end)
  end.
End uuids.

(** [InsertNodeMetric]: the column node_id references nodes. *)
Definition InsertNodeMetric (ctx : Ctx) (m : NodeMetric) : M (option string) :=
  stmt ctx Some (λ w,
    if negb (fits_integer (nm_NumGoroutine m)) then (Some "value out of range", w) else
    match w_nodes w !! nm_NodeID m with
    | Some _ => (None, set_node_metrics (m :: db_node_metrics (w_db w)) w)
    | None => (Some "violates foreign key constraint", w)
    end).

(** ** Listing for administrators *)
Record ListParams : Type := MkListParams {
  lp_Status : string;
  lp_NodeID : string;
  lp_ASN : Z;
  lp_Page : Z;
  lp_PageSize : Z
}.
Record AdminPeerListResult : Type := MkAdminPeer {
  ap_Peer : Peer;
  ap_Node : Node;
  ap_Latest : option PeerMetric;
  ap_RxDelta : Z;
  ap_TxDelta : Z
}.

Definition matches_params (ps : ListParams) (p : Peer) : Prop :=
  (lp_Status ps = "" ∨ peer_Status p = lp_Status ps)
  ∧ (lp_ASN ps ≤ 0 ∨ peer_RemoteASN p = lp_ASN ps)
  ∧ (lp_NodeID ps = "" ∨ peer_NodeID p = lp_NodeID ps).
#[export] Instance matches_params_dec ps p : Decision (matches_params ps p).
Proof. unfold matches_params. apply _. Defined.

(** [MAX(x) - MIN(x)], 0 for no rows. *)
Definition spread (l : list Z) : Z :=
  match l with
  | [] => 0
  | x :: l' => foldr Z.max x l' - foldr Z.min x l'
  end.

Definition admin_row (w : World) (pn : Peer * Node) : AdminPeerListResult :=
  let ms := peer_metrics w (peer_ID pn.1) in
  let recent := filter (λ m, w_now w - 24 * Hour < pm_Time m) ms in
  MkAdminPeer pn.1 pn.2 (head ms) (spread (pm_RxBytes <$> recent)) (spread (pm_TxBytes <$> recent)).

Definition List_ (ctx : Ctx) (params : ListParams) : M (result (list AdminPeerListResult * Z)) :=
  let page := if lp_Page params <? 1 then 1 else lp_Page params in
  let size := if lp_PageSize params <? 1 then 20 else lp_PageSize params in
  let rows w := join_nodes w (filter (matches_params params) (peer_rows w)) in
  total ← query ctx (λ w, Ok (Z.of_nat (length (rows w))));
  match total with
  | Err e => mret (Err e)
  | Ok total =>
      r ← query ctx (λ w, Ok (map (admin_row w)
            (take (Z.to_nat size) (drop (Z.to_nat ((page - 1) * size))
              (merge_sort (λ a b : Peer * Node, newest_first a.1 b.1) (rows w))))));
      mret (match r with Err e => Err e | Ok l => Ok (l, total) end)
  end.

(** ** Writing peers *)

(** A value equal to the string "now()" is sent as the SQL function, so a text
    column receives the instant as text. *)
Definition now_or (now : Z) (s : string) : string := if s =s "now()" then timestamptz_text now else s.
Definition sql_column (now : Z) (c : column) : column :=
  match c with
  | set_RemotePubkey s => set_RemotePubkey (now_or now s)
  | set_RemoteEndpoint s => set_RemoteEndpoint (now_or now s)
  | set_RemoteLLA s => set_RemoteLLA (now_or now s)
  | set_Status s => set_Status (now_or now s)
  | set_RejectReason (Some s) => set_RejectReason (Some (now_or now s))
  | c => c
  end.

(** [UPDATE peers SET ... WHERE id = ?]: no row, no effect. *)
Definition update_row (id : string) (cs : World → list column) (w : World) : option string * World :=
  match w_peers w !! id with
  | None => (None, w)
  | Some p =>
      let p' := assign_all (cs w) p in
      match violation id p' (w_peers w) with
      | Some c => (Some (err_text (PgUnique c)), w)
      | None => (None, set_peers (<[id := p']> (w_peers w)) w)
      end
  end.

(** [Create]: the returned row carries the generated id. *)
Definition insert_row (p : Peer) (w : World) : (dberr + Peer) * World :=
  let '(u, w1) := if peer_ID p =s "" then draw_uuid w else (Some (peer_ID p), w) in
  match u with
  | None => (inl (DbOther "gen_random_uuid"), w1)
  | Some id =>
      let stamp t := if t =? 0 then w_now w else t in
      let p' := assign_all [set_ID id; set_CreatedAt (stamp (peer_CreatedAt p));
                            set_UpdatedAt (stamp (peer_UpdatedAt p))] p in
      if bool_decide (is_Some (w_peers w1 !! id)) then (inl (PgUnique "peers_pkey"), w1)
      else match violation id p' (w_peers w1) with
           | Some c => (inl (PgUnique c), w1)
           | None =>
               if bool_decide (is_Some (w_nodes w1 !! peer_NodeID p))
               then (inr p', set_peers (<[id := p']> (w_peers w1)) w1)
               else (inl (PgForeignKey "peers_node_id_fkey"), w1)
           end
  end.
Definition Create (ctx : Ctx) (p : Peer) : M (dberr + Peer) :=
  stmt ctx (λ e, inl (DbOther e)) (insert_row p).

(** [UpdateFields]; every caller's map also holds [updated_at: now()]. *)
Definition UpdateFields (ctx : Ctx) (id : string) (fields : list column) : M (option string) :=
  stmt ctx Some (update_row id (λ w, set_UpdatedAt (w_now w) :: map (sql_column (w_now w)) fields)).
Definition UpdateStatus (ctx : Ctx) (id status : string) (opts : list column) : M (option string) :=
  UpdateFields ctx id (set_Status status :: opts).
Definition WithRejectReason (reason : string) : column := set_RejectReason (Some reason).

Definition UpdateContactEmail (ctx : Ctx) (id email : string) : M (option string) :=
  stmt ctx Some (update_row id (λ w, [set_ContactEmail email; set_UpdatedAt (w_now w)])).

Definition Delete_ (ctx : Ctx) (id : string) : M (option string) :=
  stmt ctx Some (λ w, (None, set_peers (delete id (w_peers w)) w)).

(** The row an import writes: absent columns take their defaults. *)
Definition import_row (now : Z) (p : Peer) (mtu : option Z) (psk : option string) (status : string) : Peer :=
  MkPeer "" (peer_NodeID p) (peer_RemoteASN p) (peer_RemotePubkey p) (peer_RemoteEndpoint p) (peer_RemoteLLA p)
    (peer_ContactEmail p) (peer_WgListenPort p) (peer_WgInterfaceName p) (peer_BgpProtoName p)
    (peer_BirdConfigFilename p) (peer_WgManaged p) mtu psk status None None false None 0 now now.

(** The row an [INSERT ... ON CONFLICT (node_id, remote_asn)] runs into. *)
Definition conflicting (p : Peer) (w : World) : option Peer :=
  head (filter (λ q, same_asn p q) (peer_rows w)).

(** [ImportPeer]: "" when a peer of that node and ASN exists. *)
Definition ImportPeer (ctx : Ctx) (p : Peer) : M (result string) :=
  stmt ctx Err (λ w,
    match conflicting p w with
    | Some _ => (Ok "", w)
    | None =>
        let '(r, w') := insert_row (import_row (w_now w) p None None "active") w in
        (match r with inl e => Err (err_text e) | inr q => Ok (peer_ID q) end, w')
    end).

Inductive ImportAction : Type := Imported | Overwritten | Skipped.

(** [ImportPeerFull]: the action taken and the id of the row. *)
Definition ImportPeerFull (ctx : Ctx) (p : Peer) (overwrite : bool) : M (result (ImportAction * string)) :=
  let status := if peer_Status p =s "" then "pending" else peer_Status p in
  stmt ctx Err (λ w,
    match conflicting p w with
    | None =>
        let '(r, w') := insert_row (import_row (w_now w) p (peer_MTU p) (peer_WgPreSharedKey p) status) w in
        (match r with inl e => Err (err_text e) | inr q => Ok (Imported, peer_ID q) end, w')
    | Some q =>
        if overwrite then
          let '(e, w') := update_row (peer_ID q) (λ w,
            [set_RemotePubkey (peer_RemotePubkey p); set_RemoteEndpoint (peer_RemoteEndpoint p);
             set_RemoteLLA (peer_RemoteLLA p); set_ContactEmail (peer_ContactEmail p);
             set_WgListenPort (peer_WgListenPort p); set_WgInterfaceName (peer_WgInterfaceName p);
             set_BgpProtoName (peer_BgpProtoName p); set_BirdConfigFilename (peer_BirdConfigFilename p);
             set_WgManaged (peer_WgManaged p); set_MTU (peer_MTU p);
             set_WgPreSharedKey (peer_WgPreSharedKey p); set_Status status; set_UpdatedAt (w_now w)]) w in
          (match e with Some m => Err m | None => Ok (Overwritten, peer_ID q) end, w')
        else (Ok (Skipped, ""), w)
    end).

(** ** Endpoint verification and inactivity columns *)
Record PeerEndpointCheck : Type := MkEndpointCheck {
  pe_PeerID : string;
  pe_NodeID : string;
  pe_RemoteASN : Z;
  pe_RemoteEndpoint : string;
  pe_WgActualEndpoint : string;
  pe_BgpProtoName : string;
  pe_ContactEmail : string;
  pe_NodeName : string;
  pe_EndpointMismatchSince : option Z;
  pe_BGPSuspendedByEndpoint : bool
}.

Definition endpoint_check (actual : string) (pn : Peer * Node) : PeerEndpointCheck :=
  MkEndpointCheck (peer_ID pn.1) (peer_NodeID pn.1) (peer_RemoteASN pn.1) (peer_RemoteEndpoint pn.1) actual
    (peer_BgpProtoName pn.1) (peer_ContactEmail pn.1) (node_Name pn.2) (peer_EndpointMismatchSince pn.1)
    (peer_BGPSuspendedByEndpoint pn.1).
(** The newest reported endpoint of a peer, "" when none was. *)
Definition latest_actual (w : World) (peerID : string) : string :=
  match filter (λ m, pm_WgActualEndpoint m ≠ "") (peer_metrics w peerID) with
  | m :: _ => pm_WgActualEndpoint m
  | [] => ""
  end.

Definition ListActivePeersForEndpointCheck (ctx : Ctx) : M (result (list PeerEndpointCheck)) :=
  query ctx (λ w, Ok (map (λ pn : Peer * Node, endpoint_check (latest_actual w (peer_ID pn.1)) pn)
    (join_nodes w (merge_sort by_id
      (filter (λ p, peer_Status p = "active" ∧ peer_RemoteEndpoint p ≠ "") (peer_rows w)))))).
Definition ListPeersSuspendedByEndpoint (ctx : Ctx) : M (result (list PeerEndpointCheck)) :=
  query ctx (λ w, Ok (map (endpoint_check "")
    (join_nodes w (merge_sort by_id
      (filter (λ p, peer_BGPSuspendedByEndpoint p = true ∧ peer_Status p = "active") (peer_rows w)))))).
Definition SetEndpointMismatchSince (ctx : Ctx) (id : string) (since : option Z) : M (option string) :=
  stmt ctx Some (update_row id (λ _, [set_EndpointMismatchSince since])).
Definition SetBGPSuspendedByEndpoint (ctx : Ctx) (id : string) (b : bool) : M (option string) :=
  stmt ctx Some (update_row id (λ _, [set_BGPSuspendedByEndpoint b])).

Record InactivePeer : Type := MkInactive {
  ip_PeerID : string;
  ip_NodeID : string;
  ip_RemoteASN : Z;
  ip_ContactEmail : string;
  ip_Stage : Z;
  ip_NodeName : string;
  ip_Inactive : Z      (* how long inactive, in nanoseconds *)
}.
Definition longest_first (a b : InactivePeer) : Prop := ip_Inactive b ≤ ip_Inactive a.
#[export] Instance longest_first_dec a b : Decision (longest_first a b).
Proof. unfold longest_first. apply _. Defined.
Definition inactive_for (now : Z) (p : Peer) : Z := now - default (peer_UpdatedAt p) (peer_LastActiveAt p).
Definition ListInactiveActivePeers (ctx : Ctx) : M (result (list InactivePeer)) :=
  query ctx (λ w, Ok (merge_sort longest_first
    (map (λ pn : Peer * Node, MkInactive (peer_ID pn.1) (peer_NodeID pn.1) (peer_RemoteASN pn.1)
        (peer_ContactEmail pn.1) (peer_InactivityWarningStage pn.1) (node_Name pn.2)
        (inactive_for (w_now w) pn.1))
      (join_nodes w (filter (λ p, peer_Status p = "active") (peer_rows w)))))).

Definition SetInactivityWarningStage (ctx : Ctx) (id : string) (stage : Z) : M (option string) :=
  stmt ctx Some (update_row id (λ _, [set_InactivityWarningStage stage])).
Definition DeleteInactive (ctx : Ctx) (id : string) : M (result bool) :=
  stmt ctx Err (λ w,
    match w_peers w !! id with
    | Some p => if peer_InactivityWarningStage p =? 3
                then (Ok true, set_peers (delete id (w_peers w)) w) else (Ok false, w)
    | None => (Ok false, w)
    end).

(** ** Nodes *)
Definition upd_node (f : Node → Node) (id : string) (w : World) : World :=
  set_nodes (alter f id (w_nodes w)) w.

Definition set_agent (pubkey : string) (online : bool) (version state : string) (changed : Z) (n : Node) : Node :=
  MkNode (node_ID n) (node_Name n) (node_Location n) (node_AgentToken n) pubkey (node_PublicIP n) (node_OurASN n)
    (node_OurLLA n) (node_OurWgPubkey n) (node_BirdPeerDir n) (node_WgDir n) (node_WgPortPrefix n) online
    (node_Enabled n) version state changed (node_CreatedAt n).

Definition node_rows (w : World) : list Node := snd <$> map_to_list (w_nodes w).
Definition by_name (a b : Node) : Prop := String.le (node_Name a) (node_Name b).
#[export] Instance by_name_dec a b : Decision (by_name a b).
Proof. unfold by_name. apply _. Defined.

Definition Node_GetByID (ctx : Ctx) (id : string) : M (result Node) :=
  query ctx (λ w, match w_nodes w !! id with Some n => Ok n | None => Err ErrNoRows end).
Definition Node_GetByAgentToken (ctx : Ctx) (token : string) : M (result Node) :=
  query ctx (λ w, match filter (λ n, node_AgentToken n = token ∧ node_Enabled n = true) (node_rows w) with
              | n :: _ => Ok n
              | [] => Err ErrNoRows
              end).
Definition Node_List (ctx : Ctx) : M (result (list Node)) :=
  query ctx (λ w, Ok (merge_sort by_name (node_rows w))).
Definition Node_ListEnabled (ctx : Ctx) : M (result (list Node)) :=
  query ctx (λ w, Ok (merge_sort by_name (filter (λ n, node_Enabled n = true) (node_rows w)))).
Definition Node_SetOnline (ctx : Ctx) (id : string) (online : bool) : M (option string) :=
  stmt ctx Some (λ w, (None, upd_node (λ n, set_agent (node_AgentPubkey n) online (node_AgentVersion n)
    (node_AgentState n) (node_AgentStateChangedAt n) n) id w)).
Definition Node_SetAgentState (ctx : Ctx) (id state : string) : M (option string) :=
  stmt ctx Some (λ w, (None, upd_node (λ n, set_agent (node_AgentPubkey n) (state =s "online") (node_AgentVersion n)
    state (w_now w) n) id w)).
Definition Node_SetAgentVersion (ctx : Ctx) (id version : string) : M (option string) :=
  stmt ctx Some (λ w, (None, upd_node (λ n, set_agent (node_AgentPubkey n) true version "online"
    (node_AgentStateChangedAt n) n) id w)).
Definition Node_ResetAgentPubkey (ctx : Ctx) (id : string) : M (option string) :=
  stmt ctx Some (λ w, (None, upd_node (λ n, set_agent "" (node_Online n) (node_AgentVersion n)
    (node_AgentState n) (node_AgentStateChangedAt n) n) id w)).
(** Only an empty key is replaced. *)
Definition Node_SetAgentPubkey (ctx : Ctx) (id pubkey : string) : M (option string) :=
  stmt ctx Some (λ w, (None, upd_node (λ n,
    if node_AgentPubkey n =s ""
    then set_agent pubkey (node_Online n) (node_AgentVersion n) (node_AgentState n) (node_AgentStateChangedAt n) n
    else n) id w)).
Definition Node_GetAgentPubkey (ctx : Ctx) (id : string) : M (result string) :=
  query ctx (λ w, match w_nodes w !! id with
              | Some n => if node_Enabled n then Ok (node_AgentPubkey n) else Err ErrNoRows
              | None => Err ErrNoRows
              end).
Definition Node_GetField (ctx : Ctx) (id field : string) : M (result string) :=
  query ctx (λ w, match w_nodes w !! id with
              | Some n =>
                  Ok (if field =s "name" then node_Name n
                      else if field =s "location" then node_Location n
                      else if field =s "agent_version" then node_AgentVersion n
                      else if field =s "agent_state" then node_AgentState n
                      else "")
              | None => Err ErrNoRows
              end).
(** One transaction: both deletes happen or neither. *)
Definition Node_DeleteWithPeers (ctx : Ctx) (id : string) : M (option string) :=
  stmt ctx Some (λ w,
    let w1 := set_peers (filter (λ kp, peer_NodeID kp.2 ≠ id) (w_peers w)) w in
    (None, set_nodes (delete id (w_nodes w1)) w1)).
Definition Node_MarkStaleUpdating (ctx : Ctx) : M (option string) :=
  stmt ctx Some (λ w, (None, set_nodes ((λ n,
    if bool_decide (node_AgentState n = "updating" ∧ node_AgentStateChangedAt n < w_now w - 5 * Minute)
    then set_agent (node_AgentPubkey n) false (node_AgentVersion n) "offline" (node_AgentStateChangedAt n) n
    else n) <$> w_nodes w) w)).

(** ** Settings, read through the cache ([internal/handler/admin.go]) *)
Definition GetSiteSetting (ctx : Ctx) (key : string) : M (result string) :=
  query ctx (λ w, match db_site (w_db w) !! key with Some v => Ok v | None => Err ErrNoRows end).
Definition GetNotificationSetting (ctx : Ctx) (key : string) : M (result string) :=
  query ctx (λ w, match db_notif (w_db w) !! key with Some v => Ok v.1 | None => Err ErrNoRows end).
Definition GetNotificationThreshold (ctx : Ctx) (key : string) : M (result string) :=
  query ctx (λ w, match db_notif (w_db w) !! key with Some v => Ok v.2 | None => Err ErrNoRows end).

(** A value cached for 30 seconds; a failing query reads (and caches) "". *)
Definition cached_setting (read : Ctx → string → M (result string)) (prefix key : string) : M string :=
  f ← cacheGet dec_str BucketSettings (SettingKey prefix key);
  if f_ok f then mret (default "" (f_val f))
  else
    now ← now_;
    r ← read (Some (now + 2 * Second)) key;
    let val := match r with Ok v => v | Err _ => "" end in
    _ ← cachePut BucketSettings (SettingKey prefix key) (JStr val) (30 * Second);
    mret val.
Definition GetSiteSettingValue (key : string) : M string := cached_setting GetSiteSetting SiteSettingVal key.
Definition GetSettingValue (key : string) : M string := cached_setting GetNotificationSetting SettingVal key.
Definition GetSettingThreshold (key : string) : M string := cached_setting GetNotificationThreshold SettingThr key.

(** ** Bot bindings *)
Definition Binding_GetByTgUserID (ctx : Ctx) (tg : Z) : M (result Z) :=
  query ctx (λ w, match db_bindings (w_db w) !! tg with Some asn => Ok asn | None => Err ErrNoRows end).
Definition Binding_GetByASN (ctx : Ctx) (asn : Z) : M (result Z) :=
  query ctx (λ w, match filter (λ ta : Z * Z, ta.2 = asn) (map_to_list (db_bindings (w_db w))) with
              | ta :: _ => Ok ta.1
              | [] => Err ErrNoRows
              end).
