(* ===== verification/Rely.v ===== *)
(** * Programs on the store among other programs

    The invariant of the stored rows, how the world may evolve under anybody's
    actions, and a small logic of triples: [triple Gp Ge P p Q] says that [p],
    started where [P] holds and interleaved with any programs that respect
    [evolves], changes peer rows only as [Gp] allows, emits only events
    satisfying [Ge], and ends where [Q] holds. *)
From S2P Require Import Prelude GoLib Json Model Lock Cache Effects World Store.
From stdpp Require Import options.
Local Open Scope Z_scope.
Local Open Scope go_scope.

(** ** The invariant of the rows *)
Record db_ok (w : World) : Prop := {
  ok_keyed : ∀ id p, w_peers w !! id = Some p → peer_ID p = id;
  ok_asn : ∀ id id' p q, w_peers w !! id = Some p → w_peers w !! id' = Some q → same_asn p q → id = id';
  ok_port : ∀ id id' p q, w_peers w !! id = Some p → w_peers w !! id' = Some q → same_port p q → id = id';
  ok_uuid : ∀ id, id ∈ w_uuid w → w_peers w !! id = None ∧ id ≠ "";
  ok_fresh : NoDup (w_uuid w)
}.

(** ** How the world evolves: a row keeps its node and ASN as long as it
    exists, and rows appear only under UUIDs not drawn before. *)
Definition same_key (p q : Peer) : Prop :=
  peer_ID p = peer_ID q ∧ peer_NodeID p = peer_NodeID q ∧ peer_RemoteASN p = peer_RemoteASN q.

Record evolves (w w' : World) : Prop := {
  ev_ok : db_ok w → db_ok w';
  ev_rows : ∀ id p', w_peers w' !! id = Some p' →
    (∃ p, w_peers w !! id = Some p ∧ same_key p p') ∨ id ∈ w_uuid w;
  ev_uuid : w_uuid w' `suffix_of` w_uuid w
}.

#[export] Instance evolves_preorder : PreOrder evolves.
Proof.
  split.
  - intros w. split; [done| |done]. intros id p H. left. exists p. by split_and!.
  - intros w1 w2 w3 [O1 R1 U1] [O2 R2 U2]. split.
    + auto.
    + intros id p H. destruct (R2 id p H) as [(q & Hq & K1)|Hin].
      * destruct (R1 id q Hq) as [(q' & Hq' & K2)|Hin]; [|by right].
        left. exists q'. split; [done|]. unfold same_key in *. naive_solver congruence.
      * right. destruct U1 as [k ->]. set_solver.
    + by etransitivity.
Qed.

(** An id already in use, or used and deleted, belongs to one ASN for good. *)
Definition owned (asn : Z) (id : string) (w : World) : Prop :=
  id ∉ w_uuid w ∧ ∀ p, w_peers w !! id = Some p → peer_RemoteASN p = asn.

Lemma owned_row w id p : db_ok w → w_peers w !! id = Some p → owned (peer_RemoteASN p) id w.
Proof.
  intros Hok Hp. split.
  - intros Hin. destruct (ok_uuid w Hok id Hin). congruence.
  - intros q Hq. congruence.
Qed.

Lemma owned_evolves asn id w w' : evolves w w' → owned asn id w → owned asn id w'.
Proof.
  intros [_ R U] [Hn Ho]. split; [destruct U as [k Hk]; rewrite Hk in Hn; set_solver|].
  intros p' Hp'. destruct (R id p' Hp') as [(p & Hp & _ & _ & E)|]; [|done].
  rewrite <-E. by apply Ho.
Qed.

(** ** Triples *)
Class Stable (P : World → Prop) : Prop := stable w w' : evolves w w' → P w → P w'.
#[export] Instance Stable_const (φ : Prop) : Stable (λ _, φ).
Proof. by intros w w' _. Qed.
#[export] Instance Stable_owned asn id : Stable (owned asn id).
Proof. intros w w'. apply owned_evolves. Qed.
#[export] Instance Stable_and P Q `{!Stable P, !Stable Q} : Stable (λ w, P w ∧ Q w).
Proof. intros w w' He [? ?]. split; by eapply stable. Qed.

Section triple.
Context (Gp : gmap string Peer → gmap string Peer → Prop) (Ge : event → Prop).
Context `{!Reflexive Gp}.
Set Default Proof Using "Type*".

Definition guar (w w' : World) : Prop :=
  evolves w w' ∧ Gp (w_peers w) (w_peers w')
  ∧ ∃ evs, w_log w' = w_log w ++ evs ∧ Forall Ge evs.

Definition triple {A} (P : World → Prop) (p : M A) (Q : A → World → Prop) : Prop :=
  ∀ w, db_ok w → P w → safe evolves guar (λ a w', db_ok w' ∧ Q a w') p w.

Lemma triple_ret {A} P (a : A) (Q : A → World → Prop) :
  (∀ w, P w → Q a w) → triple P (mret a) Q.
Proof. intros H w Hok HP. by split; [|apply H]. Qed.

Lemma triple_bind {A B} P (p : M A) (g : A → M B) Q1 Q :
  triple P p Q1 → (∀ a, triple (Q1 a) (g a) Q) → triple P (p ≫= g) Q.
Proof.
  intros Hp Hg w Hok HP. eapply (safe_bind evolves); [by apply Hp|].
  intros a w' [Hok' HQ]. by apply Hg.
Qed.

Lemma triple_act {R} `{!Stable P} (f : World → R * World) (Q : R → World → Prop) :
  (∀ w, db_ok w → P w → guar w (f w).2 ∧ Q (f w).1 (f w).2) → triple P (act f) Q.
Proof.
  intros H w Hok HP w1 Hev. assert (db_ok w1) as Hok1 by by apply Hev.
  destruct (H w1 Hok1) as [Hg HQ]; [by eapply stable|].
  split; [done|]. split; [|done]. by apply Hg.
Qed.

Lemma triple_pure {A} (φ : Prop) P (p : M A) Q :
  (φ → triple P p Q) → triple (λ w, φ ∧ P w) p Q.
Proof. intros H w Hok [Hφ HP]. by apply H. Qed.

Lemma triple_weaken {A} (P P' : World → Prop) (p : M A) (Q Q' : A → World → Prop) :
  (∀ w, P w → P' w) → (∀ a w, Q' a w → Q a w) → triple P' p Q' → triple P p Q.
Proof.
  intros HP HQ H w Hok Hw. eapply (safe_weaken evolves); [done| |apply H; auto].
  intros a w' [? ?]. auto.
Qed.

Lemma triple_foldM {A B} P (body : B → A → M B) (l : list A) acc :
  (∀ acc x, triple P (body acc x) (λ _, P)) → triple P (foldM body acc l) (λ _, P).
Proof.
  intros H. revert acc. induction l as [|x l IH]; intros acc; [by apply triple_ret|].
  eapply triple_bind; [apply H|]. intros acc'. apply IH.
Qed.

Lemma triple_forM {A} P (body : A → M unit) (l : list A) :
  (∀ x, triple P (body x) (λ _, P)) → triple P (forM l body) (λ _, P).
Proof.
  intros H. induction l as [|x l IH]; [by apply triple_ret|].
  eapply triple_bind; [apply H|]. intros ?. apply IH.
Qed.

(** *** Steps that leave the rows alone *)
Definition quiet (w w' : World) : Prop := w_db w' = w_db w ∧ w_uuid w' = w_uuid w.

Lemma quiet_evolves w w' : quiet w w' → evolves w w'.
Proof.
  intros [Hd Hu]. unfold w_peers in *. split.
  - intros [K A O U N]. split; unfold w_peers in *; rewrite ?Hd, ?Hu; done.
  - unfold w_peers. rewrite Hd. intros id p H. left. exists p. by split_and!.
  - by rewrite Hu.
Qed.

Lemma quiet_stable P `{!Stable P} w w' : quiet w w' → P w → P w'.
Proof. intros Hq. apply stable. by apply quiet_evolves. Qed.

Lemma quiet_guar w w' evs :
  quiet w w' → w_log w' = w_log w ++ evs → Forall Ge evs → guar w w'.
Proof.
  intros Hq Hl Hf. split_and!; [by apply quiet_evolves| |by exists evs].
  unfold w_peers. destruct Hq as [-> _]. done.
Qed.

Lemma triple_quiet {R} `{!Stable P} (f : World → R * World) :
  (∀ w, quiet w (f w).2 ∧ ∃ evs, w_log (f w).2 = w_log w ++ evs ∧ Forall Ge evs) →
  triple P (act f) (λ _, P).
Proof.
  intros H. apply triple_act. intros w Hok HP. destruct (H w) as (Hq & evs & Hl & Hf).
  split; [by eapply quiet_guar|]. eapply stable; [by apply quiet_evolves|done].
Qed.

(** A failing statement, or a deadline, is quiet. *)
Lemma draw_db_quiet w : quiet w (draw_db w).2 ∧ w_log (draw_db w).2 = w_log w.
Proof. unfold draw_db. by destruct (e_db (w_ext w)). Qed.

Lemma triple_stmt {R} `{!Stable P} ctx (onerr : string → R) (f : World → R * World) Q :
  (∀ e w, P w → Q (onerr e) w) →
  (∀ w, db_ok w → P w → guar w (f w).2 ∧ Q (f w).1 (f w).2) →
  triple P (stmt ctx onerr f) Q.
Proof.
  intros He H. apply triple_act. intros w Hok HP. unfold stmt_step.
  assert (guar w w) as Hrefl by (by apply quiet_guar with []; rewrite ?app_nil_r).
  destruct (expired ctx (w_now w)); [by split; [|apply He]|].
  destruct (draw_db w) as [[e|] w'] eqn:E; pose proof (draw_db_quiet w) as [Hq Hl]; rewrite E in *; simpl in *.
  - split; [|apply He; eapply stable; [by apply quiet_evolves|done]].
    apply quiet_guar with []; rewrite ?app_nil_r; done.
  - assert (evolves w w') as Hev by by apply quiet_evolves.
    destruct (H w') as [(G1 & G2 & evs & G3 & G4) HQ]; [by apply Hev|by eapply stable|].
    split; [|done]. split_and!.
    + by etransitivity.
    + unfold w_peers in *. destruct Hq as [Hdb _]. by rewrite <-Hdb.
    + exists evs. by rewrite <-Hl.
Qed.

Lemma guar_refl w : guar w w.
Proof. apply quiet_guar with []; rewrite ?app_nil_r; done. Qed.

Lemma triple_query {R} `{!Stable P} ctx (f : World → result R) :
  triple P (query ctx f) (λ _, P).
Proof. apply triple_stmt; [done|]. intros w Hok HP. by split; [apply guar_refl|]. Qed.

Lemma triple_gets {R} `{!Stable P} (f : World → R) : triple P (gets f) (λ _, P).
Proof. apply triple_quiet. intros w. split; [done|]. exists []. by rewrite app_nil_r. Qed.

Lemma triple_emit `{!Stable P} evs : Forall Ge evs → triple P (modify (emit evs)) (λ _, P).
Proof. intros H. apply triple_quiet. intros w. split; [done|]. by exists evs. Qed.

Lemma triple_sendMail `{!Stable P} t tmpl vars :
  Ge (EvMail t tmpl vars) → triple P (sendMail t tmpl vars) (λ _, P).
Proof. intros. apply triple_emit. by constructor. Qed.
Lemma triple_notifyPeerBot `{!Stable P} a k ev d :
  Ge (EvBotPeer a k ev d) → triple P (notifyPeerBot a k ev d) (λ _, P).
Proof. intros. apply triple_emit. by constructor. Qed.
Lemma triple_notifyBotAdmin `{!Stable P} ev d :
  Ge (EvBotAdmin ev d) → triple P (notifyBotAdmin ev d) (λ _, P).
Proof. intros. apply triple_emit. by constructor. Qed.

Lemma triple_notifyBotUser `{!Stable P} t ev d :
  Ge (EvBotUser t ev d) → triple P (notifyBotUser t ev d) (λ _, P).
Proof. intros. apply triple_emit. by constructor. Qed.

Lemma triple_audit `{!Stable P} ctx a o t d :
  Ge (EvAudit a o t d) → triple P (auditLog ctx a o t d) (λ _, P).
Proof.
  intros HG. apply triple_stmt; [done|]. intros w Hok HP.
  split; [|by apply (quiet_stable P w)].
  apply quiet_guar with [EvAudit a o t d]; [done|done|by constructor].
Qed.

Lemma triple_SendCommand `{!Stable P} n c :
  (∀ a, Ge (EvCmd n c a)) → triple P (SendCommand n c) (λ _, P).
Proof.
  intros HG. apply triple_quiet. intros w. unfold SendCommand_step.
  case_bool_decide; [|split; [done|]; exists []; by rewrite app_nil_r].
  unfold draw_agent. destruct (e_agent (w_ext w)) as [|[d a] l]; simpl;
    (split; [done|]; eexists; split; [done|]; by constructor).
Qed.

Lemma draw_redis_quiet w : quiet w (draw_redis w).2 ∧ w_log (draw_redis w).2 = w_log w.
Proof. unfold draw_redis. by destruct (e_redis (w_ext w)). Qed.
Lemma draw_rnd_quiet w : quiet w (draw_rnd w).2 ∧ w_log (draw_rnd w).2 = w_log w.
Proof. unfold draw_rnd. by destruct (e_rnd (w_ext w)). Qed.

Lemma triple_cache {R} `{!Stable P} (f : option string → World → R * Cache) :
  triple P (act (λ w, let '(down, w1) := draw_redis w in
                      let '(r, c) := f down w1 in (r, set_cache c w1))) (λ _, P).
Proof.
  apply triple_quiet. intros w. pose proof (draw_redis_quiet w) as [Hq Hl].
  destruct (draw_redis w) as [down w1]. destruct (f down w1) as [r c]. simpl in *.
  split; [done|]. exists []. by rewrite app_nil_r.
Qed.
Lemma triple_cacheGet {X} `{!Stable P} (dec : json → option X) b k : triple P (cacheGet dec b k) (λ _, P).
Proof. apply (triple_cache (λ down w1, Get dec (w_now w1) down (w_cache w1) b k)). Qed.
Lemma triple_cachePut `{!Stable P} b k v t : triple P (cachePut b k v t) (λ _, P).
Proof. apply (triple_cache (λ down w1, Put (w_now w1) down None (w_cache w1) b k v t)). Qed.
Lemma triple_cacheDelete `{!Stable P} b k : triple P (cacheDelete b k) (λ _, P).
Proof. apply (triple_cache (λ down w1, Cache.Delete down (w_cache w1) b k)). Qed.
Lemma triple_cacheIncInt `{!Stable P} b k t : triple P (cacheIncInt b k t) (λ _, P).
Proof. apply (triple_cache (λ down w1, IncInt (w_now w1) down (w_cache w1) b k t)). Qed.

Lemma triple_rand_read `{!Stable P} : triple P rand_read (λ _, P).
Proof.
  apply triple_quiet. intros w. destruct (draw_rnd_quiet w) as [? ->].
  split; [done|]. exists []. by rewrite app_nil_r.
Qed.

Lemma triple_lockAcquire `{!Stable P} l k t : triple P (lockAcquire l k t) (λ _, P).
Proof.
  apply triple_quiet. intros w. unfold lockAcquire_step. destruct l as [|pre|].
  - split; [done|]. exists []. by rewrite app_nil_r.
  - pose proof (draw_rnd_quiet w) as [Hq Hl]. destruct (draw_rnd w) as [rnd w1].
    pose proof (draw_redis_quiet w1) as [Hq1 Hl1]. destruct (draw_redis w1) as [down w2].
    destruct (RedisLocker_Acquire _ _ _ _ _ _ _) as [a r]. simpl in *.
    split; [by destruct Hq, Hq1; split; etransitivity|]. exists []. rewrite app_nil_r. split; [congruence|done].
  - destruct (LocalLocker_Acquire _ _) as [a s]. split; [done|]. exists []. by rewrite app_nil_r.
Qed.
Lemma triple_leaseRelease `{!Stable P} le : triple P (leaseRelease le) (λ _, P).
Proof.
  apply triple_quiet. intros w. unfold leaseRelease_step. destruct le as [k tok|k].
  - pose proof (draw_redis_quiet w) as [Hq Hl]. destruct (draw_redis w) as [down w1].
    destruct (redisLease_Release _ _ _ _) as [e r]. simpl in *.
    split; [done|]. exists []. by rewrite app_nil_r.
  - split; [done|]. exists []. by rewrite app_nil_r.
Qed.

Lemma triple_acquirePeerLock `{!Stable P} l k : triple P (acquirePeerLock l k) (λ _, P).
Proof.
  unfold acquirePeerLock. destruct l; [by apply triple_ret|..];
    (eapply triple_bind; [by apply triple_lockAcquire|]; intros a; by apply triple_ret).
Qed.

Lemma triple_withPeerLock {A} `{!Stable P} l k (busy : A) (body : M A) :
  triple P body (λ _, P) → triple P (withPeerLock l k busy body) (λ _, P).
Proof.
  intros H. eapply triple_bind; [by apply triple_acquirePeerLock|]. intros [le b].
  cbn beta iota. destruct b; [by apply triple_ret|]. eapply triple_bind; [exact H|]. intros r.
  apply (triple_bind P _ _ (λ _, P)); [|intros ?; by apply triple_ret].
  destruct le; [by apply triple_leaseRelease|by apply triple_ret].
Qed.

Lemma triple_cached_setting `{!Stable P} read prefix key :
  (∀ ctx k, triple P (read ctx k) (λ _, P)) → triple P (cached_setting read prefix key) (λ _, P).
Proof.
  intros H. eapply triple_bind; [by apply triple_cacheGet|]. intros f. cbn beta.
  destruct (f_ok f); [by apply triple_ret|].
  eapply triple_bind; [by apply triple_gets|]. intros now. eapply triple_bind; [apply H|]. intros r.
  eapply triple_bind; [by apply triple_cachePut|]. intros ?. by apply triple_ret.
Qed.
End triple.

(** ** Rows written *)
Lemma violation_None id p m :
  violation id p m = None ↔ ∀ id' q, m !! id' = Some q → id' ≠ id → ¬ same_asn p q ∧ ¬ same_port p q.
Proof.
  unfold violation. case_bool_decide as H1; [|case_bool_decide as H2].
  - split; [done|]. intros H. destruct H1 as (id' & q & Hq & Hne & Ha). by destruct (H id' q Hq Hne).
  - split; [done|]. intros H. destruct H2 as (id' & q & Hq & Hne & Ha). by destruct (H id' q Hq Hne).
  - split; [|done]. intros _ id' q Hq Hne. split; intros Hs.
    + apply H1. by exists id', q.
    + apply H2. by exists id', q.
Qed.

Lemma same_asn_sym p q : same_asn p q → same_asn q p.
Proof. intros [? ?]. by split. Qed.
Lemma same_port_sym p q : same_port p q → same_port q p.
Proof. intros [? ?]. by split. Qed.

Lemma set_peers_uuid m w : w_uuid (set_peers m w) = w_uuid w.
Proof. done. Qed.
Lemma set_peers_peers m w : w_peers (set_peers m w) = m.
Proof. done. Qed.

Lemma db_ok_put w id p :
  db_ok w → peer_ID p = id → id ∉ w_uuid w → violation id p (w_peers w) = None →
  db_ok (set_peers (<[id := p]> (w_peers w)) w).
Proof.
  intros [K A O U N] Hid Hin Hv. rewrite violation_None in Hv.
  split; rewrite ?set_peers_uuid, ?set_peers_peers.
  - intros id' q. rewrite lookup_insert. case_decide; naive_solver.
  - intros i j q r. rewrite !lookup_insert. do 2 case_decide; intros; simplify_eq; try done; [| |by eauto].
    + by destruct (Hv j r).
    + destruct (Hv i q); [done..|]. by exfalso; eauto using same_asn_sym.
  - intros i j q r. rewrite !lookup_insert. do 2 case_decide; intros; simplify_eq; try done; [| |by eauto].
    + by destruct (Hv j r).
    + destruct (Hv i q); [done..|]. by exfalso; eauto using same_port_sym.
  - intros i Hi. destruct (U i Hi). rewrite lookup_insert_ne by congruence. done.
  - done.
Qed.

Lemma db_ok_sub w m : db_ok w → m ⊆ w_peers w → db_ok (set_peers m w).
Proof.
  intros [K A O U N] Hm.
  assert (∀ i p, m !! i = Some p → w_peers w !! i = Some p) as H by (intros; by eapply lookup_weaken).
  split; rewrite ?set_peers_uuid, ?set_peers_peers; [by eauto..| |done].
  intros i Hi. destruct (U i Hi) as [Hn He]. split; [|done].
  destruct (m !! i) as [p|] eqn:E; [|done]. apply H in E. congruence.
Qed.

Lemma evolves_put w id p p' :
  w_peers w !! id = Some p → same_key p p' → violation id p' (w_peers w) = None →
  evolves w (set_peers (<[id := p']> (w_peers w)) w).
Proof.
  intros Hp Hk Hv. split.
  - intros Hok. apply db_ok_put; [done| | |done].
    + destruct Hk as [<- _]. by eapply ok_keyed.
    + intros Hi. destruct (ok_uuid w Hok id Hi). congruence.
  - rewrite set_peers_peers. intros i q. rewrite lookup_insert. case_decide as E.
    + subst. intros [= <-]. left. by exists p.
    + intros Hq. left. by exists q.
  - done.
Qed.

Lemma evolves_sub w m : m ⊆ w_peers w → evolves w (set_peers m w).
Proof.
  intros Hm. split.
  - intros Hok. by apply db_ok_sub.
  - rewrite set_peers_peers. intros i q Hq. left. exists q. split; [by eapply lookup_weaken|by split_and!].
  - done.
Qed.

(** Updates in place that keep the identifying columns and the port. *)
Lemma evolves_map w (f : string → Peer → Peer) :
  (∀ i p, same_key p (f i p) ∧ peer_WgListenPort (f i p) = peer_WgListenPort p) →
  evolves w (set_peers (map_imap (λ i p, Some (f i p)) (w_peers w)) w).
Proof.
  intros Hf.
  assert (∀ i q, map_imap (λ i p, Some (f i p)) (w_peers w) !! i = Some q →
    ∃ p, w_peers w !! i = Some p ∧ q = f i p) as H.
  { intros i q. rewrite map_lookup_imap. destruct (w_peers w !! i); naive_solver. }
  split.
  - intros [K A O U N]. split; rewrite ?set_peers_uuid, ?set_peers_peers.
    + intros i q (p & Hp & ->)%H. destruct (Hf i p) as [(<- & _) _]. eauto.
    + intros i j q r (p & Hp & ->)%H (p' & Hp' & ->)%H [E1 E2].
      destruct (Hf i p) as [(_ & N1 & A1) _], (Hf j p') as [(_ & N2 & A2) _].
      apply (A i j p p'); [done..|]. split; congruence.
    + intros i j q r (p & Hp & ->)%H (p' & Hp' & ->)%H [E1 E2].
      destruct (Hf i p) as [(_ & N1 & _) P1], (Hf j p') as [(_ & N2 & _) P2].
      apply (O i j p p'); [done..|]. split; congruence.
    + intros i Hi. destruct (U i Hi) as [Hn ?]. split; [|done]. by rewrite map_lookup_imap, Hn.
    + done.
  - rewrite set_peers_peers. intros i q (p & Hp & ->)%H. left. exists p. split; [done|apply Hf].
  - done.
Qed.

Lemma update_row_spec id cs w e w' :
  update_row id cs w = (e, w') →
  w' = w ∨ ∃ p, w_peers w !! id = Some p ∧ violation id (assign_all (cs w) p) (w_peers w) = None
    ∧ e = None ∧ w' = set_peers (<[id := assign_all (cs w) p]> (w_peers w)) w.
Proof.
  unfold update_row. destruct (w_peers w !! id) as [p|]; [|intros; simplify_eq; by left].
  destruct (violation _ _ _) eqn:E; intros; simplify_eq; [by left|right; eauto].
Qed.

Lemma sql_column_moves now c : moves_key (sql_column now c) = moves_key c.
Proof. destruct c; try done. by destruct v. Qed.

Lemma draw_uuid_spec w :
  match draw_uuid w with
  | (None, w') => w' = w
  | (Some u, w') => ∃ l, w_uuid w = u :: l ∧ w_uuid w' = l ∧ w_db w' = w_db w ∧ w_log w' = w_log w
      ∧ w_now w' = w_now w
  end.
Proof. unfold draw_uuid, w_uuid. destruct (e_uuid (w_ext w)); simpl; [done|]. by eexists. Qed.


Lemma db_ok_draw w w' u l :
  w_uuid w = u :: l → w_uuid w' = l → w_db w' = w_db w → db_ok w → db_ok w'.
Proof.
  intros Hu Hl Hd [K A O U N]. unfold w_peers in *. rewrite Hu in *. apply NoDup_cons in N as [Nu N].
  split; unfold w_peers; rewrite ?Hd, ?Hl; try done. intros i Hi. apply U. set_solver.
Qed.


Lemma conflicting_row p w q : db_ok w → conflicting p w = Some q →
  w_peers w !! peer_ID q = Some q ∧ same_asn p q.
Proof.
  intros Hok Hc. unfold conflicting in Hc.
  assert (q ∈ filter (λ q, same_asn p q) (peer_rows w)) as Hin.
  { destruct (filter _ _); simplify_eq/=. set_solver. }
  apply list_elem_of_filter in Hin as [Ha Hr]. split; [|done].
  unfold peer_rows in Hr. apply list_elem_of_fmap in Hr as ([i q'] & -> & Hi).
  apply elem_of_map_to_list in Hi. simpl. by rewrite (ok_keyed w Hok i q' Hi).
Qed.


(** ** Triples of the statements *)
Section statements.
Context (Gp : gmap string Peer → gmap string Peer → Prop) (Ge : event → Prop).
Context `{!Reflexive Gp}.
Set Default Proof Using "Type*".
Local Notation triple := (triple Gp Ge).

Lemma guar_rows w m : evolves w (set_peers m w) → Gp (w_peers w) m → guar Gp Ge w (set_peers m w).
Proof. intros He Hg. split_and!; [done|done|]. exists []. by rewrite app_nil_r. Qed.

Lemma triple_query_post {R} `{!Stable P} ctx (f : World → result R) (φ : R → Prop) :
  (∀ w x, db_ok w → P w → f w = Ok x → φ x) →
  triple P (query ctx f) (λ r w, (∀ x, r = Ok x → φ x) ∧ P w).
Proof.
  intros H. apply triple_stmt; [done..| |]; [done|]. intros w Hok HP.
  split; [by apply guar_refl|]. split; [|done]. intros x. by apply (H w).
Qed.

Lemma triple_update_row `{!Stable P} ctx id cs :
  (∀ w p, P w → w_peers w !! id = Some p → same_key p (assign_all (cs w) p)) →
  (∀ w p, P w → w_peers w !! id = Some p →
     Gp (w_peers w) (<[id := assign_all (cs w) p]> (w_peers w))) →
  triple P (stmt ctx Some (update_row id cs)) (λ _, P).
Proof.
  intros Hk HG. apply triple_stmt; [done..| |]; [done|]. intros w Hok HP.
  destruct (update_row id cs w) as [e w'] eqn:E. simpl.
  destruct (update_row_spec _ _ _ _ _ E) as [->|(p & Hp & Hv & _ & ->)]; [by split; [apply guar_refl|]|].
  assert (evolves w (set_peers (<[id := assign_all (cs w) p]> (w_peers w)) w)) as He.
  { eapply evolves_put; eauto. }
  split; [apply guar_rows; eauto|]. by eapply (stable (P:=P)).
Qed.

Lemma triple_Delete_ `{!Stable P} ctx id :
  (∀ w, P w → Gp (w_peers w) (delete id (w_peers w))) → triple P (Delete_ ctx id) (λ _, P).
Proof.
  intros HG. apply triple_stmt; [done..| |]; [done|]. intros w Hok HP. simpl.
  assert (evolves w (set_peers (delete id (w_peers w)) w)) as He by apply evolves_sub, delete_subseteq.
  split; [apply guar_rows; auto|]. by eapply (stable (P:=P)).
Qed.

(** The columns of an update that do not identify the row. *)
Lemma triple_UpdateFields `{!Stable P} ctx id cs :
  forallb (λ c, negb (moves_key c)) cs = true →
  (∀ w p p', P w → w_peers w !! id = Some p → same_key p p' → Gp (w_peers w) (<[id := p']> (w_peers w))) →
  triple P (UpdateFields ctx id cs) (λ _, P).
Proof.
  intros Hk HG.
  assert (∀ now, forallb (λ c, negb (moves_key c)) (set_UpdatedAt now :: map (sql_column now) cs) = true) as Hk'.
  { intros now. simpl. rewrite <-Hk. clear. induction cs as [|c cs IH]; [done|]. simpl.
    by rewrite IH, sql_column_moves. }
  assert (∀ w p, same_key p (assign_all (set_UpdatedAt (w_now w) :: map (sql_column (w_now w)) cs) p)) as Hs.
  { intros w p. destruct (assign_all_keys _ p (Hk' (w_now w))) as (E1 & E2 & E3 & _).
    unfold same_key. by rewrite E1, E2, E3. }
  apply triple_update_row; [by eauto|]. intros w p HP Hp. by eapply HG.
Qed.

Lemma triple_UpdateStatus `{!Stable P} ctx id st cs :
  forallb (λ c, negb (moves_key c)) cs = true →
  (∀ w p p', P w → w_peers w !! id = Some p → same_key p p' → Gp (w_peers w) (<[id := p']> (w_peers w))) →
  triple P (UpdateStatus ctx id st cs) (λ _, P).
Proof. intros Hk HG. by apply triple_UpdateFields. Qed.

Lemma triple_update_plain `{!Stable P} ctx id cs :
  (∀ w, forallb (λ c, negb (moves_key c)) (cs w) = true) →
  (∀ w p p', P w → w_peers w !! id = Some p → same_key p p' → Gp (w_peers w) (<[id := p']> (w_peers w))) →
  triple P (stmt ctx Some (update_row id cs)) (λ _, P).
Proof.
  intros Hk HG.
  assert (∀ w p, same_key p (assign_all (cs w) p)) as Hs.
  { intros w p. destruct (assign_all_keys _ p (Hk w)) as (E1 & E2 & E3 & _).
    unfold same_key. by rewrite E1, E2, E3. }
  apply triple_update_row; [by eauto|]. intros w p HP Hp. by eapply HG.
Qed.

(** *** Inserting *)
Lemma insert_row_guar p w :
  db_ok w → peer_ID p = "" →
  (∀ m id p', m !! id = None → peer_NodeID p' = peer_NodeID p → peer_RemoteASN p' = peer_RemoteASN p →
     Gp m (<[id := p']> m)) →
  guar Gp Ge w (insert_row p w).2
  ∧ ∀ q, (insert_row p w).1 = inr q → peer_NodeID q = peer_NodeID p ∧ owned (peer_RemoteASN p) (peer_ID q) (insert_row p w).2.
Proof.
  intros Hok Hid HG. unfold insert_row. rewrite Hid. cbn [bool_decide].
  rewrite bool_decide_eq_true_2 by done.
  pose proof (draw_uuid_spec w) as Hd. destruct (draw_uuid w) as [[u|] w1]; cbv beta iota zeta.
  2:{ subst. split; [by apply guar_refl|done]. }
  destruct Hd as (l & Hu & Hl & Hdb & Hlog & Hnow).
  assert (db_ok w1) as Hok1 by by eapply db_ok_draw.
  assert (w_peers w1 = w_peers w) as Hp by (unfold w_peers; by rewrite Hdb).
  assert (w_peers w !! u = None ∧ u ≠ "") as [Hnone Hne] by (apply (ok_uuid w Hok); rewrite Hu; set_solver).
  assert (guar Gp Ge w w1) as Hg1.
  { split_and!; [|by rewrite Hp|exists []; by rewrite app_nil_r]. split; [done| |].
    - rewrite Hp. intros i q Hq. left. exists q. by split_and!.
    - rewrite Hu, Hl. by exists [u]. }
  case_bool_decide as Hex; [split; [done|by intros]|].
  set (p' := assign_all _ p).
  assert (peer_ID p' = u ∧ peer_NodeID p' = peer_NodeID p ∧ peer_RemoteASN p' = peer_RemoteASN p) as (E1 & E2 & E3)
    by (unfold p'; by destruct p).
  destruct (violation u p' (w_peers w1)) eqn:Hv; [split; [done|by intros]|].
  case_bool_decide; [|split; [done|by intros]]. simpl.
  assert (u ∉ l) as Hul by (pose proof (ok_fresh w Hok) as N; rewrite Hu in N; by apply NoDup_cons in N as [? _]).
  split.
  - split_and!.
    + split; [| |by rewrite Hu; exists [u]; simpl; rewrite set_peers_uuid, Hl].
      * intros _. apply db_ok_put; [done|done| |done]. by rewrite Hl.
      * rewrite set_peers_peers. intros i q. rewrite lookup_insert. case_decide as Hi.
        -- intros _. right. rewrite Hu. set_solver.
        -- rewrite Hp. intros Hq. left. exists q. by split_and!.
    + rewrite set_peers_peers, Hp. by apply HG.
    + exists []. by rewrite app_nil_r.
  - intros q [= <-]. split; [done|]. rewrite E1. split.
    + by rewrite set_peers_uuid, Hl.
    + rewrite set_peers_peers. intros r. rewrite lookup_insert_eq. by intros [= <-].
Qed.

Lemma triple_Create `{!Stable P} ctx p :
  peer_ID p = "" →
  (∀ m id p', m !! id = None → peer_NodeID p' = peer_NodeID p → peer_RemoteASN p' = peer_RemoteASN p →
     Gp m (<[id := p']> m)) →
  triple P (Create ctx p) (λ r w, P w ∧ ∀ q, r = inr q → owned (peer_RemoteASN p) (peer_ID q) w).
Proof.
  intros Hid HG. apply triple_stmt; [done..| |]; [by split|].
  intros w Hok HP. destruct (insert_row_guar p w Hok Hid HG) as [Hg Hq].
  split; [done|]. split; [eapply (stable (P:=P)); [apply Hg|done]|]. intros q Hr. by apply Hq.
Qed.

Lemma triple_ImportPeer `{!Stable P} ctx p :
  (∀ m id p', m !! id = None → peer_NodeID p' = peer_NodeID p → peer_RemoteASN p' = peer_RemoteASN p →
     Gp m (<[id := p']> m)) →
  triple P (ImportPeer ctx p) (λ _, P).
Proof.
  intros HG. apply triple_stmt; [done..| |]; [done|]. intros w Hok HP.
  destruct (conflicting p w); [by split; [apply guar_refl|]|].
  pose proof (insert_row_guar (import_row (w_now w) p None None "active") w Hok eq_refl HG) as [Hg _].
  destruct (insert_row _ w) as [r w']. split; [done|]. eapply (stable (P:=P)); [apply Hg|done].
Qed.

Lemma triple_ImportPeerFull `{!Stable P} ctx p overwrite :
  (∀ m id p', (∀ q, m !! id = Some q → same_key q p') → peer_NodeID p' = peer_NodeID p →
     peer_RemoteASN p' = peer_RemoteASN p → Gp m (<[id := p']> m)) →
  triple P (ImportPeerFull ctx p overwrite) (λ _, P).
Proof.
  intros HG. apply triple_stmt; [done..| |]; [done|]. intros w Hok HP.
  destruct (conflicting p w) as [q|] eqn:Hc.
  - destruct (conflicting_row _ _ _ Hok Hc) as [Hq [Hn Ha]].
    destruct overwrite; [|by split; [apply guar_refl|]].
    destruct (update_row (peer_ID q) _ w) as [e w'] eqn:E. simpl.
    destruct (update_row_spec _ _ _ _ _ E) as [->|(p0 & Hp0 & Hv & _ & ->)]; [by split; [apply guar_refl|]|].
    assert (p0 = q) as -> by congruence. set (p1 := assign_all _ q) in *.
    assert (same_key q p1) as Hk by (unfold p1; by destruct q).
    assert (evolves w (set_peers (<[peer_ID q := p1]> (w_peers w)) w)) as He by by eapply evolves_put.
    split; [|by eapply (stable (P:=P))]. apply guar_rows; [done|].
    apply HG; [intros r Hr; by simplify_eq|..]; destruct Hk as (K1 & K2 & K3); congruence.
  - pose proof (insert_row_guar (import_row (w_now w) p (peer_MTU p) (peer_WgPreSharedKey p)
      (if bool_decide (peer_Status p = "") then "pending" else peer_Status p)) w Hok eq_refl) as [Hg _].
    { intros m id p' Hm. apply HG. by rewrite Hm. }
    destruct (insert_row _ w) as [r w']. split; [done|]. eapply (stable (P:=P)); [apply Hg|done].
Qed.

(** *** Statements of the workers *)

(** A statement that touches neither peers nor ids. *)
Lemma triple_kept {R} `{!Stable P} ctx (onerr : string → R) (f : World → R * World) :
  (∀ w, w_peers (f w).2 = w_peers w ∧ w_uuid (f w).2 = w_uuid w ∧ w_log (f w).2 = w_log w) →
  triple P (stmt ctx onerr f) (λ _, P).
Proof.
  intros H. apply triple_stmt; [done..| |]; [done|]. intros w Hok HP. destruct (H w) as (Hp & Hu & Hl).
  assert (evolves w (f w).2) as He.
  { split.
    - intros [K A O U N]. split; rewrite ?Hp, ?Hu; done.
    - rewrite Hp. intros id p Hid. left. exists p. by split_and!.
    - by rewrite Hu. }
  split; [|by eapply (stable (P:=P))]. split_and!; [done|by rewrite Hp|]. exists []. by rewrite app_nil_r.
Qed.

(** An update of columns that are not keys; the row is known exactly. *)
Lemma triple_columns `{!Stable P} ctx id cs :
  (∀ w, forallb (λ c, negb (moves_key c)) (cs w) = true) →
  (∀ w p, P w → w_peers w !! id = Some p → Gp (w_peers w) (<[id := assign_all (cs w) p]> (w_peers w))) →
  triple P (stmt ctx Some (update_row id cs)) (λ _, P).
Proof.
  intros Hk HG. apply triple_update_row; [|done]. intros w p _ _.
  destruct (assign_all_keys _ p (Hk w)) as (E1 & E2 & E3 & _). unfold same_key. by rewrite E1, E2, E3.
Qed.

Lemma triple_DeleteInactive `{!Stable P} ctx id :
  (∀ w p, P w → w_peers w !! id = Some p → peer_InactivityWarningStage p = 3 →
     Gp (w_peers w) (delete id (w_peers w))) →
  triple P (DeleteInactive ctx id) (λ _, P).
Proof.
  intros HG. apply triple_stmt; [done..| |]; [done|]. intros w Hok HP.
  destruct (w_peers w !! id) as [p|] eqn:Hp; [|by split; [apply guar_refl|]].
  destruct (Z.eqb_spec (peer_InactivityWarningStage p) 3); [|by split; [apply guar_refl|]]. simpl.
  assert (evolves w (set_peers (delete id (w_peers w)) w)) as He by apply evolves_sub, delete_subseteq.
  split; [apply guar_rows; eauto|]. by eapply (stable (P:=P)).
Qed.

Lemma triple_MarkPeersActive `{!Stable P} uuid_in ctx ids t :
  (∀ (ids : list string) w, P w → Gp (w_peers w) (map_imap (λ id p, Some
     (if bool_decide (id ∈ ids) then assign_all [set_LastActiveAt (Some t); set_InactivityWarningStage 0] p else p))
     (w_peers w))) →
  triple P (MarkPeersActive uuid_in ctx ids t) (λ _, P).
Proof.
  intros HG. unfold MarkPeersActive. destruct ids as [|i ids]; [by apply triple_ret|].
  apply triple_stmt; [done..| |]; [done|]. intros w Hok HP.
  destruct (mapM uuid_in (i :: ids)) as [us|]; [|by split; [apply guar_refl|]]. cbn [fst snd].
  assert (∀ id p, same_key p (if bool_decide (id ∈ us)
    then assign_all [set_LastActiveAt (Some t); set_InactivityWarningStage 0] p else p)
    ∧ peer_WgListenPort (if bool_decide (id ∈ us)
    then assign_all [set_LastActiveAt (Some t); set_InactivityWarningStage 0] p else p) = peer_WgListenPort p) as Hk.
  { intros id p. case_bool_decide; by destruct p. }
  pose proof (evolves_map w _ Hk) as He.
  split; [apply guar_rows; [done|by apply (HG us)]|]. by eapply (stable (P:=P)).
Qed.
End statements.
