(* ===== verification/Handler.v ===== *)
(** * Handler helpers ([internal/handler/helpers.go], shared parts of the peer
    handlers)

    Responses, the collaborators handlers are configured with, the body of a
    peer update, and the remove-and-re-add sequence that reconfigures a peer on
    its agent. *)
From S2P Require Import Prelude GoLib GoNet Regex Json Model Peering Lock Cache Effects World Store.
From stdpp Require Import sorting options.
Local Open Scope Z_scope.
Local Open Scope go_scope.

(** What a handler writes.  [Panicked] is a nil dereference, which the router's
    recoverer turns into a bare 500; deferred calls have run by then. *)
Inductive Response : Type :=
| ErrorJSON (status : Z) (errCode message : string)
| JSON (status : Z) (body : json)
| Panicked.

Definition succeeded (r : Response) : bool := match r with JSON _ _ => true | _ => false end.

(** The collaborators of the handlers that are not modelled in detail: the
    configured locker and the DN42 registry. *)
Record Env : Type := MkEnv {
  env_locker : Locker;
  env_LookupASNEmail : Z → result string;
  env_admin : bool            (* whether the user handler has an admin handler *)
}.

Definition StatusOK : Z := 200.
Definition StatusCreated : Z := 201.
Definition StatusBadRequest : Z := 400.
Definition StatusForbidden : Z := 403.
Definition StatusNotFound : Z := 404.
Definition StatusConflict : Z := 409.
Definition StatusTooManyRequests : Z := 429.
Definition StatusInternalServerError : Z := 500.
Definition StatusServiceUnavailable : Z := 503.

Definition status_body (s : string) : json := JObj [("status", JStr s)].

(** The [peer.add] payload for a row, with the editable settings given. *)
Definition add_payload (peerID : string) (p : Peer) (endpoint pubkey lla : string) (mtu : option Z) : PeerAddPayload :=
  MkPeerAdd peerID (peer_RemoteASN p) endpoint pubkey lla (peer_WgListenPort p) (peer_WgInterfaceName p) mtu
    (peer_WgPreSharedKey p).
Definition payload_of (peerID : string) (p : Peer) : PeerAddPayload :=
  add_payload peerID p (peer_RemoteEndpoint p) (peer_RemotePubkey p) (peer_RemoteLLA p) (peer_MTU p).

Definition rollback_failed (a : Answer) : bool :=
  match a with NoAnswer _ => true | Answered m => refused m end.

(** ** Validation as the handlers spell it ([handler/peer.go], [ws/bot_peer_handler.go]) *)
Definition validateEndpoint (ep : string) : bool :=
  match SplitHostPort ep with
  | Err _ => false
  | Ok (hostStr, portStr) =>
      match Atoi portStr with
      | None => false
      | Some port =>
          if (port <? 1) || (65535 <? port) then false
          else negb (isNil (ParseIP hostStr)) || MatchString hostnameRe hostStr
      end
  end.
Definition validateLLA (lla : string) : bool :=
  match ParseIP lla with
  | None => false
  | Some ip => IsLinkLocalUnicast ip
  end.
Definition bad_pubkey (pk : string) : bool :=
  negb (MatchString base64Re pk) || (String.length pk <? 40)%nat.
Definition bad_mtu (mtu : option Z) : bool :=
  match mtu with Some m => (m <? 576) || (9000 <? m) | None => false end.

(** ** The body of a peer update *)
Record peerUpdateBody : Type := MkUpdate {
  ub_RemotePubkey : option string;
  ub_RemoteEndpoint : option string;
  ub_RemoteLLA : option string;
  ub_MTU : option Z;
  ub_MTUSet : bool
}.

(** A decoded object as a Go map, marshalled again: one entry per key (the last
    one wins), in key order. *)
Definition key_le (a b : string * json) : Prop := String.le a.1 b.1.
#[export] Instance key_le_dec a b : Decision (key_le a b).
Proof. unfold key_le. apply _. Defined.
Definition as_map (o : obj) : obj :=
  merge_sort key_le (foldl (λ m kv, obj_delete kv.1 m ++ [kv]) [] o).

(** Struct fields match keys case-insensitively; each matching key assigns. *)
Fixpoint decode_fields (o : obj) (b : peerUpdateBody) : option peerUpdateBody :=
  match o with
  | [] => Some b
  | (k, v) :: o' =>
      let k := ToLower k in
      let str (set : option string → peerUpdateBody) :=
        match v with
        | JNull => decode_fields o' (set None)
        | JStr s => decode_fields o' (set (Some s))
        | _ => None
        end in
      if k =s "remote_pubkey" then
        str (λ x, MkUpdate x (ub_RemoteEndpoint b) (ub_RemoteLLA b) (ub_MTU b) (ub_MTUSet b))
      else if k =s "remote_endpoint" then
        str (λ x, MkUpdate (ub_RemotePubkey b) x (ub_RemoteLLA b) (ub_MTU b) (ub_MTUSet b))
      else if k =s "remote_lla" then
        str (λ x, MkUpdate (ub_RemotePubkey b) (ub_RemoteEndpoint b) x (ub_MTU b) (ub_MTUSet b))
      else if k =s "mtu" then
        let set x := MkUpdate (ub_RemotePubkey b) (ub_RemoteEndpoint b) (ub_RemoteLLA b) x (ub_MTUSet b) in
        match v with
        | JNull => decode_fields o' (set None)
        | JNum n => if bool_decide (int64_min ≤ n ≤ int64_max) then decode_fields o' (set (Some n)) else None
        | _ => None
        end
      else decode_fields o' b
  end.

(** [decodePeerUpdateJSON]; [body] is [None] for malformed JSON.  [MTUSet] is
    the presence of the exact key [mtu], [null] included. *)
Definition decodePeerUpdateJSON (body : option json) : option peerUpdateBody :=
  match body with
  | Some JNull => Some (MkUpdate None None None None false)
  | Some (JObj o) =>
      b ← decode_fields (as_map o) (MkUpdate None None None None false);
      Some (MkUpdate (ub_RemotePubkey b) (ub_RemoteEndpoint b) (ub_RemoteLLA b) (ub_MTU b)
              (negb (isNil (obj_get "mtu" o))))
  | _ => None
  end.

(** The checks every update makes on its body. *)
Definition no_fields (b : peerUpdateBody) : bool :=
  isNil (ub_RemotePubkey b) && isNil (ub_RemoteEndpoint b) && isNil (ub_RemoteLLA b) && negb (ub_MTUSet b).

Definition check_update (b : peerUpdateBody) : option string :=
  if no_fields b then Some "No fields to update"
  else if match ub_RemotePubkey b with Some pk => bad_pubkey pk | None => false end
  then Some "Invalid WireGuard public key (must be Base64)"
  else if match ub_RemoteEndpoint b with Some ep => negb (validateEndpoint ep) | None => false end
  then Some "Invalid endpoint (format: IP:Port or [IPv6]:Port)"
  else if match ub_RemoteLLA b with Some l => negb (validateLLA l) | None => false end
  then Some "Invalid link-local address (must be fe80::/10)"
  else if ub_MTUSet b && bad_mtu (ub_MTU b) then Some "MTU must be between 576 and 9000"
  else None.

(** The settings after the update. *)
Definition newPubkey (b : peerUpdateBody) (p : Peer) : string := default (peer_RemotePubkey p) (ub_RemotePubkey b).
Definition newEndpoint (b : peerUpdateBody) (p : Peer) : string := default (peer_RemoteEndpoint p) (ub_RemoteEndpoint b).
Definition newLLA (b : peerUpdateBody) (p : Peer) : string := default (peer_RemoteLLA p) (ub_RemoteLLA b).
Definition newMTU (b : peerUpdateBody) (p : Peer) : option Z := if ub_MTUSet b then ub_MTU b else peer_MTU p.
Definition update_fields (b : peerUpdateBody) (p : Peer) : list column :=
  [set_RemotePubkey (newPubkey b p); set_RemoteEndpoint (newEndpoint b p);
   set_RemoteLLA (newLLA b p); set_MTU (newMTU b p)].

(** The audit detail of an update. *)
Definition update_changes (b : peerUpdateBody) (p : Peer) : obj :=
  (if isNil (ub_RemotePubkey b) then [] else [("remote_pubkey", JStr "updated")])
  ++ (if isNil (ub_RemoteEndpoint b) then [] else [("remote_endpoint", JStr "updated")])
  ++ (if isNil (ub_RemoteLLA b) then [] else [("remote_lla", JStr "updated")])
  ++ (if ub_MTUSet b then [("old_mtu", jopt JNum (peer_MTU p)); ("new_mtu", jopt JNum (ub_MTU b))] else []).

(** ** Reconfiguration of an active peer on its agent *)
Inductive Reconfigured : Type :=
| RecDone
| RecRemoveErr (e : string)
| RecRemoveRefused (e : string)
| RecAddErr (e : string)
| RecAddRefused (e : string).

(** Remove, then add with the new settings; when the add fails the old settings
    are sent again, and that answer is not looked at. *)
Definition reconfigure (peerID : string) (p : Peer) (b : peerUpdateBody) : M Reconfigured :=
  a ← SendCommand (peer_NodeID p) (TypePeerRemove peerID (peer_RemoteASN p));
  match a with
  | NoAnswer e => mret (RecRemoveErr e)
  | Answered m =>
      if refused m then mret (RecRemoveRefused (msg_Error m))
      else
        a ← SendCommand (peer_NodeID p)
              (TypePeerAdd (add_payload peerID p (newEndpoint b p) (newPubkey b p) (newLLA b p) (newMTU b p)));
        match a with
        | NoAnswer e =>
            _ ← SendCommand (peer_NodeID p) (TypePeerAdd (payload_of peerID p));
            mret (RecAddErr e)
        | Answered m =>
            if refused m
            then _ ← SendCommand (peer_NodeID p) (TypePeerAdd (payload_of peerID p));
                 mret (RecAddRefused (msg_Error m))
            else mret RecDone
        end
  end.

(** The step of an update that touches the agent: only for active peers. *)
Definition reconfigure_if_active (peerID : string) (p : Peer) (b : peerUpdateBody) : M Reconfigured :=
  if peer_Status p =s "active" then reconfigure peerID p b else mret RecDone.

Definition reconfigure_error (r : Reconfigured) : option Response :=
  match r with
  | RecDone => None
  | RecRemoveErr e =>
      Some (ErrorJSON StatusServiceUnavailable "agent_error" ("Failed to remove old peer config: " +:+ e))
  | RecRemoveRefused e =>
      Some (ErrorJSON StatusInternalServerError "agent_error" ("Agent rejected peer removal: " +:+ e))
  | RecAddErr e =>
      Some (ErrorJSON StatusInternalServerError "agent_error" ("Failed to re-add peer (rollback attempted): " +:+ e))
  | RecAddRefused e =>
      Some (ErrorJSON StatusInternalServerError "agent_error" ("Agent rejected peer re-add (rollback attempted): " +:+ e))
  end.

(** [Hub.ClearPeerAlerts] *)
Definition ClearPeerAlerts (peerID : string) : M unit :=
  _ ← cacheDelete BucketAlerts (PeerKey AlertBGPDown peerID);
  _ ← cacheDelete BucketAlerts (PeerKey AlertBGPFail peerID);
  _ ← cacheDelete BucketAlerts (PeerKey AlertHandshake peerID);
  _ ← cacheDelete BucketAlerts (PeerKey AlertEndpoint peerID);
  mret tt.
