(* ===== verification/Decode.v ===== *)
(** * Decoding JSON as [encoding/json] does

    Into structs: object keys match field names exactly or else
    case-insensitively, every match assigns, [null] leaves a field or clears a
    pointer, and a value of another type is an error.  Into [any] and
    [map[string]any]: the last of equal keys wins and numbers become [float64].
    A [json.RawMessage] is the value it holds; it is absent when it is empty.
    The text of a value ([json.Marshal], and parsing it back) is a parameter. *)
From S2P Require Import Prelude GoLib Json Handler.
From stdpp Require Import sorting options.
Local Open Scope Z_scope.
Local Open Scope go_scope.

Class JsonText : Type := {
  json_text : json → list ascii;              (* [json.Marshal]; map entries come in key order *)
  json_parse : list ascii → option json
}.

(** ** Structs *)

(** Types of fields: [string], [int] and [int64], pointers to them, [[]string],
    [any] and [json.RawMessage]. *)
Inductive ftype : Type := FString | FInt | FOptString | FOptInt | FStrings | FAny.
Definition fields : Type := list (string * ftype).

Definition fits (t : ftype) (v : json) : bool :=
  match v, t with
  | JNull, _ | _, FAny => true
  | JStr _, (FString | FOptString) => true
  | JNum n, (FInt | FOptInt) => bool_decide (int64_min ≤ n ≤ int64_max)
  | JArr l, FStrings => forallb (λ x, match x with JStr _ | JNull => true | _ => false end) l
  | _, _ => false
  end.
(** The field a key names. *)
Definition field_of (fs : fields) (key : string) : option (string * ftype) :=
  match list_find (λ f, f.1 = key) fs with
  | Some (_, f) => Some f
  | None => snd <$> list_find (λ f, EqualFold f.1 key = true) fs
  end.
(** The assignments an object makes, in its order. *)
Definition assignments (fs : fields) (o : obj) : obj :=
  omap (λ kv, f ← field_of fs kv.1; Some (f.1, kv.2)) o.
Definition field_ok (strict : bool) (fs : fields) (kv : string * json) : bool :=
  match field_of fs kv.1 with Some f => fits f.2 kv.2 | None => negb strict end.
(** [strict]: [DisallowUnknownFields].  No result is an error. *)
Definition decode (strict : bool) (fs : fields) (v : json) : option obj :=
  match v with
  | JNull => Some []
  | JObj o => if forallb (field_ok strict fs) o then Some (assignments fs o) else None
  | _ => None
  end.

(** The values assigned to a field, and what they leave in it. *)
Definition assigned (name : string) (a : obj) : list json := snd <$> filter (λ kv, kv.1 = name) a.
Definition str_field (name : string) (a : obj) : string :=
  foldl (λ s v, match v with JStr t => t | _ => s end) "" (assigned name a).
Definition int_field (name : string) (a : obj) : Z :=
  foldl (λ s v, match v with JNum n => n | _ => s end) 0 (assigned name a).
Definition opt_str (name : string) (a : obj) : option string :=
  foldl (λ s v, match v with JStr t => Some t | JNull => None | _ => s end) None (assigned name a).
Definition opt_int (name : string) (a : obj) : option Z :=
  foldl (λ s v, match v with JNum n => Some n | JNull => None | _ => s end) None (assigned name a).
Definition strs_field (name : string) (a : obj) : list string :=
  foldl (λ s v, match v with
                | JArr l => (λ x, match x with JStr t => t | _ => "" end) <$> l
                | JNull => [] | _ => s end) [] (assigned name a).
Definition raw_field (name : string) (a : obj) : option json := last (assigned name a).

(** ** [any] *)
Definition float_of (n : Z) : spec_float := binary_normalize 53 1024 n 0 false.
Definition finite_float (f : spec_float) : bool := match f with S754_infinity _ | S754_nan => false | _ => true end.
Definition any_number (f : spec_float) : json := if finite_float f then JFloat f else JNull.
Fixpoint any_of (v : json) : json :=
  match v with
  | JNum n => any_number (float_of n)
  | JFloat f => any_number f
  | JArr l => JArr (map any_of l)
  | JObj o => JObj (as_map (map (λ kv, (kv.1, any_of kv.2)) o))
  | v => v
  end.
(** A number beyond [float64] is an error. *)
Fixpoint any_ok (v : json) : bool :=
  match v with
  | JNum n => finite_float (float_of n)
  | JFloat f => finite_float f
  | JArr l => forallb any_ok l
  | JObj o => forallb (λ kv, any_ok kv.2) o
  | _ => true
  end.
(** [map[string]any]: the map, and whether there was no error. *)
Definition any_map (v : json) : option obj * bool :=
  match v with
  | JNull => (None, true)
  | JObj o => match any_of v with JObj m => (Some m, any_ok v) | _ => (None, false) end
  | _ => (None, false)
  end.
(** A nil map encodes as [null]. *)
Definition map_json (m : option obj) : json := jopt JObj m.
