(* ===== verification/Wp.v ===== *)
(** * Running one request alone

    Weakest preconditions of programs run to completion, and the world as the
    lifecycle theorems see it: the rows, and what each agent was last told. *)
From S2P Require Import Prelude GoLib Json Model Lock Cache Effects World Store Handler.
From stdpp Require Import options.
Local Open Scope Z_scope.
Local Open Scope go_scope.

Definition wp {W A} (p : prog W A) (Q : A → W → Prop) (w : W) : Prop :=
  Q (exec p w).1 (exec p w).2.

Lemma wp_exec {W A} (p : prog W A) Q w a w' : exec p w = (a, w') → wp p Q w → Q a w'.
Proof. unfold wp. by intros ->. Qed.

Lemma wp_ret {W A} (a : A) Q (w : W) : Q a w → wp (mret a) Q w.
Proof. done. Qed.

Lemma wp_bind {W A B} (p : prog W A) (g : A → prog W B) Q w :
  wp p (λ a, wp (g a) Q) w → wp (p ≫= g) Q w.
Proof. unfold wp. rewrite exec_bind. by destruct (exec p w). Qed.

Lemma wp_mono {W A} (p : prog W A) (Q Q' : A → W → Prop) w :
  (∀ a w, Q a w → Q' a w) → wp p Q w → wp p Q' w.
Proof. intros H. apply H. Qed.

Lemma wp_act {W R} (f : W → R * W) Q w : Q (f w).1 (f w).2 → wp (act f) Q w.
Proof. unfold wp. by rewrite exec_act. Qed.

Lemma wp_gets {W R} (f : W → R) Q w : Q (f w) w → wp (gets f) Q w.
Proof. done. Qed.
Lemma wp_with_timeout d Q w : Q (Some (w_now w + d)) w → wp (with_timeout d) Q w.
Proof. done. Qed.

(** ** What agents were told *)
Inductive View : Type :=
| Configured (c : option PeerAddPayload)
| Unknown.

Definition sync_payload (e : PeerSyncEntry) : PeerAddPayload :=
  MkPeerAdd (se_PeerID e) (se_ASN e) (se_RemoteEndpoint e) (se_RemoteWgPubkey e) (se_RemoteLLA e)
    (se_ListenPort e) (se_WgInterface e) (se_MTU e) (se_WgPreSharedKey e).

(** A command that was accepted took effect, a refused one did not, and after
    one that was not answered nothing is known; a sync replaces everything. *)
Definition told (node id : string) (v : View) (e : event) : View :=
  match e with
  | EvCmd n (TypePeerAdd pl) a =>
      if bool_decide (n = node ∧ pa_PeerID pl = id)
      then match a with
           | Answered m => if refused m then v else Configured (Some pl)
           | NoAnswer _ => Unknown
           end
      else v
  | EvCmd n (TypePeerRemove i _) a =>
      if bool_decide (n = node ∧ i = id)
      then match a with
           | Answered m => if refused m then v else Configured None
           | NoAnswer _ => Unknown
           end
      else v
  | EvSync n entries =>
      if bool_decide (n = node)
      then Configured (sync_payload <$> head (filter (λ e, se_PeerID e = id) entries))
      else v
  | _ => v
  end.
Definition agent_view (log : list event) (node id : string) : View :=
  foldl (told node id) (Configured None) log.

(** What the rows say the agent of a node should carry for a peer. *)
Definition desired (peers : gmap string Peer) (node id : string) : option PeerAddPayload :=
  match peers !! id with
  | Some p => if bool_decide (peer_NodeID p = node ∧ peer_Status p = "active")
              then Some (payload_of id p) else None
  | None => None
  end.

Definition in_sync (w : World) (id : string) : Prop :=
  ∀ node, agent_view (w_log w) node id = Configured (desired (w_peers w) node id).

Lemma agent_view_app log evs node id :
  agent_view (log ++ evs) node id = foldl (told node id) (agent_view log node id) evs.
Proof. unfold agent_view. by rewrite foldl_app. Qed.

(** ** Operations that neither touch the rows nor tell agents anything *)
Definition is_told (e : event) : bool :=
  match e with EvCmd _ _ _ | EvSync _ _ => true | _ => false end.


(** Every statement to come succeeds. *)
Definition answering (w : World) : Prop := Forall (λ o, o = None) (e_db (w_ext w)).

Record calm (w w' : World) : Prop := {
  calm_db : w_db w' = w_db w;
  calm_conns : w_conns w' = w_conns w;
  calm_now : w_now w' = w_now w;
  calm_log : ∃ evs, w_log w' = w_log w ++ evs ∧ Forall (λ e, is_told e = false) evs;
  calm_answering : answering w → answering w'
}.

#[export] Instance calm_preorder : PreOrder calm.
Proof.
  split.
  - intros w. split; [done..| |done]. exists []. by rewrite app_nil_r.
  - intros w1 w2 w3 [A1 C1 N1 (e1 & D1 & F1) G1] [A2 C2 N2 (e2 & D2 & F2) G2].
    split; [congruence..| |auto]. exists (e1 ++ e2). rewrite D2, D1, app_assoc. split; [done|]. by apply Forall_app.
Qed.

Lemma calm_peers w w' : calm w w' → w_peers w' = w_peers w.
Proof. intros H. unfold w_peers. by rewrite (calm_db _ _ H). Qed.
Lemma calm_nodes w w' : calm w w' → w_nodes w' = w_nodes w.
Proof. intros H. unfold w_nodes. by rewrite (calm_db _ _ H). Qed.

Lemma told_untold node id v evs :
  Forall (λ e, is_told e = false) evs → foldl (told node id) v evs = v.
Proof. induction 1 as [|e evs He _ IH]; [done|]. simpl. rewrite <-IH at 2. f_equal. by destruct e. Qed.

Lemma calm_view w w' node id : calm w w' → agent_view (w_log w') node id = agent_view (w_log w) node id.
Proof. intros [_ _ _ (evs & -> & Hf) _]. rewrite agent_view_app. by apply told_untold. Qed.

Lemma calm_sync w w' id : calm w w' → in_sync w id → in_sync w' id.
Proof. intros Hc Hs node. by rewrite (calm_view w w'), (calm_peers w w'). Qed.

Lemma calm_draws w :
  calm w (draw_db w).2 ∧ calm w (draw_redis w).2 ∧ calm w (draw_rnd w).2.
Proof.
  unfold draw_db, draw_redis, draw_rnd.
  split_and!; (case_match eqn:E; [reflexivity|]);
    (split; [done..|exists []; by rewrite app_nil_r|]); unfold answering; cbn [w_ext set_ext e_db]; rewrite ?E;
    [|done|done]. by intros [_ ?]%Forall_cons.
Qed.

(** A program all of whose runs are calm. *)
Definition Calm {A} (p : M A) : Prop := ∀ w, calm w (exec p w).2.

Lemma Calm_ret {A} (a : A) : Calm (mret a : M A).
Proof. intros w. reflexivity. Qed.
Lemma Calm_bind {A B} (p : M A) (g : A → M B) : Calm p → (∀ a, Calm (g a)) → Calm (p ≫= g).
Proof.
  intros Hp Hg w. rewrite exec_bind. specialize (Hp w). destruct (exec p w) as [a w1].
  etransitivity; [exact Hp|apply Hg].
Qed.
Lemma Calm_act {R} (f : World → R * World) : (∀ w, calm w (f w).2) → Calm (act f).
Proof. intros H w. by rewrite exec_act. Qed.

Lemma wp_calm {A} (p : M A) Q w : Calm p → (∀ a w', calm w w' → Q a w') → wp p Q w.
Proof. intros Hp HQ. apply HQ, Hp. Qed.

Lemma Calm_stmt {R} ctx (onerr : string → R) f : (∀ w, calm w (f w).2) → Calm (stmt ctx onerr f).
Proof.
  intros H. apply Calm_act. intros w. unfold stmt_step. destruct (expired _ _); [reflexivity|].
  pose proof (calm_draws w) as (Hd & _). destruct (draw_db w) as [[e|] w']; [done|].
  etransitivity; [exact Hd|apply H].
Qed.
Lemma Calm_query {R} ctx (f : World → result R) : Calm (query ctx f).
Proof. apply Calm_stmt. intros w. reflexivity. Qed.
Lemma Calm_gets {R} (f : World → R) : Calm (gets f).
Proof. apply Calm_act. intros w. reflexivity. Qed.
Lemma calm_emit w evs : Forall (λ e, is_told e = false) evs → calm w (emit evs w).
Proof. intros H. split; [done..| |done]. by exists evs. Qed.
Lemma Calm_audit ctx a o t d : Calm (auditLog ctx a o t d).
Proof. apply Calm_stmt. intros w. apply calm_emit. by constructor. Qed.
Lemma Calm_sendMail t tm v : Calm (sendMail t tm v).
Proof. apply Calm_act. intros w. apply calm_emit. by constructor. Qed.
Lemma Calm_notifyPeerBot a k e d : Calm (notifyPeerBot a k e d).
Proof. apply Calm_act. intros w. apply calm_emit. by constructor. Qed.
Lemma Calm_notifyBotAdmin e d : Calm (notifyBotAdmin e d).
Proof. apply Calm_act. intros w. apply calm_emit. by constructor. Qed.
Lemma Calm_notifyBotUser t e d : Calm (notifyBotUser t e d).
Proof. apply Calm_act. intros w. apply calm_emit. by constructor. Qed.
Lemma calm_set_cache w c : calm w (set_cache c w).
Proof. split; [done..| |done]. exists []. by rewrite app_nil_r. Qed.
Lemma calm_set_locks w r l : r_now r = w_now w → calm w (set_locks r l w).
Proof. intros Hr. split; [done..| |done]. exists []. by rewrite app_nil_r. Qed.
Lemma Calm_cache {R} (f : option string → World → R * Cache) :
  Calm (act (λ w, let '(down, w1) := draw_redis w in let '(r, c) := f down w1 in (r, set_cache c w1))).
Proof.
  apply Calm_act. intros w. pose proof (calm_draws w) as (_ & Hd & _). destruct (draw_redis w) as [down w1].
  destruct (f down w1) as [r c]. etransitivity; [exact Hd|apply calm_set_cache].
Qed.
Lemma Calm_cacheGet {A} (dec : json → option A) b k : Calm (cacheGet dec b k).
Proof. apply (Calm_cache (λ down w1, Get dec (w_now w1) down (w_cache w1) b k)). Qed.
Lemma Calm_cachePut b k v t : Calm (cachePut b k v t).
Proof. apply (Calm_cache (λ down w1, Put (w_now w1) down None (w_cache w1) b k v t)). Qed.
Lemma Calm_cacheDelete b k : Calm (cacheDelete b k).
Proof. apply (Calm_cache (λ down w1, Cache.Delete down (w_cache w1) b k)). Qed.
Lemma Calm_cacheIncInt b k t : Calm (cacheIncInt b k t).
Proof. apply (Calm_cache (λ down w1, IncInt (w_now w1) down (w_cache w1) b k t)). Qed.
Lemma Calm_rand_read : Calm rand_read.
Proof. apply Calm_act. intros w. apply calm_draws. Qed.
Lemma Acquire_now client prefix rnd down r key ttl :
  r_now (RedisLocker_Acquire client prefix rnd down r key ttl).2 = r_now r.
Proof. unfold RedisLocker_Acquire, r_setnx. by repeat (case_match; simplify_eq/=). Qed.
Lemma Release_now r key token down : r_now (redisLease_Release r key token down).2 = r_now r.
Proof. unfold redisLease_Release. by repeat case_match. Qed.
Lemma Calm_lockAcquire l k t : Calm (lockAcquire l k t).
Proof.
  apply Calm_act. intros w. unfold lockAcquire_step. destruct l as [|px|]; [reflexivity| |].
  - pose proof (calm_draws w) as (_ & _ & Hr). destruct (draw_rnd w) as [rnd w1].
    pose proof (calm_draws w1) as (_ & Hd & _). destruct (draw_redis w1) as [down w2].
    pose proof (Acquire_now true px rnd down (w_redis w2) k t) as Hn.
    destruct (RedisLocker_Acquire _ _ _ _ _ _ _). etransitivity; [exact Hr|].
    etransitivity; [exact Hd|by apply calm_set_locks].
  - destruct (LocalLocker_Acquire _ _). by apply calm_set_locks.
Qed.
Lemma Calm_leaseRelease le : Calm (leaseRelease le).
Proof.
  apply Calm_act. intros w. unfold leaseRelease_step. destruct le; [|by apply calm_set_locks].
  pose proof (calm_draws w) as (_ & Hd & _). destruct (draw_redis w) as [down w1].
  pose proof (Release_now (w_redis w1) key token down) as Hn.
  destruct (redisLease_Release _ _ _ _). etransitivity; [exact Hd|by apply calm_set_locks].
Qed.
Lemma Calm_cached_setting read prefix key :
  (∀ ctx k, Calm (read ctx k)) → Calm (cached_setting read prefix key).
Proof.
  intros H. apply Calm_bind; [apply Calm_cacheGet|]. intros f. destruct (f_ok f); [apply Calm_ret|].
  apply Calm_bind; [apply Calm_gets|]. intros now. apply Calm_bind; [apply H|]. intros r.
  apply Calm_bind; [apply Calm_cachePut|]. intros ?. apply Calm_ret.
Qed.
Lemma Calm_ClearPeerAlerts id : Calm (ClearPeerAlerts id).
Proof. repeat (apply Calm_bind; [apply Calm_cacheDelete|intros ?]). apply Calm_ret. Qed.

#[export] Hint Resolve Calm_ret Calm_query Calm_gets Calm_audit Calm_sendMail Calm_notifyPeerBot
  Calm_notifyBotAdmin Calm_notifyBotUser Calm_cacheGet Calm_cachePut Calm_cacheDelete Calm_cacheIncInt Calm_rand_read
  Calm_lockAcquire Calm_leaseRelease Calm_ClearPeerAlerts : autopeer.

Lemma Calm_GetByID ctx id : Calm (GetByID ctx id).
Proof. apply Calm_query. Qed.
Lemma Calm_GetByIDAndASN ctx id asn : Calm (GetByIDAndASN ctx id asn).
Proof. apply Calm_query. Qed.
Lemma Calm_Node_GetByID ctx id : Calm (Node_GetByID ctx id).
Proof. apply Calm_query. Qed.
Lemma Calm_with_timeout d : Calm (with_timeout d).
Proof. apply Calm_bind; [apply Calm_gets|intros ?; apply Calm_ret]. Qed.
#[export] Hint Resolve Calm_with_timeout Calm_GetByID Calm_GetByIDAndASN Calm_Node_GetByID : autopeer.

Lemma Calm_GetSettingValue key : Calm (GetSettingValue key).
Proof. apply Calm_cached_setting. intros. apply Calm_query. Qed.
Lemma Calm_GetSiteSettingValue key : Calm (GetSiteSettingValue key).
Proof. apply Calm_cached_setting. intros. apply Calm_query. Qed.
Lemma Calm_acquirePeerLock l k : Calm (acquirePeerLock l k).
Proof.
  unfold acquirePeerLock. destruct l; [apply Calm_ret|..];
    (apply Calm_bind; [apply Calm_lockAcquire|intros ?; apply Calm_ret]).
Qed.
Lemma Calm_releaseLease o : Calm (releaseLease o).
Proof. destruct o; [apply Calm_leaseRelease|apply Calm_ret]. Qed.
#[export] Hint Resolve Calm_GetSettingValue Calm_GetSiteSettingValue Calm_acquirePeerLock Calm_releaseLease : autopeer.

(** ** Rules *)

(** A query fails, or answers for the rows as they are. *)
Lemma wp_query {R} ctx (f : World → result R) Q w :
  (∀ w', calm w w' → Q (f w') w') → (∀ e w', calm w w' → Q (Err e) w') → wp (query ctx f) Q w.
Proof.
  intros Ho He. apply wp_act. unfold stmt_step. destruct (expired _ _); [by apply He|].
  pose proof (calm_draws w) as (Hd & _). destruct (draw_db w) as [[e|] w']; [by apply He|]. by apply Ho.
Qed.

(** A writing statement fails without effect, or runs. *)
Lemma wp_stmt {R} ctx (onerr : string → R) f Q w :
  (∀ e w', calm w w' → Q (onerr e) w') → (∀ w', calm w w' → Q (f w').1 (f w').2) → wp (stmt ctx onerr f) Q w.
Proof.
  intros He Ho. apply wp_act. unfold stmt_step. destruct (expired _ _); [by apply He|].
  pose proof (calm_draws w) as (Hd & _). destruct (draw_db w) as [[e|] w']; [by apply He|]. by apply Ho.
Qed.

(** When statements succeed, so does this one. *)
Lemma wp_stmt_ok {R} ctx (onerr : string → R) f Q w :
  answering w → expired ctx (w_now w) = false →
  (∀ w', calm w w' → answering w' → w_now w' = w_now w → Q (f w').1 (f w').2) → wp (stmt ctx onerr f) Q w.
Proof.
  intros Hd He HQ. apply wp_act. unfold stmt_step. rewrite He.
  pose proof (calm_draws w) as (Hc & _). pose proof (calm_answering _ _ Hc Hd) as Ha. revert Hc Ha.
  unfold answering in Hd. unfold draw_db. destruct (e_db (w_ext w)) as [|o l]; [intros; by apply HQ|].
  apply Forall_cons in Hd as [-> _]. intros; by apply HQ.
Qed.

(** A command leaves the rows, whatever comes back. *)
Lemma wp_command_rows n c (Q : Answer → World → Prop) w :
  (∀ a w', w_peers w' = w_peers w → w_nodes w' = w_nodes w → (answering w → answering w') → Q a w') →
  wp (SendCommand n c) Q w.
Proof.
  intros HQ. apply wp_act. unfold SendCommand_step. case_bool_decide; [|by apply HQ].
  unfold draw_agent. destruct (e_agent (w_ext w)) as [|[d a] l]; by apply HQ.
Qed.

(** A command is not sent, or is sent and answered or not. *)
Definition sends (n : string) (c : Cmd) (a : Answer) (w w' : World) : Prop :=
  w_peers w' = w_peers w ∧ w_nodes w' = w_nodes w ∧ w_conns w' = w_conns w ∧ n ∈ w_conns w
  ∧ w_log w' = w_log w ++ [EvCmd n c a].

Lemma wp_SendCommand n c Q w :
  (∀ e, n ∉ w_conns w → Q (NoAnswer e) w) → (∀ a w', sends n c a w w' → Q a w') → wp (SendCommand n c) Q w.
Proof.
  intros Hn Ha. apply wp_act. unfold SendCommand_step. case_bool_decide; [|by apply Hn].
  unfold draw_agent. destruct (e_agent (w_ext w)) as [|[d a] l]; by apply Ha.
Qed.

(** The locked body runs between calm steps, or not at all. *)
Lemma wp_withPeerLock {A} l k (busy : A) (body : M A) Q w :
  (∀ w', calm w w' → Q busy w') →
  (∀ a w1 w2, calm w1 w2 → Q a w1 → Q a w2) →
  (∀ w', calm w w' → wp body Q w') →
  wp (withPeerLock l k busy body) Q w.
Proof.
  intros Hb Hq Hbody. apply wp_bind, wp_calm; [auto with autopeer|]. intros [le b] w1 H1. cbv beta iota.
  destruct b; [by apply wp_ret, Hb|]. apply wp_bind. eapply wp_mono; [|by apply Hbody].
  intros r w2 HQ. apply wp_bind, wp_calm; [auto with autopeer|]. intros _ w3 H3.
  apply wp_ret. by eapply Hq.
Qed.

(** ** Calm programs with a known outcome *)
Definition Calmly {A} (P : A → Prop) (p : M A) : Prop := ∀ w, calm w (exec p w).2 ∧ P (exec p w).1.

Lemma Calmly_ret {A} (P : A → Prop) (a : A) : P a → Calmly P (mret a).
Proof. intros H w. by split. Qed.
Lemma Calmly_bind {A B} (P : B → Prop) (p : M A) (g : A → M B) :
  Calm p → (∀ a, Calmly P (g a)) → Calmly P (p ≫= g).
Proof.
  intros Hp Hg w. rewrite exec_bind. specialize (Hp w). destruct (exec p w) as [a w1].
  destruct (Hg a w1) as [Hc HP]. split; [|done]. by etransitivity.
Qed.
Lemma Calmly_Calm {A} (p : M A) : Calmly (λ _, True) p → Calm p.
Proof. intros H w. apply H. Qed.
Lemma Calm_Calmly {A} (p : M A) : Calm p → Calmly (λ _, True) p.
Proof. intros H w. by split. Qed.
Lemma wp_calmly {A} (P : A → Prop) (p : M A) Q w :
  Calmly P p → (∀ a w', calm w w' → P a → Q a w') → wp p Q w.
Proof. intros Hp HQ. apply HQ; apply Hp. Qed.

Lemma Calm_forM {A} (l : list A) (body : A → M unit) : (∀ x, Calm (body x)) → Calm (forM l body).
Proof.
  intros H. induction l as [|x l IH]; [apply Calm_ret|]. cbn [forM]. apply Calm_bind; [apply H|]. by intros ?.
Qed.
Lemma Calm_GetSettingThreshold key : Calm (GetSettingThreshold key).
Proof. apply Calm_cached_setting. intros. apply Calm_query. Qed.
Lemma Calm_Node_GetField ctx id f : Calm (Node_GetField ctx id f).
Proof. apply Calm_query. Qed.
Lemma Calm_Binding_GetByASN ctx asn : Calm (Binding_GetByASN ctx asn).
Proof. apply Calm_query. Qed.
Lemma Calm_now : Calm now_.
Proof. apply Calm_gets. Qed.
#[export] Hint Resolve Calm_now Calm_GetSettingThreshold Calm_Node_GetField Calm_Binding_GetByASN : autopeer.

(** ** Programs that change the rows, and nothing else an agent would notice *)
Definition after (d : DB) (w w' : World) : Prop := calm (set_db_ d w) w'.

Lemma after_start w : after (w_db w) w w.
Proof. destruct w. split; [done..| |done]. exists []. by rewrite app_nil_r. Qed.
Lemma after_calm d w w1 w2 : after d w w1 → calm w1 w2 → after d w w2.
Proof. unfold after. intros. by etransitivity. Qed.
Lemma after_set d d' w w1 : after d w w1 → after d' w (set_db_ d' w1).
Proof. intros [A B C D E]. by split. Qed.
Lemma after_db d w w1 : after d w w1 → w_db w1 = d.
Proof. apply calm_db. Qed.
Lemma after_now d w w1 : after d w w1 → w_now w1 = w_now w.
Proof. intros H. apply (calm_now _ _ H). Qed.
Lemma after_answering d w w1 : after d w w1 → answering w → answering w1.
Proof. intros H. apply (calm_answering _ _ H). Qed.

Lemma wp_write {R} ctx (onerr : string → R) f d w w1 (Q : R → World → Prop) :
  answering w → after d w w1 → expired ctx (w_now w) = false →
  (∀ w2, after d w w2 → Q (f w2).1 (f w2).2) → wp (stmt ctx onerr f) Q w1.
Proof.
  intros Ha H He HQ. apply wp_stmt_ok; [by eapply after_answering|by rewrite (after_now _ _ _ H)|].
  intros w2 Hc _ _. apply HQ. by eapply after_calm.
Qed.

(** Walks a program that tells agents nothing. *)
Ltac calmly :=
  repeat match goal with
  | |- Calmly (λ _, True) _ => solve [apply Calm_Calmly; auto with autopeer]
  | |- Calmly _ (mret _) => apply Calmly_ret
  | |- Calmly (λ _, True) (forM _ _) => apply Calm_Calmly, Calm_forM; intros ?
  | |- Calmly _ (_ ≫= _) => apply Calmly_bind; [|intros ?]
  | |- Calmly _ (match ?x with _ => _ end) => destruct x
  | |- Calmly _ (if ?b then _ else _) => destruct b
  | |- Calm _ => solve [auto with autopeer]
  | |- Calm _ => apply Calmly_Calm
  | |- _ => progress cbv beta iota zeta
  end; try done.
