(* ===== verification/Scenario.v ===== *)
(** * Concrete worlds

    A small deployment (one node, two peers) at which the theorems' hypotheses
    are discharged, and a decision procedure for the stored-row invariant. *)
From S2P Require Import Prelude GoLib Json Model Lock Cache Effects World Store Rely Handler Wp.
From stdpp Require Import options.
Local Open Scope Z_scope.
Local Open Scope go_scope.

Definition rows_apart (id : string) (p : Peer) (id' : string) (q : Peer) : Prop :=
  id = id' ∨ ¬ same_asn p q ∧ ¬ same_port p q.
#[export] Instance rows_apart_dec id p id' q : Decision (rows_apart id p id' q).
Proof. unfold rows_apart. apply _. Defined.

Definition db_okb (w : World) : bool :=
  bool_decide (map_Forall (λ id p, peer_ID p = id ∧ map_Forall (rows_apart id p) (w_peers w)) (w_peers w))
  && bool_decide (Forall (λ u, w_peers w !! u = None ∧ u ≠ "") (w_uuid w))
  && bool_decide (NoDup (w_uuid w)).

Lemma db_okb_ok w : db_okb w = true → db_ok w.
Proof.
  unfold db_okb. intros Hb. boolify. rename H into H1, H1 into H2, H0 into H3.
  assert (∀ id id' p q, w_peers w !! id = Some p → w_peers w !! id' = Some q →
            peer_ID p = id ∧ rows_apart id p id' q) as Hr.
  { intros id id' p q Hp Hq. destruct (map_Forall_lookup_1 _ _ _ _ H1 Hp) as [E H]. split; [done|].
    exact (map_Forall_lookup_1 _ _ _ _ H Hq). }
  split.
  - intros id p Hp. by apply (Hr id id p p).
  - intros id id' p q Hp Hq Hs. destruct (Hr id id' p q Hp Hq) as [_ [|[? _]]]; done.
  - intros id id' p q Hp Hq Hs. destruct (Hr id id' p q Hp Hq) as [_ [|[_ ?]]]; done.
  - intros id Hid. by apply (proj1 (Forall_forall _ _) H2).
  - done.
Qed.

Definition node1 : Node :=
  MkNode "node-1" "fra1" "Frankfurt" "token" "" "203.0.113.1" 4242421000 "fe80::1000" "bm9kZTE=" "/etc/bird/peers"
    "/etc/wireguard" 2 true true "1.4.0" "online" 0 0.

(** The two operators' peers on that node. *)
Definition peer1 (status : string) : Peer :=
  MkPeer "p1" "node-1" 4242420001 "a2V5MQ==" "198.51.100.1:20001" "fe80::1" "a@example.org" 20001 "wg_0001"
    "" "" true (Some 1420) None status None None false None 0 10 10.
Definition peer2 : Peer :=
  MkPeer "p2" "node-1" 4242420002 "a2V5Mg==" "198.51.100.2:20002" "fe80::2" "b@example.org" 20002 "wg_0002"
    "" "" true None None "active" None None false None 0 20 20.

Definition accepts : Z * Answer := (Second, Answered (MkMessage (Some true) "" [])).
Definition refuses : Z * Answer := (Second, Answered (MkMessage (Some false) "bad config" [])).
Definition silent : Z * Answer := (30 * Second, NoAnswer "context deadline exceeded").

(** What the agent carries matches the rows: the last sync listed the active peers. *)
Definition synced_log (status : string) : list event :=
  [EvSync "node-1"
     ((if status =s "active"
       then [MkSyncEntry "p1" 4242420001 "198.51.100.1:20001" "a2V5MQ==" "fe80::1" 20001 "wg_0001" "" "" (Some 1420) None]
       else [])
      ++ [MkSyncEntry "p2" 4242420002 "198.51.100.2:20002" "a2V5Mg==" "fe80::2" 20002 "wg_0002" "" "" None None])].

Definition sample_db (status : string) : DB :=
  MkDB (<["p1" := peer1 status]> {["p2" := peer2]}) {["node-1" := node1]} [] [] ∅ ∅ {[7 := 4242420001]}.
Definition sample_ext (db : list (option string)) (agent : list (Z * Answer)) : Ext :=
  MkExt db ["u1"; "u2"] [] agent [].
Definition sample (status : string) (db : list (option string)) (agent : list (Z * Answer)) : World :=
  MkWorld (sample_db status) (MkCache None None "" false) (MkRedis ∅ 1000000000) ∅ {["node-1"]}
    (sample_ext db agent) (synced_log status).

Definition sample_env : Env := MkEnv UseLocal (λ _, Ok "noc@example.org") true.

Lemma sample_ok status db agent : db_ok (sample status db agent).
Proof. apply db_okb_ok. vm_compute. reflexivity. Qed.

Lemma sample_in_sync status db agent : in_sync (sample status db agent) "p1".
Proof.
  intros node. unfold agent_view. cbn [sample w_log synced_log foldl told].
  assert (desired (w_peers (sample status db agent)) node "p1"
          = if bool_decide ("node-1" = node ∧ status = "active") then Some (payload_of "p1" (peer1 status)) else None) as ->.
  { unfold desired. change (w_peers (sample status db agent) !! "p1") with (Some (peer1 status)). reflexivity. }
  destruct (decide (node = "node-1")) as [->|Hn].
  - rewrite bool_decide_eq_true_2 by done. destruct (decide (status = "active")) as [->|Hs]; [done|].
    rewrite (bool_decide_eq_false_2 (status = "active")) by done. rewrite bool_decide_eq_false_2 by tauto. done.
  - rewrite bool_decide_eq_false_2 by done. rewrite bool_decide_eq_false_2 by (intros []; congruence). done.
Qed.
