(* ===== verification/Reconcile.v ===== *)
(** * Reconciliation ([internal/reconcile/reconcile.go],
    [internal/ws/handshake.go])

    The worker that makes agents converge to the database: a pass pushes every
    connected enabled node its full list of active peers. *)
From S2P Require Import Prelude GoLib Json Model Lock Cache Effects World Store Rely Handler Wp Scenario.
From stdpp Require Import sorting options.
Local Open Scope Z_scope.
Local Open Scope go_scope.

(** ** The push *)
Definition sync_entry (p : Peer) : PeerSyncEntry :=
  MkSyncEntry (peer_ID p) (peer_RemoteASN p) (peer_RemoteEndpoint p) (peer_RemotePubkey p) (peer_RemoteLLA p)
    (peer_WgListenPort p) (peer_WgInterfaceName p) (peer_BgpProtoName p) (peer_BirdConfigFilename p)
    (peer_MTU p) (peer_WgPreSharedKey p).

(** Queueing the message: it is delivered, or dropped.  The source tries a full
    send buffer once more two seconds later, with the same list; here an answer
    of the oracle stands for delivery at once, and a list that only the second
    attempt could deliver counts as dropped. *)
Definition push_step (nodeID : string) (peers : list PeerSyncEntry) (w : World) : unit * World :=
  let '((_, a), w1) := draw_agent w in
  (tt, match a with Answered _ => emit [EvSync nodeID peers] w1 | NoAnswer _ => w1 end).

(** [pushPeersSync]: a failing query sends the empty list. *)
Definition pushPeersSync (nodeID : string) : M unit :=
  ctx ← with_timeout (10 * Second);
  r ← ListByNode ctx nodeID;
  act (push_step nodeID (match r with
                         | Err _ => []
                         | Ok l => sync_entry <$> filter (λ p, peer_Status p = "active") l
                         end)).

Definition TriggerPeersSync (nodeID : string) : M bool :=
  on ← gets (λ w, bool_decide (nodeID ∈ w_conns w));
  if on : bool then pushPeersSync nodeID ;; mret true else mret false.

(** ** A pass, under the context of the lease's renewal *)
Fixpoint sync_nodes (ctx : Ctx) (nodes : list Node) : M unit :=
  match nodes with
  | [] => mret tt
  | node :: nodes =>
      now ← now_;
      if expired ctx now then mret tt
      else
        ok ← TriggerPeersSync (node_ID node);
        (if ok : bool
         then auditLog Background "node.reconcile.sync" "system:reconcile" None
                [("node_id", JStr (node_ID node)); ("node_name", JStr (node_Name node))]
         else mret tt) ;;
        sync_nodes ctx nodes
  end.
Definition runPass (ctx : Ctx) : M unit :=
  r ← Node_ListEnabled ctx;
  match r with Err _ => mret tt | Ok nodes => sync_nodes ctx nodes end.

Definition lockTTL : Z := 5 * Minute.
(** [tick]: the pass runs only with the lease, unless there is no locker. *)
Definition tick (l : Locker) (ctx : Ctx) : M unit :=
  match l with
  | NilLocker => runPass ctx
  | _ =>
      a ← lockAcquire l "reconcile:run" lockTTL;
      match a with
      | AcqErr _ | AcqBusy => mret tt
      | AcqLease le => runPass ctx ;; leaseRelease le
      end
  end.

(** ** Convergence *)
Definition delivered (a : Z * Answer) : Prop := match a.2 with Answered _ => True | NoAnswer _ => False end.

(** The database answers, and the next [k] messages are delivered. *)
Definition healthy (k : nat) (w : World) : Prop :=
  Forall (λ o, o = None) (e_db (w_ext w)) ∧ Forall delivered (e_agent (w_ext w)) ∧ (k ≤ length (e_agent (w_ext w)))%nat.

(** Rows keyed by their id, as the tables' primary keys make them. *)
Definition keyed (w : World) : Prop :=
  (∀ id p, w_peers w !! id = Some p → peer_ID p = id) ∧ (∀ id n, w_nodes w !! id = Some n → node_ID n = id).

(** What the agent of [node] carries is what the rows say, for every peer. *)
Definition converged (w : World) (node : string) : Prop :=
  ∀ id, agent_view (w_log w) node id = Configured (desired (w_peers w) node id).

Lemma entry_payload p : sync_payload (sync_entry p) = payload_of (peer_ID p) p.
Proof. by destruct p. Qed.

(** The entry of a peer in the list of a node. *)
Lemma sync_entry_head w node id :
  keyed w →
  head (filter (λ e, se_PeerID e = id)
    (sync_entry <$> filter (λ p, peer_Status p = "active") (filter (λ p, peer_NodeID p = node) (peer_rows w))))
  = match w_peers w !! id with
    | Some p => if bool_decide (peer_NodeID p = node ∧ peer_Status p = "active") then Some (sync_entry p) else None
    | None => None
    end.
Proof.
  intros [Hk _]. set (l := filter _ (sync_entry <$> _)).
  assert (∀ e, e ∈ l ↔ ∃ p, w_peers w !! id = Some p ∧ peer_NodeID p = node ∧ peer_Status p = "active" ∧ e = sync_entry p) as Hl.
  { intros e. unfold l. rewrite list_elem_of_filter, list_elem_of_fmap. setoid_rewrite list_elem_of_filter.
    setoid_rewrite list_elem_of_filter. unfold peer_rows. setoid_rewrite list_elem_of_fmap. split.
    - intros (He & p & -> & Hs & Hn & [i q] & -> & Hiq%elem_of_map_to_list). simpl in *.
      exists q. rewrite <-He. by rewrite (Hk i q Hiq).
    - intros (p & Hp & Hn & Hs & ->). split; [simpl; by apply Hk|]. exists p. split_and!; try done.
      exists (id, p). split; [done|]. by apply elem_of_map_to_list. }
  destruct (w_peers w !! id) as [p|] eqn:Hp.
  - case_bool_decide as Hc.
    + destruct l as [|e l'] eqn:El.
      * exfalso. destruct (Hl (sync_entry p)) as [_ H]. apply (not_elem_of_nil (sync_entry p)), H. exists p. naive_solver.
      * simpl. destruct (Hl e) as [H _]. destruct H as (q & Hq & _ & _ & ->); [by left|]. by simplify_eq.
    + destruct l as [|e l'] eqn:El; [done|]. exfalso. destruct (Hl e) as [H _].
      destruct H as (q & Hq & H1 & H2 & _); [by left|]. simplify_eq. tauto.
  - destruct l as [|e l'] eqn:El; [done|]. exfalso. destruct (Hl e) as [H _]. destruct H as (q & Hq & _); [by left|]. done.
Qed.

(** Steps that consume no message and keep the database answering. *)
Record idle (w w' : World) : Prop := {
  idle_calm : calm w w';
  idle_now : w_now w' = w_now w;
  idle_agent : e_agent (w_ext w') = e_agent (w_ext w);
  idle_db : Forall (λ o, o = None) (e_db (w_ext w)) → Forall (λ o, o = None) (e_db (w_ext w'))
}.
Lemma idle_refl w : idle w w.
Proof. by split. Qed.

Lemma idle_healthy w w' k : idle w w' → healthy k w → healthy k w'.
Proof. intros [_ _ Ha Hd] (H1 & H2 & H3). unfold healthy. rewrite Ha. auto. Qed.
Lemma calm_keyed w w' : calm w w' → keyed w → keyed w'.
Proof. intros Hc. unfold keyed. by rewrite (calm_peers _ _ Hc), (calm_nodes _ _ Hc). Qed.
Lemma calm_converged w w' n : calm w w' → converged w n → converged w' n.
Proof. intros Hc H id. by rewrite (calm_view _ _ _ _ Hc), (calm_peers _ _ Hc). Qed.

Lemma draw_db_idle w : Forall (λ o, o = None) (e_db (w_ext w)) → ∃ w', draw_db w = (None, w') ∧ idle w w'.
Proof.
  unfold draw_db. destruct (e_db (w_ext w)) as [|o l] eqn:E; intros Hf.
  - exists w. split; [done|apply idle_refl].
  - apply Forall_cons in Hf as [-> Hf]. eexists. split; [done|]. split; [|done|done|].
    + pose proof (calm_draws w) as (H & _). unfold draw_db in H. by rewrite E in H.
    + simpl. by rewrite E.
Qed.

Lemma wp_stmt_healthy {R} ctx (onerr : string → R) f Q w k :
  healthy k w → expired ctx (w_now w) = false →
  (∀ w', idle w w' → Q (f w').1 (f w').2) → wp (stmt ctx onerr f) Q w.
Proof.
  intros (Hd & _) He HQ. apply wp_act. unfold stmt_step. rewrite He.
  destruct (draw_db_idle w Hd) as (w' & -> & Hi). by apply HQ.
Qed.

Lemma push_log n es w k :
  healthy (S k) w →
  let w' := (push_step n es w).2 in
  healthy k w' ∧ w_db w' = w_db w ∧ w_conns w' = w_conns w ∧ w_now w' = w_now w
  ∧ w_log w' = w_log w ++ [EvSync n es].
Proof.
  intros (Hd & Ha & Hlen). unfold push_step, draw_agent.
  destruct (e_agent (w_ext w)) as [|[d a] l] eqn:E; [simpl in Hlen; lia|].
  apply Forall_cons in Ha as [Hdel Ha]. destruct a as [e|m]; [done|]. simpl in *.
  split; [|done]. unfold healthy. simpl. split_and!; [done..|lia].
Qed.

(** A pushed node has converged, the others are as before. *)
Lemma pushPeersSync_converges n k w :
  healthy (S k) w → keyed w →
  wp (pushPeersSync n) (λ _ w', healthy k w' ∧ keyed w' ∧ w_peers w' = w_peers w ∧ w_conns w' = w_conns w
      ∧ converged w' n ∧ ∀ n', converged w n' → converged w' n') w.
Proof.
  intros Hh Hk. unfold pushPeersSync. apply wp_bind, wp_with_timeout.
  apply wp_bind. eapply wp_stmt_healthy; [exact Hh| |].
  { simpl. apply Z.leb_gt. unfold Second. lia. }
  intros w1 Hi. pose proof (idle_calm _ _ Hi) as Hc. eapply idle_healthy in Hh; [|exact Hi].
  eapply calm_keyed in Hk; [|exact Hc]. apply wp_act. cbn [fst snd].
  match goal with |- context [push_step n ?l w1] => set (es := l) end.
  destruct (push_log n es w1 k Hh) as (Hh' & Hdb & Hcn & _ & Hlog).
  assert (w_peers (push_step n es w1).2 = w_peers w1) as Hp by (unfold w_peers; by rewrite Hdb).
  assert (∀ n', converged w1 n' ∨ n' = n → converged (push_step n es w1).2 n') as Hconv.
  { intros n' Hn' id. rewrite Hlog, agent_view_app, Hp. simpl. case_bool_decide as Hn.
    - subst n'. f_equal. unfold es. rewrite sync_entry_head by done. unfold desired.
      destruct (w_peers w1 !! id) as [p|] eqn:Hpid; [|done]. case_bool_decide; [|done].
      simpl. by rewrite entry_payload, (proj1 Hk id p Hpid).
    - destruct Hn' as [Hn'|]; [apply Hn'|done]. }
  split; [done|]. split; [unfold keyed, w_nodes; by rewrite Hp, Hdb|].
  split; [rewrite Hp; by apply calm_peers|]. split; [rewrite Hcn; apply Hc|]. split; [apply Hconv; auto|].
  intros n' Hn'. apply Hconv. left. by eapply calm_converged.
Qed.

Lemma sync_nodes_converges nodes w :
  healthy (length nodes) w → keyed w →
  wp (sync_nodes Background nodes) (λ _ w', w_peers w' = w_peers w ∧ w_conns w' = w_conns w
      ∧ (∀ n, converged w n → converged w' n)
      ∧ ∀ node, node ∈ nodes → node_ID node ∈ w_conns w → converged w' (node_ID node)) w.
Proof.
  revert w. induction nodes as [|node nodes IH]; intros w Hh Hk.
  { apply wp_ret. split_and!; try done. intros ? []%not_elem_of_nil. }
  cbn [sync_nodes]. apply wp_bind, wp_gets. cbn [expired Background]. cbv iota.
  unfold TriggerPeersSync. apply wp_bind, wp_bind, wp_gets. case_bool_decide as Hon.
  - apply wp_bind. eapply wp_mono; [|by apply (pushPeersSync_converges (node_ID node) (length nodes))].
    intros _ w1 (Hh1 & Hk1 & Hp1 & Hc1 & Hconv & Hkeep). apply wp_ret, wp_bind, wp_stmt_healthy with (length nodes); [done|done|].
    intros w2 Hi. pose proof (idle_calm _ _ Hi) as Hc. simpl.
    assert (calm w1 (emit [EvAudit "node.reconcile.sync" "system:reconcile" None
      [("node_id", JStr (node_ID node)); ("node_name", JStr (node_Name node))]] w2)) as Hc2.
    { etransitivity; [exact Hc|]. apply calm_emit. by repeat constructor. }
    eapply wp_mono; [|apply IH; [eapply (idle_healthy _ _ _ Hi), Hh1|by eapply calm_keyed]].
    intros _ w3 (Hp3 & Hc3 & Hkeep3 & Hdone). rewrite Hp3, Hc3, (calm_peers _ _ Hc2), (calm_conns _ _ Hc2), Hp1, Hc1.
    split_and!; try done.
    + intros n Hn. eapply Hkeep3, calm_converged, Hkeep, Hn. done.
    + intros nd [->|Hin]%elem_of_cons Hon'.
      * by eapply Hkeep3, calm_converged.
      * apply Hdone; [done|]. by rewrite (calm_conns _ _ Hc2), Hc1.
  - apply wp_ret, wp_bind, wp_ret. eapply wp_mono; [|apply IH; [|done]].
    + intros _ w3 (Hp3 & Hc3 & Hkeep3 & Hdone). split_and!; try done.
      intros nd [->|Hin]%elem_of_cons Hon'; [done|by apply Hdone].
    + destruct Hh as (? & ? & ?). split_and!; try done. simpl in *. lia.
Qed.

(** C13: Reconciliation heals every divergence.  When the database answers and
    the messages are delivered, one pass brings the agent of every enabled,
    connected node to exactly the rows' active peers, whatever it was told
    before (peers that are gone, stale settings, peers it never heard of), and
    changes no row. *)
Theorem runPass_converges (w : World) (node : Node)
  (Hk : keyed w) (Hh : healthy (length (node_rows w)) w)
  (Hn : w_nodes w !! node_ID node = Some node) (Hen : node_Enabled node = true)
  (Hon : node_ID node ∈ w_conns w) :
  let w' := (exec (runPass Background) w).2 in
  converged w' (node_ID node) ∧ w_peers w' = w_peers w.
Proof.
  intros w'. change (wp (runPass Background) (λ _ w', converged w' (node_ID node) ∧ w_peers w' = w_peers w) w).
  unfold runPass. apply wp_bind. eapply wp_stmt_healthy; [exact Hh|done|]. intros w1 Hi. cbn [fst snd].
  pose proof (idle_calm _ _ Hi) as Hc. set (nodes := merge_sort _ _).
  assert (Permutation nodes (filter (λ n, node_Enabled n = true) (node_rows w1))) as Hperm by apply merge_sort_Permutation.
  assert (node_rows w1 = node_rows w) as Hrows by (unfold node_rows; by rewrite (calm_nodes _ _ Hc)).
  eapply wp_mono; [|apply sync_nodes_converges; [|by eapply calm_keyed]].
  - intros _ w2 (Hp & _ & _ & Hdone). split; [|by rewrite Hp, (calm_peers _ _ Hc)].
    apply Hdone; [|by rewrite (calm_conns _ _ Hc)]. rewrite Hperm, list_elem_of_filter. split; [done|].
    rewrite Hrows. unfold node_rows. apply list_elem_of_fmap. exists (node_ID node, node). split; [done|].
    by apply elem_of_map_to_list.
  - eapply idle_healthy in Hh; [|exact Hi]. destruct Hh as (H1 & H2 & H3). split_and!; [done..|].
    rewrite Hperm. pose proof (length_filter (λ n, node_Enabled n = true) (node_rows w1)). rewrite Hrows in *. lia.
Qed.

(** The divergence an update leaves behind ([update_failure_diverges] starts
    from the same world) is gone after the next pass. *)
Lemma runPass_converges_witness :
  let w := emit [EvCmd "node-1" (TypePeerRemove "p1" 4242420001) (Answered (MkMessage (Some true) "" []))]
             (sample "active" [] [accepts]) in
  let w' := (exec (runPass Background) w).2 in
  agent_view (w_log w) "node-1" "p1" = Configured None
  ∧ desired (w_peers w) "node-1" "p1" ≠ None ∧ converged w' "node-1".
Proof.
  intros w w'. split; [vm_compute; reflexivity|]. split; [vm_compute; discriminate|].
  apply (runPass_converges w node1).
  - split; [exact (ok_keyed _ (sample_ok "active" [] []))|].
    intros id n Hn. change (w_nodes w) with ({["node-1" := node1]} : gmap string Node) in Hn.
    apply lookup_singleton_Some in Hn as [<- <-]. reflexivity.
  - split_and!; [constructor|constructor; [exact I|constructor]|vm_compute; lia].
  - vm_compute. reflexivity.
  - reflexivity.
  - apply (bool_decide_eq_true_1 ("node-1" ∈ w_conns w)). vm_compute. reflexivity.
Defined.

(** A pass while the database is unreachable tears everything down: when
    the listing fails, the empty list is sent and delivered, and the agent
    drops every peer, the active ones included. *)
Theorem failed_listing_empties_agent (w : World) (node e : string) (db : list (option string)) (a : Z * Answer)
    (agent : list (Z * Answer))
  (Hdb : e_db (w_ext w) = Some e :: db) (Hag : e_agent (w_ext w) = a :: agent) (Hdel : delivered a) :
  let w' := (exec (pushPeersSync node) w).2 in
  w_peers w' = w_peers w ∧ ∀ id, agent_view (w_log w') node id = Configured None.
Proof.
  intros w'. change (wp (pushPeersSync node) (λ _ w', w_peers w' = w_peers w
    ∧ ∀ id, agent_view (w_log w') node id = Configured None) w).
  unfold pushPeersSync. apply wp_bind, wp_with_timeout. apply wp_bind, wp_act. unfold stmt_step.
  assert (expired (Some (w_now w + 10 * Second)) (w_now w) = false) as ->.
  { apply Z.leb_gt. unfold Second. lia. }
  unfold draw_db. rewrite Hdb. apply wp_act. cbn [fst snd]. unfold push_step, draw_agent. cbn [w_ext set_ext e_agent].
  rewrite Hag. destruct a as [d [er|m]]; [done|]. cbn [snd]. split; [done|].
  intros id. cbn [w_log emit set_ext]. rewrite agent_view_app. simpl. by rewrite bool_decide_eq_true_2.
Qed.

Lemma failed_listing_empties_agent_witness :
  let w := sample "active" [Some "connection refused"] [accepts] in
  let w' := (exec (pushPeersSync "node-1") w).2 in
  desired (w_peers w) "node-1" "p1" ≠ None ∧ agent_view (w_log w') "node-1" "p1" = Configured None.
Proof.
  intros w w'. split; [vm_compute; discriminate|].
  refine (proj2 (failed_listing_empties_agent w "node-1" "connection refused" [] accepts [] eq_refl eq_refl I) "p1").
Defined.
