(* ===== verification/Inactivity.v ===== *)
(** * The inactivity sweep ([internal/inactivity/worker.go])

    Peers without a recent handshake are warned twice and then deleted.  The
    sweep works on a snapshot; the final delete is guarded by the warning stage,
    which heartbeats reset. *)
From S2P Require Import Prelude GoLib Json Model Lock Cache Effects World Store Rely Handler Wp Scenario.
From stdpp Require Import sorting options.
Local Open Scope Z_scope.
Local Open Scope go_scope.

Record Config : Type := MkConfig {
  Enabled : bool;
  WarnFirstDays : Z;
  WarnSecondDays : Z;
  DeleteDays : Z;
  DryRun : bool
}.

(** [NewWorker]: thresholds that are not positive take their defaults. *)
Definition NewWorker (cfg : Config) : Config :=
  MkConfig (Enabled cfg)
    (if WarnFirstDays cfg <=? 0 then 45 else WarnFirstDays cfg)
    (if WarnSecondDays cfg <=? 0 then 50 else WarnSecondDays cfg)
    (if DeleteDays cfg <=? 0 then 60 else DeleteDays cfg)
    (DryRun cfg).

(** The comparison of the (fractional) days of inactivity with a threshold, and
    their whole part. *)
Definition Day : Z := 24 * Hour.
Definition reached (p : InactivePeer) (days : Z) : bool := days * Day <=? ip_Inactive p.
Definition whole_days (p : InactivePeer) : Z := Z.quot (ip_Inactive p) Day.

Section worker.
Context (cfg : Config).

Definition sendWarning (ctx : Ctx) (p : InactivePeer) (level : Z) : M unit :=
  let vars := [("asn", JNum (ip_RemoteASN p)); ("nodeName", JStr (ip_NodeName p));
               ("daysInactive", JNum (whole_days p)); ("level", JNum level)] in
  (if (ip_ContactEmail p <>s "") && negb (DryRun cfg)
   then sendMail (ip_ContactEmail p) "peer-inactive-warning" vars else mret tt) ;;
  b ← Binding_GetByASN ctx (ip_RemoteASN p);
  match b with
  | Ok tg => if DryRun cfg then mret tt else notifyBotUser tg "peer.inactive_warning" vars
  | Err _ => mret tt
  end.

Definition deletePeer (ctx : Ctx) (p : InactivePeer) : M unit :=
  if DryRun cfg then mret tt
  else
    d ← DeleteInactive ctx (ip_PeerID p);
    match d with
    | Err _ | Ok false => mret tt
    | Ok true =>
        _ ← SendCommand (ip_NodeID p) (TypePeerRemove (ip_PeerID p) (ip_RemoteASN p));
        auditLog ctx "peer.inactivity_delete" "system:inactivity_sweep" (Some (ip_PeerID p))
          [("asn", JNum (ip_RemoteASN p)); ("nodeName", JStr (ip_NodeName p));
           ("daysInactive", JNum (whole_days p))] ;;
        ClearPeerAlerts (ip_PeerID p)
    end.

(** A warning of a level the peer has not reached yet. *)
Definition warn (ctx : Ctx) (p : InactivePeer) (stage level : Z) : M unit :=
  if ip_Stage p <? stage then
    sendWarning ctx p level ;;
    if DryRun cfg then mret tt
    else _ ← SetInactivityWarningStage ctx (ip_PeerID p) stage; mret tt
  else mret tt.

Definition sweep_peer (ctx : Ctx) (p : InactivePeer) : M unit :=
  if reached p (DeleteDays cfg) then warn ctx p 3 60 ;; deletePeer ctx p
  else if reached p (WarnSecondDays cfg) then warn ctx p 2 50
  else if reached p (WarnFirstDays cfg) then warn ctx p 1 45
  else mret tt.

Definition sweep (ctx : Ctx) : M unit :=
  if negb (Enabled cfg) then mret tt
  else
    r ← ListInactiveActivePeers ctx;
    match r with
    | Err _ => mret tt
    | Ok peers => forM peers (sweep_peer ctx)
    end.

(** [withLock]: unlike the request handlers, no lease means no run. *)
Definition withLock (l : Locker) (ctx : Ctx) (key : string) (ttl : Z) (fn : Ctx → M unit) : M unit :=
  match l with
  | NilLocker => fn ctx
  | _ =>
      a ← lockAcquire l key ttl;
      match a with
      | AcqErr _ | AcqBusy => mret tt
      | AcqLease le => fn ctx ;; leaseRelease le
      end
  end.

Definition RunOnce (l : Locker) (ctx : Ctx) : M unit := withLock l ctx "inactivity:run" Hour sweep.
End worker.

(** ** What a sweep decides *)
Definition raise_stage (s : Z) (p : Peer) : Peer :=
  if peer_InactivityWarningStage p <? s then assign (set_InactivityWarningStage s) p else p.

(** The row after a sweep that read [ip] for it; [None]: it is deleted. *)
Definition verdict (cfg : Config) (ip : InactivePeer) (p : Peer) : option Peer :=
  if reached ip (DeleteDays cfg)
  then if peer_InactivityWarningStage p <=? 3 then None else Some p
  else if reached ip (WarnSecondDays cfg) then Some (raise_stage 2 p)
  else if reached ip (WarnFirstDays cfg) then Some (raise_stage 1 p)
  else Some p.

Definition snapshot (now : Z) (pn : Peer * Node) : InactivePeer :=
  MkInactive (peer_ID pn.1) (peer_NodeID pn.1) (peer_RemoteASN pn.1) (peer_ContactEmail pn.1)
    (peer_InactivityWarningStage pn.1) (node_Name pn.2) (inactive_for now pn.1).

(** The specification of a whole sweep on the rows. *)
Definition judged (cfg : Config) (now : Z) (nodes : gmap string Node) (p : Peer) : option Peer :=
  if peer_Status p =s "active" then
    match nodes !! peer_NodeID p with
    | Some n => verdict cfg (snapshot now (p, n)) p
    | None => Some p
    end
  else Some p.

(** Only the row of one peer changes, to [o]. *)
Definition changes_row (id : string) (o : option Peer) (w w' : World) : Prop :=
  w_peers w' !! id = o ∧ (∀ id', id' ≠ id → w_peers w' !! id' = w_peers w !! id') ∧ w_nodes w' = w_nodes w.

Lemma changes_same id w w' : w_peers w' = w_peers w → w_nodes w' = w_nodes w → changes_row id (w_peers w !! id) w w'.
Proof. intros Hp Hn. split_and!; [by rewrite Hp|intros; by rewrite Hp|done]. Qed.
Lemma changes_trans id o o' w1 w2 w3 : changes_row id o w1 w2 → changes_row id o' w2 w3 → changes_row id o' w1 w3.
Proof. intros (A1 & B1 & C1) (A2 & B2 & C2). split_and!; [done| |congruence]. intros i Hi. by rewrite B2, B1. Qed.

(** Stages are not key columns. *)
Lemma violation_stage id s p m :
  violation id (assign (set_InactivityWarningStage s) p) m = violation id p m.
Proof. by destruct p. Qed.

(** Rows that clash with no other row. *)
Definition unviolated (m : gmap string Peer) : Prop := ∀ id p, m !! id = Some p → violation id p m = None.

Lemma violation_None_iff id p m :
  violation id p m = None ↔ ∀ id' q, m !! id' = Some q → id' ≠ id → ¬ same_asn p q ∧ ¬ same_port p q.
Proof.
  unfold violation. split.
  - do 2 (case_bool_decide as H; [done|]; revert H). intros H1 H2 _ id' q Hq Hne.
    split; intros Hs; [apply H2|apply H1]; exists id', q; done.
  - intros H. rewrite !bool_decide_eq_false_2; [done|..]; intros (id' & q & Hq & Hne & Hs);
      destruct (H id' q Hq Hne); done.
Qed.

Definition same_keys (p q : Peer) : Prop :=
  peer_NodeID p = peer_NodeID q ∧ peer_RemoteASN p = peer_RemoteASN q ∧ peer_WgListenPort p = peer_WgListenPort q.
Lemma raise_keys s p : same_keys p (raise_stage s p).
Proof. unfold raise_stage. case_match; by destruct p. Qed.

Lemma unviolated_change m m' id :
  unviolated m → (∀ id', id' ≠ id → m' !! id' = m !! id') →
  (∀ q, m' !! id = Some q → ∃ p, m !! id = Some p ∧ same_keys p q) → unviolated m'.
Proof.
  intros Hu Ho Hi.
  assert (∀ i q, m' !! i = Some q → ∃ p, m !! i = Some p ∧ same_keys p q) as Hback.
  { intros i q Hq. destruct (decide (i = id)) as [->|Hne]; [by apply Hi|]. rewrite Ho in Hq by done.
    exists q. by repeat split. }
  intros i q Hq. apply violation_None_iff. intros i' q' Hq' Hne.
  destruct (Hback i q Hq) as (p & Hp & E1 & E2 & E3), (Hback i' q' Hq') as (p' & Hp' & F1 & F2 & F3).
  pose proof (proj1 (violation_None_iff _ _ _) (Hu i p Hp) i' p' Hp' Hne) as [Ha Hb].
  unfold same_asn, same_port in *. split; intros [? ?]; [apply Ha|apply Hb]; split; congruence.
Qed.

Lemma db_ok_unviolated w : db_ok w → unviolated (w_peers w).
Proof.
  intros Hok id p Hp. apply violation_None_iff. intros id' q Hq Hne. split; intros Hs; apply Hne.
  - symmetry. by apply (ok_asn w Hok id id' p q).
  - symmetry. by apply (ok_port w Hok id id' p q).
Qed.

Section outcome.
Set Default Proof Using "Type*".
Context (cfg : Config).
Hypothesis Hreal : DryRun cfg = false.

Lemma sendWarning_calm ctx p level : Calm (sendWarning cfg ctx p level).
Proof.
  unfold sendWarning. apply Calm_bind; [destruct (_ && _); auto with autopeer|]. intros _.
  apply Calm_bind; [apply Calm_query|]. intros [tg|]; [rewrite Hreal|]; auto with autopeer.
Qed.

Lemma warn_outcome ip stage level p w :
  answering w → w_peers w !! ip_PeerID ip = Some p → violation (ip_PeerID ip) p (w_peers w) = None →
  ip_Stage ip = peer_InactivityWarningStage p →
  wp (warn cfg Background ip stage level)
     (λ _ w', answering w' ∧ changes_row (ip_PeerID ip) (Some (raise_stage stage p)) w w') w.
Proof.
  intros Ha Hp Hv Hs. unfold warn, raise_stage. rewrite Hs. destruct (_ <? stage).
  2:{ apply wp_ret. split; [done|]. rewrite <-Hp. by apply changes_same. }
  apply wp_bind, wp_calm; [apply sendWarning_calm|]. intros _ w1 H1. rewrite Hreal.
  apply wp_bind, wp_stmt_ok; [by apply H1|done|]. intros w2 H2 Ha2 _. unfold update_row.
  rewrite (calm_peers _ _ H2), (calm_peers _ _ H1), Hp. cbn [assign_all fold_left]. rewrite violation_stage, Hv.
  apply wp_ret. split; [done|]. split_and!; simpl.
  - apply lookup_insert_eq.
  - intros i Hi. exact (lookup_insert_ne (w_peers w) _ _ _ (not_eq_sym Hi)).
  - change (w_nodes (set_peers (<[ip_PeerID ip:=assign (set_InactivityWarningStage stage) p]> (w_peers w)) w2) = w_nodes w).
    change (w_nodes w2 = w_nodes w). by rewrite (calm_nodes _ _ H2), (calm_nodes _ _ H1).
Qed.

Lemma delete_outcome ip p w :
  answering w → w_peers w !! ip_PeerID ip = Some p →
  wp (deletePeer cfg Background ip)
     (λ _ w', answering w' ∧
        changes_row (ip_PeerID ip) (if peer_InactivityWarningStage p =? 3 then None else Some p) w w') w.
Proof.
  intros Ha Hp. unfold deletePeer. rewrite Hreal. apply wp_bind, wp_stmt_ok; [done..|].
  intros w1 H1 Ha1 _. rewrite (calm_peers _ _ H1), Hp. destruct (_ =? 3).
  2:{ apply wp_ret. split; [done|]. rewrite <-Hp. apply changes_same; [by apply calm_peers|by apply calm_nodes]. }
  apply wp_bind, wp_command_rows. intros a w2 Hp2 Hn2 Ha2. simpl in Hp2, Hn2.
  eapply wp_calm; [apply Calmly_Calm; calmly|]. intros r w3 H3. split; [by apply H3, Ha2|].
  split_and!; rewrite ?(calm_peers _ _ H3), ?(calm_nodes _ _ H3), ?Hp2, ?Hn2; [apply lookup_delete_eq| |exact (calm_nodes _ _ H1)].
  intros i Hi. exact (lookup_delete_ne (w_peers w) _ _ (not_eq_sym Hi)).
Qed.

Lemma sweep_peer_outcome ip p w :
  answering w → unviolated (w_peers w) → w_peers w !! ip_PeerID ip = Some p →
  ip_Stage ip = peer_InactivityWarningStage p →
  wp (sweep_peer cfg Background ip)
     (λ _ w', answering w' ∧ unviolated (w_peers w') ∧ changes_row (ip_PeerID ip) (verdict cfg ip p) w w') w.
Proof.
  intros Ha Hu Hp Hs.
  assert (∀ o w', answering w' → (∀ q, o = Some q → ∃ p, w_peers w !! ip_PeerID ip = Some p ∧ same_keys p q) →
    changes_row (ip_PeerID ip) o w w' →
    answering w' ∧ unviolated (w_peers w') ∧ changes_row (ip_PeerID ip) o w w') as Hdone.
  { intros o w' Ha' Ho Hc. split_and!; try done. destruct Hc as (C1 & C2 & _).
    eapply (unviolated_change _ _ (ip_PeerID ip) Hu C2). rewrite C1. exact Ho. }
  assert (∀ st lv, wp (warn cfg Background ip st lv) (λ _ w', answering w' ∧ unviolated (w_peers w')
    ∧ changes_row (ip_PeerID ip) (Some (raise_stage st p)) w w') w) as Hwarn.
  { intros st lv. eapply wp_mono; [|apply (warn_outcome ip st lv p); auto]. intros _ w' [Ha' Hc].
    apply Hdone; [done| |done]. intros q [= <-]. exists p. split; [done|]. apply raise_keys. }
  unfold sweep_peer, verdict. destruct (reached ip (DeleteDays cfg)); [|destruct (reached ip (WarnSecondDays cfg))].
  - apply wp_bind. eapply wp_mono; [|apply Hwarn]. intros _ w1 (Ha1 & Hu1 & Hc1).
    pose proof Hc1 as (C1 & _). eapply wp_mono; [|by apply (delete_outcome ip _ _ Ha1 C1)].
    intros _ w2 [Ha2 Hc2]. pose proof (changes_trans _ _ _ _ _ _ Hc1 Hc2) as Hc.
    replace (if peer_InactivityWarningStage p <=? 3 then None else Some p)
      with (if peer_InactivityWarningStage (raise_stage 3 p) =? 3 then None else Some (raise_stage 3 p)).
    + apply Hdone; [done| |done]. intros q Hq. exists p. split; [done|]. case_match; [done|].
      injection Hq as <-. apply raise_keys.
    + unfold raise_stage. destruct (Z.ltb_spec (peer_InactivityWarningStage p) 3).
      * destruct p. simpl in *. by rewrite (proj2 (Z.leb_le _ _)) by lia.
      * destruct (Z.leb_spec (peer_InactivityWarningStage p) 3), (Z.eqb_spec (peer_InactivityWarningStage p) 3);
          done || lia.
  - apply Hwarn.
  - destruct (reached ip (WarnFirstDays cfg)); [apply Hwarn|]. apply wp_ret, Hdone; [done| |].
    + intros q [= <-]. exists p. by repeat split.
    + rewrite <-Hp. by apply changes_same.
Qed.

(** The loop visits each peer once. *)
Lemma sweep_loop l w :
  answering w → unviolated (w_peers w) → NoDup (ip_PeerID <$> l) →
  (∀ ip, ip ∈ l → ∃ p, w_peers w !! ip_PeerID ip = Some p ∧ ip_Stage ip = peer_InactivityWarningStage p) →
  wp (forM l (sweep_peer cfg Background)) (λ _ w',
    (∀ ip p, ip ∈ l → w_peers w !! ip_PeerID ip = Some p → w_peers w' !! ip_PeerID ip = verdict cfg ip p)
    ∧ (∀ id, id ∉ ip_PeerID <$> l → w_peers w' !! id = w_peers w !! id)) w.
Proof.
  revert w. induction l as [|ip l IH]; intros w Ha Hu Hnd Hrows.
  { apply wp_ret. split; [|done]. intros ? ? []%not_elem_of_nil. }
  cbn [forM]. rewrite fmap_cons in Hnd. apply NoDup_cons in Hnd as [Hnot Hnd].
  destruct (Hrows ip) as (p & Hp & Hs); [by left|].
  apply wp_bind. eapply wp_mono; [|by apply (sweep_peer_outcome ip p)].
  intros _ w1 (Ha1 & Hu1 & C1 & C2 & C3).
  assert (∀ ip', ip' ∈ l → ip_PeerID ip' ≠ ip_PeerID ip) as Hne.
  { intros ip' Hin E. apply Hnot. rewrite <-E. by apply list_elem_of_fmap_2. }
  eapply wp_mono; [|apply IH; [done..|]].
  - intros _ w2 [H1 H2]. split.
    + intros ip' p' [->|Hin]%elem_of_cons Hp'.
      * rewrite H2 by done. congruence.
      * apply H1; [done|]. rewrite C2; [done|]. by apply Hne.
    + intros id Hid. rewrite fmap_cons in Hid. apply not_elem_of_cons in Hid as [Hi1 Hi2].
      rewrite H2 by done. by apply C2.
  - intros ip' Hin. rewrite C2 by by apply Hne. apply Hrows. by right.
Qed.
End outcome.

(** ** The snapshot a sweep works on *)
Section listing.
Context (w : World) (Hok : db_ok w).
Set Default Proof Using "Type*".

Definition active_rows : list (Peer * Node) :=
  join_nodes w (filter (λ p, peer_Status p = "active") (peer_rows w)).

Lemma elem_peer_rows p : p ∈ peer_rows w ↔ w_peers w !! peer_ID p = Some p.
Proof.
  unfold peer_rows. rewrite list_elem_of_fmap. split.
  - intros ([i q] & -> & Hin%elem_of_map_to_list). simpl. by rewrite (ok_keyed w Hok i q Hin).
  - intros Hp. exists (peer_ID p, p). split; [done|]. by apply elem_of_map_to_list.
Qed.

Lemma NoDup_rows : NoDup (peer_ID <$> peer_rows w).
Proof.
  assert (peer_ID <$> peer_rows w = (map_to_list (w_peers w)).*1) as ->; [|apply NoDup_fst_map_to_list].
  unfold peer_rows. rewrite <-list_fmap_compose. apply list_fmap_ext. intros i [id p] Hin. simpl.
  apply (ok_keyed w Hok id p). apply elem_of_map_to_list. by apply list_elem_of_lookup_2 in Hin.
Qed.

Lemma elem_active_rows p n :
  (p, n) ∈ active_rows ↔ w_peers w !! peer_ID p = Some p ∧ peer_Status p = "active" ∧ w_nodes w !! peer_NodeID p = Some n.
Proof.
  unfold active_rows, join_nodes. rewrite list_elem_of_omap. unfold with_node. split.
  - intros (q & [Hs Hq%elem_peer_rows]%list_elem_of_filter & (m & Hm & [= -> ->])%bind_Some). done.
  - intros (Hp & Hs & Hn). exists p. split; [apply list_elem_of_filter; by rewrite elem_peer_rows|]. by rewrite Hn.
Qed.

Lemma ids_sublist l : (λ pn, peer_ID pn.1) <$> join_nodes w l `sublist_of` (peer_ID <$> l).
Proof.
  induction l as [|p l IH]; [constructor|]. simpl. unfold with_node at 1.
  destruct (w_nodes w !! peer_NodeID p); simpl; by constructor.
Qed.

Lemma NoDup_active now : NoDup (ip_PeerID <$> (snapshot now <$> active_rows)).
Proof.
  rewrite <-list_fmap_compose. unfold active_rows.
  eapply sublist_NoDup; [|apply ids_sublist].
  eapply sublist_NoDup; [apply NoDup_rows|]. apply fmap_sublist, sublist_filter.
Qed.
End listing.

(** C14: What a sweep does.  When the database answers, an enabled sweep that is
    not a dry run turns the rows into exactly those the policy prescribes:
    active peers past the deletion threshold are gone, those past the second
    and first warning thresholds are at least at stage 2 and 1, every other row
    and column is untouched; what agents answer makes no difference. *)
Theorem sweep_outcome (cfg : Config) (w : World)
  (Hen : Enabled cfg = true) (Hreal : DryRun cfg = false) (Hok : db_ok w) (Ha : answering w) :
  w_peers (exec (sweep cfg Background) w).2 = omap (judged cfg (w_now w) (w_nodes w)) (w_peers w).
Proof.
  set (res := omap (judged cfg (w_now w) (w_nodes w)) (w_peers w)).
  change (wp (sweep cfg Background) (λ _ w', w_peers w' = res) w).
  unfold sweep. rewrite Hen. simpl negb. cbv iota. apply wp_bind, wp_stmt_ok; [done..|].
  intros w1 H1 Ha1 Hnow. cbn [fst snd].
  assert (∀ p n, (p, n) ∈ active_rows w1 ↔
    w_peers w !! peer_ID p = Some p ∧ peer_Status p = "active" ∧ w_nodes w !! peer_NodeID p = Some n) as Hact.
  { intros p n. rewrite <-(elem_active_rows w Hok). unfold active_rows, join_nodes, peer_rows, with_node.
    by rewrite (calm_peers _ _ H1), (calm_nodes _ _ H1). }
  assert (NoDup (ip_PeerID <$> (snapshot (w_now w) <$> active_rows w1))) as Hnd.
  { pose proof (NoDup_active w Hok (w_now w)) as H. revert H. unfold active_rows, join_nodes, peer_rows, with_node.
    by rewrite (calm_peers _ _ H1), (calm_nodes _ _ H1). }
  rewrite Hnow. set (l := merge_sort _ _).
  assert (Permutation l (snapshot (w_now w) <$> active_rows w1)) as Hperm by apply merge_sort_Permutation.
  eapply wp_mono; [|apply (sweep_loop cfg Hreal l w1); [done| |by rewrite Hperm|]].
  - intros _ w2 [Hin Hout]. apply map_eq. intros id. unfold res. rewrite lookup_omap.
    destruct (decide (id ∈ ip_PeerID <$> l)) as [Hid|Hid].
    + apply list_elem_of_fmap in Hid as (ip & -> & Hip). pose proof Hip as Hip'.
      rewrite Hperm in Hip. apply list_elem_of_fmap in Hip as ([p n] & -> & (Hp & Hs & Hn)%Hact). simpl.
      rewrite Hp. simpl. unfold judged. rewrite Hs, bool_decide_eq_true_2, Hn by done.
      apply (Hin _ p Hip'). simpl. by rewrite (calm_peers _ _ H1).
    + rewrite Hout by done. rewrite (calm_peers _ _ H1). destruct (w_peers w !! id) as [p|] eqn:Hp; [|done].
      simpl. unfold judged. destruct (peer_Status p =s "active") eqn:Hs; [|done].
      destruct (w_nodes w !! peer_NodeID p) as [n|] eqn:Hn; [|done]. exfalso. apply Hid. rewrite Hperm.
      pose proof (ok_keyed w Hok id p Hp) as <-. boolify.
      apply list_elem_of_fmap. exists (snapshot (w_now w) (p, n)). split; [done|].
      apply list_elem_of_fmap_2. by apply Hact.
  - rewrite (calm_peers _ _ H1). by apply db_ok_unviolated.
  - intros ip Hip. rewrite Hperm in Hip. apply list_elem_of_fmap in Hip as ([p n] & -> & (Hp & _)%Hact).
    exists p. by rewrite (calm_peers _ _ H1).
Qed.

(** 61 days in: one peer silent since the start, the other for 47 days. *)
Definition aged : World :=
  let w := sample "active" [] [refuses] in
  set_locks (MkRedis ∅ (61 * Day)) ∅
    (set_peers (alter (assign (set_LastActiveAt (Some (14 * Day)))) "p2" (w_peers w)) w).
Lemma sweep_outcome_witness :
  let w' := (exec (sweep (NewWorker (MkConfig true 0 0 0 false)) Background) aged).2 in
  w_peers w' = omap (judged (NewWorker (MkConfig true 0 0 0 false)) (61 * Day) (w_nodes aged)) (w_peers aged)
  ∧ w_peers w' !! "p1" = None ∧ peer_InactivityWarningStage <$> (w_peers w' !! "p2") = Some 1.
Proof.
  intros w'. split; [|split; vm_compute; reflexivity].
  apply (sweep_outcome (NewWorker (MkConfig true 0 0 0 false)) aged eq_refl eq_refl).
  - apply db_okb_ok. vm_compute. reflexivity.
  - constructor.
Defined.
