(* ===== verification/Heartbeat.v ===== *)
(** * Heartbeats and alerts ([internal/ws/heartbeat.go], [hub.go])

    What an agent's report changes, and the alerts it triggers: BGP sessions
    that are down or back, stale handshakes, nodes going offline and coming
    back.  Alert state lives in the cache. *)
From S2P Require Import Prelude GoLib Json Model Lock Cache Effects World Store Rely Handler Wp Scenario.
From stdpp Require Import options.
From Stdlib Require Import Floats.SpecFloat.
Local Open Scope Z_scope.
Local Open Scope go_scope.

(** ** The report ([protocol.go]) *)
Record PeerHeartbeat : Type := MkPeerHeartbeat {
  ph_PeerID : string;
  ph_ASN : Z;
  ph_WgRxBytes : Z;
  ph_WgTxBytes : Z;
  ph_WgLastHandshake : string;
  ph_BGPState : string;
  ph_RttMs : option spec_float;
  ph_RoutesImported : option Z;
  ph_RoutesExported : option Z;
  ph_RoutesPreferred : option Z;
  ph_BGPUptimeSecs : option Z;
  ph_WgActualEndpoint : string
}.
Record NodeMetrics : Type := MkNodeMetrics {
  ns_MemAllocMB : Z;      (* uint64 *)
  ns_MemSysMB : Z;        (* uint64 *)
  ns_NumGoroutine : Z;
  ns_UptimeSecs : Z
}.
Record HeartbeatPayload : Type := MkHeartbeat {
  hb_Peers : list PeerHeartbeat;
  hb_Version : string;
  hb_NodeMetrics : option NodeMetrics
}.

(** The callbacks the hub is wired with, and how the database reads a UUID. *)
Record HubEnv : Type := MkHubEnv {
  hub_adminEmails : list string;
  hub_getEmailLevel : Z → Z;
  hub_notificationAllowed : Z → string → bool;
  hub_telegramNotificationAllowed : Z → string → bool;
  hub_uuid_in : string → option string      (* the database's reading of a UUID *)
}.

(** ** Alert state ([hub.go]) *)
Definition flag_get (prefix id : string) : M bool :=
  f ← cacheGet dec_bool BucketAlerts (PeerKey prefix id);
  mret (f_ok f && default false (f_val f)).
Definition flag_set (prefix id : string) (v : bool) : M unit :=
  if v then _ ← cachePut BucketAlerts (PeerKey prefix id) (JBool true) (24 * Hour); mret tt
  else _ ← cacheDelete BucketAlerts (PeerKey prefix id); mret tt.

Definition isBGPDownNotified (peerID : string) : M bool := flag_get AlertBGPDown peerID.
Definition setBGPDownNotified (peerID : string) (v : bool) : M unit := flag_set AlertBGPDown peerID v.
Definition incBGPFailCount (peerID : string) : M Z :=
  r ← cacheIncInt BucketAlerts (PeerKey AlertBGPFail peerID) Hour; mret r.1.
Definition resetBGPFailCount (peerID : string) : M unit :=
  _ ← cacheDelete BucketAlerts (PeerKey AlertBGPFail peerID); mret tt.
Definition isHandshakeNotified (peerID : string) : M bool := flag_get AlertHandshake peerID.
Definition setHandshakeNotified (peerID : string) (v : bool) : M unit := flag_set AlertHandshake peerID v.
Definition isNodeOfflineNotified (nodeID : string) : M bool := flag_get AlertNodeOff nodeID.
Definition setNodeOfflineNotified (nodeID : string) (v : bool) : M unit := flag_set AlertNodeOff nodeID v.

Section hub.
Context (env : HubEnv).

Definition mail_admins (template : string) (vars : obj) : M unit :=
  forM (hub_adminEmails env) (λ email, if email =s "" then mret tt else sendMail email template vars).

(** ** Per-peer alerts *)
Record alert : Type := MkAlert {
  al_template : string;     (* of the mail *)
  al_event : string;        (* for the bot *)
  al_key : string;          (* the notification preference of both *)
  al_vars : obj
}.

(** A positive threshold from the settings, or the default. *)
Definition threshold (s : string) (default : Z) : Z :=
  match Atoi s with Some v => if 0 <? v then v else default | None => default end.

Definition bgp_up (state : string) : bool := (ToLower state =s "established") || (state =s "up").

(** BGP: the counter, the flag, and the alerts that are due. *)
Definition check_bgp (down recovered : bool) (thr : string) (p : PeerHeartbeat) (nodeName : string) : M (list alert) :=
  if down && (ph_BGPState p <>s "") then
    if bgp_up (ph_BGPState p) then
      n ← isBGPDownNotified (ph_PeerID p);
      setBGPDownNotified (ph_PeerID p) false ;;
      resetBGPFailCount (ph_PeerID p) ;;
      mret (if n && recovered
            then [MkAlert "peer-bgp-recovered" "peer.bgp_recovered" "peer_bgp_recovered"
                    [("asn", JNum (ph_ASN p)); ("nodeName", JStr nodeName)]]
            else [])
    else
      c ← incBGPFailCount (ph_PeerID p);
      if threshold thr 3 <=? c then
        n ← isBGPDownNotified (ph_PeerID p);
        if n : bool then mret []
        else
          setBGPDownNotified (ph_PeerID p) true ;;
          mret [MkAlert "peer-bgp-down" "peer.bgp_down" "peer_bgp_down"
                  [("asn", JNum (ph_ASN p)); ("nodeName", JStr nodeName); ("bgpState", JStr (ph_BGPState p))]]
      else mret []
  else mret [].

(** [time.Unix] keeps seconds since year 1 in an int64, which wraps, and
    [time.Since] saturates at the ends of a Duration. *)
Definition unixToInternal : Z := 62135596800.
Definition Unix (sec : Z) : Z := (wrap64 (sec + unixToInternal) - unixToInternal) * Second.
Definition since (now t : Z) : Z := Z.max int64_min (Z.min int64_max (now - t)).

(** Handshakes: minutes are compared as durations (the conversion to a float
    of minutes is exact at every threshold below 2^16). *)
Definition check_handshake (enabled : bool) (thr : string) (p : PeerHeartbeat) (lastHandshake : option Z)
    (nodeName : string) : M (list alert) :=
  match lastHandshake with
  | Some hs =>
    if enabled then
      now ← now_;
      if threshold thr 5 * Minute <? since now hs then
        n ← isHandshakeNotified (ph_PeerID p);
        if n : bool then mret []
        else
          setHandshakeNotified (ph_PeerID p) true ;;
          mret [MkAlert "peer-handshake-stale" "peer.handshake_stale" "peer_handshake_stale"
                  [("asn", JNum (ph_ASN p)); ("nodeName", JStr nodeName); ("lastHandshake", JStr (RFC3339 hs))]]
      else setHandshakeNotified (ph_PeerID p) false ;; mret []
    else mret []
  | None => mret []
  end.

(** Mail: the operator's preference, then the operator's mail level. *)
Definition dispatch_mail (asn : Z) (email : string) (a : alert) : M unit :=
  if (email =s "") || negb (hub_notificationAllowed env asn (al_key a)) || (hub_getEmailLevel env asn <? 2)
  then mret tt
  else sendMail email (al_template a) (al_vars a).

(** Bot: to the Telegram account bound to the ASN, whatever the mail gates say. *)
Definition dispatch_bot (p : PeerHeartbeat) (alerts : list alert) : M unit :=
  match alerts with
  | [] => mret tt
  | _ =>
      ctx ← with_timeout (3 * Second);
      b ← Binding_GetByASN ctx (ph_ASN p);
      match b with
      | Err _ => mret tt
      | Ok tg =>
          forM alerts (λ a,
            if hub_telegramNotificationAllowed env (ph_ASN p) (al_key a)
            then notifyBotUser tg (al_event a) (("peer_id", JStr (ph_PeerID p)) :: al_vars a)
            else mret tt)
      end
  end.

Definition checkAlerts (p : PeerHeartbeat) (lastHandshake : option Z) (email nodeName : string) : M unit :=
  down ← GetSettingValue "peer_bgp_down_enabled";
  bgpThr ← GetSettingThreshold "peer_bgp_down_enabled";
  recovered ← GetSettingValue "peer_bgp_recovered_enabled";
  stale ← GetSettingValue "peer_handshake_stale_enabled";
  hsThr ← GetSettingThreshold "peer_handshake_stale_enabled";
  a1 ← check_bgp (down =s "true") (recovered =s "true") bgpThr p nodeName;
  a2 ← check_handshake (stale =s "true") hsThr p lastHandshake nodeName;
  forM (a1 ++ a2) (dispatch_mail (ph_ASN p) email) ;;
  dispatch_bot p (a1 ++ a2).

(** ** A node's report *)

(** [int64PtrFromU64], [intPtrFromInt] and [int64PtrFromInt64]. *)
Definition int64PtrFromU64 (v : Z) : option Z := if v =? 0 then None else Some (wrap64 v).
Definition intPtrFromInt (v : Z) : option Z := if v =? 0 then None else Some v.
Definition int64PtrFromInt64 (v : Z) : option Z := if v =? 0 then None else Some v.

(** The instant of an unset [time.Time]. *)
Definition zero_time : Z := - unixToInternal * Second.


(** The instant of the last handshake, from Unix seconds as text. *)
Definition last_handshake (s : string) : option Z :=
  if (s =s "") || (s =s "0") then None
  else match ParseInt64 s with
       | Some ts => if 0 <? ts then Some (Unix ts) else None
       | None => None
       end.
Definition recent (now : Z) (hs : option Z) : bool :=
  match hs with Some t => since now t <=? 10 * Minute | None => false end.

Definition contacts (nodeID : string) : M (list PeerContactResult) :=
  ctx ← with_timeout (5 * Second);
  r ← ListActiveByNode ctx nodeID;
  mret (match r with Ok l => l | Err _ => [] end).
Definition contact_of (l : list PeerContactResult) (peerID : string) : string * string :=
  match head (reverse (filter (λ c, pc_PeerID c = peerID) l)) with
  | Some c => (pc_Email c, pc_Name c)
  | None => ("", "")
  end.

(** One peer of the report; [true] when its handshake is recent. *)
Definition heartbeat_peer (nodeID : string) (contactMap : list PeerContactResult) (p : PeerHeartbeat) : M bool :=
  let hs := last_handshake (ph_WgLastHandshake p) in
  now ← now_;
  let active := recent now hs in
  ctx ← with_timeout (5 * Second);
  _ ← InsertPeerMetricFromHeartbeat (hub_uuid_in env) ctx (ph_PeerID p) nodeID
        (MkMetric 0 "" (ph_WgRxBytes p) (ph_WgTxBytes p) (ph_BGPState p) (ph_RttMs p) hs (ph_RoutesImported p)
           (ph_RoutesExported p) (ph_RoutesPreferred p) (ph_BGPUptimeSecs p) (ph_WgActualEndpoint p));
  let '(email, name) := contact_of contactMap (ph_PeerID p) in
  checkAlerts p hs email name ;;
  mret active.

(** [payload] is [None] when the message does not decode. *)
Definition handleHeartbeat (nodeID : string) (payload : option HeartbeatPayload) : M unit :=
  match payload with
  | None => mret tt
  | Some msg =>
    ctx ← with_timeout (10 * Second);
    old ← Node_GetField ctx nodeID "agent_version";
    let oldVersion := match old with Ok v => v | Err _ => "" end in
    _ ← (if hb_Version msg <>s "" then Node_SetAgentVersion ctx nodeID (hb_Version msg)
         else Node_SetAgentState ctx nodeID "online");
    match hb_NodeMetrics msg with
    | Some nm =>       (* [Time] is left unset *)
        _ ← InsertNodeMetric ctx
              (MkNodeMetric zero_time nodeID (int64PtrFromU64 (ns_MemAllocMB nm)) (int64PtrFromU64 (ns_MemSysMB nm))
                 (intPtrFromInt (ns_NumGoroutine nm)) (int64PtrFromInt64 (ns_UptimeSecs nm)));
        mret tt
    | None => mret tt
    end ;;
    (if (oldVersion <>s "") && (hb_Version msg <>s "") && (oldVersion <>s hb_Version msg) then
       v ← GetSettingValue "agent_updated_enabled";
       if v =s "true" then
         nctx ← with_timeout (5 * Second);
         n ← Node_GetField nctx nodeID "name";
         let vars := [("nodeName", JStr (match n with Ok s => s | Err _ => "" end));
                      ("oldVersion", JStr oldVersion); ("newVersion", JStr (hb_Version msg))] in
         mail_admins "agent-updated" vars ;;
         notifyBotAdmin "agent.updated" (("node_id", JStr nodeID) :: vars)
       else mret tt
     else mret tt) ;;
    wasOffline ← isNodeOfflineNotified nodeID;
    setNodeOfflineNotified nodeID false ;;
    (if wasOffline : bool then
       nctx ← with_timeout (5 * Second);
       n ← Node_GetField nctx nodeID "name";
       let nodeName := match n with Ok s => s | Err _ => "" end in
       mail_admins "node-back-online" [("nodeName", JStr nodeName)] ;;
       notifyBotAdmin "node.online" [("node_id", JStr nodeID); ("nodeName", JStr nodeName)]
     else mret tt) ;;
    contactMap ← contacts nodeID;
    ids ← foldM (λ ids p,
            active ← heartbeat_peer nodeID contactMap p;
            mret (if active : bool then ids ++ [ph_PeerID p] else ids)) [] (hb_Peers msg);
    match ids with
    | [] => mret tt
    | _ =>
        mctx ← with_timeout (5 * Second);
        now ← now_;
        _ ← MarkPeersActive (hub_uuid_in env) mctx ids now;
        mret tt
    end
  end.

(** ** Nodes going away *)
Definition notifyNodeOffline (ctx : Ctx) (nodeID : string) (skipIfUpdating : bool) : M unit :=
  v ← GetSettingValue "node_offline_enabled";
  if v <>s "true" then mret tt
  else
    n ← isNodeOfflineNotified nodeID;
    if n : bool then mret tt
    else
      setNodeOfflineNotified nodeID true ;;
      updating ← (if skipIfUpdating
                  then r ← Node_GetField ctx nodeID "agent_state";
                       mret (match r with Ok s => s =s "updating" | Err _ => false end)
                  else mret false);
      if updating : bool then mret tt
      else
        r ← Node_GetByID ctx nodeID;
        let '(nodeName, location) := match r with Ok n => (node_Name n, node_Location n) | Err _ => ("", "") end in
        now ← now_;
        mail_admins "node-offline"
          [("nodeName", JStr nodeName); ("location", JStr location); ("offlineSince", JStr (RFC3339 now))] ;;
        notifyBotAdmin "node.offline"
          [("node_id", JStr nodeID); ("nodeName", JStr nodeName); ("location", JStr location)].

Definition handleAgentUpdating (nodeID : string) : M unit :=
  ctx ← with_timeout (5 * Second);
  _ ← Node_SetAgentState ctx nodeID "updating";
  notifyNodeOffline ctx nodeID true.

(** What a lost connection does ([drainNodeUpdates], and [Unregister] when the
    update channel is full). *)
Definition node_went_offline (nodeID : string) : M unit :=
  ctx ← with_timeout (5 * Second);
  _ ← Node_SetAgentState ctx nodeID "offline";
  notifyNodeOffline ctx nodeID true.
Definition node_came_online (nodeID : string) : M unit :=
  ctx ← with_timeout (5 * Second);
  _ ← Node_SetOnline ctx nodeID true;
  mret tt.
End hub.

(** ** What a report writes *)
Section report.
Set Default Proof Using "Type*".
Context (env : HubEnv).

(** The row of a reported peer, under its stored id. *)
Definition metric_of (now : Z) (id : string) (p : PeerHeartbeat) : PeerMetric :=
  MkMetric now id (ph_WgRxBytes p) (ph_WgTxBytes p) (ph_BGPState p) (ph_RttMs p)
    (last_handshake (ph_WgLastHandshake p)) (ph_RoutesImported p) (ph_RoutesExported p) (ph_RoutesPreferred p)
    (ph_BGPUptimeSecs p) (ph_WgActualEndpoint p).
Definition record_of (now : Z) (m : gmap string Peer) (nodeID : string) (p : PeerHeartbeat) : option PeerMetric :=
  id ← hub_uuid_in env (ph_PeerID p);
  if metric_fits (metric_of now id p) && bool_decide (peer_NodeID <$> (m !! id) = Some nodeID)
  then Some (metric_of now id p) else None.
(** The metric rows a report appends, newest first. *)
Definition recorded (now : Z) (m : gmap string Peer) (nodeID : string) (ps : list PeerHeartbeat) : list PeerMetric :=
  reverse (omap (record_of now m nodeID) ps).

(** A figure that is zero is stored as NULL. *)
Definition figure (v : Z) : option Z := if v =? 0 then None else Some (wrap64 v).
Definition node_recorded (m : gmap string Node) (nodeID : string) (nm : option NodeMetrics) : list NodeMetric :=
  match nm with
  | Some nm =>
      if bool_decide (is_Some (m !! nodeID)) && fits_integer (intPtrFromInt (ns_NumGoroutine nm))
      then [MkNodeMetric zero_time nodeID (figure (ns_MemAllocMB nm)) (figure (ns_MemSysMB nm))
              (intPtrFromInt (ns_NumGoroutine nm)) (int64PtrFromInt64 (ns_UptimeSecs nm))]
      else []
  | None => []
  end.

Definition with_metrics (ms : list PeerMetric) (d : DB) : DB :=
  MkDB (db_peers d) (db_nodes d) ms (db_node_metrics d) (db_site d) (db_notif d) (db_bindings d).
Definition with_node_metrics (ms : list NodeMetric) (d : DB) : DB :=
  MkDB (db_peers d) (db_nodes d) (db_metrics d) ms (db_site d) (db_notif d) (db_bindings d).

Definition active_ids (now : Z) (ps : list PeerHeartbeat) : list string :=
  ph_PeerID <$> filter (λ p, recent now (last_handshake (ph_WgLastHandshake p)) = true) ps.
Definition refreshed (now : Z) (ids : list string) (id : string) (p : Peer) : Peer :=
  if bool_decide (id ∈ ids) then assign_all [set_LastActiveAt (Some now); set_InactivityWarningStage 0] p else p.
(** The peers after the report; one id that is no UUID loses the update of all. *)
Definition marked (now : Z) (ids : list string) (m : gmap string Peer) : gmap string Peer :=
  match mapM (hub_uuid_in env) ids with
  | Some ids => map_imap (λ id p, Some (refreshed now ids id p)) m
  | None => m
  end.
Definition reporting (now : Z) (version : string) (n : Node) : Node :=
  set_agent (node_AgentPubkey n) true (if version =s "" then node_AgentVersion n else version) "online"
    (if version =s "" then now else node_AgentStateChangedAt n) n.

(** The rows after a report. *)
Definition report_db (now : Z) (nodeID : string) (msg : HeartbeatPayload) (d : DB) : DB :=
  MkDB (marked now (active_ids now (hb_Peers msg)) (db_peers d))
    (alter (reporting now (hb_Version msg)) nodeID (db_nodes d))
    (recorded now (db_peers d) nodeID (hb_Peers msg) ++ db_metrics d)
    (node_recorded (db_nodes d) nodeID (hb_NodeMetrics msg) ++ db_node_metrics d)
    (db_site d) (db_notif d) (db_bindings d).

Lemma Calm_flag_get prefix id : Calm (flag_get prefix id).
Proof. apply Calmly_Calm. unfold flag_get. calmly. Qed.
Lemma Calm_flag_set prefix id v : Calm (flag_set prefix id v).
Proof. apply Calmly_Calm. unfold flag_set. calmly. Qed.
#[local] Hint Resolve Calm_flag_get Calm_flag_set : autopeer.

Lemma Calm_checkAlerts p hs email name : Calm (checkAlerts env p hs email name).
Proof.
  apply Calmly_Calm. unfold checkAlerts, check_bgp, check_handshake, dispatch_mail, dispatch_bot,
    incBGPFailCount, resetBGPFailCount, isBGPDownNotified, setBGPDownNotified, isHandshakeNotified,
    setHandshakeNotified. calmly.
Qed.
Lemma Calm_mail_admins t vars : Calm (mail_admins env t vars).
Proof. apply Calmly_Calm. unfold mail_admins. calmly. Qed.
Lemma Calm_contacts n : Calm (contacts n).
Proof. apply Calmly_Calm. unfold contacts. calmly. apply Calm_Calmly, Calm_query. Qed.
#[local] Hint Resolve Calm_checkAlerts Calm_mail_admins Calm_contacts : autopeer.

Lemma metric_inserted ctx nodeID p d w w1 :
  answering w → after d w w1 → expired ctx (w_now w) = false →
  wp (InsertPeerMetricFromHeartbeat (hub_uuid_in env) ctx (ph_PeerID p) nodeID (metric_of 0 "" p))
     (λ _ w', after (with_metrics (recorded (w_now w) (db_peers d) nodeID [p] ++ db_metrics d) d) w w') w1.
Proof.
  intros Ha H He. eapply wp_write; [done..|]. intros w2 H2.
  assert (after (with_metrics (db_metrics d) d) w w2) as Hsame by (by destruct d).
  pose proof (after_db _ _ _ H2) as Hd. unfold recorded, record_of. cbn [omap list_omap].
  unfold w_peers. rewrite Hd, (after_now _ _ _ H2).
  destruct (hub_uuid_in env (ph_PeerID p)) as [id|]; [|done]. cbn [mbind option_bind].
  change (metric_fits (metric_of 0 "" p)) with (metric_fits (metric_of (w_now w) id p)).
  destruct (metric_fits _); [|done]. cbn [negb andb]. destruct (db_peers d !! id) as [q|]; [|done]. cbn.
  destruct (decide (peer_NodeID q = nodeID)) as [Hq|Hq].
  - rewrite !bool_decide_eq_true_2 by congruence. cbn. eapply after_set in H2. unfold set_metrics, w_peers, w_nodes.
    rewrite Hd. exact H2.
  - rewrite !bool_decide_eq_false_2 by congruence. done.
Qed.

Lemma heartbeat_peer_writes nodeID cm p d w w1 :
  answering w → after d w w1 →
  wp (heartbeat_peer env nodeID cm p)
     (λ a w', a = recent (w_now w) (last_handshake (ph_WgLastHandshake p)) ∧
        after (with_metrics (recorded (w_now w) (db_peers d) nodeID [p] ++ db_metrics d) d) w w') w1.
Proof.
  intros Ha H. unfold heartbeat_peer. apply wp_bind, wp_gets. rewrite (after_now _ _ _ H).
  apply wp_bind, wp_with_timeout. rewrite (after_now _ _ _ H).
  apply wp_bind. eapply wp_mono; [|apply (metric_inserted _ nodeID p d w); [done|done|simpl; apply Z.leb_gt; unfold Second; lia]].
  intros ? w3 H3. cbv beta in H3.
  destruct (contact_of cm (ph_PeerID p)) as [email name]. apply wp_bind, wp_calm; [auto with autopeer|].
  intros _ w4 H4. apply wp_ret. split; [done|]. by eapply after_calm.
Qed.

Lemma heartbeat_peers_writes nodeID cm ps : ∀ ids d w w1,
  answering w → after d w w1 →
  wp (foldM (λ ids p, active ← heartbeat_peer env nodeID cm p;
                      mret (if active : bool then ids ++ [ph_PeerID p] else ids)) ids ps)
     (λ ids' w', ids' = ids ++ active_ids (w_now w) ps ∧
        after (with_metrics (recorded (w_now w) (db_peers d) nodeID ps ++ db_metrics d) d) w w') w1.
Proof.
  induction ps as [|p ps IH]; intros ids d w w1 Ha H.
  { apply wp_ret. unfold active_ids, recorded. rewrite filter_nil. simpl. rewrite app_nil_r. by destruct d. }
  cbn [foldM]. apply wp_bind, wp_bind. eapply wp_mono; [|by apply heartbeat_peer_writes].
  intros a w2 [-> H2]. apply wp_ret. eapply wp_mono; [|by apply IH]. intros ids' w3 [-> H3]. cbn in H3. split.
  - clear H3. unfold active_ids. rewrite filter_cons. case_decide as Hr; [rewrite Hr|by rewrite (not_true_is_false _ Hr)].
    by rewrite fmap_cons, <-(assoc_L (++)).
  - replace (recorded (w_now w) (db_peers d) nodeID (p :: ps)) with
      (recorded (w_now w) (db_peers d) nodeID ps ++ recorded (w_now w) (db_peers d) nodeID [p]).
    { by rewrite <-(assoc_L (++)). }
    unfold recorded. rewrite <-reverse_app. f_equal. cbn. by destruct (record_of _ _ _ p).
Qed.

Lemma agent_reported ctx nodeID version d w w1 :
  answering w → after d w w1 → expired ctx (w_now w) = false →
  wp (if version <>s "" then Node_SetAgentVersion ctx nodeID version else Node_SetAgentState ctx nodeID "online")
     (λ _ w', after (MkDB (db_peers d) (alter (reporting (w_now w) version) nodeID (db_nodes d)) (db_metrics d)
                       (db_node_metrics d) (db_site d) (db_notif d) (db_bindings d)) w w') w1.
Proof.
  intros Ha H He. pose proof (λ w2 : World, λ H2 : after d w w2, after_db _ _ _ H2) as Hdb.
  destruct (decide (version = "")) as [->|Hv].
  - rewrite bool_decide_eq_true_2 by done. cbn [negb]. eapply wp_write; [done..|]. intros w2 H2. cbn [snd].
    unfold upd_node, set_nodes, w_peers, w_nodes. rewrite (Hdb _ H2), (after_now _ _ _ H2). by eapply after_set.
  - rewrite bool_decide_eq_false_2 by done. cbn [negb]. eapply wp_write; [done..|]. intros w2 H2. cbn [snd].
    unfold upd_node, set_nodes, w_peers, w_nodes. rewrite (Hdb _ H2).
    replace (alter (reporting _ _) _ _) with (alter (λ n, set_agent (node_AgentPubkey n) true version "online"
      (node_AgentStateChangedAt n) n) nodeID (db_nodes d)); [by eapply after_set|].
    apply alter_ext. intros n _. unfold reporting. by rewrite bool_decide_eq_false_2.
Qed.

Lemma peers_marked ids d w w1 :
  answering w → after d w w1 →
  wp (match ids with
      | [] => mret tt
      | _ => mctx ← with_timeout (5 * Second); now ← now_; _ ← MarkPeersActive (hub_uuid_in env) mctx ids now; mret tt
      end)
     (λ _ w', after (MkDB (marked (w_now w) ids (db_peers d)) (db_nodes d) (db_metrics d) (db_node_metrics d)
                       (db_site d) (db_notif d) (db_bindings d)) w w') w1.
Proof.
  intros Ha H. destruct ids as [|id ids].
  - apply wp_ret. replace (marked _ _ _) with (db_peers d); [by destruct d|].
    symmetry. apply map_eq. intros i. cbn. rewrite map_lookup_imap. by destruct (db_peers d !! i).
  - apply wp_bind, wp_with_timeout, wp_bind, wp_gets. rewrite (after_now _ _ _ H). apply wp_bind.
    eapply wp_write; [exact Ha|exact H|simpl; apply Z.leb_gt; unfold Second; lia|].
    intros w2 H2. apply wp_ret. unfold marked. destruct (mapM _ _); cbn [snd]; [|by destruct d].
    unfold set_peers, w_peers, w_nodes. rewrite (after_db _ _ _ H2). by eapply after_set.
Qed.

Lemma node_recorded_alter f m nodeID o : node_recorded (alter f nodeID m) nodeID o = node_recorded m nodeID o.
Proof.
  unfold node_recorded. destruct o as [nm|]; [|done].
  assert (is_Some (alter f nodeID m !! nodeID) ↔ is_Some (m !! nodeID)) as Hi by (rewrite lookup_alter_eq; apply fmap_is_Some).
  by rewrite (bool_decide_ext _ _ Hi).
Qed.

Lemma node_metric_inserted ctx nodeID o d w w1 :
  answering w → after d w w1 → expired ctx (w_now w) = false →
  wp (match o with
      | Some nm =>
          _ ← InsertNodeMetric ctx
                (MkNodeMetric zero_time nodeID (int64PtrFromU64 (ns_MemAllocMB nm)) (int64PtrFromU64 (ns_MemSysMB nm))
                   (intPtrFromInt (ns_NumGoroutine nm)) (int64PtrFromInt64 (ns_UptimeSecs nm)));
          mret tt
      | None => mret tt
      end)
     (λ _ w', after (with_node_metrics (node_recorded (db_nodes d) nodeID o ++ db_node_metrics d) d) w w') w1.
Proof.
  intros Ha H He. destruct o as [nm|]; [|apply wp_ret; by destruct d].
  apply wp_bind. eapply wp_write; [done..|]. intros w2 H2. apply wp_ret.
  pose proof (after_db _ _ _ H2) as Hd. cbn [node_recorded nm_NumGoroutine nm_NodeID]. unfold w_nodes. rewrite Hd.
  destruct (fits_integer _); [|by rewrite andb_false_r; destruct d]. cbn [negb]. rewrite andb_true_r.
  destruct (db_nodes d !! nodeID); [|by destruct d]. cbn. unfold set_node_metrics, w_peers, w_nodes. rewrite Hd.
  by eapply after_set.
Qed.

(** C19: A heartbeat's effect on the modelled tables, when no statement is made
    to fail from outside: the node is online with the reported version; one
    peer_metrics row is appended for each reported peer of that node whose
    figures fit the columns; one node_metrics row when the report carries node
    figures and the node exists, with NULL for zero figures and the zero
    instant for a time; the peers with a handshake in the last ten minutes are
    active now and back at warning stage 0, whichever node they belong to - none
    of them when one of their ids is no UUID; no other row or column changes, no
    time passes and no agent is told anything. *)
Theorem heartbeat_writes (nodeID : string) (msg : HeartbeatPayload) (w w' : World)
  (Ha : answering w) (Hrun : exec (handleHeartbeat env nodeID (Some msg)) w = (tt, w')) :
  w_db w' = report_db (w_now w) nodeID msg (w_db w) ∧ w_now w' = w_now w
  ∧ ∃ evs, w_log w' = w_log w ++ evs ∧ Forall (λ e, is_told e = false) evs.
Proof.
  assert (wp (handleHeartbeat env nodeID (Some msg))
             (λ _, after (report_db (w_now w) nodeID msg (w_db w)) w) w) as Hwp.
  2:{ apply (wp_exec _ _ _ _ _ Hrun) in Hwp. cbv beta in Hwp. split; [by eapply after_db|]. split; [by eapply after_now|].
      apply (calm_log _ _ Hwp). }
  cbn [handleHeartbeat]. apply wp_bind, wp_with_timeout.
  apply wp_bind, wp_calm; [auto with autopeer|]. intros old w1 H1.
  assert (expired (Some (w_now w + 10 * Second)) (w_now w) = false) as He by (simpl; apply Z.leb_gt; unfold Second; lia).
  apply wp_bind. eapply wp_mono; [|apply (agent_reported _ _ _ (w_db w) w); [done| |exact He]].
  2:{ eapply after_calm; [apply after_start|done]. }
  intros ? w2 H2. cbv beta in H2.
  apply wp_bind. eapply wp_mono; [|eapply node_metric_inserted; [exact Ha|exact H2|exact He]].
  clear H2. intros ? w3 H3. cbn [db_nodes] in H3. rewrite node_recorded_alter in H3.
  apply wp_bind, wp_calm; [apply Calmly_Calm; calmly|]. intros _ w4 H4.
  apply wp_bind, wp_calm; [apply Calmly_Calm; unfold isNodeOfflineNotified; calmly|]. intros off w5 H5.
  apply wp_bind, wp_calm; [apply Calmly_Calm; unfold setNodeOfflineNotified; calmly|]. intros _ w6 H6.
  apply wp_bind, wp_calm; [apply Calmly_Calm; calmly|]. intros _ w7 H7.
  apply wp_bind, wp_calm; [auto with autopeer|]. intros cm w8 H8.
  assert (calm w3 w8) as Hc by (repeat (etransitivity; [eassumption|]); reflexivity).
  pose proof (after_calm _ _ _ _ H3 Hc) as H9. clear H1 H3 H4 H5 H6 H7 H8 Hc.
  apply wp_bind. eapply wp_mono; [|eapply heartbeat_peers_writes; [exact Ha|exact H9]].
  intros ids w9 [-> H10]. cbn [app]. eapply wp_mono; [|eapply peers_marked; [exact Ha|exact H10]].
  intros ? w10 H11. exact H11.
Qed.
End report.

(** A report of node-1: p1 shook hands in this second, p2 never did. *)
Definition sample_hub : HubEnv := MkHubEnv ["noc@example.org"] (λ _, 2) (λ _ _, true) (λ _ _, true) Some.
Definition sample_report : HeartbeatPayload :=
  MkHeartbeat [MkPeerHeartbeat "p1" 4242420001 10 20 "1" "Established" None None None None None "198.51.100.1:20001";
               MkPeerHeartbeat "p2" 4242420002 0 0 "" "Active" None None None None None ""] "1.5.0" (Some (MkNodeMetrics 12 30 0 3600)).

Lemma heartbeat_writes_witness :
  let w' := (exec (handleHeartbeat sample_hub "node-1" (Some sample_report)) (sample "active" [] [])).2 in
  peer_LastActiveAt <$> (w_peers w' !! "p1") = Some (Some 1000000000)
  ∧ peer_LastActiveAt <$> (w_peers w' !! "p2") = Some None
  ∧ node_AgentVersion <$> (w_nodes w' !! "node-1") = Some "1.5.0"
  ∧ length (db_metrics (w_db w')) = 2%nat
  ∧ db_node_metrics (w_db w') = [MkNodeMetric zero_time "node-1" (Some 12) (Some 30) None (Some 3600)].
Proof.
  intros w'. assert (answering (sample "active" [] [])) as Ha by constructor.
  destruct (heartbeat_writes sample_hub "node-1" sample_report (sample "active" [] []) w' Ha) as (Hdb & _).
  - rewrite (surjective_pairing (exec _ _)). fold w'. generalize w'. intros ?. by destruct (exec _ _).1.
  - unfold w_peers, w_nodes. rewrite Hdb. repeat split; vm_compute; reflexivity.
Defined.
