(* ===== verification/Alerts.v ===== *)
(** * The BGP alerts of a peer

    [Heartbeat.check_bgp] keeps its state in two cache entries with different
    lifetimes.  Over a window in which neither runs out, it behaves as a machine
    with a counter and a flag, on either cache backend. *)
From S2P Require Import Prelude GoLib Json Model Lock Cache Effects World Store Rely Handler Wp Scenario Heartbeat.
From stdpp Require Import sorting options.
Local Open Scope Z_scope.
Local Open Scope go_scope.

(** ** Cache calls when Redis answers *)
Definition redis_up (w : World) : Prop := Forall (λ o, o = None) (e_redis (w_ext w)).
Definition at_cache (c : Cache) (now : Z) (w : World) : Prop := redis_up w ∧ w_cache w = c ∧ w_now w = now.

Lemma wp_cache {R} (f : option string → World → R * Cache) c now r c' (Q : R → World → Prop) w :
  at_cache c now w → (∀ w1, at_cache c now w1 → f None w1 = (r, c')) → (∀ w1, at_cache c' now w1 → Q r w1) →
  wp (act (λ w, let '(down, w1) := draw_redis w in let '(r, c) := f down w1 in (r, set_cache c w1))) Q w.
Proof.
  intros (Hu & Hc & Hn) Hf HQ. apply wp_act. unfold draw_redis, redis_up in *.
  destruct (e_redis (w_ext w)) as [|o l] eqn:E.
  - rewrite Hf by (split; [unfold redis_up; by rewrite E|done]). apply HQ.
    split; [unfold redis_up; cbn; by rewrite E|done].
  - apply Forall_cons in Hu as [-> Hu]. rewrite Hf by done. by apply HQ.
Qed.

Section calls.
Set Default Proof Using "Type*".
Context (c : Cache) (now : Z) (bucket key : string) (w : World) (Hat : at_cache c now w).

Lemma wp_cacheGet {A} (dec : json → option A) f c' (Q : Found A → World → Prop) :
  Get dec now None c bucket key = (f, c') → (∀ w1, at_cache c' now w1 → Q f w1) → wp (cacheGet dec bucket key) Q w.
Proof.
  intros Hg. apply (wp_cache (λ down w1, Get dec (w_now w1) down (w_cache w1) bucket key) c now); [done|].
  by intros w1 (_ & -> & ->).
Qed.
Lemma wp_cachePut v ttl r c' (Q : option string → World → Prop) :
  Put now None None c bucket key v ttl = (r, c') → (∀ w1, at_cache c' now w1 → Q r w1) →
  wp (cachePut bucket key v ttl) Q w.
Proof.
  intros Hg. apply (wp_cache (λ down w1, Put (w_now w1) down None (w_cache w1) bucket key v ttl) c now); [done|].
  by intros w1 (_ & -> & ->).
Qed.
Lemma wp_cacheDelete r c' (Q : option string → World → Prop) :
  Cache.Delete None c bucket key = (r, c') → (∀ w1, at_cache c' now w1 → Q r w1) → wp (cacheDelete bucket key) Q w.
Proof.
  intros Hg. apply (wp_cache (λ down w1, Cache.Delete down (w_cache w1) bucket key) c now); [done|].
  by intros w1 (_ & -> & _).
Qed.
Lemma wp_cacheIncInt ttl r c' (Q : Z * option string → World → Prop) :
  IncInt now None c bucket key ttl = (r, c') → (∀ w1, at_cache c' now w1 → Q r w1) →
  wp (cacheIncInt bucket key ttl) Q w.
Proof.
  intros Hg. apply (wp_cache (λ down w1, IncInt (w_now w1) down (w_cache w1) bucket key ttl) c now); [done|].
  by intros w1 (_ & -> & ->).
Qed.
End calls.

(** ** The machine *)
Record BgpWatch : Type := MkBgpWatch {
  fails : Z;           (* reports in a row without a session *)
  down_sent : bool     (* the outage has been announced *)
}.
Inductive BgpAlert : Type := BgpDown | BgpRecovered.

Definition bgp_next (thr : Z) (st : BgpWatch) (state : string) : BgpWatch * option BgpAlert :=
  if state =s "" then (st, None)
  else if bgp_up state then (MkBgpWatch 0 false, if down_sent st then Some BgpRecovered else None)
  else
    let n := fails st + 1 in
    if (thr <=? n) && negb (down_sent st) then (MkBgpWatch n true, Some BgpDown)
    else (MkBgpWatch n (down_sent st), None).
Fixpoint bgp_run (thr : Z) (st : BgpWatch) (states : list string) : list (option BgpAlert) :=
  match states with
  | [] => []
  | s :: states => let '(st', o) := bgp_next thr st s in o :: bgp_run thr st' states
  end.

(** How an announcement reads. *)
Definition render (recovered : bool) (name : string) (p : PeerHeartbeat) (o : option BgpAlert) : list alert :=
  match o with
  | None => []
  | Some BgpDown => [MkAlert "peer-bgp-down" "peer.bgp_down" "peer_bgp_down"
      [("asn", JNum (ph_ASN p)); ("nodeName", JStr name); ("bgpState", JStr (ph_BGPState p))]]
  | Some BgpRecovered =>
      if recovered then [MkAlert "peer-bgp-recovered" "peer.bgp_recovered" "peer_bgp_recovered"
        [("asn", JNum (ph_ASN p)); ("nodeName", JStr name)]] else []
  end.

(** ** What the cache holds of the machine's state, until [hz] *)
Definition holds (c : Cache) (now hz : Z) (key : string) (o : option json) : Prop :=
  match o with
  | Some v => ∃ e, stored c BucketAlerts key v e ∧ hz ≤ e
  | None => dead c BucketAlerts key now
  end.
Definition watching (c : Cache) (now hz : Z) (id : string) (st : BgpWatch) : Prop :=
  cache_wf c ∧ 0 ≤ fails st
  ∧ holds c now hz (PeerKey AlertBGPDown id) (if down_sent st then Some (JBool true) else None)
  ∧ holds c now hz (PeerKey AlertBGPFail id) (if fails st =? 0 then None else Some (JNum (fails st))).

Lemma holds_kept c c' now hz key key' o :
  others_kept c c' BucketAlerts key → key' ≠ key → holds c now hz key' o → holds c' now hz key' o.
Proof.
  intros Hk Hne. destruct (Hk BucketAlerts key' eq_refl) as [Hs Hd]; [congruence|].
  destruct o; cbn; [|apply Hd]. intros (e & H & He). exists e. auto.
Qed.
Lemma watching_later c now now' hz id st : now ≤ now' → watching c now hz id st → watching c now' hz id st.
Proof.
  intros Hn (A & B & C & D). split; [done|]. split; [done|].
  split; [destruct (down_sent st)|destruct (fails st =? 0)]; try done; by eapply dead_mono.
Qed.
Lemma keys_apart id : PeerKey AlertBGPDown id ≠ PeerKey AlertBGPFail id.
Proof. unfold PeerKey, AlertBGPDown, AlertBGPFail. intros E. discriminate E. Qed.

(** ** Each operation, on a watched cache *)
Section watch.
Set Default Proof Using "Type*".
Context (id : string) (now hz : Z) (Hnow : now < hz) (Hhz : hz ≤ now + Hour).

Lemma wp_isBGPDownNotified c st (Q : bool → World → Prop) w :
  at_cache c now w → watching c now hz id st → (∀ w1, at_cache c now w1 → Q (down_sent st) w1) →
  wp (isBGPDownNotified id) Q w.
Proof.
  intros Hat (Hwf & _ & Hd & _) HQ. unfold isBGPDownNotified, flag_get. apply wp_bind.
  destruct (down_sent st); cbn in Hd.
  - destruct Hd as (e & Hs & He). eapply wp_cacheGet; [exact Hat|eapply Get_stored; [done|exact Hs|lia|done]|].
    intros w1 H1. by apply wp_ret, HQ.
  - eapply wp_cacheGet; [exact Hat|by apply Get_dead|]. intros w1 H1. by apply wp_ret, HQ.
Qed.

Lemma wp_setBGPDownNotified c st v (Q : unit → World → Prop) w :
  at_cache c now w → watching c now hz id st →
  (∀ c' w1, at_cache c' now w1 → watching c' now hz id (MkBgpWatch (fails st) v) → Q tt w1) →
  wp (setBGPDownNotified id v) Q w.
Proof.
  intros Hat (Hwf & H0 & _ & Hf) HQ. unfold setBGPDownNotified, flag_set. pose proof (keys_apart id) as Hk.
  destruct v; apply wp_bind.
  - destruct (Put_stored c BucketAlerts (PeerKey AlertBGPDown id) now (JBool true) (24 * Hour)) as (c' & E & Hwf' & Hs & Ho);
      [done..|]. eapply wp_cachePut; [exact Hat|exact E|]. intros w1 H1. eapply wp_ret, HQ; [exact H1|].
    split; [done|]. split; [done|]. split; [|by eapply holds_kept]. eexists. split; [exact Hs|]. unfold Hour in *. lia.
  - destruct (Delete_dead c BucketAlerts (PeerKey AlertBGPDown id)) as (c' & E & Hwf' & Hs & Ho); [done..|].
    eapply wp_cacheDelete; [exact Hat|exact E|]. intros w1 H1. eapply wp_ret, HQ; [exact H1|].
    split; [done|]. split; [done|]. split; [apply Hs|by eapply holds_kept].
Qed.

Lemma wp_resetBGPFailCount c st (Q : unit → World → Prop) w :
  at_cache c now w → watching c now hz id st →
  (∀ c' w1, at_cache c' now w1 → watching c' now hz id (MkBgpWatch 0 (down_sent st)) → Q tt w1) →
  wp (resetBGPFailCount id) Q w.
Proof.
  intros Hat (Hwf & H0 & Hd & _) HQ. unfold resetBGPFailCount. pose proof (keys_apart id) as Hk. apply wp_bind.
  destruct (Delete_dead c BucketAlerts (PeerKey AlertBGPFail id)) as (c' & E & Hwf' & Hs & Ho); [done..|].
  eapply wp_cacheDelete; [exact Hat|exact E|]. intros w1 H1. eapply wp_ret, HQ; [exact H1|].
  split; [done|]. split; [done|]. split; [by eapply holds_kept|apply Hs].
Qed.

Lemma wp_incBGPFailCount c st (Q : Z → World → Prop) w :
  at_cache c now w → watching c now hz id st →
  (∀ c' w1, at_cache c' now w1 → watching c' now hz id (MkBgpWatch (fails st + 1) (down_sent st)) →
     Q (fails st + 1) w1) →
  wp (incBGPFailCount id) Q w.
Proof.
  intros Hat (Hwf & H0 & Hd & Hf) HQ. unfold incBGPFailCount. pose proof (keys_apart id) as Hk. apply wp_bind.
  assert (∃ c' e', IncInt now None c BucketAlerts (PeerKey AlertBGPFail id) Hour = ((fails st + 1, None), c')
            ∧ cache_wf c' ∧ counter c' BucketAlerts (PeerKey AlertBGPFail id) (fails st + 1) e' ∧ hz ≤ e')
    as (c' & e' & E & Hwf' & Hc & He).
  { destruct (Z.eqb_spec (fails st) 0) as [->|Hne]; cbn in Hf.
    - destruct (IncInt_first c BucketAlerts (PeerKey AlertBGPFail id) Hour now) as (c' & E & Hwf' & Hc); [done..| |].
      { by rewrite Get_dead. }
      exists c', (now + Hour). auto.
    - destruct Hf as (e & Hs & He).
      destruct (IncInt_counter c BucketAlerts (PeerKey AlertBGPFail id) Hour now (fails st) e)
        as (c' & e' & E & Hwf' & Hc & He'); [done..|lia|done|]. exists c', e'. split_and!; try done. lia. }
  pose proof (IncInt_others c BucketAlerts (PeerKey AlertBGPFail id) now Hour Hwf eq_refl) as Ho. rewrite E in Ho.
  eapply wp_cacheIncInt; [exact Hat|exact E|]. intros w1 H1. eapply wp_ret, HQ; [exact H1|].
  split; [done|]. cbn [fails down_sent]. split; [lia|]. split; [by eapply holds_kept|].
  rewrite (proj2 (Z.eqb_neq (fails st + 1) 0)) by lia. by exists e'.
Qed.

Lemma wp_check_bgp recovered thr p name c st (Q : list alert → World → Prop) w :
  ph_PeerID p = id → at_cache c now w → watching c now hz id st →
  (∀ c' w1, at_cache c' now w1 → watching c' now hz id (bgp_next (threshold thr 3) st (ph_BGPState p)).1 →
     Q (render recovered name p (bgp_next (threshold thr 3) st (ph_BGPState p)).2) w1) →
  wp (check_bgp true recovered thr p name) Q w.
Proof.
  intros Hid Hat Hw HQ. unfold check_bgp, bgp_next in *. rewrite Hid. cbn [andb].
  destruct (ph_BGPState p =s "") eqn:Hs; cbn [negb]; [by eapply wp_ret, HQ|].
  destruct (bgp_up (ph_BGPState p)).
  - apply wp_bind. eapply wp_isBGPDownNotified; [done..|]. intros w1 H1.
    apply wp_bind. eapply wp_setBGPDownNotified; [done..|]. intros c2 w2 H2 Hw2.
    apply wp_bind. eapply wp_resetBGPFailCount; [done..|]. intros c3 w3 H3 Hw3. apply wp_ret.
    specialize (HQ c3 w3 H3 Hw3). by destruct (down_sent st), recovered.
  - apply wp_bind. eapply wp_incBGPFailCount; [done..|]. intros c1 w1 H1 Hw1. cbn [negb] in *.
    destruct (threshold thr 3 <=? fails st + 1); [|by eapply wp_ret, HQ].
    apply wp_bind. eapply wp_isBGPDownNotified; [done..|]. intros w2 H2. cbn [down_sent andb] in *.
    destruct (down_sent st) eqn:Hd; cbn [negb] in *; [by eapply wp_ret, HQ|].
    apply wp_bind. eapply wp_setBGPDownNotified; [done..|]. intros c3 w3 H3 Hw3. by eapply wp_ret, HQ.
Qed.
End watch.

(** ** Reports over time *)
Definition set_clock (t : Z) (w : World) : World :=
  set_locks (r_tick (w_redis w) (t - w_now w)) (w_local w) w.
Fixpoint watch (recovered : bool) (thr name : string) (rs : list (Z * PeerHeartbeat)) : M (list (list alert)) :=
  match rs with
  | [] => mret []
  | (t, p) :: rs =>
      modify (set_clock t) ;;
      a ← check_bgp true recovered thr p name;
      l ← watch recovered thr name rs;
      mret (a :: l)
  end.

Lemma wp_watch recovered thr name id hz : ∀ rs now c st w,
  at_cache c now w → watching c now hz id st → hz ≤ now + Hour →
  Sorted Z.le (now :: rs.*1) → Forall (λ r, r.1 < hz ∧ ph_PeerID r.2 = id) rs →
  wp (watch recovered thr name rs)
     (λ out _, out = zip_with (render recovered name) rs.*2 (bgp_run (threshold thr 3) st (ph_BGPState <$> rs.*2))) w.
Proof.
  induction rs as [|[t p] rs IH]; intros now c st w Hat Hw Hhz Hs Hf; [by apply wp_ret|].
  apply Sorted_inv in Hs as [Hs Ht%HdRel_inv]. apply Forall_cons in Hf as [[Ht' Hid] Hf]. cbn [fst snd fmap list_fmap] in *.
  cbn [watch]. apply wp_bind, wp_act. destruct Hat as (Hu & Hc & Hn).
  assert (at_cache c t (set_clock t w)) as Hat.
  { split; [done|]. split; [done|]. unfold set_clock, w_now in *. cbn. lia. }
  apply wp_bind. eapply wp_check_bgp; [exact Ht'|lia|done|exact Hat|by eapply watching_later|].
  intros c1 w1 H1 Hw1. apply wp_bind. eapply wp_mono; [|by eapply (IH t); [..|lia| |]].
  intros out w2 ->. apply wp_ret. cbn [bgp_run]. by destruct (bgp_next _ _ _).
Qed.

(** C18: The BGP alerts refine the counting machine: over any sequence of
    reports of a peer that ends before the counter and flag expire (an hour
    from its start is enough), on Redis or on the local file, the alerts of
    every report are those the machine announces. *)
Theorem bgp_alerts_refine (recovered : bool) (thr name id : string) (rs : list (Z * PeerHeartbeat)) (hz : Z)
    (st : BgpWatch) (w w' : World) (out : list (list alert))
  (Hup : redis_up w) (Hst : watching (w_cache w) (w_now w) hz id st) (Hhz : hz ≤ w_now w + Hour)
  (Hsorted : Sorted Z.le (w_now w :: rs.*1)) (Hrs : Forall (λ r, r.1 < hz ∧ ph_PeerID r.2 = id) rs)
  (Hrun : exec (watch recovered thr name rs) w = (out, w')) :
  out = zip_with (render recovered name) rs.*2 (bgp_run (threshold thr 3) st (ph_BGPState <$> rs.*2)).
Proof.
  apply (wp_exec _ _ _ _ _ Hrun (wp_watch recovered thr name id hz rs (w_now w) (w_cache w) st w
           (conj Hup (conj eq_refl eq_refl)) Hst Hhz Hsorted Hrs)).
Qed.

Definition empty_cache : Cache := MkCache None (Some ∅) "ap:" false.
Definition fresh_world : World := set_cache empty_cache (sample "active" [] []).
Definition report (state : string) : PeerHeartbeat :=
  MkPeerHeartbeat "p1" 4242420001 0 0 "" state None None None None None "".

Lemma empty_watching now hz id : watching empty_cache now hz id (MkBgpWatch 0 false).
Proof. split; [left; by eexists|]. split; [done|]. split; cbn; intros v e; by rewrite lookup_empty. Qed.

(** Two failures, a third that is announced, and the recovery. *)
Definition outage : list (Z * PeerHeartbeat) :=
  [(60 * Second, report "Active"); (120 * Second, report "Connect"); (180 * Second, report "Idle");
   (240 * Second, report "Established")].

Lemma bgp_alerts_refine_witness :
  (exec (watch true "" "fra1" outage) fresh_world).1
  = zip_with (render true "fra1") outage.*2 [None; None; Some BgpDown; Some BgpRecovered].
Proof.
  refine (bgp_alerts_refine true "" "fra1" "p1" outage Hour (MkBgpWatch 0 false) fresh_world
    (exec (watch true "" "fra1" outage) fresh_world).2 (exec (watch true "" "fra1" outage) fresh_world).1 _ _ _ _ _ _).
  - constructor.
  - apply empty_watching.
  - vm_compute. discriminate.
  - repeat constructor; vm_compute; discriminate.
  - repeat constructor.
  - apply surjective_pairing.
Defined.

Lemma threshold_pos s : 0 < threshold s 3.
Proof. unfold threshold. destruct (Atoi s) as [v|]; [|done]. destruct (Z.ltb_spec 0 v); lia. Qed.

Definition session_down (p : PeerHeartbeat) : Prop := ph_BGPState p ≠ "" ∧ bgp_up (ph_BGPState p) = false.

(** While the session stays down, the machine announces it once. *)
Lemma bgp_run_down thr states : ∀ n,
  0 < thr → 0 ≤ n → Forall (λ s, s ≠ "" ∧ bgp_up s = false) states →
  bgp_run thr (MkBgpWatch n (thr <=? n)) states
  = imap (λ i _, if n + Z.of_nat i + 1 =? thr then Some BgpDown else None) states.
Proof.
  induction states as [|s states IH]; intros n Ht Hn Hf; [done|].
  apply Forall_cons in Hf as [[Hs Hu] Hf]. cbn [bgp_run]. unfold bgp_next at 1.
  rewrite bool_decide_eq_false_2, Hu by done. cbn [fails down_sent]. rewrite imap_cons.
  assert (∀ o, (thr <=? n + 1) = o → bgp_run thr (MkBgpWatch (n + 1) o) states
    = imap ((λ (i : nat) (_ : string), if n + Z.of_nat i + 1 =? thr then Some BgpDown else None) ∘ S) states) as Hrest.
  { intros o <-. rewrite IH by (done || lia). apply imap_ext. intros i x _. cbn.
    replace (n + 1 + Z.of_nat i + 1) with (n + Z.of_nat (S i) + 1) by lia. done. }
  replace (n + Z.of_nat 0 + 1) with (n + 1) by lia.
  destruct (Z.leb_spec thr (n + 1)), (Z.leb_spec thr n), (Z.eqb_spec (n + 1) thr); try lia; cbn [andb negb];
    f_equal; by apply Hrest.
Qed.

(** C20: Of the reports that arrive within one hour from the first, all of them
    down and with Redis up, exactly one announces the outage: the one that makes
    it as long as the threshold.  The theorem is about that hour only: the
    counter lives an hour from the last report and the flag a day, so a longer
    outage may be announced again. *)
Theorem outage_alerted_once (recovered : bool) (thr name id : string) (rs : list (Z * PeerHeartbeat))
    (w w' : World) (out : list (list alert))
  (Hup : redis_up w) (Hst : watching (w_cache w) (w_now w) (w_now w + Hour) id (MkBgpWatch 0 false))
  (Hsorted : Sorted Z.le (w_now w :: rs.*1))
  (Hrs : Forall (λ r, r.1 < w_now w + Hour ∧ ph_PeerID r.2 = id ∧ session_down r.2) rs)
  (Hrun : exec (watch recovered thr name rs) w = (out, w')) :
  out = imap (λ i r, if Z.of_nat i + 1 =? threshold thr 3 then render recovered name r.2 (Some BgpDown) else []) rs.
Proof.
  assert (Forall (λ r : Z * PeerHeartbeat, r.1 < w_now w + Hour ∧ ph_PeerID r.2 = id) rs) as Hrs'
    by (eapply Forall_impl; [exact Hrs|naive_solver]).
  rewrite (wp_exec _ _ _ _ _ Hrun (wp_watch recovered thr name id (w_now w + Hour) rs (w_now w) (w_cache w) (MkBgpWatch 0 false) w
           (conj Hup (conj eq_refl eq_refl)) Hst ltac:(lia) Hsorted Hrs')).
  pose proof (threshold_pos thr) as Ht. pose proof (bgp_run_down (threshold thr 3) (ph_BGPState <$> rs.*2) 0 Ht) as Hr.
  rewrite (proj2 (Z.leb_gt (threshold thr 3) 0)) in Hr by lia. rewrite Hr; [|done|].
  - clear. generalize (threshold thr 3). intros n. apply list_eq. intros i.
    rewrite lookup_zip_with, !list_lookup_imap, !list_lookup_fmap. destruct (rs !! i) as [[t p]|]; [|done]. cbn.
    by destruct (_ =? n).
  - rewrite !Forall_fmap. eapply Forall_impl; [exact Hrs|]. intros r (_ & _ & H). exact H.
Qed.

Lemma outage_alerted_once_witness :
  (exec (watch true "2" "fra1" (take 3 outage)) fresh_world).1 = [[]; render true "fra1" (report "Connect") (Some BgpDown); []].
Proof.
  refine (outage_alerted_once true "2" "fra1" "p1" (take 3 outage) fresh_world
    (exec (watch true "2" "fra1" (take 3 outage)) fresh_world).2
    (exec (watch true "2" "fra1" (take 3 outage)) fresh_world).1 _ _ _ _ _).
  - constructor.
  - apply empty_watching.
  - repeat constructor; vm_compute; discriminate.
  - repeat constructor; vm_compute; congruence.
  - apply surjective_pairing.
Defined.
