(* ===== verification/Hub.v ===== *)
(** * Agent connections ([internal/ws/hub.go], [internal/ws/conn.go])

    The registry of connections by node, the per-node queue through which
    connects and disconnects reach the database, and the goroutine that drains
    it.  Connections and queue entries are Go objects shared by pointer, so they
    live in heaps and the registry holds references.  Every operation that runs
    under the hub's mutex is one step. *)
From S2P Require Import Prelude GoLib Json Model Lock Cache Effects World Store Rely Handler Wp Scenario Heartbeat.
From stdpp Require Import options.
Local Open Scope Z_scope.
Local Open Scope go_scope.

(** ** Objects *)
Record AgentConn : Type := MkConn {
  ac_NodeID : string;
  ac_pendingAuth : bool;
  ac_closed : bool;                     (* closeCh is closed *)
  ac_aead : option (list ascii)         (* the session key, once encrypted *)
}.

(** An entry with its drainer goroutine: [en_running] until that returns. *)
Record nodeUpdEntry : Type := MkEntry {
  en_NodeID : string;
  en_ch : list bool;                    (* buffered, oldest first *)
  en_done : bool;                       (* the channel done is closed *)
  en_running : bool
}.

Record Hub : Type := MkHub {
  h_conns : gmap string nat;
  h_nodeUpd : gmap string nat;
  h_acs : list AgentConn;               (* every connection ever made *)
  h_entries : list nodeUpdEntry;
  h_panicked : bool                     (* a closed channel was closed again *)
}.
Record St : Type := MkSt { st_hub : Hub; st_world : World }.

Definition empty_hub : Hub := MkHub ∅ ∅ [] [] false.

(** ** Small steps on the objects *)
Definition close_ac (ac : AgentConn) : AgentConn := MkConn (ac_NodeID ac) (ac_pendingAuth ac) true (ac_aead ac).
Definition activate_ac (ac : AgentConn) : AgentConn := MkConn (ac_NodeID ac) false (ac_closed ac) (ac_aead ac).
Definition encrypt_ac (key : list ascii) (ac : AgentConn) : AgentConn :=
  MkConn (ac_NodeID ac) (ac_pendingAuth ac) (ac_closed ac) (Some key).
Definition with_acs (f : list AgentConn → list AgentConn) (h : Hub) : Hub :=
  MkHub (h_conns h) (h_nodeUpd h) (f (h_acs h)) (h_entries h) (h_panicked h).
Definition with_conns (f : gmap string nat → gmap string nat) (h : Hub) : Hub :=
  MkHub (f (h_conns h)) (h_nodeUpd h) (h_acs h) (h_entries h) (h_panicked h).
Definition with_upd (f : gmap string nat → gmap string nat) (h : Hub) : Hub :=
  MkHub (h_conns h) (f (h_nodeUpd h)) (h_acs h) (h_entries h) (h_panicked h).
Definition with_entries (f : list nodeUpdEntry → list nodeUpdEntry) (h : Hub) : Hub :=
  MkHub (h_conns h) (h_nodeUpd h) (h_acs h) (f (h_entries h)) (h_panicked h).

(** [AgentConn.Close]: at most once. *)
Definition Close (i : nat) (h : Hub) : Hub := with_acs (alter close_ac i) h.
Definition EnableEncryption (i : nat) (key : list ascii) (h : Hub) : Hub := with_acs (alter (encrypt_ac key) i) h.

(** [close(entry.done)] panics when it is closed already. *)
Definition close_done (e : nat) (h : Hub) : Hub :=
  match h_entries h !! e with
  | Some en =>
      if en_done en then MkHub (h_conns h) (h_nodeUpd h) (h_acs h) (h_entries h) true
      else with_entries (alter (λ en, MkEntry (en_NodeID en) (en_ch en) true (en_running en)) e) h
  | None => h
  end.
(** [select { case entry.ch <- v: default: }] on a buffer of four. *)
Definition can_send (e : nat) (h : Hub) : bool :=
  match h_entries h !! e with Some en => (length (en_ch en) <? 4)%nat | None => false end.
Definition send (e : nat) (v : bool) (h : Hub) : Hub :=
  if can_send e h
  then with_entries (alter (λ en, MkEntry (en_NodeID en) (en_ch en ++ [v]) (en_done en) (en_running en)) e) h else h.

Definition GetConn (nodeID : string) (h : Hub) : option nat := h_conns h !! nodeID.
Definition pending (i : nat) (h : Hub) : bool :=
  match h_acs h !! i with Some ac => ac_pendingAuth ac | None => true end.
Definition IsOnline (nodeID : string) (h : Hub) : bool :=
  match GetConn nodeID h with Some i => negb (pending i h) | None => false end.

(** What the other components see of the registry. *)
Definition publish (h : Hub) (w : World) : World :=
  MkWorld (w_db w) (w_cache w) (w_redis w) (w_local w) (dom (h_conns h)) (w_ext w) (w_log w).
Definition on_hub (f : Hub → Hub) (s : St) : St := MkSt (f (st_hub s)) (publish (f (st_hub s)) (st_world s)).

(** ** Operations *)
Definition register (nodeID : string) (h : Hub) : Hub :=
  let h1 := match GetConn nodeID h with
            | Some i => with_conns (delete nodeID) (Close i h)
            | None => h
            end in
  let h2 := with_acs (λ l, l ++ [MkConn nodeID true false None]) h1 in
  let h3 := match h_nodeUpd h2 !! nodeID with Some e => close_done e h2 | None => h2 end in
  with_upd <[nodeID := length (h_entries h3)]> (with_entries (λ l, l ++ [MkEntry nodeID [] false true]) h3).
Definition Register (nodeID : string) (s : St) : nat * St :=
  (length (h_acs (st_hub s)), on_hub (register nodeID) s).

Definition activate (i : nat) (h : Hub) : Hub :=
  match h_acs h !! i with
  | None => h
  | Some ac =>
      if negb (ac_pendingAuth ac) then h
      else
        let h1 := with_acs (alter activate_ac i) h in
        let h2 := match GetConn (ac_NodeID ac) h1 with
                  | Some j => if bool_decide (j = i) then h1 else Close j h1
                  | None => h1
                  end in
        let h3 := with_conns <[ac_NodeID ac := i]> h2 in
        match h_nodeUpd h3 !! ac_NodeID ac with Some e => send e true h3 | None => h3 end
  end.
Definition Activate (i : nat) (s : St) : unit * St := (tt, on_hub (activate i) s).

(** The end of a connection's [ReadPump]. *)
Definition unregister (nodeID : string) (i : nat) (h : Hub) : Hub :=
  let h1 := match GetConn nodeID h with
            | Some j => if bool_decide (j = i) then with_conns (delete nodeID) (Close i h) else h
            | None => h
            end in
  if pending i h1 then Close i h1 else h1.

Section hub.
Set Default Proof Using "Type*".
Context (env : HubEnv).

Definition Unregister (nodeID : string) (i : nat) (s : St) : unit * St :=
  let s1 := on_hub (unregister nodeID i) s in
  (tt, match h_nodeUpd (st_hub s1) !! nodeID with
       | Some e =>
           if can_send e (st_hub s1) then on_hub (send e false) s1
           else
             let w := (exec (node_went_offline env nodeID) (st_world s1)).2 in
             on_hub (λ h, with_upd (delete nodeID) (close_done e h)) (MkSt (st_hub s1) w)
       | None => s1
       end).

(** ** The drainer ([drainNodeUpdates]) *)
Inductive wake : Type :=
| Stop          (* done is closed *)
| Recv (online : bool)
| Blocked.

(** One [select]; [first] says which case is taken when both are ready. *)
Definition select_upd (first : bool) (e : nat) (s : St) : wake * St :=
  match h_entries (st_hub s) !! e with
  | None => (Blocked, s)
  | Some en =>
      let stop := (Stop, on_hub (with_entries (alter (λ en, MkEntry (en_NodeID en) (en_ch en) (en_done en) false) e)) s) in
      match en_ch en with
      | v :: rest =>
          if en_done en && first then stop
          else (Recv v, on_hub (with_entries (alter (λ en, MkEntry (en_NodeID en) rest (en_done en) (en_running en)) e)) s)
      | [] => if en_done en then stop else (Blocked, s)
      end
  end.
(** After the offline update: the entry is dropped unless it was replaced. *)
Definition finish_upd (nodeID : string) (e : nat) (s : St) : unit * St :=
  (tt, on_hub (λ h,
    with_entries (alter (λ en, MkEntry (en_NodeID en) (en_ch en) (en_done en) false) e)
      (if bool_decide (h_nodeUpd h !! nodeID = Some e) then with_upd (delete nodeID) h else h)) s).

(** A program of the world, in a process that also has a hub.  Which agents are
    connected is the hub's to say, so it is published again (no action of the
    world changes it). *)
Fixpoint lift {A} (p : M A) : prog St A :=
  match p with
  | Ret a => Ret a
  | Do f k => Do (λ s, let '(r, w) := f (st_world s) in (r, MkSt (st_hub s) (publish (st_hub s) w))) (λ r, lift (k r))
  end.

(** One round of the loop; [false]: the goroutine has returned. *)
Definition drainNodeUpdates (first : bool) (nodeID : string) (e : nat) : prog St bool :=
  m ← act (select_upd first e);
  match m with
  | Stop => mret false
  | Recv true => lift (node_came_online nodeID) ;; mret true
  | Recv false => lift (node_went_offline env nodeID) ;; act (finish_upd nodeID e) ;; mret false
  | Blocked => mret true
  end.
End hub.

(** ** Invariants *)

(** The registry of connections: it holds authenticated connections of the
    node, and an authenticated connection that left it has been closed. *)
Record conns_ok (c : gmap string nat) (l : list AgentConn) : Prop := {
  co_held n i : c !! n = Some i → ∃ ac, l !! i = Some ac ∧ ac_NodeID ac = n ∧ ac_pendingAuth ac = false;
  co_open i ac : l !! i = Some ac → ac_pendingAuth ac = false → ac_closed ac = false → c !! ac_NodeID ac = Some i
}.
(** The update queues: a registered entry is open, buffers at most four, and a
    drainer that is not the registered one has been told to stop. *)
Record upd_ok (u : gmap string nat) (l : list nodeUpdEntry) : Prop := {
  uo_held n e : u !! n = Some e → ∃ en, l !! e = Some en ∧ en_NodeID en = n ∧ en_done en = false;
  uo_running e en : l !! e = Some en → en_running en = true → en_done en = false → u !! en_NodeID en = Some e;
  uo_buffer e en : l !! e = Some en → (length (en_ch en) ≤ 4)%nat
}.

Lemma alter_some {X} (f : X → X) i (l : list X) j y :
  alter f i l !! j = Some y ↔ ∃ x, l !! j = Some x ∧ y = (if decide (i = j) then f x else x).
Proof.
  destruct (decide (i = j)) as [->|Hij].
  - rewrite list_lookup_alter_eq. destruct (l !! j); naive_solver.
  - rewrite list_lookup_alter_ne by done. naive_solver.
Qed.

Lemma conns_ok_close c l i : conns_ok c l → conns_ok c (alter close_ac i l).
Proof.
  intros [H1 H2]. split.
  - intros n j Hj. destruct (H1 n j Hj) as (ac & Hac & Hn & Hp).
    exists (if decide (i = j) then close_ac ac else ac). split; [apply alter_some; eauto|]. by case_decide.
  - intros j ac' (ac & Hac & ->)%alter_some. case_decide; [done|]. by apply H2.
Qed.
Lemma conns_ok_encrypt c l i k : conns_ok c l → conns_ok c (alter (encrypt_ac k) i l).
Proof.
  intros [H1 H2]. split.
  - intros n j Hj. destruct (H1 n j Hj) as (ac & Hac & Hn & Hp).
    exists (if decide (i = j) then encrypt_ac k ac else ac). split; [apply alter_some; eauto|]. by case_decide.
  - intros j ac' (ac & Hac & ->)%alter_some. case_decide; apply (H2 j ac Hac).
Qed.
Lemma conns_ok_drop c l n i : conns_ok c l → c !! n = Some i → conns_ok (delete n c) (alter close_ac i l).
Proof.
  intros [H1 H2] Hi. split.
  - intros m j (Hne & Hj)%lookup_delete_Some. destruct (H1 m j Hj) as (ac & Hac & Hm & Hp).
    exists (if decide (i = j) then close_ac ac else ac). split; [apply alter_some; eauto|]. by case_decide.
  - intros j ac' (ac & Hac & ->)%alter_some. case_decide as Hij; [done|]. intros Hp Hc.
    pose proof (H2 j ac Hac Hp Hc) as Hj. apply lookup_delete_Some. split; [|done]. intros ->. congruence.
Qed.
Lemma conns_ok_new c l n : conns_ok c l → conns_ok c (l ++ [MkConn n true false None]).
Proof.
  intros [H1 H2]. split.
  - intros m j Hj. destruct (H1 m j Hj) as (ac & Hac & Hm). exists ac. split; [|done]. by apply lookup_app_l_Some.
  - intros j ac [Hac|[Hj Hac]]%lookup_app_Some; [by apply H2|]. apply list_lookup_singleton_Some in Hac as [_ <-]. done.
Qed.
Lemma conns_ok_activate c l i ac :
  conns_ok c l → l !! i = Some ac → ac_pendingAuth ac = true →
  conns_ok (<[ac_NodeID ac := i]> c)
    (match c !! ac_NodeID ac with
     | Some j => if bool_decide (j = i) then alter activate_ac i l else alter close_ac j (alter activate_ac i l)
     | None => alter activate_ac i l
     end).
Proof.
  intros [H1 H2] Hi Hpend.
  assert (∀ j, c !! ac_NodeID ac = Some j → j ≠ i) as Hne.
  { intros j Hj ->. destruct (H1 _ _ Hj) as (ac' & Hac' & _ & Hp). congruence. }
  set (l' := match _ with Some _ => _ | None => _ end).
  assert (∀ k x, l' !! k = Some x ↔ ∃ y, l !! k = Some y ∧
            x = if decide (i = k) then activate_ac y else if decide (c !! ac_NodeID ac = Some k) then close_ac y else y) as Hl'.
  { intros k x. unfold l'. destruct (c !! ac_NodeID ac) as [j|] eqn:Hj.
    - rewrite bool_decide_eq_false_2 by by apply Hne. rewrite alter_some. setoid_rewrite alter_some.
      pose proof (Hne j eq_refl). split.
      + intros (y & (z & Hz & ->) & ->). exists z. split; [done|]. repeat case_decide; naive_solver.
      + intros (y & Hy & ->). eexists. split; [by eauto|]. repeat case_decide; naive_solver.
    - rewrite alter_some. split; intros (y & Hy & ->); exists y; (split; [done|]); repeat case_decide; naive_solver. }
  clearbody l'. split.
  - intros n k. destruct (decide (n = ac_NodeID ac)) as [->|Hn].
    + rewrite lookup_insert_eq. intros [= <-]. exists (activate_ac ac). split; [|done]. apply Hl'.
      exists ac. by rewrite decide_True.
    + rewrite lookup_insert_ne by done. intros Hk. destruct (H1 n k Hk) as (y & Hy & Hyn & Hp).
      eexists. split; [apply Hl'; by eauto|]. repeat case_decide; naive_solver.
  - intros k x (y & Hy & ->)%Hl'. destruct (decide (i = k)) as [->|Hik].
    + intros _ _. cbn. replace y with ac by congruence. apply lookup_insert_eq.
    + case_decide as Hk; [done|]. intros Hp Hc. pose proof (H2 k y Hy Hp Hc) as Hyk.
      rewrite lookup_insert_ne; [done|]. intros E. apply Hk. by rewrite E.
Qed.

(** Updating one entry in place keeps the invariant when its node stays, its
    buffer stays bounded, and it is neither closed nor restarted. *)
Lemma upd_ok_alter u l e f :
  upd_ok u l →
  (∀ en, l !! e = Some en → en_NodeID (f en) = en_NodeID en ∧ en_done (f en) = en_done en
     ∧ (en_running (f en) = true → en_running en = true) ∧ (length (en_ch (f en)) ≤ 4)%nat) →
  upd_ok u (alter f e l).
Proof.
  intros [H1 H2 H3] Hf. split.
  - intros n k Hk. destruct (H1 n k Hk) as (en & Hen & Hn & Hd). eexists. split; [apply alter_some; by eauto|].
    case_decide as E; [|done]. subst k. destruct (Hf en Hen) as (-> & -> & _). done.
  - intros k en' (en & Hen & ->)%alter_some. case_decide as E; [|by apply H2]. subst k.
    destruct (Hf en Hen) as (-> & -> & Hr & _). intros ?%Hr. by apply H2.
  - intros k en' (en & Hen & ->)%alter_some. case_decide as E; [|by eapply H3]. subst k. by apply (Hf en Hen).
Qed.

(** A registered entry that is closed leaves the registry, or is replaced. *)
Definition close_entry (en : nodeUpdEntry) : nodeUpdEntry := MkEntry (en_NodeID en) (en_ch en) true (en_running en).
Lemma upd_ok_retire u l n e : upd_ok u l → u !! n = Some e → upd_ok (delete n u) (alter close_entry e l).
Proof.
  intros [H1 H2 H3] He. destruct (H1 n e He) as (en0 & Hen0 & Hn0 & _). split.
  - intros m k (Hne & Hk)%lookup_delete_Some. destruct (H1 m k Hk) as (en & Hen & Hm & Hd). exists en.
    split; [|done]. apply alter_some. exists en. split; [done|]. rewrite decide_False; [done|]. intros ->. congruence.
  - intros k en' (en & Hen & ->)%alter_some. case_decide; [done|]. intros Hr Hd. apply lookup_delete_Some.
    pose proof (H2 k en Hen Hr Hd). split; [|done]. intros ->. congruence.
  - intros k en' (en & Hen & ->)%alter_some. case_decide; by eapply (H3 k en).
Qed.
Lemma upd_ok_stop u l n e :
  upd_ok u l → u !! n = Some e →
  upd_ok (delete n u) (alter (λ en, MkEntry (en_NodeID en) (en_ch en) (en_done en) false) e l).
Proof.
  intros [H1 H2 H3] He. destruct (H1 n e He) as (en0 & Hen0 & Hn0 & _). split.
  - intros m k (Hne & Hk)%lookup_delete_Some. destruct (H1 m k Hk) as (en & Hen & Hm & Hd). exists en.
    split; [|done]. apply alter_some. exists en. split; [done|]. rewrite decide_False; [done|]. intros ->. congruence.
  - intros k en' (en & Hen & ->)%alter_some. case_decide; [done|]. intros Hr Hd. apply lookup_delete_Some.
    pose proof (H2 k en Hen Hr Hd). split; [|done]. intros ->. congruence.
  - intros k en' (en & Hen & ->)%alter_some. case_decide; by eapply (H3 k en).
Qed.
Lemma upd_ok_add u l n :
  upd_ok u l → u !! n = None → upd_ok (<[n := length l]> u) (l ++ [MkEntry n [] false true]).
Proof.
  intros [H1 H2 H3] Hn. split.
  - intros m k. destruct (decide (m = n)) as [->|Hm].
    + rewrite lookup_insert_eq. intros [= <-]. eexists. split; [by apply list_lookup_middle|done].
    + rewrite lookup_insert_ne by done. intros Hk. destruct (H1 m k Hk) as (en & Hen & ?). exists en.
      split; [by apply lookup_app_l_Some|done].
  - intros k en [Hen|[Hk Hen]]%lookup_app_Some Hr Hd.
    + pose proof (H2 k en Hen Hr Hd) as Hu. rewrite lookup_insert_ne; [done|]. intros E. congruence.
    + apply list_lookup_singleton_Some in Hen as [Hk0 <-]. cbn. rewrite lookup_insert_eq. f_equal. lia.
  - intros k en [Hen|[Hk Hen]]%lookup_app_Some; [by eapply H3|].
    apply list_lookup_singleton_Some in Hen as [_ <-]. cbn. lia.
Qed.

Record hub_ok (s : St) : Prop := {
  ok_conns : conns_ok (h_conns (st_hub s)) (h_acs (st_hub s));
  ok_upd : upd_ok (h_nodeUpd (st_hub s)) (h_entries (st_hub s));
  ok_panic : h_panicked (st_hub s) = false;
  ok_seen : w_conns (st_world s) = dom (h_conns (st_hub s))
}.

Lemma close_done_ok h n e :
  upd_ok (h_nodeUpd h) (h_entries h) → h_nodeUpd h !! n = Some e →
  close_done e h = with_entries (alter close_entry e) h.
Proof.
  intros H He. destruct (uo_held _ _ H n e He) as (en & Hen & _ & Hd). unfold close_done. by rewrite Hen, Hd.
Qed.

(** Every registered, authenticated connection is what callers call online. *)
Lemma online_seen s n : hub_ok s → IsOnline n (st_hub s) = true ↔ n ∈ w_conns (st_world s).
Proof.
  intros [[H1 _] _ _ ->]. unfold IsOnline, GetConn, pending. rewrite elem_of_dom.
  destruct (h_conns (st_hub s) !! n) as [i|] eqn:Hi.
  - destruct (H1 n i Hi) as (ac & -> & _ & ->). split; eauto.
  - split; [done|]. by intros [? ?].
Qed.

(** ** The steps of the hub *)
Section steps.
Set Default Proof Using "Type*".
Context (env : HubEnv).

(** One step of any connection, drainer or other part of the process.  The
    relation allows more than the program does - [step_world] any change of the
    world by the rest of the process, [step_finish] the end of any drainer - and
    is meant for invariants: what it reaches, the program need not reach. *)
Inductive hub_step : St → St → Prop :=
| step_Register n s : hub_step s (Register n s).2
| step_Activate i s : hub_step s (Activate i s).2
| step_Unregister n i s : hub_step s (Unregister env n i s).2
| step_Close i s : hub_step s (on_hub (Close i) s)
| step_EnableEncryption i k s : hub_step s (on_hub (EnableEncryption i k) s)
| step_select first e s : hub_step s (select_upd first e s).2
| step_finish n e s : hub_step s (finish_upd n e s).2
| step_world h w w' : hub_step (MkSt h w) (MkSt h (publish h w'))
| step_read s : hub_step s s.

Lemma close_old h n :
  upd_ok (h_nodeUpd h) (h_entries h) → h_panicked h = false →
  let h' := match h_nodeUpd h !! n with Some e => close_done e h | None => h end in
  h_conns h' = h_conns h ∧ h_acs h' = h_acs h ∧ h_nodeUpd h' = h_nodeUpd h ∧ h_panicked h' = false
  ∧ upd_ok (delete n (h_nodeUpd h)) (h_entries h').
Proof.
  intros Hu Hp. cbv zeta. destruct (h_nodeUpd h !! n) as [e|] eqn:He.
  - rewrite (close_done_ok h n e Hu He). split_and!; try done. by apply upd_ok_retire.
  - split_and!; try done. by rewrite delete_id.
Qed.

Lemma send_ok h e v : upd_ok (h_nodeUpd h) (h_entries h) → upd_ok (h_nodeUpd (send e v h)) (h_entries (send e v h)).
Proof.
  intros Hu. unfold send, can_send. destruct (h_entries h !! e) as [en|] eqn:He; [|done].
  destruct (Nat.ltb_spec (length (en_ch en)) 4); [|done]. apply upd_ok_alter; [done|]. intros en' Hen'. cbn.
  rewrite length_app. cbn. simplify_eq. split_and!; try done. lia.
Qed.
Lemma send_same h e v :
  h_conns (send e v h) = h_conns h ∧ h_acs (send e v h) = h_acs h ∧ h_panicked (send e v h) = h_panicked h
  ∧ h_nodeUpd (send e v h) = h_nodeUpd h.
Proof. unfold send. by destruct (can_send e h). Qed.

Lemma register_ok n s : hub_ok s → hub_ok (Register n s).2.
Proof.
  intros [Hc Hu Hp _]. unfold Register, on_hub. cbn [snd]. set (h := st_hub s) in *.
  unfold register.
  set (h2 := with_acs _ _).
  assert (conns_ok (h_conns h2) (h_acs h2)) as Hc2.
  { unfold h2, GetConn. destruct (h_conns h !! n) eqn:Hi; cbn; apply conns_ok_new; [by apply conns_ok_drop|done]. }
  assert (h_nodeUpd h2 = h_nodeUpd h ∧ h_entries h2 = h_entries h ∧ h_panicked h2 = false) as (E1 & E2 & E3).
  { unfold h2, GetConn. destruct (h_conns h !! n); auto. }
  clearbody h2. rewrite <-E1, <-E2 in Hu.
  destruct (close_old h2 n Hu E3) as (F1 & F2 & F3 & F4 & F5). cbv zeta in *.
  set (h3 := match h_nodeUpd h2 !! n with Some e => close_done e h2 | None => h2 end) in *.
  split; cbn; [by rewrite F1, F2| |done|done].
  rewrite F3, <-insert_delete_eq. apply upd_ok_add; [done|apply lookup_delete_eq].
Qed.

Lemma activate_ok i s : hub_ok s → hub_ok (Activate i s).2.
Proof.
  intros [Hc Hu Hp Hs]. unfold Activate, on_hub. cbn [snd]. set (h := st_hub s) in *. unfold activate.
  destruct (h_acs h !! i) as [ac|] eqn:Hi; [|by split].
  destruct (ac_pendingAuth ac) eqn:Hpend; cbn [negb]; [|by split].
  set (h3 := with_conns _ _).
  assert (conns_ok (h_conns h3) (h_acs h3)) as Hc3.
  { pose proof (conns_ok_activate _ _ _ _ Hc Hi Hpend) as H. unfold h3, GetConn in *. cbn.
    destruct (h_conns h !! ac_NodeID ac) as [j|]; [|done]. by case_bool_decide. }
  assert (h_nodeUpd h3 = h_nodeUpd h ∧ h_entries h3 = h_entries h ∧ h_panicked h3 = false) as (E1 & E2 & E3).
  { unfold h3, GetConn. cbn. destruct (h_conns h !! ac_NodeID ac); [|done]. by case_bool_decide. }
  clearbody h3. rewrite <-E1, <-E2 in Hu.
  destruct (h_nodeUpd h3 !! ac_NodeID ac) as [e|]; [|by split].
  destruct (send_same h3 e true) as (F1 & F2 & F3 & F4).
  split; cbn; [by rewrite F1, F2|by apply send_ok|by rewrite F3|done].
Qed.

Lemma on_hub_ok f s :
  (conns_ok (h_conns (st_hub s)) (h_acs (st_hub s)) → conns_ok (h_conns (f (st_hub s))) (h_acs (f (st_hub s)))) →
  (upd_ok (h_nodeUpd (st_hub s)) (h_entries (st_hub s)) → upd_ok (h_nodeUpd (f (st_hub s))) (h_entries (f (st_hub s)))) →
  h_panicked (f (st_hub s)) = h_panicked (st_hub s) →
  hub_ok s → hub_ok (on_hub f s).
Proof. intros H1 H2 H3 [Hc Hu Hp Hs]. split; cbn; [auto..|congruence|done]. Qed.

Lemma unregister_ok n i s : hub_ok s → hub_ok (Unregister env n i s).2.
Proof.
  intros H. unfold Unregister. cbn [snd].
  assert (hub_ok (on_hub (unregister n i) s)) as [Hc Hu Hp Hs].
  { apply on_hub_ok; [..|done]; unfold unregister, GetConn.
    - intros Hc. destruct (h_conns (st_hub s) !! n) as [j|] eqn:Hj; [case_bool_decide; [subst j|]|];
        (destruct (pending _ _); cbn; [apply conns_ok_close|]); try done; by apply conns_ok_drop.
    - intros Hu. by repeat (case_match || case_bool_decide).
    - by repeat (case_match || case_bool_decide). }
  set (s1 := on_hub (unregister n i) s) in *. clearbody s1.
  destruct (h_nodeUpd (st_hub s1) !! n) as [e|] eqn:He; [|by split].
  destruct (can_send e (st_hub s1)).
  - destruct (send_same (st_hub s1) e false) as (F1 & F2 & F3 & F4).
    apply on_hub_ok; [by rewrite F1, F2|intros; by apply send_ok|done|by split].
  - split; cbn; [| | |done]; rewrite (close_done_ok _ n e Hu He); [done| |done]. by apply upd_ok_retire.
Qed.

Lemma select_ok first e s : hub_ok s → hub_ok (select_upd first e s).2.
Proof.
  intros H. unfold select_upd. destruct (h_entries (st_hub s) !! e) as [en|] eqn:He; [|done]. cbv zeta.
  pose proof (uo_buffer _ _ (ok_upd _ H) e en He) as Hl.
  destruct (en_ch en) as [|v rest] eqn:Hch; [destruct (en_done en); [|done]|destruct (en_done en && first)];
    (apply on_hub_ok; [done| |done|done]); intros Hu; (apply upd_ok_alter; [done|]); intros en' Hen'; simplify_eq; cbn.
  - by rewrite Hch.
  - rewrite Hch. split_and!; done.
  - cbn in Hl. split_and!; try done. lia.
Qed.

Lemma finish_ok n e s : hub_ok s → hub_ok (finish_upd n e s).2.
Proof.
  intros H. unfold finish_upd. apply on_hub_ok; [by case_bool_decide| |by case_bool_decide|done].
  intros Hu. case_bool_decide as He; cbn.
  - by apply upd_ok_stop.
  - apply upd_ok_alter; [done|]. intros en Hen. cbn. split_and!; try done. by eapply (uo_buffer _ _ Hu).
Qed.

Lemma hub_step_ok s s' : hub_step s s' → hub_ok s → hub_ok s'.
Proof.
  intros Hstep H. destruct Hstep.
  - by apply register_ok.
  - by apply activate_ok.
  - by apply unregister_ok.
  - apply on_hub_ok; [apply conns_ok_close|done|done|done].
  - apply on_hub_ok; [apply conns_ok_encrypt|done|done|done].
  - by apply select_ok.
  - by apply finish_ok.
  - destruct H as [Hc Hu Hp Hs]. by split.
  - done.
Qed.

Lemma hub_steps_ok s s' : rtc hub_step s s' → hub_ok s → hub_ok s'.
Proof. induction 1; eauto using hub_step_ok. Qed.

Lemma empty_ok w : w_conns w = ∅ → hub_ok (MkSt empty_hub w).
Proof.
  intros Hw. split; cbn; [| |done|by rewrite dom_empty_L].
  - split; intros *; [by rewrite lookup_empty|done].
  - split; intros *; [by rewrite lookup_empty|done|done].
Qed.

(** What the invariant says to an observer. *)
Lemma hub_ok_observed s :
  hub_ok s →
  h_panicked (st_hub s) = false
  ∧ (∀ n i, GetConn n (st_hub s) = Some i → ∃ ac, h_acs (st_hub s) !! i = Some ac
       ∧ ac_NodeID ac = n ∧ ac_pendingAuth ac = false)
  ∧ (∀ i j ac ac', h_acs (st_hub s) !! i = Some ac → h_acs (st_hub s) !! j = Some ac' →
       ac_NodeID ac = ac_NodeID ac' → ac_pendingAuth ac = false → ac_pendingAuth ac' = false →
       ac_closed ac = false → ac_closed ac' = false → i = j)
  ∧ (∀ n, IsOnline n (st_hub s) = true ↔ n ∈ w_conns (st_world s))
  ∧ (∀ e en, h_entries (st_hub s) !! e = Some en → en_running en = true → en_done en = false →
       h_nodeUpd (st_hub s) !! en_NodeID en = Some e).
Proof.
  intros H. split; [apply H|]. split; [apply H|]. split; [|split; [intros; by apply online_seen|apply H]].
  intros i j ac ac' Hi Hj Hn Hp Hp' Hcl Hcl'.
  pose proof (co_open _ _ (ok_conns _ H) i ac Hi Hp Hcl) as H1.
  pose proof (co_open _ _ (ok_conns _ H) j ac' Hj Hp' Hcl') as H2. congruence.
Qed.

(** Programs all of whose actions are steps of the hub. *)
Definition hub_program {A} (p : prog St A) : Prop := all_acts hub_step p.
Lemma hub_program_lift {A} (p : M A) : hub_program (lift p).
Proof.
  induction p as [a|R f k IH]; [done|]. split; [|done]. intros [h w]. cbn. destruct (f w) as [r w']. apply step_world.
Qed.
Lemma drain_program first n e : hub_program (drainNodeUpdates env first n e).
Proof.
  apply all_acts_bind; [apply all_acts_act; intros; apply step_select|].
  intros [|[]|]; [done| | |done]; (apply all_acts_bind; [apply hub_program_lift|intros ?]); [done|].
  apply all_acts_bind; [apply all_acts_act; intros; apply step_finish|done].
Qed.
End steps.
