(* ===== verification/Handshake.v ===== *)
(** * Agent authentication ([internal/ws/handshake.go], [internal/crypto/crypto.go],
    [internal/handler/agent.go], the message loop of [internal/ws/conn.go])

    A websocket is opened with the node's token or, for a node with a registered
    key, with its id alone; the agent then registers its key ([key.init]) or
    proves that it holds the registered one ([key.auth]).  The primitives of the
    cryptography libraries are parameters. *)
From S2P Require Import Prelude GoLib Json Model Lock Cache Effects World Store Rely Handler Wp Scenario Heartbeat Reconcile Hub.
From stdpp Require Import sorting options.
Local Open Scope Z_scope.
Local Open Scope go_scope.

(** What the code uses of [crypto/ecdh], [crypto/hmac], [hkdf] and
    [chacha20poly1305]. *)
Class Crypto : Type := {
  PublicKey : Type;
  PrivateKey : Type;
  NewPublicKey : list ascii → result PublicKey;
  PublicKey_Bytes : PublicKey → list ascii;
  Private_Public : PrivateKey → PublicKey;
  GenerateKey : list ascii → result PrivateKey;
  ECDH : PrivateKey → PublicKey → result (list ascii);
  hmac_sha256 : list ascii → list ascii → list ascii;
  hkdf_sha256 : list ascii → list ascii → list ascii → result (list ascii);
  AEAD_Open : list ascii → list ascii → list ascii → result (list ascii)
}.

(** Decoding hexadecimal digits of either case ([encoding/hex]). *)
Definition hex_digit (c : ascii) : option Z :=
  let v := byte_val c in
  if (48 <=? v) && (v <=? 57) then Some (v - 48)
  else if (97 <=? v) && (v <=? 102) then Some (v - 87)
  else if (65 <=? v) && (v <=? 70) then Some (v - 55) else None.
Fixpoint DecodeHex (l : list ascii) : result (list ascii) :=
  match l with
  | [] => Ok []
  | [_] => Err "encoding/hex: odd length hex string"
  | a :: b :: l =>
      match hex_digit a, hex_digit b with
      | Some x, Some y => rest <-? DecodeHex l ;; Ok (ascii_of_N (Z.to_N (x * 16 + y)) :: rest)
      | _, _ => Err "encoding/hex: invalid byte"
      end
  end.

Section crypto.
Context `{Crypto}.

(** ** crypto.go *)
Definition PublicKeyFromHex (hexStr : string) : result PublicKey :=
  data <-? DecodeHex (bytes hexStr) ;; NewPublicKey data.
Definition PubKeyHex (pub : PublicKey) : string := EncodeToHex (PublicKey_Bytes pub).
Definition DeriveSharedSecret (priv : PrivateKey) (pub : PublicKey) : result (list ascii) := ECDH priv pub.
Definition DeriveEncKey (shared nonce : list ascii) : result (list ascii) :=
  hkdf_sha256 shared nonce (bytes "autopeer-encryption-key").
Definition ComputeAuthProof (shared nonce : list ascii) : list ascii :=
  hmac_sha256 shared (bytes "autopeer-key-auth" ++ nonce).
Definition VerifyAuthProof (shared nonce proof : list ascii) : bool :=
  bool_decide (ComputeAuthProof shared nonce = proof).
(** XChaCha20-Poly1305: nonces of 24 bytes, tags of 16. *)
Definition Decrypt (aead data : list ascii) : result (list ascii) :=
  if (length data <? 24 + 16)%nat then Err "ciphertext too short"
  else AEAD_Open aead (take 24 data) (drop 24 data).
End crypto.

(** ** Messages ([protocol.go]) *)
Record KeyAuthPayload : Type := MkKeyAuth {
  ka_NodeID : string;
  ka_Pubkey : string;
  ka_Nonce : list ascii;
  ka_Proof : list ascii
}.
(** A decoded message; the payload of a handshake message is absent when it
    does not decode into the struct. *)
Inductive WsMessage : Type :=
| MsgResponse
| MsgHeartbeat (payload : option HeartbeatPayload)
| MsgTrafficReport
| MsgPeersSync
| MsgAgentUpdating
| MsgKeyInit (pubkey : option string)
| MsgKeyAuth (payload : option KeyAuthPayload)
| MsgUnknown.

(** A frame as it arrives. *)
Record Frame : Type := MkFrame { fr_binary : bool; fr_data : list ascii }.

(** What the handshake writes to a connection: the registered key with a nonce,
    the ephemeral key with both nonces, or the demand for a reset. *)
Inductive Reply : Type :=
| KeyInitAck (pubkey : string) (nonce : list ascii)
| KeyInitReset
| KeyAuthAck (pubkey : string) (authNonce centerNonce : list ascii).

Section handshake.
Set Default Proof Using "Type*".
Context `{Crypto} (env : HubEnv) (center : option PrivateKey).

Definition close (i : nat) : prog St unit := act (λ s, (tt, on_hub (Close i) s)).
Definition enable_encryption (i : nat) (key : list ascii) : prog St unit :=
  act (λ s, (tt, on_hub (EnableEncryption i key) s)).

(** A write fails on a closed connection, or when the network says so. *)
Definition write_step (i : nat) (s : St) : bool * St :=
  match h_acs (st_hub s) !! i with
  | Some ac =>
      if ac_closed ac then (false, s)
      else let '((_, a), w) := draw_agent (st_world s) in
           (match a with Answered _ => true | NoAnswer _ => false end, MkSt (st_hub s) (publish (st_hub s) w))
  | None => (false, s)
  end.
Definition NewNonce : prog St (option (list ascii)) := lift rand_read.
Definition GenerateKeyPair : prog St (result PrivateKey) :=
  b ← lift rand_read; mret (match b with Some b => GenerateKey b | None => Err "generate key pair" end).
Definition notifyPubkeyReset (nodeID : string) : M unit :=
  forM (hub_adminEmails env) (λ email, sendMail email "agent_key_reset" [("node_id", JStr nodeID)]).

(** [handleKeyInit]: what was written to the connection. *)
Definition handleKeyInit (i : nat) (nodeID : string) (payload : option string) : prog St (list Reply) :=
  match payload with
  | None => close i ;; mret []
  | Some pubkey =>
    if pubkey =s "" then mret []
    else
      match center with
      | None => mret []
      | Some priv =>
        match PublicKeyFromHex pubkey with
        | Err _ => mret []
        | Ok agentPub =>
          match DeriveSharedSecret priv agentPub with
          | Err _ => mret []
          | Ok shared =>
            n ← NewNonce;
            match n with
            | None => mret []
            | Some authNonce =>
              match DeriveEncKey shared authNonce with
              | Err _ => mret []
              | Ok encKey =>
                ctx ← lift (with_timeout (5 * Second));
                r ← lift (Node_GetByID ctx nodeID);
                match r with
                | Err _ => mret []
                | Ok node =>
                  let existingPubkey := node_AgentPubkey node in
                  if (existingPubkey <>s "") && (existingPubkey <>s pubkey) then
                    lift (notifyPubkeyReset nodeID) ;;
                    ok ← act (write_step i);
                    close i ;;
                    mret (if ok : bool then [KeyInitReset] else [])
                  else
                    e ← (if existingPubkey =s ""
                         then ctx ← lift (with_timeout (5 * Second));
                              lift (Node_SetAgentPubkey ctx nodeID pubkey)
                         else mret None);
                    match e with
                    | Some _ => mret []
                    | None =>
                      ok ← act (write_step i);
                      if negb ok then mret []
                      else
                        enable_encryption i encKey ;;
                        act (Activate i) ;;
                        mret [KeyInitAck (PubKeyHex (Private_Public priv)) authNonce]
                    end
                end
              end
            end
          end
        end
      end
  end.

(** [handleKeyAuth]: every failure closes the connection. *)
Definition handleKeyAuth (i : nat) (nodeID : string) (payload : option KeyAuthPayload) : prog St (list Reply) :=
  let fail : prog St (list Reply) := close i ;; mret [] in
  match payload with
  | None => fail
  | Some p =>
    if (ka_NodeID p =s "") || (ka_Pubkey p =s "") || bool_decide (ka_Nonce p = []) || bool_decide (ka_Proof p = [])
    then fail
    else
      match center with
      | None => fail
      | Some priv =>
        ctx ← lift (with_timeout (5 * Second));
        r ← lift (Node_GetAgentPubkey ctx (ka_NodeID p));
        let storedPubkey := match r with Ok k => k | Err _ => "" end in
        if storedPubkey =s "" then fail
        else if ka_NodeID p <>s nodeID then fail
        else if storedPubkey <>s ka_Pubkey p then fail
        else
          match PublicKeyFromHex (ka_Pubkey p) with
          | Err _ => fail
          | Ok agentPub =>
            match DeriveSharedSecret priv agentPub with
            | Err _ => fail
            | Ok shared =>
              if negb (VerifyAuthProof shared (ka_Nonce p) (ka_Proof p)) then fail
              else
                g ← GenerateKeyPair;
                match g with
                | Err _ => fail
                | Ok ephemeral =>
                  match DeriveSharedSecret ephemeral agentPub with
                  | Err _ => fail
                  | Ok sessionShared =>
                    n ← NewNonce;
                    match n with
                    | None => fail
                    | Some centerNonce =>
                      match DeriveEncKey sessionShared (ka_Nonce p ++ centerNonce) with
                      | Err _ => fail
                      | Ok sessionKey =>
                        ok ← act (write_step i);
                        if negb ok then fail
                        else
                          enable_encryption i sessionKey ;;
                          act (Activate i) ;;
                          mret [KeyAuthAck (PubKeyHex (Private_Public ephemeral)) (ka_Nonce p) centerNonce]
                      end
                    end
                  end
                end
            end
          end
      end
  end.

(** ** The message loop ([ReadPump]) *)

(** [handlePeersSync]: only an authenticated agent is answered. *)
Definition handlePeersSync (i : nat) (nodeID : string) : prog St unit :=
  p ← gets (λ s, pending i (st_hub s));
  if p : bool then mret tt else lift (pushPeersSync nodeID).

(** Responses are delivered to the command that waits for them (see
    [World.SendCommand]); traffic reports go to another database. *)
Definition dispatch (i : nat) (nodeID : string) (m : WsMessage) : prog St unit :=
  match m with
  | MsgResponse | MsgTrafficReport | MsgUnknown => mret tt
  | MsgHeartbeat payload => lift (handleHeartbeat env nodeID payload)
  | MsgPeersSync => handlePeersSync i nodeID
  | MsgAgentUpdating => lift (handleAgentUpdating env nodeID)
  | MsgKeyInit payload => _ ← handleKeyInit i nodeID payload; mret tt
  | MsgKeyAuth payload => _ ← handleKeyAuth i nodeID payload; mret tt
  end.

Context (unmarshal : list ascii → option WsMessage).

(** One frame: on an encrypted connection, only what decrypts counts. *)
Definition session_key (i : nat) (h : Hub) : option (list ascii) :=
  match h_acs h !! i with Some ac => ac_aead ac | None => None end.
Definition opened (key : option (list ascii)) (f : Frame) : option (list ascii) :=
  match key with
  | Some k =>
      if negb (fr_binary f) then None
      else match Decrypt k (fr_data f) with Ok plain => Some plain | Err _ => None end
  | None => Some (fr_data f)
  end.
Definition message (key : option (list ascii)) (f : Frame) : option WsMessage :=
  match opened key f with Some data => unmarshal data | None => None end.
Definition receive (i : nat) (nodeID : string) (f : Frame) : prog St unit :=
  k ← gets (λ s, session_key i (st_hub s));
  match message k f with Some m => dispatch i nodeID m | None => mret tt end.
(** Until reading fails; then the connection is unregistered. *)
Definition ReadPump (i : nat) (nodeID : string) (frames : list Frame) : prog St unit :=
  forM frames (receive i nodeID) ;; act (Unregister env nodeID i).
End handshake.

(** ** Opening a websocket ([internal/handler/agent.go]) *)
Record RateState : Type := MkRate {
  keyAuthLast : gmap string Z;
  keyAuthIPLast : gmap string Z
}.
(** [checkKeyAuthRate]; [host] is the host of the remote address. *)
Definition too_soon (now : Z) (last : option Z) : bool :=
  match last with Some t => now - t <? 10 * Second | None => false end.
Definition fresh_since (cutoff : Z) (m : gmap string Z) : gmap string Z := filter (λ kt, cutoff < kt.2) m.
Definition checkKeyAuthRate (now : Z) (host nodeID : string) (rs : RateState) : bool * RateState :=
  let cutoff := now - Minute in
  if too_soon now (keyAuthIPLast rs !! host) then (false, rs)
  else
    let freshIP := fresh_since cutoff (<[host := now]> (keyAuthIPLast rs)) in
    let key := host +:+ "/" +:+ nodeID in
    let fresh := fresh_since cutoff (keyAuthLast rs) in
    let fresh := if 10000 <? Z.of_nat (size fresh) then ∅ else fresh in
    if too_soon now (fresh !! key) then (false, MkRate fresh freshIP)
    else (true, MkRate (<[key := now]> fresh) freshIP).

(** [HandleWebSocket] up to the upgrade: the node the connection is for, or the
    status of the refusal. *)
Definition StatusTooMany : Z := 429.
Definition StatusUnauth : Z := 401.
Definition truncate128 (s : string) : string := text (take 128 (bytes s)).
Definition authorize (ctx : Ctx) (host token header query : string) (rs : RateState) : M ((Z + string) * RateState) :=
  let nodeID := if header =s "" then query else header in
  if token <>s "" then
    r ← Node_GetByAgentToken ctx token;
    mret (match r with Ok node => inr (node_ID node) | Err _ => inl StatusUnauth end, rs)
  else if nodeID <>s "" then
    let nodeID := truncate128 nodeID in
    now ← now_;
    let '(ok, rs) := checkKeyAuthRate now host nodeID rs in
    if negb ok then mret (inl StatusTooMany, rs)
    else
      r ← Node_GetAgentPubkey ctx nodeID;
      mret (match r with
            | Ok k => if k =s "" then inl StatusUnauth else inr nodeID
            | Err _ => inl StatusUnauth
            end, rs)
  else mret (inl StatusUnauth, rs).
(** The connection's whole life; [upgrades]: the upgrade succeeds. *)
Definition HandleWebSocket `{Crypto} (env : HubEnv) (center : option PrivateKey) (unmarshal : list ascii → option WsMessage)
    (ctx : Ctx) (host token header query : string) (upgrades : bool) (frames : list Frame) (rs : RateState)
    : prog St (option Z * RateState) :=
  '(a, rs) ← lift (authorize ctx host token header query rs);
  match a with
  | inl status => mret (Some status, rs)
  | inr nodeID =>
      if negb upgrades then mret (None, rs)
      else
        i ← act (Register nodeID);
        ReadPump env center unmarshal i nodeID frames ;;
        mret (None, rs)
  end.

(** ** The rate limit *)
Fixpoint attempts (rs : RateState) (l : list (Z * string * string)) : list bool * RateState :=
  match l with
  | [] => ([], rs)
  | (now, host, nodeID) :: l =>
      let '(b, rs1) := checkKeyAuthRate now host nodeID rs in
      let '(bs, rs2) := attempts rs1 l in (b :: bs, rs2)
  end.

(** An attempt of [host] accepted at [t] is remembered, or a minute ago. *)
Definition remembers (rs : RateState) (now : Z) (host : string) (t : Z) : Prop :=
  t + Minute ≤ now ∨ ∃ t', keyAuthIPLast rs !! host = Some t' ∧ t ≤ t' ≤ now.

Lemma fresh_lookup cutoff (m : gmap string Z) k t : m !! k = Some t → cutoff < t → fresh_since cutoff m !! k = Some t.
Proof. intros Hk Ht. unfold fresh_since. by apply map_lookup_filter_Some. Qed.

Lemma rate_accepts now host nodeID rs :
  (checkKeyAuthRate now host nodeID rs).1 = true →
  too_soon now (keyAuthIPLast rs !! host) = false ∧ remembers (checkKeyAuthRate now host nodeID rs).2 now host now.
Proof.
  unfold checkKeyAuthRate. destruct (too_soon now (keyAuthIPLast rs !! host)); [done|]. intros H. split; [done|].
  right. exists now. split; [|lia].
  assert (fresh_since (now - Minute) (<[host:=now]> (keyAuthIPLast rs)) !! host = Some now) as E.
  { apply fresh_lookup; [apply lookup_insert_eq|unfold Minute, Second; lia]. }
  revert H. cbv zeta. destruct (too_soon now _); [done|]. by intros _.
Qed.

Lemma rate_remembers now now' host h nodeID t rs :
  now ≤ now' → remembers rs now host t → remembers (checkKeyAuthRate now' h nodeID rs).2 now' host t.
Proof.
  intros Hn [Ht|(t' & Ht' & Hle)]; [left; lia|]. destruct (decide (t + Minute ≤ now')) as [|Hd]; [by left|right].
  assert (∃ t'', (<[h:=now']> (keyAuthIPLast rs)) !! host = Some t'' ∧ t ≤ t'' ≤ now') as (t'' & E & Hle').
  { destruct (decide (h = host)) as [->|Hh]; [exists now'; rewrite lookup_insert_eq|exists t'; rewrite lookup_insert_ne by done];
      (split; [done|lia]). }
  pose proof (fresh_lookup (now' - Minute) _ _ _ E ltac:(lia)) as Hf.
  unfold checkKeyAuthRate. destruct (too_soon now' (keyAuthIPLast rs !! h)); [exists t'; split; [done|lia]|].
  cbv zeta. destruct (too_soon now' _); exists t''; by split.
Qed.

Lemma attempts_apart host t : ∀ l rs now j tj nodej,
  remembers rs now host t → Sorted Z.le (now :: (fst ∘ fst <$> l)) →
  l !! j = Some (tj, host, nodej) → (attempts rs l).1 !! j = Some true → t + 10 * Second ≤ tj.
Proof.
  induction l as [|[[n h] nd] l IH]; intros rs now j tj nodej Hr Hs Hj Hb; [done|].
  apply Sorted_inv in Hs as [Hs Hn%HdRel_inv]. cbn in Hn. cbn [attempts] in Hb.
  pose proof (rate_remembers now n host h nd t rs Hn Hr) as Hr'.
  destruct (checkKeyAuthRate n h nd rs) as [b rs1] eqn:Hc. destruct (attempts rs1 l) as [bs rs2] eqn:Ha.
  destruct j as [|j]; cbn in Hj, Hb.
  - injection Hj as <- -> ->. injection Hb as ->. pose proof (rate_accepts n host nodej rs) as Hacc. rewrite Hc in Hacc.
    destruct (Hacc eq_refl) as [Hts _]. destruct Hr as [Ht|(t' & Ht' & Hle)]; [unfold Minute, Second in *; lia|].
    rewrite Ht' in Hts. cbn in Hts. apply Z.ltb_ge in Hts. lia.
  - eapply (IH rs1 n j); [exact Hr'|done|done|by rewrite Ha].
Qed.

Lemma rate_bounded now host nodeID rs :
  Z.of_nat (size (keyAuthLast rs)) ≤ 10001 → Z.of_nat (size (keyAuthLast (checkKeyAuthRate now host nodeID rs).2)) ≤ 10001.
Proof.
  intros Hs. unfold checkKeyAuthRate. destruct (too_soon now _); [done|]. cbv zeta.
  set (fresh := if 10000 <? Z.of_nat (size (fresh_since (now - Minute) (keyAuthLast rs))) then ∅ else _).
  assert (Z.of_nat (size fresh) ≤ 10000) as Hf by (unfold fresh; case_match eqn:E; [rewrite map_size_empty; lia|by apply Z.ltb_ge in E]).
  destruct (too_soon now (fresh !! _)); cbn; [lia|]. rewrite map_size_insert. clearbody fresh. destruct (fresh !! _); unfold id; lia.
Qed.

(** C28: Two accepted key-auth connection attempts of one host are at least ten
    seconds apart, whatever attempts of any host and node come in between, and
    the table of attempts never exceeds 10001 entries. *)
Theorem key_auth_rate (l : list (Z * string * string)) (i j : nat) (ti tj : Z) (host nodei nodej : string)
  (Hsorted : Sorted Z.le (fst ∘ fst <$> l)) (Hij : (i < j)%nat)
  (Hi : l !! i = Some (ti, host, nodei)) (Hj : l !! j = Some (tj, host, nodej))
  (Hai : (attempts (MkRate ∅ ∅) l).1 !! i = Some true) (Haj : (attempts (MkRate ∅ ∅) l).1 !! j = Some true) :
  ti + 10 * Second ≤ tj ∧ Z.of_nat (size (keyAuthLast (attempts (MkRate ∅ ∅) l).2)) ≤ 10001.
Proof.
  split.
  - revert Hai Haj. generalize (MkRate ∅ ∅). revert i j Hsorted Hij Hi Hj.
    induction l as [|[[n h] nd] l IH]; intros i j Hs Hij Hi Hj rs Hai Haj; [done|].
    cbn [attempts] in Hai, Haj. destruct (checkKeyAuthRate n h nd rs) as [b rs1] eqn:Hc.
    destruct (attempts rs1 l) as [bs rs2] eqn:Ha. destruct j as [|j]; [lia|]. cbn in Hj, Haj, Hs.
    destruct i as [|i]; cbn in Hi, Hai.
    + injection Hi as -> -> ->. injection Hai as ->. pose proof (rate_accepts ti host nodei rs) as Hacc. rewrite Hc in Hacc.
      destruct (Hacc eq_refl) as [_ Hr]. eapply (attempts_apart host ti l rs1 ti j); [exact Hr|done|done|by rewrite Ha].
    + apply Sorted_inv in Hs as [Hs _]. eapply (IH i j Hs ltac:(lia) Hi Hj rs1); by rewrite Ha.
  - clear. assert (Z.of_nat (size (keyAuthLast (MkRate ∅ ∅))) ≤ 10001) as H0 by (cbn; rewrite map_size_empty; lia).
    revert H0. generalize (MkRate ∅ ∅). induction l as [|[[n h] nd] l IH]; intros rs Hrs; [done|]. cbn [attempts].
    pose proof (rate_bounded n h nd rs Hrs) as H1. destruct (checkKeyAuthRate n h nd rs) as [b rs1].
    specialize (IH rs1 H1). by destruct (attempts rs1 l).
Qed.

(** ** Running a handshake alone *)
Section lifting.

Lemma wp_lift_bind {A B} (p : M A) (g : A → M B) Q s :
  wp (lift p) (λ a, wp (lift (g a)) Q) s → wp (lift (p ≫= g)) Q s.
Proof.
  revert s. induction p as [a|R f k IH]; intros s; [done|]. unfold wp in *. cbn.
  destruct (f (st_world s)) as [r w]. apply IH.
Qed.
Lemma wp_lift_act {R} (f : World → R * World) Q s :
  Q (f (st_world s)).1 (MkSt (st_hub s) (publish (st_hub s) (f (st_world s)).2)) → wp (lift (act f)) Q s.
Proof. unfold wp. cbn. by destruct (f (st_world s)). Qed.

(** Nothing the handshake is about has changed. *)
Definition kept (s s' : St) : Prop := st_hub s' = st_hub s ∧ w_db (st_world s') = w_db (st_world s).
#[export] Instance kept_preorder : PreOrder kept.
Proof. split; [done|]. intros s1 s2 s3 [A B] [C D]. split; congruence. Qed.

Lemma wp_lift_same {R} (f : World → R * World) Q s :
  (∀ w, w_db (f w).2 = w_db w) → (∀ r s', kept s s' → Q r s') → wp (lift (act f)) Q s.
Proof. intros Hf HQ. apply wp_lift_act, HQ. split; [done|]. apply Hf. Qed.
Lemma wp_lift_query {R} ctx (f : World → result R) Q s :
  (∀ w s', w_db w = w_db (st_world s) → kept s s' → Q (f w) s') → (∀ e s', kept s s' → Q (Err e) s') →
  wp (lift (query ctx f)) Q s.
Proof.
  intros Ho He. apply wp_lift_act. unfold stmt_step. destruct (expired _ _); [by apply He|].
  pose proof (calm_draws (st_world s)) as (Hd%calm_db & _). destruct (draw_db _) as [[e|] w']; [by apply He|]. by apply Ho.
Qed.
Lemma wp_lift_timeout d Q s : (∀ ctx s', kept s s' → Q ctx s') → wp (lift (with_timeout d)) Q s.
Proof. intros HQ. apply wp_lift_bind, wp_lift_same; [done|]. intros now s1 H1. by apply wp_ret, HQ. Qed.
Lemma wp_rand Q s : (∀ r s', kept s s' → Q r s') → wp (lift rand_read) Q s.
Proof. intros HQ. apply wp_lift_same; [|done]. intros w. apply (calm_db _ _ (proj2 (proj2 (calm_draws w)))). Qed.
Lemma wp_write_step i Q s : (∀ b s', kept s s' → Q b s') → wp (act (write_step i)) Q s.
Proof.
  intros HQ. apply wp_act. unfold write_step. destruct (h_acs _ !! i) as [ac|]; [|by apply HQ].
  destruct (ac_closed ac); [by apply HQ|]. unfold draw_agent. destruct (e_agent _) as [|[d a] l]; by apply HQ.
Qed.
End lifting.

Section outcome.
Set Default Proof Using "Type*".
Context `{Crypto} (env : HubEnv) (center : option PrivateKey).

(** The key pinned for a node. *)
Definition pinned (d : DB) (nodeID : string) : option string := node_AgentPubkey <$> (db_nodes d !! nodeID).

(** The proof of [key.auth]: made with the secret shared with the pinned key. *)
Definition proves (d : DB) (nodeID : string) (p : KeyAuthPayload) (priv : PrivateKey) (agentPub : PublicKey) : Prop :=
  center = Some priv ∧ ka_NodeID p = nodeID ∧ ka_Pubkey p ≠ ""
  ∧ (∃ node, db_nodes d !! nodeID = Some node ∧ node_Enabled node = true ∧ node_AgentPubkey node = ka_Pubkey p)
  ∧ PublicKeyFromHex (ka_Pubkey p) = Ok agentPub
  ∧ ∃ shared, ECDH priv agentPub = Ok shared
      ∧ ka_Proof p = hmac_sha256 shared (bytes "autopeer-key-auth" ++ ka_Nonce p).

(** C24: [key.auth] authenticates only on a proof made with the secret shared
    with the key pinned for the connection's own, enabled node; the session key
    comes from a fresh key pair and both nonces.  In every other case nothing
    is written and the connection is closed.  The rows never change. *)
Theorem key_auth_outcome (i : nat) (nodeID : string) (payload : option KeyAuthPayload) (s s' : St)
    (replies : list Reply) (Hrun : exec (handleKeyAuth center i nodeID payload) s = (replies, s')) :
  w_db (st_world s') = w_db (st_world s)
  ∧ ((replies = [] ∧ st_hub s' = Close i (st_hub s))
     ∨ ∃ p priv agentPub ephemeral centerNonce secret key,
         payload = Some p ∧ proves (w_db (st_world s)) nodeID p priv agentPub
         ∧ ECDH ephemeral agentPub = Ok secret ∧ DeriveEncKey secret (ka_Nonce p ++ centerNonce) = Ok key
         ∧ replies = [KeyAuthAck (PubKeyHex (Private_Public ephemeral)) (ka_Nonce p) centerNonce]
         ∧ st_hub s' = activate i (EnableEncryption i key (st_hub s))).
Proof.
  refine (wp_exec _ (λ r s', w_db (st_world s') = w_db (st_world s) ∧ (_ ∨ _)) _ _ _ Hrun _). clear Hrun replies s'.
  set (Q := λ r s', _).
  assert (∀ s1, kept s s1 → wp (close i ;; mret []) Q s1) as Hfail.
  { intros s1 [Hh Hd]. apply wp_bind, wp_act, wp_ret. split; [done|]. left. cbn. by rewrite Hh. }
  unfold handleKeyAuth. cbv zeta. destruct payload as [p|]; [|by apply Hfail].
  destruct (_ || _ || _ || _) eqn:Hreq; [by apply Hfail|].
  destruct center as [priv|] eqn:Hcenter; [|by apply Hfail].
  apply wp_bind, wp_lift_timeout. intros ctx s1 H1. apply wp_bind.
  apply wp_lift_query.
  2:{ intros e s2 H2. cbv beta iota. rewrite bool_decide_eq_true_2 by done. apply Hfail. by etransitivity. }
  intros w s2 Hw H2. assert (kept s s2) as H02 by by etransitivity. clear H2.
  unfold w_nodes. rewrite Hw, (proj2 H1). clear H1 Hw w s1.
  destruct (db_nodes (w_db (st_world s)) !! ka_NodeID p) as [node|] eqn:Hnode;
    [|rewrite bool_decide_eq_true_2 by done; cbv iota; by apply Hfail].
  destruct (node_Enabled node) eqn:Hen; [|rewrite bool_decide_eq_true_2 by done; cbv iota; by apply Hfail].
  clear Hreq. destruct (node_AgentPubkey node =s "") eqn:Hk0; [by apply Hfail|].
  destruct (ka_NodeID p <>s nodeID) eqn:Hn; [by apply Hfail|].
  destruct (node_AgentPubkey node <>s ka_Pubkey p) eqn:Hk; [by apply Hfail|]. boolify.
  destruct (PublicKeyFromHex (ka_Pubkey p)) as [agentPub|] eqn:Hpub; [|by apply Hfail].
  unfold DeriveSharedSecret. destruct (ECDH priv agentPub) as [shared|] eqn:Hsh; [|by apply Hfail].
  unfold VerifyAuthProof. case_bool_decide as Hproof; cbn [negb]; [|by apply Hfail].
  apply wp_bind, wp_bind, wp_rand. intros r s3 H3. apply wp_ret. assert (kept s s3) as H03 by by etransitivity.
  destruct (match r with Some b => GenerateKey b | None => _ end) as [ephemeral|]; [|by apply Hfail].
  destruct (ECDH ephemeral agentPub) as [secret|] eqn:Hsec; [|by apply Hfail].
  apply wp_bind, wp_rand. intros n s4 H4. assert (kept s s4) as H04 by by etransitivity.
  destruct n as [centerNonce|]; [|by apply Hfail].
  destruct (DeriveEncKey secret (ka_Nonce p ++ centerNonce)) as [key|] eqn:Hkey; [|by apply Hfail].
  apply wp_bind, wp_write_step. intros ok s5 H5. assert (kept s s5) as H05 by by etransitivity.
  destruct ok; cbn [negb]; [|by apply Hfail].
  apply wp_bind, wp_act, wp_bind, wp_act, wp_ret. split; [apply H05|]. right.
  exists p, priv, agentPub, ephemeral, centerNonce, secret, key. split; [done|]. split.
  - split; [done|]. split; [done|]. split; [congruence|]. split; [exists node; subst nodeID; done|].
    split; [done|]. exists shared. split; [done|]. by rewrite <-Hproof.
  - split; [done|]. split; [done|]. split; [done|]. cbn. by rewrite (proj1 H05).
Qed.

(** *** Running with a database that answers *)

(** The rows, the clock and the network's answers are as before. *)
Definition unmoved (w w' : World) : Prop :=
  w_db w' = w_db w ∧ w_now w' = w_now w ∧ e_agent (w_ext w') = e_agent (w_ext w) ∧ (answering w → answering w').
Definition steady (s s' : St) : Prop := st_hub s' = st_hub s ∧ unmoved (st_world s) (st_world s').
#[export] Instance steady_preorder : PreOrder steady.
Proof. split; [done|]. unfold steady, unmoved. intros s1 s2 s3 ? ?. naive_solver congruence. Qed.

Lemma wp_lift_steady {R} (f : World → R * World) Q s :
  (∀ w, unmoved w (f w).2) → (∀ s', steady s s' → Q (f (st_world s)).1 s') → wp (lift (act f)) Q s.
Proof. intros Hf HQ. apply wp_lift_act, HQ. split; [done|]. apply (Hf (st_world s)). Qed.
Lemma wp_steady_timeout d Q s :
  (∀ s', steady s s' → Q (Some (w_now (st_world s) + d)) s') → wp (lift (with_timeout d)) Q s.
Proof. intros HQ. apply wp_lift_bind, wp_lift_steady; [done|]. intros s' Hs. by apply wp_ret, HQ. Qed.
Lemma wp_steady_rand Q s nonce rnd :
  e_rnd (w_ext (st_world s)) = Some nonce :: rnd → (∀ s', steady s s' → Q (Some nonce) s') → wp (lift rand_read) Q s.
Proof.
  intros Hr HQ. apply wp_lift_act. unfold draw_rnd. rewrite Hr. by apply HQ.
Qed.
Lemma draw_db_answers w : answering w → ∃ w', draw_db w = (None, w') ∧ unmoved w w'.
Proof.
  unfold answering, draw_db. destruct (e_db (w_ext w)) as [|o l] eqn:E; intros Ha.
  - exists w. by split.
  - apply Forall_cons in Ha as [-> Ha]. by eexists.
Qed.
Lemma wp_steady_query {R} ctx (f : World → result R) Q s :
  answering (st_world s) → expired ctx (w_now (st_world s)) = false →
  (∀ w s', w_db w = w_db (st_world s) → steady s s' → Q (f w) s') → wp (lift (query ctx f)) Q s.
Proof.
  intros Ha He HQ. apply wp_lift_act. unfold stmt_step. rewrite He.
  destruct (draw_db_answers _ Ha) as (w' & -> & Hw). apply HQ; [apply Hw|by split].
Qed.
Lemma wp_steady_mails t vars l Q s :
  (∀ s', steady s s' → Q tt s') → wp (lift (forM l (λ email, sendMail email t vars))) Q s.
Proof.
  revert s. induction l as [|x l IH]; intros s HQ; [by apply wp_ret, HQ|]. cbn [forM].
  apply wp_lift_bind, wp_lift_steady; [done|]. intros s1 H1. apply IH. intros s2 H2. apply HQ. by etransitivity.
Qed.

(** Whether a message can be written to a connection. *)
Definition writable (i : nat) (s : St) : bool :=
  match h_acs (st_hub s) !! i with
  | Some ac => negb (ac_closed ac)
               && match e_agent (w_ext (st_world s)) with (_, Answered _) :: _ => true | _ => false end
  | None => false
  end.
Lemma writable_steady i s s' : steady s s' → writable i s' = writable i s.
Proof. unfold writable. by intros [-> (_ & _ & -> & _)]. Qed.
Lemma wp_steady_write i Q s : (∀ s', kept s s' → Q (writable i s) s') → wp (act (write_step i)) Q s.
Proof.
  intros HQ. apply wp_act. revert HQ. unfold write_step, writable. destruct (h_acs _ !! i) as [ac|]; [|intros HQ; by apply HQ].
  destruct (ac_closed ac); [intros HQ; by apply HQ|]. unfold draw_agent.
  destruct (e_agent _) as [|[d [e|m]] l]; intros HQ; by apply HQ.
Qed.

(** The rows after [SetAgentPubkey]. *)
Definition pin (nodeID pubkey : string) (d : DB) : DB :=
  MkDB (db_peers d)
    (alter (λ n, if node_AgentPubkey n =s ""
                 then set_agent pubkey (node_Online n) (node_AgentVersion n) (node_AgentState n) (node_AgentStateChangedAt n) n
                 else n) nodeID (db_nodes d))
    (db_metrics d) (db_node_metrics d) (db_site d) (db_notif d) (db_bindings d).
Lemma pin_other n pk old d : pinned d n = Some old → old ≠ "" → pin n pk d = d.
Proof.
  unfold pinned, pin. intros Hp Ho. destruct d as [ps ns ms nms si no bi]. cbn in *. f_equal. apply alter_id.
  intros nd Hn. rewrite Hn in Hp. injection Hp as <-. by rewrite bool_decide_eq_false_2.
Qed.
Lemma wp_SetAgentPubkey ctx n pk Q s :
  answering (st_world s) → expired ctx (w_now (st_world s)) = false →
  (∀ s', st_hub s' = st_hub s → e_agent (w_ext (st_world s')) = e_agent (w_ext (st_world s)) →
     w_db (st_world s') = pin n pk (w_db (st_world s)) → Q None s') →
  wp (lift (Node_SetAgentPubkey ctx n pk)) Q s.
Proof.
  intros Ha He HQ. apply wp_lift_act. unfold stmt_step. rewrite He.
  destruct (draw_db_answers _ Ha) as (w' & -> & Hd & _ & Hag & _). apply HQ; [done|exact Hag|].
  cbn in *. unfold w_peers, w_nodes. by rewrite Hd.
Qed.

(** The session [key.init] asks for: the center's private key, and the key
    derived from the shared secret and a nonce. *)
Definition init_session (pk : string) (nonce : list ascii) : option (PrivateKey * list ascii) :=
  if pk =s "" then None
  else match center, PublicKeyFromHex pk with
       | Some priv, Ok agentPub =>
           match ECDH priv agentPub with
           | Ok secret => match DeriveEncKey secret nonce with Ok key => Some (priv, key) | Err _ => None end
           | Err _ => None
           end
       | _, _ => None
       end.

(** What the handler did: the replies it wrote, the rows and the hub after it. *)
Definition did (s' : St) (replies r : list Reply) (d : DB) (h : Hub) : Prop :=
  replies = r ∧ w_db (st_world s') = d ∧ st_hub s' = h.

(** The part after the node has been read. *)
Lemma key_init_pinned i nodeID pk priv key nonce old s :
  answering (st_world s) → pinned (w_db (st_world s)) nodeID = Some old →
  let d := w_db (st_world s) in let h := st_hub s in
  wp (if (old <>s "") && (old <>s pk) then
        lift (notifyPubkeyReset env nodeID) ;;
        ok ← act (write_step i);
        close i ;;
        mret (if ok : bool then [KeyInitReset] else [])
      else
        e ← (if old =s "" then ctx ← lift (with_timeout (5 * Second)); lift (Node_SetAgentPubkey ctx nodeID pk)
             else mret None);
        match e with
        | Some _ => mret []
        | None =>
            ok ← act (write_step i);
            if negb ok then mret []
            else enable_encryption i key ;; act (Activate i) ;;
                 mret [KeyInitAck (PubKeyHex (Private_Public priv)) nonce]
        end)
     (λ replies s',
       (old ≠ "" → old ≠ pk → did s' replies (if writable i s then [KeyInitReset] else []) d (Close i h))
       ∧ (old = "" ∨ old = pk →
          if writable i s
          then did s' replies [KeyInitAck (PubKeyHex (Private_Public priv)) nonce] (pin nodeID pk d)
                 (activate i (EnableEncryption i key h))
          else did s' replies [] (pin nodeID pk d) h)) s.
Proof.
  intros Ha Hp d h. destruct (_ && _) eqn:Hdiff.
  - boolify. apply wp_bind, wp_steady_mails. intros s1 Hm. apply wp_bind, wp_steady_write. intros s2 [Hh2 Hd2].
    rewrite (writable_steady _ _ _ Hm). destruct Hm as [Hh1 (Hd1 & _)].
    apply wp_bind, wp_act, wp_ret. split; [|naive_solver]. intros _ _. split; [done|].
    split; [cbn; unfold d; congruence|]. cbn. unfold h. congruence.
  - assert (old = "" ∨ old = pk) as Hold.
    { destruct (decide (old = "")) as [|Ho1]; [by left|]. destruct (decide (old = pk)) as [|Ho2]; [by right|].
      by rewrite !bool_decide_eq_false_2 in Hdiff. }
    assert (∀ s1, st_hub s1 = h → w_db (st_world s1) = pin nodeID pk d → writable i s1 = writable i s →
      wp (ok ← act (write_step i);
          if negb ok then mret []
          else enable_encryption i key ;; act (Activate i) ;; mret [KeyInitAck (PubKeyHex (Private_Public priv)) nonce])
        (λ replies s', if writable i s
          then did s' replies [KeyInitAck (PubKeyHex (Private_Public priv)) nonce] (pin nodeID pk d)
                 (activate i (EnableEncryption i key h))
          else did s' replies [] (pin nodeID pk d) h) s1) as Hgo.
    { intros s1 Hh1 Hd1 Hw. apply wp_bind, wp_steady_write. intros s2 [Hh2 Hd2]. rewrite Hw.
      destruct (writable i s); cbn [negb].
      - apply wp_bind, wp_act, wp_bind, wp_act, wp_ret. split; [done|]. split; [cbn; congruence|]. cbn. congruence.
      - apply wp_ret. split; [done|]. split; congruence. }
    apply (wp_mono _ (λ replies s', if writable i s
          then did s' replies [KeyInitAck (PubKeyHex (Private_Public priv)) nonce] (pin nodeID pk d)
                 (activate i (EnableEncryption i key h))
          else did s' replies [] (pin nodeID pk d) h)).
    { intros replies s' H'. split; [|done]. intros Ho1 Ho2. destruct Hold; congruence. }
    case_bool_decide as He.
    + apply wp_bind, wp_bind, wp_steady_timeout. intros s1 H1. pose proof H1 as [Hh1 (Hd1 & Hn1 & Hag1 & Ha1)].
      apply wp_SetAgentPubkey; [by apply Ha1|rewrite Hn1; apply Z.leb_gt; unfold Second; lia|].
      intros s2 Hh2 Hag2 Hd2. apply Hgo; [unfold h; congruence|unfold d; congruence|].
      unfold writable. by rewrite Hh2, Hh1, Hag2, Hag1.
    + apply wp_bind, wp_ret. apply Hgo; [done| |done]. symmetry. by eapply pin_other.
Qed.

(** C27: What [key.init] does when the database answers and randomness is
    available.  A payload that does not decode closes the connection.  A key
    that is empty or unusable (or a center without a key), and an unknown node,
    change nothing and are not answered.  A key other than the pinned one is
    answered with the demand for a reset (if the connection takes it), the
    connection is closed, and the pinned key stays.  Otherwise the key is
    pinned - it was, or the node had none - and, if the answer can be written,
    the connection is encrypted with the key derived for this nonce and becomes
    the node's; if it cannot, the key stays pinned and the connection as it
    was.  The message carries no proof that its sender holds the key. *)
Theorem key_init_outcome (i : nat) (nodeID : string) (payload : option string) (s s' : St) (replies : list Reply)
    (nonce : list ascii) (rnd : list (option (list ascii)))
    (Ha : answering (st_world s)) (Hrnd : e_rnd (w_ext (st_world s)) = Some nonce :: rnd)
    (Hrun : exec (handleKeyInit env center i nodeID payload) s = (replies, s')) :
  let d := w_db (st_world s) in let h := st_hub s in
  match payload with
  | None => did s' replies [] d (Close i h)
  | Some pk =>
      match init_session pk nonce, pinned d nodeID with
      | Some (priv, key), Some old =>
          (old ≠ "" → old ≠ pk → did s' replies (if writable i s then [KeyInitReset] else []) d (Close i h))
          ∧ (old = "" ∨ old = pk →
             if writable i s
             then did s' replies [KeyInitAck (PubKeyHex (Private_Public priv)) nonce] (pin nodeID pk d)
                    (activate i (EnableEncryption i key h))
             else did s' replies [] (pin nodeID pk d) h)
      | _, _ => did s' replies [] d h
      end
  end.
Proof.
  intros d h. revert Hrun. unfold handleKeyInit. destruct payload as [pk|].
  2:{ cbn. by intros [= <- <-]. }
  unfold init_session. destruct (pk =s ""); [cbn; by intros [= <- <-]|].
  destruct center as [priv|]; [|cbn; by intros [= <- <-]].
  destruct (PublicKeyFromHex pk) as [agentPub|]; [|cbn; by intros [= <- <-]].
  unfold DeriveSharedSecret. destruct (ECDH priv agentPub) as [secret|]; [|cbn; by intros [= <- <-]].
  intros Hrun. refine (wp_exec _ (λ replies s', _) _ _ _ Hrun _). clear Hrun.
  apply wp_bind. eapply wp_steady_rand; [exact Hrnd|]. intros s1 H1.
  destruct (DeriveEncKey secret nonce) as [key|]; [|apply wp_ret; split; [done|]; split; apply H1].
  apply wp_bind, wp_steady_timeout. intros s2 H2. assert (steady s s2) as H02 by by etransitivity.
  pose proof H02 as [_ (_ & Hn2 & _ & Ha2)].
  apply wp_bind, wp_steady_query; [by apply Ha2| |].
  { destruct H1 as [_ (_ & -> & _)]. rewrite Hn2. apply Z.leb_gt. unfold Second. lia. }
  intros w s3 Hw H3. assert (steady s s3) as H03 by by etransitivity. clear H1 H2 H3.
  pose proof H03 as [Hh3 (Hd3 & _ & _ & Ha3)]. unfold w_nodes. rewrite Hw, (proj1 (proj2 H02)).
  unfold pinned at 1. fold d. destruct (db_nodes d !! nodeID) as [node|] eqn:Hnode; cbn [fmap option_fmap option_map].
  2:{ apply wp_ret. split; [done|]. by split. }
  eapply wp_mono; [|apply (key_init_pinned i nodeID pk priv key nonce (node_AgentPubkey node));
    [by apply Ha3|unfold pinned; rewrite Hd3; fold d; by rewrite Hnode]].
  cbv beta zeta. rewrite (writable_steady i s s3 H03), Hd3, Hh3. by intros r s4 H4.
Qed.
End outcome.

(** ** Concrete handshakes *)

(** A cryptography in which everything can be computed. *)
#[local] Instance toy_crypto : Crypto := {|
  PublicKey := list ascii; PrivateKey := list ascii;
  NewPublicKey := Ok; PublicKey_Bytes := id; Private_Public := id; GenerateKey := Ok;
  ECDH := λ priv pub, Ok (priv ++ pub);
  hmac_sha256 := λ k m, k ++ m;
  hkdf_sha256 := λ s n i, Ok (s ++ n ++ i);
  AEAD_Open := λ k n c, Ok c
|}.
Definition toy_center : option PrivateKey := Some (bytes "center").

(** node-1 with a pinned key or none, and randomness for three nonces. *)
Definition keyed_world (pubkey : string) (agent : list (Z * Answer)) : World :=
  let w := sample "active" [] [] in
  let n := node1 in
  set_ext (MkExt [] [] (replicate 3 (Some (bytes "nonce"))) agent [])
    (set_nodes {["node-1" := set_agent pubkey (node_Online n) (node_AgentVersion n) (node_AgentState n) 0 n]} w).
Definition opened_hub : prog St unit := _ ← act (Register "node-1"); _ ← act (Register "node-1"); mret tt.

Definition two_pending (pubkey : string) (agent : list (Z * Answer)) : St :=
  (exec opened_hub (MkSt empty_hub (publish empty_hub (keyed_world pubkey agent)))).2.

(** A correct proof for the key aabb. *)
Definition good_proof : KeyAuthPayload :=
  MkKeyAuth "node-1" "aabb" (bytes "n")
    (bytes "center" ++ match DecodeHex (bytes "aabb") with Ok k => k | Err _ => [] end
     ++ bytes "autopeer-key-auth" ++ bytes "n").

Lemma key_auth_outcome_witness :
  let r := exec (handleKeyAuth toy_center 1 "node-1" (Some good_proof)) (two_pending "aabb" [accepts]) in
  pending 1 (st_hub r.2) = false ∧ w_db (st_world r.2) = w_db (st_world (two_pending "aabb" [accepts])).
Proof.
  intros r. split; [vm_compute; reflexivity|].
  exact (proj1 (key_auth_outcome toy_center 1 "node-1" (Some good_proof) (two_pending "aabb" [accepts]) r.2 r.1
    (surjective_pairing r))).
Defined.

Lemma key_init_outcome_witness :
  let r := exec (handleKeyInit sample_hub toy_center 1 "node-1" (Some "ccdd")) (two_pending "aabb" [accepts]) in
  writable 1 (two_pending "aabb" [accepts]) = true
  ∧ did r.2 r.1 [KeyInitReset] (w_db (st_world (two_pending "aabb" [accepts]))) (Close 1 (st_hub (two_pending "aabb" [accepts]))).
Proof.
  intros r. split; [vm_compute; reflexivity|].
  pose proof (key_init_outcome sample_hub toy_center 1 "node-1" (Some "ccdd") (two_pending "aabb" [accepts]) r.2 r.1
    (bytes "nonce") (replicate 2 (Some (bytes "nonce"))) (Forall_nil_2 _) eq_refl (surjective_pairing r)) as H.
  cbv zeta iota beta in H. destruct (init_session toy_center _ _) as [[priv key]|] eqn:Hi; [|exfalso; revert Hi; vm_compute; discriminate].
  destruct (pinned _ _) as [old|] eqn:Hp; [|exfalso; revert Hp; vm_compute; discriminate].
  vm_compute in Hp. injection Hp as <-. apply H; discriminate.
Defined.

(** Two agents of a node without a key register theirs. *)
Definition first_keys : St * list (prog St (list Reply)) :=
  (two_pending "" [accepts; accepts],
   [handleKeyInit sample_hub toy_center 0 "node-1" (Some "aabb"); handleKeyInit sample_hub toy_center 1 "node-1" (Some "ccdd")]).

(** C36: Registering the first key is a check and a write in two statements, and
    the write, which stores nothing when a key is pinned meanwhile, is not looked
    at: of two agents that register at the same time both may be acknowledged
    although only one key is pinned, and the one whose key is not pinned may end
    up as the node's authenticated connection. *)
Theorem key_init_race :
  ∃ c priv, pool_steps first_keys c
    ∧ toy_center = Some priv
    ∧ c.2 = [mret [KeyInitAck (PubKeyHex (Private_Public priv)) (bytes "nonce")];
             mret [KeyInitAck (PubKeyHex (Private_Public priv)) (bytes "nonce")]]
    ∧ pinned (w_db (st_world c.1)) "node-1" = Some "aabb"
    ∧ GetConn "node-1" (st_hub c.1) = Some 1%nat ∧ IsOnline "node-1" (st_hub c.1) = true.
Proof.
  exists (schedule ([1; 1; 1; 1] ++ replicate 20 0 ++ replicate 20 1)%nat first_keys), (bytes "center").
  split; [apply schedule_steps|]. repeat split; vm_compute; reflexivity.
Qed.

(** The agent of node-1, connected and authenticated. *)
Definition agent_online : St :=
  (exec (i ← act (Register "node-1"); act (Activate i)) (MkSt empty_hub (publish empty_hub (keyed_world "aabb" [accepts])))).2.
Lemma key_auth_rate_witness :
  let l := [(0, "h", "node-1"); (5 * Second, "h", "node-2"); (10 * Second, "h", "node-1")] in
  (attempts (MkRate ∅ ∅) l).1 = [true; false; true] ∧ 0 + 10 * Second ≤ 10 * Second.
Proof.
  intros l. split; [vm_compute; reflexivity|].
  refine (proj1 (key_auth_rate l 0 2 0 (10 * Second) "h" "node-1" "node-1" _ _ _ _ _ _)); try reflexivity.
  - repeat constructor; vm_compute; discriminate.
  - lia.
Defined.

(** ** Keys stay pinned *)
Definition keeps_keys (w w' : World) : Prop :=
  ∀ n k, pinned (w_db w) n = Some k → k ≠ "" → pinned (w_db w') n = Some k.
#[export] Instance keeps_keys_preorder : PreOrder keeps_keys.
Proof. split; [by intros w n k|]. intros w1 w2 w3 H1 H2 n k Hk Hne. by apply H2, Hne; first apply H1. Qed.
Definition keeps_keys_st (s s' : St) : Prop := keeps_keys (st_world s) (st_world s').
#[export] Instance keeps_keys_st_preorder : PreOrder keeps_keys_st.
Proof. split; [intros s; unfold keeps_keys_st; reflexivity|]. intros s1 s2 s3. unfold keeps_keys_st. apply transitivity. Qed.

(** A program of one action. *)
Definition single {A} (p : M A) : Prop :=
  match p with Ret _ => True | Do f k => ∀ r, match k r with Ret _ => True | Do _ _ => False end end.

Lemma keys_same w w' : w_nodes w' = w_nodes w → keeps_keys w w'.
Proof. intros E n k. unfold pinned. change (db_nodes (w_db w')) with (w_nodes w'). by rewrite E. Qed.
Lemma keys_calm {A} (p : M A) : single p → Calm p → all_acts keeps_keys p.
Proof.
  destruct p as [a|R f k]; [done|]. intros Hs Hc. split.
  - intros w. specialize (Hc w). cbn in Hc. specialize (Hs (f w).1). destruct (f w) as [r w']. cbn in *.
    destruct (k r); [|done]. by apply keys_same, calm_nodes.
  - intros r. specialize (Hs r). by destruct (k r).
Qed.
Lemma keys_stmt {R} ctx (onerr : string → R) (f : World → R * World) :
  (∀ w, keeps_keys w (f w).2) → all_acts keeps_keys (stmt ctx onerr f).
Proof.
  intros Hf. apply all_acts_act. intros w. unfold stmt_step. destruct (expired _ _); [reflexivity|].
  pose proof (calm_draws w) as (Hd%calm_nodes & _). destruct (draw_db w) as [[e|] w']; [by apply keys_same|].
  etransitivity; [by apply keys_same|apply Hf].
Qed.
Lemma keys_node w id f :
  (∀ n, node_AgentPubkey n ≠ "" → node_AgentPubkey (f n) = node_AgentPubkey n) → keeps_keys w (upd_node f id w).
Proof.
  intros Hf n k. unfold pinned, upd_node. cbn. change (db_nodes (w_db w)) with (w_nodes w).
  destruct (decide (n = id)) as [->|Hn]; [rewrite lookup_alter_eq|by rewrite lookup_alter_ne].
  destruct (w_nodes w !! id) as [nd|]; [|done]. cbn. intros [= <-] Hk. by rewrite Hf.
Qed.

Lemma keys_lift {A} (p : M A) : all_acts keeps_keys p → all_acts keeps_keys_st (lift p).
Proof.
  induction p as [a|R f k IH]; [done|]. intros [Hf Hk]. split; [|intros r; apply IH, Hk].
  intros [h w]. cbn. specialize (Hf w). by destruct (f w) as [r w'].
Qed.
Lemma keys_hub {R} (f : St → R * St) :
  (∀ s, w_nodes (st_world (f s).2) = w_nodes (st_world s)) → all_acts keeps_keys_st (act f).
Proof. intros H. apply all_acts_act. intros s. by apply keys_same. Qed.

Create HintDb keys.
(** Walks a program, closing its leaves. *)
Ltac keys_walk :=
  repeat match goal with
  | |- all_acts _ (mret _) => exact I
  | |- all_acts _ (_ ≫= _) => apply all_acts_bind; [|intros ?]
  | |- all_acts _ (forM _ _) => apply all_acts_forM; intros ?
  | |- all_acts _ (foldM _ _ _) => apply all_acts_foldM; intros ? ?
  | |- all_acts _ (match ?x with _ => _ end) => destruct x
  | |- all_acts keeps_keys_st (lift _) => apply keys_lift
  | |- all_acts keeps_keys _ => solve [apply keys_calm; [first [exact I|exact (λ _, I)]|auto with autopeer]]
  | |- all_acts _ _ => solve [auto with keys nocore]
  | |- _ => progress cbv beta iota zeta
  end.

Section keys.
Set Default Proof Using "Type*".
Context (env : HubEnv).

Lemma keys_query {R} ctx (f : World → result R) : all_acts keeps_keys (query ctx f).
Proof. apply keys_stmt. reflexivity. Qed.
Lemma keys_with_timeout d : all_acts keeps_keys (with_timeout d).
Proof. unfold with_timeout. keys_walk. Qed.
Lemma keys_setting read prefix key :
  (∀ ctx k, all_acts keeps_keys (read ctx k)) → all_acts keeps_keys (cached_setting read prefix key).
Proof. intros H. unfold cached_setting. keys_walk. Qed.
Lemma keys_GetSettingValue key : all_acts keeps_keys (GetSettingValue key).
Proof. apply keys_setting. intros. apply keys_query. Qed.
Lemma keys_GetSettingThreshold key : all_acts keeps_keys (GetSettingThreshold key).
Proof. apply keys_setting. intros. apply keys_query. Qed.
#[local] Hint Resolve keys_with_timeout keys_GetSettingValue keys_GetSettingThreshold : keys.
Lemma keys_checkAlerts p hs email name : all_acts keeps_keys (checkAlerts env p hs email name).
Proof.
  unfold checkAlerts, check_bgp, check_handshake, dispatch_mail, dispatch_bot, incBGPFailCount, resetBGPFailCount,
    isBGPDownNotified, setBGPDownNotified, isHandshakeNotified, setHandshakeNotified, flag_get, flag_set.
  keys_walk.
Qed.
#[local] Hint Resolve keys_checkAlerts : keys.
Lemma keys_SetAgentVersion ctx id v : all_acts keeps_keys (Node_SetAgentVersion ctx id v).
Proof. apply keys_stmt. intros w. by apply keys_node. Qed.
Lemma keys_SetAgentState ctx id st : all_acts keeps_keys (Node_SetAgentState ctx id st).
Proof. apply keys_stmt. intros w. by apply keys_node. Qed.
Lemma keys_SetOnline ctx id b : all_acts keeps_keys (Node_SetOnline ctx id b).
Proof. apply keys_stmt. intros w. by apply keys_node. Qed.
Lemma keys_SetAgentPubkey ctx id k : all_acts keeps_keys (Node_SetAgentPubkey ctx id k).
Proof. apply keys_stmt. intros w. apply keys_node. intros n Hn. by rewrite bool_decide_eq_false_2. Qed.
Lemma keys_metric u ctx p n m : all_acts keeps_keys (InsertPeerMetricFromHeartbeat u ctx p n m).
Proof. apply keys_stmt. intros w. apply keys_same. by repeat case_match. Qed.
Lemma keys_MarkPeersActive u ctx ids t : all_acts keeps_keys (MarkPeersActive u ctx ids t).
Proof. unfold MarkPeersActive. destruct ids; [exact I|]. apply keys_stmt. intros w. apply keys_same. by repeat case_match. Qed.
Lemma keys_InsertNodeMetric ctx m : all_acts keeps_keys (InsertNodeMetric ctx m).
Proof. apply keys_stmt. intros w. apply keys_same. by repeat case_match. Qed.
Lemma keys_ListActiveByNode ctx n : all_acts keeps_keys (ListActiveByNode ctx n).
Proof. apply keys_query. Qed.
#[local] Hint Resolve keys_SetAgentVersion keys_SetAgentState keys_SetOnline keys_SetAgentPubkey keys_metric
  keys_MarkPeersActive keys_InsertNodeMetric keys_ListActiveByNode : keys.
Lemma keys_handleHeartbeat n payload : all_acts keeps_keys (handleHeartbeat env n payload).
Proof.
  unfold handleHeartbeat, mail_admins, contacts, heartbeat_peer, isNodeOfflineNotified, setNodeOfflineNotified, flag_get, flag_set.
  keys_walk.
Qed.
Lemma keys_notifyNodeOffline ctx n b : all_acts keeps_keys (notifyNodeOffline env ctx n b).
Proof. unfold notifyNodeOffline, mail_admins, isNodeOfflineNotified, setNodeOfflineNotified, flag_get, flag_set. keys_walk. Qed.
#[local] Hint Resolve keys_handleHeartbeat keys_notifyNodeOffline : keys.
Lemma keys_handleAgentUpdating n : all_acts keeps_keys (handleAgentUpdating env n).
Proof. unfold handleAgentUpdating. keys_walk. Qed.
Lemma keys_node_went_offline n : all_acts keeps_keys (node_went_offline env n).
Proof. unfold node_went_offline. keys_walk. Qed.
Lemma keys_node_came_online n : all_acts keeps_keys (node_came_online n).
Proof. unfold node_came_online. keys_walk. Qed.
Lemma keys_pushPeersSync n : all_acts keeps_keys (pushPeersSync n).
Proof.
  unfold pushPeersSync. keys_walk; [apply keys_query|]. apply all_acts_act. intros w. apply keys_same.
  unfold push_step, draw_agent. destruct (e_agent (w_ext w)) as [|[d [|]] l]; done.
Qed.
#[local] Hint Resolve keys_handleAgentUpdating keys_node_went_offline keys_node_came_online keys_pushPeersSync : keys.

Lemma keys_Unregister n i : all_acts keeps_keys_st (act (Unregister env n i)).
Proof.
  apply all_acts_act. intros s. unfold Unregister, keeps_keys_st. cbn [snd].
  destruct (h_nodeUpd _ !! n) as [e|]; [|by apply keys_same]. destruct (can_send e _); [by apply keys_same|]. cbn.
  exact (rtc_within _ _ _ (all_acts_exec keeps_keys _ (publish (unregister n i (st_hub s)) (st_world s))
    (keys_node_went_offline n))).
Qed.

Context `{Crypto} (center : option PrivateKey) (unmarshal : list ascii → option WsMessage).
Lemma keys_close i : all_acts keeps_keys_st (close i).
Proof. by apply keys_hub. Qed.
Lemma keys_enable i k : all_acts keeps_keys_st (enable_encryption i k).
Proof. by apply keys_hub. Qed.
Lemma keys_Activate i : all_acts keeps_keys_st (act (Activate i)).
Proof. by apply keys_hub. Qed.
Lemma keys_Register n : all_acts keeps_keys_st (act (Register n)).
Proof. by apply keys_hub. Qed.
Lemma keys_write i : all_acts keeps_keys_st (act (write_step i)).
Proof.
  apply keys_hub. intros s. unfold write_step. destruct (h_acs _ !! i) as [ac|]; [|done].
  destruct (ac_closed ac); [done|]. unfold draw_agent. by destruct (e_agent _) as [|[d a] l].
Qed.
Lemma keys_gets {R} (f : St → R) : all_acts keeps_keys_st (gets f).
Proof. by apply keys_hub. Qed.
Lemma keys_select first e : all_acts keeps_keys_st (act (select_upd first e)).
Proof.
  apply keys_hub. intros s. unfold select_upd. destruct (h_entries _ !! e) as [en|]; [|done]. cbv zeta.
  by destruct (en_ch en); [destruct (en_done en)|destruct (en_done en && first)].
Qed.
Lemma keys_finish n e : all_acts keeps_keys_st (act (finish_upd n e)).
Proof. by apply keys_hub. Qed.
Lemma keys_Node_GetByID ctx n : all_acts keeps_keys (Node_GetByID ctx n).
Proof. apply keys_query. Qed.
Lemma keys_Node_GetAgentPubkey ctx n : all_acts keeps_keys (Node_GetAgentPubkey ctx n).
Proof. apply keys_query. Qed.
Lemma keys_Node_GetByAgentToken ctx t : all_acts keeps_keys (Node_GetByAgentToken ctx t).
Proof. apply keys_query. Qed.
#[local] Hint Resolve keys_Unregister keys_close keys_enable keys_Activate keys_Register keys_write keys_gets keys_select
  keys_finish keys_Node_GetByID keys_Node_GetAgentPubkey keys_Node_GetByAgentToken : keys.

Lemma keys_handleKeyInit i n p : all_acts keeps_keys_st (handleKeyInit env center i n p).
Proof. unfold handleKeyInit, NewNonce, notifyPubkeyReset. cbv zeta. keys_walk. Qed.
Lemma keys_handleKeyAuth i n p : all_acts keeps_keys_st (handleKeyAuth center i n p).
Proof. unfold handleKeyAuth, NewNonce, GenerateKeyPair. cbv zeta. keys_walk. Qed.
#[local] Hint Resolve keys_handleKeyInit keys_handleKeyAuth : keys.
Lemma keys_receive i n f : all_acts keeps_keys_st (receive env center unmarshal i n f).
Proof. unfold receive, dispatch, handlePeersSync. keys_walk. Qed.
#[local] Hint Resolve keys_receive : keys.
Lemma keys_authorize ctx host token header query rs : all_acts keeps_keys (authorize ctx host token header query rs).
Proof. unfold authorize. cbv zeta. keys_walk. Qed.
#[local] Hint Resolve keys_authorize : keys.

(** What serves agents: connections, each with the frames it will receive, and
    the rounds of drainers. *)
Inductive Thread : Type :=
| Websocket (ctx : Ctx) (host token header query : string) (upgrades : bool) (frames : list Frame) (rs : RateState)
| Drainer (first : bool) (nodeID : string) (e : nat).
Definition run_thread (t : Thread) : prog St unit :=
  match t with
  | Websocket ctx host token header query upgrades frames rs =>
      _ ← HandleWebSocket env center unmarshal ctx host token header query upgrades frames rs; mret tt
  | Drainer first nodeID e => _ ← drainNodeUpdates env first nodeID e; mret tt
  end.
Lemma keys_run_thread t : all_acts keeps_keys_st (run_thread t).
Proof. destruct t; unfold run_thread, HandleWebSocket, ReadPump, drainNodeUpdates; keys_walk. Qed.

(** C25: However many connections talk to the center at once, and whatever they
    send: a key that is pinned for a node stays pinned. *)
Theorem pinned_keys_stay (ts : list Thread) (s : St) (c : St * list (prog St unit)) (nodeID key : string)
  (Hsteps : pool_steps (s, run_thread <$> ts) c)
  (Hkey : pinned (w_db (st_world s)) nodeID = Some key) (Hne : key ≠ "") :
  pinned (w_db (st_world c.1)) nodeID = Some key.
Proof.
  destruct (all_acts_pool keeps_keys_st _ _ Hsteps) as [Hr _].
  { cbn. rewrite Forall_fmap. apply Forall_true. intros t. apply keys_run_thread. }
  by apply (rtc_within _ _ _ Hr).
Qed.
End keys.

Lemma pinned_keys_stay_witness :
  let ts := [Websocket Background "h" "token" "" "" true [MkFrame false []] (MkRate ∅ ∅);
             Websocket Background "i" "" "node-1" "" true [MkFrame false []] (MkRate ∅ ∅)] in
  let c := schedule (replicate 12 0 ++ replicate 40 1)%nat
             (agent_online, run_thread sample_hub toy_center (λ _, Some (MsgKeyInit (Some "ccdd"))) <$> ts) in
  pinned (w_db (st_world agent_online)) "node-1" = Some "aabb" ∧ pinned (w_db (st_world c.1)) "node-1" = Some "aabb".
Proof.
  intros ts c. split; [vm_compute; reflexivity|].
  refine (pinned_keys_stay sample_hub toy_center (λ _, Some (MsgKeyInit (Some "ccdd"))) ts agent_online c "node-1" "aabb" _ _ _).
  - apply schedule_steps.
  - vm_compute. reflexivity.
  - discriminate.
Defined.

(** ** Every thread of the process takes steps of the hub *)
Section threads.
Set Default Proof Using "Type*".
Context `{Crypto} (env : HubEnv) (center : option PrivateKey) (unmarshal : list ascii → option WsMessage).
Abbreviation acts := (all_acts (hub_step env)).

Lemma hub_close i : acts (close i).
Proof. apply all_acts_act. intros. apply step_Close. Qed.
Lemma hub_enable i k : acts (enable_encryption i k).
Proof. apply all_acts_act. intros. apply step_EnableEncryption. Qed.
Lemma hub_Activate i : acts (act (Activate i)).
Proof. apply all_acts_act. intros. apply step_Activate. Qed.
Lemma hub_Register n : acts (act (Register n)).
Proof. apply all_acts_act. intros. apply step_Register. Qed.
Lemma hub_Unregister n i : acts (act (Unregister env n i)).
Proof. apply all_acts_act. intros. apply step_Unregister. Qed.
Lemma hub_write i : acts (act (write_step i)).
Proof.
  apply all_acts_act. intros [h w]. unfold write_step. cbn. destruct (h_acs h !! i) as [ac|]; [|apply step_read].
  destruct (ac_closed ac); [apply step_read|]. destruct (draw_agent w) as [[d a] w']. apply step_world.
Qed.
Lemma hub_gets {R} (f : St → R) : acts (gets f).
Proof. apply all_acts_act. intros. apply step_read. Qed.
#[local] Hint Resolve hub_close hub_enable hub_Activate hub_Register hub_Unregister hub_write hub_gets : keys.

Lemma hub_thread t : acts (run_thread env center unmarshal t).
Proof.
  destruct t; unfold run_thread, HandleWebSocket, ReadPump, receive, dispatch, handlePeersSync, handleKeyInit, handleKeyAuth,
    NewNonce, GenerateKeyPair; [|apply all_acts_bind; [apply drain_program|done]].
  repeat match goal with
  | |- all_acts _ (mret _) => exact I
  | |- all_acts _ (_ ≫= _) => apply all_acts_bind; [|intros ?]
  | |- all_acts _ (forM _ _) => apply all_acts_forM; intros ?
  | |- all_acts _ (lift _) => apply hub_program_lift
  | |- all_acts _ (match ?x with _ => _ end) => destruct x
  | |- all_acts _ _ => solve [auto with keys nocore]
  | |- _ => progress cbv beta iota zeta
  end.
Qed.

(** C26: However connections, drainers and the rest of the process interleave:
    no closed channel is closed again; the registry holds, per node, an
    authenticated connection of that node, and an authenticated connection
    that is no longer registered has been closed (so two never act for one
    node); commands reach exactly the nodes reported online; and a drainer that
    was replaced has been told to stop (none leaks). *)
Theorem hub_safe (ps : list (prog St unit)) (w : World) (s : St) (ps' : list (prog St unit))
  (Hps : Forall (λ p, (∃ t, p = run_thread env center unmarshal t) ∨ (∃ q : M unit, p = lift q)) ps)
  (Hw : w_conns w = ∅) (Hsteps : pool_steps (MkSt empty_hub w, ps) (s, ps')) :
  h_panicked (st_hub s) = false
  ∧ (∀ n i, GetConn n (st_hub s) = Some i → ∃ ac, h_acs (st_hub s) !! i = Some ac
       ∧ ac_NodeID ac = n ∧ ac_pendingAuth ac = false)
  ∧ (∀ i j ac ac', h_acs (st_hub s) !! i = Some ac → h_acs (st_hub s) !! j = Some ac' →
       ac_NodeID ac = ac_NodeID ac' → ac_pendingAuth ac = false → ac_pendingAuth ac' = false →
       ac_closed ac = false → ac_closed ac' = false → i = j)
  ∧ (∀ n, IsOnline n (st_hub s) = true ↔ n ∈ w_conns (st_world s))
  ∧ (∀ e en, h_entries (st_hub s) !! e = Some en → en_running en = true → en_done en = false →
       h_nodeUpd (st_hub s) !! en_NodeID en = Some e).
Proof.
  apply hub_ok_observed. destruct (all_acts_pool (hub_step env) _ _ Hsteps) as [Hr _].
  - eapply Forall_impl; [exact Hps|]. intros p [[t ->]|[q ->]]; [apply hub_thread|apply hub_program_lift].
  - eapply hub_steps_ok; [exact Hr|by apply empty_ok].
Qed.
End threads.

Lemma hub_safe_witness :
  let ts := [Websocket Background "h" "token" "" "" true [MkFrame false []] (MkRate ∅ ∅); Drainer true "node-1" 0] in
  let c := schedule (replicate 11 0 ++ [1])%nat
             (MkSt empty_hub (publish empty_hub (keyed_world "" [accepts])),
              run_thread sample_hub toy_center (λ _, Some (MsgKeyInit (Some "ccdd"))) <$> ts) in
  IsOnline "node-1" (st_hub c.1) = true ∧ h_panicked (st_hub c.1) = false.
Proof.
  intros ts c. split; [vm_compute; reflexivity|].
  refine (proj1 (hub_safe sample_hub toy_center (λ _, Some (MsgKeyInit (Some "ccdd")))
    (run_thread sample_hub toy_center (λ _, Some (MsgKeyInit (Some "ccdd"))) <$> ts)
    (publish empty_hub (keyed_world "" [accepts])) c.1 c.2 _ eq_refl _)).
  - rewrite Forall_fmap. apply Forall_true. intros t. left. by exists t.
  - rewrite <-(surjective_pairing c). apply schedule_steps.
Defined.
