(* ===== verification/Session.v ===== *)
(** * The rows of sign-in ([internal/model/model.go], [internal/repository/auth.go],
    the deletions of [internal/repository/audit.go])

    Login codes, GPG challenges, sessions and device grants, and the statements
    on them.  They extend the world of the other components: a program of that
    world runs here unchanged.  The constraints are those of migrations 003,
    033, 055 and 060. *)
From S2P Require Import Prelude GoLib Json Model Lock Cache Effects World Store.
From stdpp Require Import sorting options.
Local Open Scope Z_scope.
Local Open Scope go_scope.

(** ** Rows *)
Record UserLoginCode : Type := MkCode {
  lc_ID : string;
  lc_ASN : Z;
  lc_Email : string;
  lc_CodeHash : string;
  lc_ExpiresAt : Z;
  lc_Used : bool;
  lc_FailedAttempts : Z;
  lc_CreatedAt : Z
}.

Record GPGChallenge : Type := MkChallenge {
  gc_ID : string;
  gc_ASN : Z;
  gc_Fingerprints : list string;
  gc_Challenge : string;
  gc_ExpiresAt : Z;
  gc_Used : bool;
  gc_CreatedAt : Z
}.

(** An empty refresh hash is stored as NULL ([nullzero]). *)
Record AuthSession : Type := MkSession {
  as_ID : string;
  as_SubjectType : string;
  as_ASN : option Z;
  as_AdminID : option string;
  as_Email : string;
  as_ParentSessionID : option string;
  as_RefreshTokenHash : string;
  as_PreviousRefreshTokenHash : string;
  as_PreviousRefreshTokenValidUntil : option Z;
  as_UserAgent : string;
  as_IPAddress : string;
  as_DeviceName : string;
  as_LoginMethod : string;
  as_CreatedAt : Z;
  as_LastUsedAt : option Z;
  as_ExpiresAt : Z;
  as_RevokedAt : option Z;
  as_RevokedReason : string
}.

Record AuthDeviceGrant : Type := MkGrant {
  dg_ID : string;
  dg_DeviceCodeHash : string;
  dg_UserCodeHash : string;
  dg_ClientName : string;
  dg_DeviceName : string;
  dg_Version : string;
  dg_Scopes : list string;
  dg_Status : string;
  dg_ApprovedASN : option Z;
  dg_ApprovedEmail : string;
  dg_ApprovedBySessionID : option string;
  dg_ExchangedSessionID : option string;
  dg_RequestIP : string;
  dg_RequestUserAgent : string;
  dg_ApproveIP : option string;
  dg_ApproveUserAgent : string;
  dg_PollCount : Z;
  dg_LastPolledAt : option Z;
  dg_NextPollAfter : option Z;
  dg_CreatedAt : Z;
  dg_ExpiresAt : Z;
  dg_ApprovedAt : option Z;
  dg_DeniedAt : option Z;
  dg_ExchangedAt : option Z
}.

Record Admin : Type := MkAdmin { ad_ID : string; ad_Email : string; ad_PasswordHash : string }.

Record AuthDB : Type := MkAuthDB {
  au_codes : gmap string UserLoginCode;
  au_gpg : gmap string GPGChallenge;
  au_sessions : gmap string AuthSession;
  au_grants : gmap string AuthDeviceGrant;
  au_admins : gmap string Admin          (* by e-mail, which is unique *)
}.

Record ASt : Type := MkASt { a_auth : AuthDB; a_world : World }.
Abbreviation P := (prog ASt).

Definition set_world (w : World) (s : ASt) : ASt := MkASt (a_auth s) w.
Definition set_auth (d : AuthDB) (s : ASt) : ASt := MkASt d (a_world s).
Definition s_now (s : ASt) : Z := w_now (a_world s).
Definition s_codes (s : ASt) : gmap string UserLoginCode := au_codes (a_auth s).
Definition s_gpg (s : ASt) : gmap string GPGChallenge := au_gpg (a_auth s).
Definition s_sessions (s : ASt) : gmap string AuthSession := au_sessions (a_auth s).
Definition s_grants (s : ASt) : gmap string AuthDeviceGrant := au_grants (a_auth s).
Definition set_codes (m : gmap string UserLoginCode) (s : ASt) : ASt :=
  set_auth (MkAuthDB m (s_gpg s) (s_sessions s) (s_grants s) (au_admins (a_auth s))) s.
Definition set_gpg (m : gmap string GPGChallenge) (s : ASt) : ASt :=
  set_auth (MkAuthDB (s_codes s) m (s_sessions s) (s_grants s) (au_admins (a_auth s))) s.
Definition set_sessions (m : gmap string AuthSession) (s : ASt) : ASt :=
  set_auth (MkAuthDB (s_codes s) (s_gpg s) m (s_grants s) (au_admins (a_auth s))) s.
Definition set_grants (m : gmap string AuthDeviceGrant) (s : ASt) : ASt :=
  set_auth (MkAuthDB (s_codes s) (s_gpg s) (s_sessions s) m (au_admins (a_auth s))) s.

(** Programs of the world, here. *)
Abbreviation lifted := (along a_world set_world).

(** Statements on these tables, with the same oracle and the same contexts. *)
Definition astmt_step {R} (ctx : Ctx) (onerr : string → R) (f : ASt → R * ASt) (s : ASt) : R * ASt :=
  if expired ctx (s_now s) then (onerr "context deadline exceeded", s)
  else match draw_db (a_world s) with
       | (Some e, w) => (onerr e, set_world w s)
       | (None, w) => f (set_world w s)
       end.
Definition astmt {R} (ctx : Ctx) (onerr : string → R) (f : ASt → R * ASt) : P R := act (astmt_step ctx onerr f).
Definition aquery {R} (ctx : Ctx) (f : ASt → result R) : P (result R) := astmt ctx Err (λ s, (f s, s)).
(** [Scan] of at most one row; [gen_random_uuid()]; the zero [time.Time], which
    a column without [nullzero] stores as it is. *)
Definition found {A} (r : option A) : result A := match r with Some a => Ok a | None => Err ErrNoRows end.
Definition fresh_id (s : ASt) : option string * ASt :=
  let '(u, w) := draw_uuid (a_world s) in (u, set_world w s).

Definition time_zero : Z := -62135596800 * Second.

(** ** Login codes *)
Definition use_code (c : UserLoginCode) : UserLoginCode :=
  MkCode (lc_ID c) (lc_ASN c) (lc_Email c) (lc_CodeHash c) (lc_ExpiresAt c) true (lc_FailedAttempts c) (lc_CreatedAt c).
Definition fail_code (c : UserLoginCode) : UserLoginCode :=
  MkCode (lc_ID c) (lc_ASN c) (lc_Email c) (lc_CodeHash c) (lc_ExpiresAt c) (lc_Used c) (lc_FailedAttempts c + 1) (lc_CreatedAt c).

(** Inserts a code that is not used and has not failed; [CreatedAt] is left
    zero by every caller, and its column has no [nullzero]. *)
Definition CreateLoginCode (ctx : Ctx) (asn : Z) (email codeHash : string) (expiresAt : Z) : P (option string) :=
  astmt ctx Some (λ s,
    match fresh_id s with
    | (None, s1) => (Some "gen_random_uuid", s1)
    | (Some id, s1) =>
        match s_codes s1 !! id with
        | Some _ => (Some (err_text (PgUnique "user_login_codes_pkey")), s1)
        | None => (None, set_codes (<[id := MkCode id asn email codeHash expiresAt false 0 time_zero]> (s_codes s1)) s1)
        end
    end).

Definition valid_code (asn now : Z) (c : UserLoginCode) : bool :=
  (lc_ASN c =? asn) && negb (lc_Used c) && (now <? lc_ExpiresAt c) && (lc_FailedAttempts c <? 5).
(** [ORDER BY created_at DESC LIMIT 1] over rows in the order of [scan], which
    SQL leaves open: the first of those with the latest instant. *)
Definition latest_code (l : list UserLoginCode) : option UserLoginCode :=
  foldr (λ c acc, match acc with
                  | Some d => if lc_CreatedAt d <=? lc_CreatedAt c then Some c else acc
                  | None => Some c
                  end) None l.
Definition GetLatestValidLoginCode (scan : list UserLoginCode → list UserLoginCode) (ctx : Ctx) (asn : Z)
  : P (result UserLoginCode) :=
  aquery ctx (λ s, found (latest_code
    (filter (λ c, valid_code asn (s_now s) c = true) (scan (snd <$> map_to_list (s_codes s)))))).
Definition MarkLoginCodeUsed (ctx : Ctx) (id : string) : P (result bool) :=
  astmt ctx Err (λ s,
    match s_codes s !! id with
    | Some c => if lc_Used c then (Ok false, s) else (Ok true, set_codes (<[id := use_code c]> (s_codes s)) s)
    | None => (Ok false, s)
    end).
Definition IncrementLoginCodeFailures (ctx : Ctx) (id : string) : P (option string) :=
  astmt ctx Some (λ s, (None, set_codes (alter fail_code id (s_codes s)) s)).

(** ** GPG challenges *)
Definition use_challenge (c : GPGChallenge) : GPGChallenge :=
  MkChallenge (gc_ID c) (gc_ASN c) (gc_Fingerprints c) (gc_Challenge c) (gc_ExpiresAt c) true (gc_CreatedAt c).
(** Returns the id of the new row. *)
Definition CreateGPGChallenge (ctx : Ctx) (asn : Z) (fingerprints : list string) (challenge : string) (expiresAt : Z)
  : P (result string) :=
  astmt ctx Err (λ s,
    match fresh_id s with
    | (None, s1) => (Err "gen_random_uuid", s1)
    | (Some id, s1) =>
        match s_gpg s1 !! id with
        | Some _ => (Err (err_text (PgUnique "gpg_challenges_pkey")), s1)
        | None => (Ok id, set_gpg (<[id := MkChallenge id asn fingerprints challenge expiresAt false time_zero]> (s_gpg s1)) s1)
        end
    end).
Definition GetGPGChallenge (ctx : Ctx) (id : string) (asn : Z) : P (result GPGChallenge) :=
  aquery ctx (λ s, found (c ← s_gpg s !! id;
    if (gc_ASN c =? asn) && negb (gc_Used c) && (s_now s <? gc_ExpiresAt c) then Some c else None)).
Definition MarkGPGChallengeUsed (ctx : Ctx) (id : string) : P (result bool) :=
  astmt ctx Err (λ s,
    match s_gpg s !! id with
    | Some c => if gc_Used c then (Ok false, s) else (Ok true, set_gpg (<[id := use_challenge c]> (s_gpg s)) s)
    | None => (Ok false, s)
    end).

(** ** Sessions *)
Definition with_refresh (hash prev : string) (until : option Z) (used : option Z) (a : AuthSession) : AuthSession :=
  MkSession (as_ID a) (as_SubjectType a) (as_ASN a) (as_AdminID a) (as_Email a) (as_ParentSessionID a) hash prev until
    (as_UserAgent a) (as_IPAddress a) (as_DeviceName a) (as_LoginMethod a) (as_CreatedAt a) used (as_ExpiresAt a)
    (as_RevokedAt a) (as_RevokedReason a).
Definition revoke (now : Z) (reason : string) (a : AuthSession) : AuthSession :=
  MkSession (as_ID a) (as_SubjectType a) (as_ASN a) (as_AdminID a) (as_Email a) (as_ParentSessionID a) ""
    (as_PreviousRefreshTokenHash a) (as_PreviousRefreshTokenValidUntil a) (as_UserAgent a) (as_IPAddress a)
    (as_DeviceName a) (as_LoginMethod a) (as_CreatedAt a) (as_LastUsedAt a) (as_ExpiresAt a) (Some now) reason.
Definition touch (now : Z) (a : AuthSession) : AuthSession :=
  with_refresh (as_RefreshTokenHash a) (as_PreviousRefreshTokenHash a) (as_PreviousRefreshTokenValidUntil a) (Some now) a.
(** The row [INSERT ... RETURNING *] writes and reads back. *)
Definition stored_session (id : string) (now : Z) (a : AuthSession) : AuthSession :=
  MkSession id (as_SubjectType a) (as_ASN a) (as_AdminID a) (as_Email a) (as_ParentSessionID a) (as_RefreshTokenHash a)
    (as_PreviousRefreshTokenHash a) (as_PreviousRefreshTokenValidUntil a) (as_UserAgent a) (as_IPAddress a)
    (as_DeviceName a) (as_LoginMethod a) now (as_LastUsedAt a) (as_ExpiresAt a) (as_RevokedAt a) (as_RevokedReason a).

(** [revoked_at IS NULL AND expires_at > now()]. *)
Definition live (now : Z) (a : AuthSession) : bool := isNil (as_RevokedAt a) && (now <? as_ExpiresAt a).

(** [CHECK] on the subject, the foreign keys and the unique hashes. *)
Definition subject_ok (a : AuthSession) : bool :=
  if as_SubjectType a =s "user" then negb (isNil (as_ASN a)) && isNil (as_AdminID a)
  else if as_SubjectType a =s "admin" then negb (isNil (as_AdminID a)) && isNil (as_ASN a) && isNil (as_ParentSessionID a)
  else (as_SubjectType a =s "impersonation")
       && negb (isNil (as_ASN a)) && negb (isNil (as_AdminID a)) && negb (isNil (as_ParentSessionID a)).
Definition has_refresh (hash : string) (a : AuthSession) : Prop := hash ≠ "" ∧ as_RefreshTokenHash a = hash.
Definition had_refresh (hash : string) (a : AuthSession) : Prop := hash ≠ "" ∧ as_PreviousRefreshTokenHash a = hash.
#[export] Instance has_refresh_dec h a : Decision (has_refresh h a).
Proof. unfold has_refresh. apply _. Defined.
#[export] Instance had_refresh_dec h a : Decision (had_refresh h a).
Proof. unfold had_refresh. apply _. Defined.
Definition session_error (s : ASt) (id : string) (a : AuthSession) : option string :=
  if negb (subject_ok a) then Some "ERROR: new row violates check constraint auth_sessions_check (SQLSTATE=23514)"
  else if match as_AdminID a with
          | Some ad => bool_decide (¬ map_Exists (λ _ x, ad_ID x = ad) (au_admins (a_auth s))) | None => false end
  then Some (err_text (PgForeignKey "auth_sessions_admin_id_fkey"))
  else if match as_ParentSessionID a with Some p => isNil (s_sessions s !! p) | None => false end
  then Some (err_text (PgForeignKey "auth_sessions_parent_session_id_fkey"))
  else if negb (isNil (s_sessions s !! id)) then Some (err_text (PgUnique "auth_sessions_pkey"))
  else if bool_decide (map_Exists (λ _ b, has_refresh (as_RefreshTokenHash a) b) (s_sessions s))
  then Some (err_text (PgUnique "auth_sessions_refresh_token_hash_key"))
  else None.
Definition insert_session (a : AuthSession) (s : ASt) : result AuthSession * ASt :=
  match fresh_id s with
  | (None, s1) => (Err "gen_random_uuid", s1)
  | (Some id, s1) =>
      match session_error s1 id a with
      | Some e => (Err e, s1)
      | None => let b := stored_session id (s_now s1) a in (Ok b, set_sessions (<[id := b]> (s_sessions s1)) s1)
      end
  end.
Definition CreateAuthSession (ctx : Ctx) (a : AuthSession) : P (result AuthSession) := astmt ctx Err (insert_session a).

Definition GetAuthSession (ctx : Ctx) (id : string) : P (result AuthSession) :=
  aquery ctx (λ s, found (s_sessions s !! id)).
(** The row that satisfies [p]; the hashes are unique, so there is at most one. *)
Definition session_where (p : AuthSession → Prop) `{∀ a, Decision (p a)} (s : ASt) : result AuthSession :=
  found (head (filter p (snd <$> map_to_list (s_sessions s)))).
Definition GetAuthSessionByRefreshHash (ctx : Ctx) (hash : string) : P (result AuthSession) :=
  aquery ctx (λ s, session_where (λ a, has_refresh hash a ∧ live (s_now s) a = true) s).
(** [previous_refresh_token_valid_until > now()] and the session is live. *)
Definition reusable (hash : string) (now : Z) (a : AuthSession) : Prop :=
  had_refresh hash a ∧ (match as_PreviousRefreshTokenValidUntil a with Some t => now <? t | None => false end) = true
  ∧ live now a = true.
#[export] Instance reusable_dec h now a : Decision (reusable h now a).
Proof. unfold reusable. apply _. Defined.
Definition GetAuthSessionByPreviousRefreshHash (ctx : Ctx) (hash : string) : P (result AuthSession) :=
  aquery ctx (λ s, session_where (reusable hash (s_now s)) s).

Definition rotate_row (id newHash oldHash : string) (s : ASt) (a : AuthSession) : result bool * ASt :=
  if bool_decide (map_Exists (λ id' b, id' ≠ id ∧ has_refresh newHash b) (s_sessions s))
  then (Err (err_text (PgUnique "auth_sessions_refresh_token_hash_key")), s)
  else if bool_decide (map_Exists (λ id' b, id' ≠ id ∧ had_refresh oldHash b) (s_sessions s))
  then (Err (err_text (PgUnique "auth_sessions_previous_refresh_token_hash_key")), s)
  else (Ok true, set_sessions
         (<[id := with_refresh newHash oldHash (Some (s_now s + 10 * Second)) (Some (s_now s)) a]> (s_sessions s)) s).
Definition RotateAuthSessionRefresh (ctx : Ctx) (id oldHash newHash : string) : P (result bool) :=
  astmt ctx Err (λ s,
    match s_sessions s !! id with
    | Some a =>
        if bool_decide (has_refresh oldHash a) && live (s_now s) a
        then rotate_row id newHash oldHash s a else (Ok false, s)
    | None => (Ok false, s)
    end).
Definition TouchAuthSession (ctx : Ctx) (id : string) : P (option string) :=
  astmt ctx Some (λ s, (None, set_sessions
    (alter (λ a, if isNil (as_RevokedAt a) then touch (s_now s) a else a) id (s_sessions s)) s)).
Definition RevokeAuthSession (ctx : Ctx) (id reason : string) : P (result bool) :=
  astmt ctx Err (λ s,
    match s_sessions s !! id with
    | Some a => if isNil (as_RevokedAt a)
                then (Ok true, set_sessions (<[id := revoke (s_now s) reason a]> (s_sessions s)) s) else (Ok false, s)
    | None => (Ok false, s)
    end).
Definition RevokeChildAuthSessions (ctx : Ctx) (parentID reason : string) : P (option string) :=
  astmt ctx Some (λ s, (None, set_sessions ((λ a,
    if bool_decide (as_ParentSessionID a = Some parentID) && isNil (as_RevokedAt a) then revoke (s_now s) reason a else a)
    <$> s_sessions s) s)).
(** [last_used_at DESC NULLS LAST, created_at DESC]. *)
Definition recently_used (a b : AuthSession) : Prop :=
  match as_LastUsedAt a, as_LastUsedAt b with
  | Some x, Some y => y < x ∨ (x = y ∧ as_CreatedAt b ≤ as_CreatedAt a)
  | Some _, None => True
  | None, Some _ => False
  | None, None => as_CreatedAt b ≤ as_CreatedAt a
  end.
#[export] Instance recently_used_dec a b : Decision (recently_used a b).
Proof. unfold recently_used. repeat case_match; apply _. Defined.
Definition list_sessions (p : AuthSession → bool) (s : ASt) : list AuthSession :=
  merge_sort recently_used (filter (λ a, p a && live (s_now s) a = true) (snd <$> map_to_list (s_sessions s))).
Definition ListUserAuthSessions (ctx : Ctx) (asn : Z) : P (result (list AuthSession)) :=
  aquery ctx (λ s, Ok (list_sessions (λ a, (as_SubjectType a =s "user") && bool_decide (as_ASN a = Some asn)) s)).
Definition ListAdminAuthSessions (ctx : Ctx) (adminID : string) : P (result (list AuthSession)) :=
  aquery ctx (λ s, Ok (list_sessions (λ a, (as_SubjectType a =s "admin") && bool_decide (as_AdminID a = Some adminID)) s)).

(** ** Device grants *)
Definition CreateAuthDeviceGrant (ctx : Ctx) (g : AuthDeviceGrant) : P (option string) :=
  astmt ctx Some (λ s,
    match fresh_id s with
    | (None, s1) => (Some "gen_random_uuid", s1)
    | (Some id, s1) =>
        if negb (isNil (s_grants s1 !! id)) then (Some (err_text (PgUnique "auth_device_grants_pkey")), s1)
        else if bool_decide (map_Exists (λ _ h, dg_DeviceCodeHash h = dg_DeviceCodeHash g) (s_grants s1))
        then (Some (err_text (PgUnique "auth_device_grants_device_code_hash_key")), s1)
        else if bool_decide (map_Exists (λ _ h, dg_UserCodeHash h = dg_UserCodeHash g) (s_grants s1))
        then (Some (err_text (PgUnique "auth_device_grants_user_code_hash_key")), s1)
        else (None, set_grants (<[id := MkGrant id (dg_DeviceCodeHash g) (dg_UserCodeHash g) (dg_ClientName g) (dg_DeviceName g)
                (dg_Version g) (dg_Scopes g) (dg_Status g) None "" None None (dg_RequestIP g) (dg_RequestUserAgent g)
                None "" 0 None None (s_now s1) (dg_ExpiresAt g) None None None]> (s_grants s1)) s1)
    end).
(** Both hashes are unique. *)
Definition grant_where (p : AuthDeviceGrant → Prop) `{∀ g, Decision (p g)} (s : ASt) : option AuthDeviceGrant :=
  head (filter p (snd <$> map_to_list (s_grants s))).
Definition put_grant (g : AuthDeviceGrant) (s : ASt) : ASt := set_grants (<[dg_ID g := g]> (s_grants s)) s.
Definition GetAuthDeviceGrantByUserCodeHash (ctx : Ctx) (hash : string) : P (result AuthDeviceGrant) :=
  aquery ctx (λ s, found (grant_where (λ g, dg_UserCodeHash g = hash) s)).

Inductive decision : Type := Approved | Denied.
Definition decision_text (d : decision) : string := match d with Approved => "approved" | Denied => "denied" end.
Definition decide_grant (now : Z) (d : decision) (asn : option Z) (email sessionID : string) (ip : option string)
    (userAgent : string) (g : AuthDeviceGrant) : AuthDeviceGrant :=
  let approve {A} (new old : A) := match d with Approved => new | Denied => old end in
  MkGrant (dg_ID g) (dg_DeviceCodeHash g) (dg_UserCodeHash g) (dg_ClientName g) (dg_DeviceName g) (dg_Version g)
    (dg_Scopes g) (decision_text d) (approve asn (dg_ApprovedASN g)) (approve email (dg_ApprovedEmail g))
    (approve (Some sessionID) (dg_ApprovedBySessionID g)) (dg_ExchangedSessionID g) (dg_RequestIP g)
    (dg_RequestUserAgent g) ip userAgent (dg_PollCount g) (dg_LastPolledAt g) (dg_NextPollAfter g) (dg_CreatedAt g)
    (dg_ExpiresAt g) (approve (Some now) (dg_ApprovedAt g))
    (match d with Approved => dg_DeniedAt g | Denied => Some now end) (dg_ExchangedAt g).
(** The pending, unexpired grant of a user code. *)
Definition undecided (hash : string) (now : Z) (g : AuthDeviceGrant) : Prop :=
  dg_UserCodeHash g = hash ∧ dg_Status g = "pending" ∧ now < dg_ExpiresAt g.
#[export] Instance undecided_dec h now g : Decision (undecided h now g).
Proof. unfold undecided. apply _. Defined.
Definition AuthorizeAuthDeviceGrant (ctx : Ctx) (hash : string) (d : decision) (asn : option Z)
    (email sessionID ip userAgent : string) : P (result AuthDeviceGrant) :=
  astmt ctx Err (λ s,
    match grant_where (undecided hash (s_now s)) s with
    | None => (Err ErrNoRows, s)
    | Some g =>
        if match d with Approved => isNil (s_sessions s !! sessionID) | Denied => false end
        then (Err (err_text (PgForeignKey "auth_device_grants_approved_by_session_id_fkey")), s)
        else
          let g' := decide_grant (s_now s) d asn email sessionID (if ip =s "" then None else Some ip) userAgent g in
          (Ok g', put_grant g' s)
    end).

Definition poll_grant (now next : Z) (g : AuthDeviceGrant) : AuthDeviceGrant :=
  MkGrant (dg_ID g) (dg_DeviceCodeHash g) (dg_UserCodeHash g) (dg_ClientName g) (dg_DeviceName g) (dg_Version g)
    (dg_Scopes g) (dg_Status g) (dg_ApprovedASN g) (dg_ApprovedEmail g) (dg_ApprovedBySessionID g)
    (dg_ExchangedSessionID g) (dg_RequestIP g) (dg_RequestUserAgent g) (dg_ApproveIP g) (dg_ApproveUserAgent g)
    (dg_PollCount g + 1) (Some now) (Some next) (dg_CreatedAt g) (dg_ExpiresAt g) (dg_ApprovedAt g) (dg_DeniedAt g)
    (dg_ExchangedAt g).
(** [nextPoll] is taken from the process's clock before the statement. *)
Definition PollAuthDeviceGrant (ctx : Ctx) (hash : string) (interval : Z) : P (result AuthDeviceGrant) :=
  next ← gets (λ s, s_now s + interval);
  astmt ctx Err (λ s,
    match grant_where (λ g, dg_DeviceCodeHash g = hash) s with
    | None => (Err ErrNoRows, s)
    | Some g => let g' := poll_grant (s_now s) next g in (Ok g', put_grant g' s)
    end).

Definition exchange_grant (now : Z) (sid : option string) (g : AuthDeviceGrant) : AuthDeviceGrant :=
  MkGrant (dg_ID g) (dg_DeviceCodeHash g) (dg_UserCodeHash g) (dg_ClientName g) (dg_DeviceName g) (dg_Version g)
    (dg_Scopes g) "exchanged" (dg_ApprovedASN g) (dg_ApprovedEmail g) (dg_ApprovedBySessionID g)
    sid (dg_RequestIP g) (dg_RequestUserAgent g) (dg_ApproveIP g) (dg_ApproveUserAgent g)
    (dg_PollCount g) (dg_LastPolledAt g) (dg_NextPollAfter g) (dg_CreatedAt g) (dg_ExpiresAt g) (dg_ApprovedAt g)
    (dg_DeniedAt g) (Some now).
Definition exchangeable (hash : string) (now : Z) (g : AuthDeviceGrant) : Prop :=
  dg_DeviceCodeHash g = hash ∧ dg_Status g = "approved" ∧ dg_ExchangedAt g = None ∧ now < dg_ExpiresAt g.
#[export] Instance exchangeable_dec h now g : Decision (exchangeable h now g).
Proof. unfold exchangeable. apply _. Defined.
Definition exchange_error (a : AuthSession) (g : AuthDeviceGrant) : option string :=
  if as_SubjectType a =s "user"
  then if isNil (dg_ApprovedASN g) || (dg_ApprovedEmail g =s "") then Some "device grant is missing approved user" else None
  else if as_SubjectType a =s "admin"
  then if isNil (as_AdminID a) || isNil (dg_ApprovedBySessionID g) || (dg_ApprovedEmail g =s "")
       then Some "device grant is missing approved admin" else None
  else Some "unsupported device grant session subject".
(** One transaction: the grant is exchanged and the session inserted, or
    neither.  Returns the session as it was stored. *)
Definition ExchangeAuthDeviceGrant (ctx : Ctx) (hash : string) (a : AuthSession) : P (result AuthSession) :=
  astmt ctx Err (λ s,
    match grant_where (exchangeable hash (s_now s)) s with
    | None => (Err ErrNoRows, s)
    | Some g =>
        match exchange_error a g with
        | Some e => (Err e, s)
        | None =>
            match insert_session a s with
            | (Err e, s1) => (Err e, s1)
            | (Ok b, s1) => (Ok b, put_grant (exchange_grant (s_now s) (Some (as_ID b)) g) s1)
            end
        end
    end).

(** ** Administrators ([internal/repository/admin.go]) *)
Definition Admin_GetByEmail (ctx : Ctx) (email : string) : P (result Admin) :=
  aquery ctx (λ s, found (au_admins (a_auth s) !! email)).

(** ** Deletions of old rows ([internal/repository/audit.go]) *)
Definition Day : Z := 24 * Hour.
Definition DeleteExpiredLoginCodes (ctx : Ctx) : P (option string) :=
  astmt ctx Some (λ s, (None, set_codes (filter (λ kc, s_now s - Day ≤ lc_ExpiresAt kc.2) (s_codes s)) s)).
Definition DeleteExpiredGPGChallenges (ctx : Ctx) : P (option string) :=
  astmt ctx Some (λ s, (None, set_gpg (filter (λ kc, s_now s - Day ≤ gc_ExpiresAt kc.2) (s_gpg s)) s)).
(** Children of a deleted session go with it ([ON DELETE CASCADE]; a parent is
    an administrator's session and has no parent itself), and grants forget
    deleted sessions ([ON DELETE SET NULL]). *)
Definition kept_sessions (now : Z) (m : gmap string AuthSession) : gmap string AuthSession :=
  let kept := filter (λ ka : string * AuthSession, now - 7 * Day ≤ as_ExpiresAt ka.2) m in
  filter (λ ka : string * AuthSession, match as_ParentSessionID ka.2 with Some p => negb (isNil (kept !! p)) | None => true end = true) kept.
Definition forget_sessions (m : gmap string AuthSession) (g : AuthDeviceGrant) : AuthDeviceGrant :=
  let keep (o : option string) := match o with Some id => if isNil (m !! id) then None else Some id | None => None end in
  MkGrant (dg_ID g) (dg_DeviceCodeHash g) (dg_UserCodeHash g) (dg_ClientName g) (dg_DeviceName g) (dg_Version g)
    (dg_Scopes g) (dg_Status g) (dg_ApprovedASN g) (dg_ApprovedEmail g) (keep (dg_ApprovedBySessionID g))
    (keep (dg_ExchangedSessionID g)) (dg_RequestIP g) (dg_RequestUserAgent g) (dg_ApproveIP g) (dg_ApproveUserAgent g)
    (dg_PollCount g) (dg_LastPolledAt g) (dg_NextPollAfter g) (dg_CreatedAt g) (dg_ExpiresAt g) (dg_ApprovedAt g)
    (dg_DeniedAt g) (dg_ExchangedAt g).
Definition DeleteExpiredAuthSessions (ctx : Ctx) : P (option string) :=
  astmt ctx Some (λ s,
    let m := kept_sessions (s_now s) (s_sessions s) in
    (None, set_grants (forget_sessions m <$> s_grants s) (set_sessions m s))).
