(* ===== verification/Token.v ===== *)
(** * Access tokens ([internal/middleware/middleware.go])

    The claims of an access token, how tokens are signed and read, and the
    middleware that lets a request pass.  The JWT library is a parameter. *)
From S2P Require Import Prelude GoLib Json Model Lock Cache Effects World Store Handler Session.
From stdpp Require Import options.
Local Open Scope Z_scope.
Local Open Scope go_scope.

(** What the modelled handlers read of the configuration. *)
Record Config : Type := MkConfig {
  cf_JWTSecret : string;
  cf_UserAccessTokenTTL : Z;
  cf_AdminAccessTokenTTL : Z;
  cf_UserRefreshTokenTTL : Z;
  cf_AdminRefreshTokenTTL : Z;
  cf_ImpersonationTokenTTL : Z;
  cf_TurnstileSecretKey : string;
  cf_CORSOrigin : string
}.

Record Claims : Type := MkClaims {
  cl_Role : string;
  cl_ASN : Z;
  cl_Email : string;
  cl_SessionID : string;
  cl_TokenID : string;
  cl_Type : string;
  cl_LoginMethod : string;
  cl_ImpersonatedByAdminID : string;
  cl_ParentSessionID : string;
  cl_Subject : string;
  cl_IssuedAt : Z;
  cl_NotBefore : Z;
  cl_ExpiresAt : Z
}.

(** [golang-jwt]: signing with HS256, and parsing at an instant with the key
    the callback returns for the algorithm of the header. *)
Class Jwt : Type := {
  SignedString : string → Claims → result string;
  ParseWithClaims : (string → option string) → Z → string → result Claims
}.

(** Parts of an HTTP request. *)
Record Req : Type := MkReq {
  rq_ctx : Ctx;
  rq_RemoteAddr : string;
  rq_Authorization : string;
  rq_UserAgent : string;
  rq_cookie : option string;          (* refresh_token *)
  rq_TLS : bool;
  rq_ForwardedProto : string;
  rq_Host : string;
  rq_ForwardedHost : string
}.

(** What [contextWithClaims] puts into the request's context. *)
Record Identity : Type := MkIdentity {
  id_Role : string;
  id_ASN : Z;
  id_Email : string;
  id_SessionID : string;
  id_AdminID : string
}.

Definition StatusUnauthorized : Z := 401.
Definition numeric_date (t : Z) : Z := t / Second * Second.
(** [uuid.NewString()]. *)
Definition NewString : P string := lifted (u ← act draw_uuid; mret (default "" u)).
Definition anow : P Z := gets s_now.
(** [context.WithTimeout(ctx, d)]: the earlier deadline. *)
Definition sub_timeout (ctx : Ctx) (d : Z) : P Ctx :=
  now ← anow; mret (Some (match ctx with Some t => Z.min t (now + d) | None => now + d end)).

Section tokens.
Set Default Proof Using "Type*".
Context `{Jwt} (cfg : Config).

(** The common part of the three [Sign...] functions. *)
Definition sign (role : string) (asn : Z) (email sid loginMethod byAdmin parent subject : string) (ttl : Z) : P (result string) :=
  now ← anow;
  jti ← NewString;
  mret (SignedString (cf_JWTSecret cfg)
    (MkClaims role asn email sid jti "access" loginMethod byAdmin parent subject
       (numeric_date now) (numeric_date now) (numeric_date (now + ttl)))).
Definition SignUserSessionJWT (asn : Z) (email sessionID loginMethod : string) (ttl : Z) : P (result string) :=
  let ttl := if ttl <=? 0 then cf_UserAccessTokenTTL cfg else ttl in
  sign "user" asn email sessionID loginMethod "" "" (fmt_d asn) ttl.
Definition SignAdminSessionJWT (adminID email sessionID : string) (ttl : Z) : P (result string) :=
  let ttl := if ttl <=? 0 then cf_AdminAccessTokenTTL cfg else ttl in
  sign "admin" 0 email sessionID "" "" "" adminID ttl.
Definition SignImpersonationJWT (asn : Z) (email sessionID adminID parentSessionID : string) : P (result string) :=
  let ttl := if cf_ImpersonationTokenTTL cfg <=? 0 then 15 * Minute else cf_ImpersonationTokenTTL cfg in
  sign "user" asn email sessionID "impersonation" adminID parentSessionID (fmt_d asn) ttl.

(** Tokens of another algorithm have no key. *)
Definition parseJWT (now : Z) (token : string) : result Claims :=
  claims <-? ParseWithClaims (λ alg, if alg =s "HS256" then Some (cf_JWTSecret cfg) else None) now token ;;
  if (cl_Type claims <>s "") && (cl_Type claims <>s "access") then Err "invalid token type" else Ok claims.
Definition ExtractClaims (r : Req) : P (result Claims) :=
  now ← anow;
  mret (if (rq_Authorization r =s "") || negb (HasPrefix (rq_Authorization r) "Bearer ")
        then Err "missing bearer token"
        else parseJWT now (TrimPrefix (rq_Authorization r) "Bearer ")).

(** ** Sessions behind tokens *)

(** [RevokedAt != nil || time.Now().After(ExpiresAt)]. *)
Definition inactive (now : Z) (a : AuthSession) : bool := negb (isNil (as_RevokedAt a)) || (as_ExpiresAt a <? now).
Definition role_mismatch (role subject : string) : bool :=
  ((role =s "admin") && (subject <>s "admin"))
  || ((role =s "user") && (subject <>s "user") && (subject <>s "impersonation")).

(** The session is written back as used.  The source does this in a goroutine
    that runs beside the handler; here it runs before the handler, one of its
    possible orders.  What holds in every interleaving is proved over pools, in
    which other requests' actions come between any two of these. *)
Definition touch_later (sid : string) : P unit :=
  ctx ← sub_timeout Background (3 * Second); _ ← TouchAuthSession ctx sid; mret tt.
Definition validateSession (ctx : Ctx) (claims : Claims) : P (option string) :=
  if cl_SessionID claims =s "" then mret None
  else
    r ← GetAuthSession ctx (cl_SessionID claims);
    match r with
    | Err e => mret (Some e)
    | Ok a =>
        now ← anow;
        if inactive now a then mret (Some "session inactive")
        else if role_mismatch (cl_Role claims) (as_SubjectType a) then mret (Some "session role mismatch")
        else
          match (if as_SubjectType a =s "impersonation" then as_ParentSessionID a else None) with
          | None => touch_later (cl_SessionID claims) ;; mret None
          | Some pid =>
              r ← GetAuthSession ctx pid;
              match r with
              | Err e => mret (Some e)
              | Ok parent =>
                  now ← anow;
                  if inactive now parent then mret (Some "parent session inactive")
                  else touch_later (cl_SessionID claims) ;; mret None
              end
          end
    end.

Definition contextWithClaims (c : Claims) : Identity :=
  MkIdentity (cl_Role c) (cl_ASN c) (cl_Email c) (cl_SessionID c) (if cl_Role c =s "admin" then cl_Subject c else "").

(** [requireAuth]: [role] is the role required, or none when any will do. *)
Definition requireAuth {A} (refuse : Response → A) (role : option string) (r : Req) (next : Identity → P A) : P A :=
  e ← ExtractClaims r;
  match e with
  | Err _ => mret (refuse (ErrorJSON StatusUnauthorized "unauthorized" "Invalid or missing token"))
  | Ok claims =>
      if match role with Some x => cl_Role claims <>s x | None => false end
      then mret (refuse (ErrorJSON StatusForbidden "forbidden" "Access denied"))
      else if isNil role && (cl_Role claims <>s "user") && (cl_Role claims <>s "admin")
      then mret (refuse (ErrorJSON StatusForbidden "forbidden" "Authentication required"))
      else
        v ← validateSession (rq_ctx r) claims;
        match v with
        | Some _ => mret (refuse (ErrorJSON StatusUnauthorized "unauthorized" "Session expired or revoked"))
        | None => next (contextWithClaims claims)
        end
  end.
End tokens.
