(* ===== verification/Login.v ===== *)
(** * Sign-in ([internal/handler/auth.go])

    Codes by e-mail, GPG challenges, passwords, impersonation, refreshing and
    ending sessions.  Hashing, bcrypt and OpenPGP are parameters, and so are the
    registry, the bot check and the mail server. *)
From S2P Require Import Prelude GoLib GoNet Json Model Lock Cache Effects World Store Handler Session Token.
From stdpp Require Import options.
Local Open Scope Z_scope.
Local Open Scope go_scope.

Class Digest : Type := {
  sha256 : list ascii → list ascii;
  mac_sha256 : list ascii → list ascii → list ascii    (* [hmac.New(sha256.New, key)] *)
}.
(** [bcrypt]: hashing with a salt, and comparing. *)
Class Bcrypt : Type := {
  GenerateFromPassword : string → list ascii → result string;
  CompareHashAndPassword : string → string → bool
}.
(** [clearsign] and [openpgp]; a verified signature names the fingerprint of
    the signer's primary key. *)
Class OpenPGP : Type := {
  Block : Type;
  Entity : Type;
  Decode : string → option Block * string;
  Block_Bytes : Block → string;
  ReadArmoredKeyRing : string → result (list Entity);
  ReadKeyRing : string → result (list Entity);
  VerifySignature : Block → list Entity → result (list ascii)
}.

(** The handler's collaborators. *)
Record AuthEnv : Type := MkAuthEnv {
  en_cfg : Config;
  en_admin : bool;                                    (* an admin handler is set *)
  en_LookupASNEmail : Z → result string;
  en_LookupMntnerGPGFingerprints : Z → result (list string);
  en_FetchGPGPublicKey : string → result string;
  en_verifyTurnstileToken : string → string → string → result bool;
  en_send : string → string → obj → option string;    (* an error of the mail server *)
  en_scan : list UserLoginCode → list UserLoginCode   (* the order PostgreSQL reads rows in *)
}.

(** ** Replies *)
Record authResponse : Type := MkAuthResponse {
  ar_Token : string;
  ar_ExpiresIn : Z;
  ar_RefreshExpiresIn : Z;
  ar_ASN : Z;
  ar_Session : AuthSession;
  ar_Role : string;
  ar_UserASN : option Z;
  ar_Email : string
}.
Inductive Body : Type :=
| Plain (r : Response)
| LoggedIn (r : authResponse)
| Devices (l : list AuthSession).
(** A reply, with the refresh cookie it sets: value, lifetime, and whether it is
    marked secure. *)
Record AuthReply : Type := MkAuthReply { re_cookie : option (string * Z * bool); re_body : Body }.

Definition reply (b : Body) : AuthReply := MkAuthReply None b.
Definition refuse (r : Response) : AuthReply := reply (Plain r).
Definition fail (status : Z) (code msg : string) : P AuthReply := mret (refuse (ErrorJSON status code msg)).
Definition done (j : json) : P AuthReply := mret (reply (Plain (JSON StatusOK j))).
Definition logged_in (r : AuthReply) : option authResponse :=
  match re_body r with LoggedIn a => Some a | _ => None end.

Definition secure (r : Req) : bool := rq_TLS r || EqualFold (rq_ForwardedProto r) "https".
Definition setRefreshCookie (r : Req) (token : string) (maxAge : Z) (x : AuthReply) : AuthReply :=
  MkAuthReply (Some (token, maxAge, secure r)) (re_body x).
Definition clearRefreshCookie (r : Req) : AuthReply → AuthReply := setRefreshCookie r "" (-1).
Definition seconds (d : Z) : Z := Z.quot d Second.

(** ** Helpers *)
Definition getClientIP (r : Req) : string :=
  match SplitHostPort (rq_RemoteAddr r) with Ok (host, _) => host | Err _ => "" end.
(** [middleware.RealIP(r, nil)]: no proxy is trusted. *)
Definition RealIP_ (r : Req) : string := getClientIP r.
Definition requestDeviceName (r : Req) : string :=
  let ua := TrimSpace (rq_UserAgent r) in
  if ua =s "" then "Unknown device" else if (80 <? String.length ua)%nat then truncate 80 ua else ua.

(** [string(s[0])]: the first byte as a rune, in UTF-8. *)
Definition first_rune (s : string) : string :=
  match bytes s with
  | [] => ""
  | c :: _ =>
      let n := N_of_ascii c in
      if (n <? 128)%N then text [c] else text [chr (192 + n / 64); chr (128 + n mod 64)]
  end.
(** [service.MaskEmail]. *)
Definition MaskEmail (email : string) : string :=
  match IndexByte "@"%char (bytes email) with
  | None => "***"
  | Some i =>
      let local := truncate i email in
      (if (String.length local <=? 1)%nat then local else first_rune local)
      +:+ "***@" +:+ drop_bytes (i + 1) email
  end.

(** [rand.Int(rand.Reader, max)]: a number below [max] that the bytes decide. *)
Definition rand_Int (max : Z) : M (option Z) :=
  r ← rand_read;
  mret (option_map (λ b, foldl (λ acc c, acc * 256 + byte_val c) 0 b mod max) r).
Definition generateCode : M (option string) :=
  n ← rand_Int 1000000; mret (option_map (pad 6) n).

Section login.
Set Default Proof Using "Type*".
Context `{Jwt} `{Digest} `{Bcrypt} `{OpenPGP} (env : AuthEnv).
Definition cfg_ : Config := en_cfg env.

Definition hashRefreshToken (token : string) : string := EncodeToHex (sha256 (bytes token)).
(** The raw token and its hash. *)
Definition generateRefreshToken : P (option (string * string)) :=
  r ← lifted rand_read;
  mret (option_map (λ b, let raw := EncodeToHex b in (raw, hashRefreshToken raw)) r).

(** ** Rate limits *)
Definition RateLimitASN : string := "rl:a:".
Definition RateLimitIP : string := "rl:ip:".
(** A [time.Time] is cached as an RFC 3339 text with nanoseconds; it stands for
    the instant. *)
Definition time_json (t : Z) : json := JNum t.
Definition dec_times (j : json) : option (list Z) :=
  match j with
  | JObj o => match obj_get "times" o with
              | Some (JArr l) => mapM dec_num l
              | Some JNull | None => Some []
              | _ => None
              end
  | _ => None
  end.
Definition entry_json (l : list Z) : json := JObj [("times", JArr (time_json <$> l))].
(** The whole function runs under [rateMu]: one step. *)
Definition checkIPRate_ (ip : string) (limit : Z) : M bool :=
  now ← now_;
  f ← cacheGet dec_times BucketRateLimit (PeerKey RateLimitIP ip);
  let fresh := filter (λ t, now - Minute < t) (default [] (f_val f)) in
  if limit <=? Z.of_nat (length fresh)
  then _ ← cachePut BucketRateLimit (PeerKey RateLimitIP ip) (entry_json fresh) (2 * Minute); mret false
  else _ ← cachePut BucketRateLimit (PeerKey RateLimitIP ip) (entry_json (fresh ++ [now])) (2 * Minute); mret true.
Definition checkIPRate (ip : string) (limit : Z) : P bool := lifted (act (exec (checkIPRate_ ip limit))).
(** Whether a cached instant is less than [d] ago; an absent one is not. *)
Definition recently (key : string) (d : Z) : P bool :=
  f ← lifted (cacheGet dec_num BucketRateLimit key);
  now ← anow;
  mret (f_ok f && (now - default time_zero (f_val f) <? d)).
Definition stamp (key : string) : P unit :=
  now ← anow; _ ← lifted (cachePut BucketRateLimit key (time_json now) (2 * Minute)); mret tt.
Definition verify_key (asn : Z) : string := PeerKey RateLimitASN ("verify:" +:+ fmt_d asn).

Definition login_disabled : P bool :=
  if en_admin env then v ← lifted (GetSiteSettingValue "user_login_enabled"); mret (v <>s "true") else mret false.
Definition verifyTurnstile (r : Req) (token : string) : bool :=
  if cf_TurnstileSecretKey cfg_ =s "" then true
  else if token =s "" then false
  else match en_verifyTurnstileToken env (cf_TurnstileSecretKey cfg_) token (getClientIP r) with
       | Ok ok => ok
       | Err _ => false
       end.
Definition audit (ctx : Ctx) (action operator : string) (detail : obj) : P unit :=
  lifted (auditLog ctx action operator None detail).
Definition as_operator (asn : Z) : string := "AS" +:+ fmt_d asn.

(** ** New sessions *)
Definition new_session (r : Req) (subject : string) (asn : option Z) (admin : option string) (email : string)
    (parent : option string) (hash deviceName loginMethod : string) (expiresAt : Z) : AuthSession :=
  MkSession "" subject asn admin email parent hash "" None (rq_UserAgent r) (RealIP_ r) deviceName loginMethod
    0 None expiresAt None "".
Definition createUserSession (ctx : Ctx) (r : Req) (asn : Z) (email loginMethod : string) : P (result AuthReply) :=
  t ← generateRefreshToken;
  match t with
  | None => mret (Err "rand")
  | Some (raw, hash) =>
      now ← anow;
      s ← CreateAuthSession ctx (new_session r "user" (Some asn) None email None hash (requestDeviceName r) loginMethod
                                   (now + cf_UserRefreshTokenTTL cfg_));
      match s with
      | Err e => mret (Err e)
      | Ok session =>
          j ← SignUserSessionJWT cfg_ asn email (as_ID session) loginMethod (cf_UserAccessTokenTTL cfg_);
          mret (token <-? j ;;
                Ok (setRefreshCookie r raw (seconds (cf_UserRefreshTokenTTL cfg_))
                      (reply (LoggedIn (MkAuthResponse token (seconds (cf_UserAccessTokenTTL cfg_))
                        (seconds (cf_UserRefreshTokenTTL cfg_)) asn session "user" (Some asn) email)))))
      end
  end.
Definition createAdminSession (ctx : Ctx) (r : Req) (adminID email : string) : P (result AuthReply) :=
  t ← generateRefreshToken;
  match t with
  | None => mret (Err "rand")
  | Some (raw, hash) =>
      now ← anow;
      s ← CreateAuthSession ctx (new_session r "admin" None (Some adminID) email None hash (requestDeviceName r) "password"
                                   (now + cf_AdminRefreshTokenTTL cfg_));
      match s with
      | Err e => mret (Err e)
      | Ok session =>
          j ← SignAdminSessionJWT cfg_ adminID email (as_ID session) (cf_AdminAccessTokenTTL cfg_);
          mret (token <-? j ;;
                Ok (setRefreshCookie r raw (seconds (cf_AdminRefreshTokenTTL cfg_))
                      (reply (LoggedIn (MkAuthResponse token (seconds (cf_AdminAccessTokenTTL cfg_))
                        (seconds (cf_AdminRefreshTokenTTL cfg_)) 0 session "admin" None email)))))
      end
  end.
Definition createImpersonationSession (ctx : Ctx) (r : Req) (asn : Z) (email adminID parentSessionID : string)
    (persistRefresh : bool) : P (result AuthReply) :=
  t ← generateRefreshToken;
  match t with
  | None => mret (Err "rand")
  | Some (raw, hash) =>
      now ← anow;
      s ← CreateAuthSession ctx (new_session r "impersonation" (Some asn) (Some adminID) email (Some parentSessionID) hash
                                   (requestDeviceName r) "impersonation" (now + cf_ImpersonationTokenTTL cfg_));
      match s with
      | Err e => mret (Err e)
      | Ok session =>
          j ← SignImpersonationJWT cfg_ asn email (as_ID session) adminID parentSessionID;
          mret (token <-? j ;;
                let x := reply (LoggedIn (MkAuthResponse token (seconds (cf_ImpersonationTokenTTL cfg_)) 0 asn session
                                  "user" (Some asn) email)) in
                Ok (if persistRefresh then setRefreshCookie r raw (seconds (cf_ImpersonationTokenTTL cfg_)) x else x))
      end
  end.

(** ** Codes by e-mail *)
Definition RequestCode (r : Req) (body : option (Z * string)) : P AuthReply :=
  off ← login_disabled;
  if off : bool then fail StatusForbidden "login_disabled" "User login is currently disabled"
  else
  match body with
  | None => fail StatusBadRequest "bad_request" "Invalid JSON body"
  | Some (asn, turnstile) =>
    if asn <=? 0 then fail StatusBadRequest "bad_request" "Invalid ASN"
    else if negb (verifyTurnstile r turnstile)
    then fail StatusForbidden "turnstile_failed" "Bot verification failed. Please try again."
    else
      wait ← recently (ASNKey RateLimitASN asn) (60 * Second);
      if wait : bool
      then fail StatusTooManyRequests "rate_limited" "Please wait 60 seconds before requesting a new code"
      else
        ok ← checkIPRate (getClientIP r) 5;
        if negb ok then fail StatusTooManyRequests "rate_limited" "Too many requests from this IP"
        else
          match en_LookupASNEmail env asn with
          | Err _ => fail StatusNotFound "asn_not_found" "ASN not found in DN42 registry"
          | Ok email =>
            code ← lifted generateCode;
            match code with
            | None => fail StatusInternalServerError "internal_error" "Failed to generate verification code"
            | Some code =>
              salt ← lifted rand_read;
              match (match salt with Some b => GenerateFromPassword code b | None => Err "rand" end) with
              | Err _ => fail StatusInternalServerError "internal_error" "Failed to process verification code"
              | Ok codeHash =>
                ctx ← sub_timeout (rq_ctx r) (5 * Second);
                now ← anow;
                e ← CreateLoginCode ctx asn email codeHash (now + 10 * Minute);
                match e with
                | Some _ => fail StatusInternalServerError "internal_error" "Failed to store verification code"
                | None =>
                  let vars := [("asn", JNum asn); ("code", JStr code)] in
                  match en_send env email "verification-code" vars with
                  | Some _ => fail StatusInternalServerError "email_error" "Failed to send verification email"
                  | None =>
                    lifted (sendMail email "verification-code" vars) ;;
                    stamp (ASNKey RateLimitASN asn) ;;
                    done (JObj [("masked_email", JStr (MaskEmail email)); ("expires_in", JNum 600)])
                  end
                end
              end
            end
          end
  end.

Definition invalid_code (msg : string) : P AuthReply := fail StatusUnauthorized "invalid_code" msg.
Definition VerifyCode (r : Req) (body : option (Z * string)) : P AuthReply :=
  off ← login_disabled;
  if off : bool then fail StatusForbidden "login_disabled" "User login is currently disabled"
  else
  match body with
  | None => fail StatusBadRequest "bad_request" "Invalid JSON body"
  | Some (asn, code) =>
    if (asn <=? 0) || (code =s "") then fail StatusBadRequest "bad_request" "ASN and code are required"
    else
      ok ← checkIPRate (getClientIP r) 10;
      if negb ok then fail StatusTooManyRequests "rate_limited" "Too many attempts from this IP"
      else
        wait ← recently (verify_key asn) (3 * Second);
        if wait : bool
        then fail StatusTooManyRequests "rate_limited" "Too many verification attempts, please wait"
        else
          ctx ← sub_timeout (rq_ctx r) (5 * Second);
          c ← GetLatestValidLoginCode (en_scan env) ctx asn;
          match c with
          | Err _ => invalid_code "Invalid or expired verification code"
          | Ok loginCode =>
            if negb (CompareHashAndPassword (lc_CodeHash loginCode) code)
            then
              _ ← IncrementLoginCodeFailures ctx (lc_ID loginCode);
              stamp (verify_key asn) ;;
              invalid_code "Invalid or expired verification code"
            else
              ok ← MarkLoginCodeUsed ctx (lc_ID loginCode);
              match ok with
              | Ok true =>
                s ← createUserSession ctx r asn (lc_Email loginCode) "email";
                match s with
                | Err _ => fail StatusInternalServerError "internal_error" "Failed to generate token"
                | Ok resp => audit ctx "user.login" (as_operator asn) [("asn", JNum asn)] ;; mret resp
                end
              | _ => invalid_code "code already used"
              end
          end
  end.

(** ** Administrators *)
Definition AdminLogin (r : Req) (body : option (string * string * string)) : P AuthReply :=
  match body with
  | None => fail StatusBadRequest "bad_request" "Invalid JSON body"
  | Some (email, password, turnstile) =>
    if (email =s "") || (password =s "") then fail StatusBadRequest "bad_request" "Email and password are required"
    else if negb (verifyTurnstile r turnstile)
    then fail StatusForbidden "turnstile_failed" "Bot verification failed. Please try again."
    else
      ok ← checkIPRate ("admin:" +:+ getClientIP r) 5;
      if negb ok then fail StatusTooManyRequests "rate_limited" "Too many login attempts, please try again later"
      else
        ctx ← sub_timeout (rq_ctx r) (5 * Second);
        a ← Admin_GetByEmail ctx email;
        match a with
        | Err _ => fail StatusUnauthorized "invalid_credentials" "Invalid email or password"
        | Ok admin =>
          if negb (CompareHashAndPassword (ad_PasswordHash admin) password)
          then fail StatusUnauthorized "invalid_credentials" "Invalid email or password"
          else
            s ← createAdminSession ctx r (ad_ID admin) email;
            match s with
            | Err _ => fail StatusInternalServerError "internal_error" "Failed to generate token"
            | Ok resp => audit ctx "admin.login" email [] ;; mret resp
            end
        end
  end.

(** Behind [RequireAdminWithSessions]. *)
Definition AdminLoginAs (r : Req) (body : option (Z * bool)) (me : Identity) : P AuthReply :=
  if (id_AdminID me =s "") || (id_SessionID me =s "")
  then fail StatusUnauthorized "session_required" "Session-backed admin login is required"
  else
  match body with
  | None => fail StatusBadRequest "bad_request" "Invalid JSON body"
  | Some (asn, persist) =>
    if asn <=? 0 then fail StatusBadRequest "bad_request" "Invalid ASN"
    else
      match en_LookupASNEmail env asn with
      | Err _ => fail StatusNotFound "asn_not_found" "ASN not found in DN42 registry"
      | Ok email =>
        s ← createImpersonationSession (rq_ctx r) r asn email (id_AdminID me) (id_SessionID me) persist;
        match s with
        | Err _ => fail StatusInternalServerError "internal_error" "Failed to generate token"
        | Ok resp =>
            audit (rq_ctx r) "admin.login_as" (id_Email me) [("asn", JNum asn); ("email", JStr (MaskEmail email))] ;;
            mret resp
        end
      end
  end.

(** ** GPG *)
Definition RequestGPGChallenge (r : Req) (body : option (Z * string)) : P AuthReply :=
  off ← login_disabled;
  if off : bool then fail StatusForbidden "login_disabled" "User login is currently disabled"
  else
  match body with
  | None => fail StatusBadRequest "bad_request" "Invalid JSON body"
  | Some (asn, turnstile) =>
    if asn <=? 0 then fail StatusBadRequest "bad_request" "Invalid ASN"
    else if negb (verifyTurnstile r turnstile)
    then fail StatusForbidden "turnstile_failed" "Bot verification failed. Please try again."
    else
      wait ← recently (ASNKey RateLimitASN asn) (60 * Second);
      if wait : bool
      then fail StatusTooManyRequests "rate_limited" "Please wait 60 seconds before requesting a new challenge"
      else
        ok ← checkIPRate (getClientIP r) 5;
        if negb ok then fail StatusTooManyRequests "rate_limited" "Too many requests from this IP"
        else
          match en_LookupMntnerGPGFingerprints env asn with
          | Err _ => fail StatusNotFound "asn_not_found" "ASN not found in DN42 registry"
          | Ok [] => fail StatusNotFound "gpg_not_supported" "No GPG key found in your mntner object"
          | Ok fingerprints =>
            b ← lifted rand_read;
            match b with
            | None => fail StatusInternalServerError "internal_error" "Failed to generate challenge"
            | Some b =>
              let challenge := EncodeToHex b in
              ctx ← sub_timeout (rq_ctx r) (5 * Second);
              now ← anow;
              c ← CreateGPGChallenge ctx asn fingerprints challenge (now + 10 * Minute);
              match c with
              | Err _ => fail StatusInternalServerError "internal_error" "Failed to store challenge"
              | Ok id =>
                stamp (ASNKey RateLimitASN asn) ;;
                done (JObj [("challenge_id", JStr id); ("challenge_text", JStr challenge); ("expires_in", JNum 600)])
              end
            end
          end
  end.

(** [ReadArmoredKeyRing], then [ReadKeyRing]. *)
Definition read_keys (data : string) : result (list Entity) :=
  match ReadArmoredKeyRing data with Ok l => Ok l | Err _ => ReadKeyRing data end.
Definition hex_lower (fp : list ascii) : string := EncodeToHex fp.
Definition fingerprint_matches (signer : string) (expected : list string) : bool :=
  existsb (λ fp, ToLower (remove_byte " " fp) =s ToLower signer) expected.
(** The keys of the fingerprints that can be fetched and read. *)
Definition fetched_keyring (fps : list string) : list Entity :=
  fps ≫= λ fp, match en_FetchGPGPublicKey env fp with
               | Ok data => match read_keys data with Ok l => l | Err _ => [] end
               | Err _ => []
               end.
Definition verifySignatureWithKeyring (block : Block) (expected : list string) (userPublicKey : string)
  : result (string * string) :=
  if TrimSpace userPublicKey <>s ""
  then
    match read_keys userPublicKey with
    | Err e => Err ("failed to parse the GPG public key you provided: " +:+ e)
    | Ok [] => Err "the GPG public key you provided contains no valid keys"
    | Ok entities =>
        match VerifySignature block entities with
        | Err e => Err ("cryptographic signature verification failed with your provided key: " +:+ e)
        | Ok fp =>
            let signer := hex_lower fp in
            if fingerprint_matches signer expected then Ok (signer, "user_provided")
            else Err ("the GPG key you provided (fingerprint: " +:+ signer
                      +:+ ") does not match any fingerprint in your mntner object")
        end
    end
  else
    match fetched_keyring expected with
    | [] => Err ("your GPG public key could not be found on any public keyserver. You can also paste your public key directly on the verification page. Fingerprints checked: "
                 +:+ String.concat ", " expected)
    | keyring =>
        match VerifySignature block keyring with
        | Err e => Err ("cryptographic signature verification failed: " +:+ e)
        | Ok fp =>
            let signer := hex_lower fp in
            if fingerprint_matches signer expected then Ok (signer, "keyserver")
            else Err "GPG key fingerprint does not match your mntner object"
        end
    end.

Definition signature_mark : string := "-----BEGIN PGP SIGNATURE-----".
(** What follows the first occurrence of [sep] ([strings.SplitN(s, sep, 2)]). *)
Fixpoint after (sep s : string) : option string :=
  if HasPrefix s sep then Some (TrimPrefix s sep)
  else match s with EmptyString => None | String _ s' => after sep s' end.
Definition newline : string := text [chr 10].
Definition quote : string := text [chr 34].
Definition tryDecodeDetachedSignature (signedMsg challenge : string) : option Block :=
  match after signature_mark signedMsg with
  | None => None
  | Some rest =>
      (Decode ("-----BEGIN PGP SIGNED MESSAGE-----" +:+ newline +:+ "Hash: SHA256" +:+ newline +:+ newline
               +:+ challenge +:+ newline +:+ signature_mark +:+ rest)).1
  end.
Definition signed_block (signedMsg challenge : string) : option Block :=
  match Decode signedMsg with
  | (Some b, _) => Some b
  | (None, rest) =>
      if Contains rest "BEGIN PGP SIGNATURE" then tryDecodeDetachedSignature signedMsg challenge else None
  end.

Definition VerifyGPGSignature (r : Req) (body : option (Z * string * string * string)) : P AuthReply :=
  off ← login_disabled;
  if off : bool then fail StatusForbidden "login_disabled" "User login is currently disabled"
  else
  match body with
  | None => fail StatusBadRequest "bad_request" "Invalid JSON body"
  | Some (asn, challengeID, signedMessage, publicKey) =>
    if (asn <=? 0) || (challengeID =s "") || (signedMessage =s "")
    then fail StatusBadRequest "bad_request" "ASN, challenge_id, and signed_message are required"
    else
      ok ← checkIPRate (getClientIP r) 10;
      if negb ok then fail StatusTooManyRequests "rate_limited" "Too many attempts from this IP"
      else
        ctx ← sub_timeout (rq_ctx r) (10 * Second);
        c ← GetGPGChallenge ctx challengeID asn;
        match c with
        | Err _ => fail StatusUnauthorized "invalid_challenge" "Invalid or expired challenge"
        | Ok ch =>
          match signed_block signedMessage (gc_Challenge ch) with
          | None => fail StatusBadRequest "invalid_signature"
                      ("Could not parse GPG signed message. Use: echo " +:+ quote +:+ "<challenge>" +:+ quote +:+ " | gpg --clearsign")
          | Some block =>
            if TrimSpace (Block_Bytes block) <>s TrimSpace (gc_Challenge ch)
            then fail StatusUnauthorized "invalid_signature" "Signed text does not match the challenge"
            else
              match verifySignatureWithKeyring block (gc_Fingerprints ch) publicKey with
              | Err e => fail StatusUnauthorized "invalid_signature" e
              | Ok (fingerprint, keySource) =>
                ok ← MarkGPGChallengeUsed ctx challengeID;
                match ok with
                | Ok true =>
                  let email := match en_LookupASNEmail env asn with Ok e => e | Err _ => "" end in
                  s ← createUserSession ctx r asn email "gpg";
                  match s with
                  | Err _ => fail StatusInternalServerError "internal_error" "Failed to generate token"
                  | Ok resp =>
                      audit ctx "user.login_gpg" (as_operator asn)
                        [("asn", JNum asn); ("fingerprint", JStr fingerprint); ("key_source", JStr keySource)] ;;
                      mret resp
                  end
                | _ => fail StatusUnauthorized "invalid_challenge" "Challenge already used"
                end
              end
          end
        end
  end.

Definition CheckGPGAvailability (body : option Z) : P AuthReply :=
  match body with
  | None => fail StatusBadRequest "bad_request" "Invalid JSON body"
  | Some asn =>
    if asn <=? 0 then fail StatusBadRequest "bad_request" "Invalid ASN"
    else done (JObj [("available", JBool (match en_LookupMntnerGPGFingerprints env asn with
                                          | Ok (_ :: _) => true | _ => false end))])
  end.
Definition LoginStatus : P AuthReply :=
  off ← login_disabled; done (JObj [("enabled", JBool (negb off))]).

(** ** Refreshing *)

(** The access token of a session, with its lifetime and that of the refresh
    token; the reply when the session has no valid subject. *)
Definition refreshed_token (a : AuthSession) : P (string + (result string * Z * Z)) :=
  if as_SubjectType a =s "admin"
  then match as_AdminID a with
       | None => mret (inl "Invalid admin session")
       | Some admin =>
           t ← SignAdminSessionJWT cfg_ admin (as_Email a) (as_ID a) (cf_AdminAccessTokenTTL cfg_);
           mret (inr (t, seconds (cf_AdminAccessTokenTTL cfg_), cf_AdminRefreshTokenTTL cfg_))
       end
  else if as_SubjectType a =s "user"
  then match as_ASN a with
       | None => mret (inl "Invalid user session")
       | Some asn =>
           t ← SignUserSessionJWT cfg_ asn (as_Email a) (as_ID a) (as_LoginMethod a) (cf_UserAccessTokenTTL cfg_);
           mret (inr (t, seconds (cf_UserAccessTokenTTL cfg_), cf_UserRefreshTokenTTL cfg_))
       end
  else if as_SubjectType a =s "impersonation"
  then match as_ASN a, as_AdminID a, as_ParentSessionID a with
       | Some asn, Some admin, Some parent =>
           t ← SignImpersonationJWT cfg_ asn (as_Email a) (as_ID a) admin parent;
           mret (inr (t, seconds (cf_ImpersonationTokenTTL cfg_), cf_ImpersonationTokenTTL cfg_))
       | _, _, _ => mret (inl "Invalid impersonation session")
       end
  else mret (inl "Session cannot be refreshed").
Definition unauthorized (msg : string) : AuthReply := refuse (ErrorJSON StatusUnauthorized "unauthorized" msg).
Definition refresh_reply (a : AuthSession) (token : string) (expiresIn now : Z) : AuthReply :=
  reply (LoggedIn (MkAuthResponse token expiresIn (seconds (as_ExpiresAt a - now)) (default 0 (as_ASN a)) a
    (if as_SubjectType a =s "admin" then "admin" else "user")
    (if as_SubjectType a =s "admin" then None else as_ASN a) (as_Email a))).
(** A replaced token that comes back within its ten seconds ends the session. *)
Definition refresh_reused (ctx : Ctx) (r : Req) (hash : string) : P AuthReply :=
  o ← GetAuthSessionByPreviousRefreshHash ctx hash;
  match o with
  | Ok reused =>
      _ ← RevokeAuthSession ctx (as_ID reused) "refresh_reuse_detected";
      _ ← RevokeChildAuthSessions ctx (as_ID reused) "refresh_reuse_detected";
      audit ctx "auth.refresh_reuse" (as_ID reused)
        [("session_id", JStr (as_ID reused)); ("ip", JStr (RealIP_ r)); ("user_agent", JStr (rq_UserAgent r))] ;;
      mret (clearRefreshCookie r (unauthorized "Invalid refresh token"))
  | Err _ => mret (clearRefreshCookie r (unauthorized "Invalid refresh token"))
  end.
Definition Refresh (r : Req) : P AuthReply :=
  match rq_cookie r with
  | None => mret (unauthorized "Missing refresh token")
  | Some cookie =>
    if TrimSpace cookie =s "" then mret (unauthorized "Missing refresh token")
    else
      let oldHash := hashRefreshToken cookie in
      ctx ← sub_timeout (rq_ctx r) (5 * Second);
      o ← GetAuthSessionByRefreshHash ctx oldHash;
      match o with
      | Err _ => refresh_reused ctx r oldHash
      | Ok a =>
        t ← generateRefreshToken;
        match t with
        | None => fail StatusInternalServerError "internal_error" "Failed to rotate token"
        | Some (raw, newHash) =>
          j ← refreshed_token a;
          match j with
          | inl msg => mret (unauthorized msg)
          | inr (Err _, _, _) => fail StatusInternalServerError "internal_error" "Failed to generate token"
          | inr (Ok token, expiresIn, ttl) =>
            ok ← RotateAuthSessionRefresh ctx (as_ID a) oldHash newHash;
            match ok with
            | Ok true =>
                again ← GetAuthSession ctx (as_ID a);
                now ← anow;
                let a := match again with Ok b => b | Err _ => a end in
                mret (setRefreshCookie r raw (seconds ttl) (refresh_reply a token expiresIn now))
            | _ => mret (clearRefreshCookie r (unauthorized "Refresh token was already used"))
            end
          end
        end
      end
  end.

(** ** Ending sessions *)
Definition ok_true : AuthReply := reply (Plain (JSON StatusOK (JObj [("ok", JBool true)]))).
Definition is_impersonation (a : AuthSession) : bool :=
  (as_SubjectType a =s "impersonation") && negb (isNil (as_ParentSessionID a)).
Definition Logout (r : Req) (me : Identity) : P AuthReply :=
  ctx ← sub_timeout (rq_ctx r) (5 * Second);
  let sid := id_SessionID me in
  if sid =s "" then mret (clearRefreshCookie r ok_true)
  else
    o ← GetAuthSession ctx sid;
    if match o with Ok a => is_impersonation a | Err _ => false end
    then _ ← RevokeAuthSession ctx sid "impersonation_logout"; mret ok_true
    else
      _ ← RevokeAuthSession ctx sid "logout";
      _ ← RevokeChildAuthSessions ctx sid "parent_logout";
      mret (clearRefreshCookie r ok_true).

Definition session_required : P AuthReply :=
  fail StatusUnauthorized "session_required" "Session-backed login is required".
(** Users manage their devices with a session that is not an administrator's. *)
Definition own_session (r : Req) (me : Identity) (next : P AuthReply) : P AuthReply :=
  if id_SessionID me =s "" then session_required
  else
    c ← ExtractClaims cfg_ r;
    if match c with Ok claims => cl_LoginMethod claims =s "impersonation" | Err _ => false end
    then fail StatusForbidden "forbidden" "Impersonation sessions cannot manage user devices"
    else next.
Definition list_failed : P AuthReply := fail StatusInternalServerError "internal_error" "Failed to list devices".
Definition not_found : P AuthReply := fail StatusNotFound "device_not_found" "Device not found".
Definition ListUserDevices (r : Req) (me : Identity) : P AuthReply :=
  own_session r me
    (ctx ← sub_timeout (rq_ctx r) (5 * Second);
     l ← ListUserAuthSessions ctx (id_ASN me);
     match l with Err _ => list_failed | Ok l => mret (reply (Devices l)) end).
Definition RevokeUserDevice (r : Req) (id : string) (me : Identity) : P AuthReply :=
  own_session r me
    (ctx ← sub_timeout (rq_ctx r) (5 * Second);
     o ← GetAuthSession ctx id;
     match o with
     | Ok a =>
         if bool_decide (as_ASN a = Some (id_ASN me)) && (as_SubjectType a =s "user")
         then
           e ← RevokeAuthSession ctx id "user_revoked";
           match e with
           | Err _ => fail StatusInternalServerError "internal_error" "Failed to revoke device"
           | Ok _ => mret (if id =s id_SessionID me then clearRefreshCookie r ok_true else ok_true)
           end
         else not_found
     | Err _ => not_found
     end).
Definition RevokeOtherUserDevices (r : Req) (me : Identity) : P AuthReply :=
  own_session r me
    (ctx ← sub_timeout (rq_ctx r) (5 * Second);
     l ← ListUserAuthSessions ctx (id_ASN me);
     match l with
     | Err _ => list_failed
     | Ok l =>
         forM l (λ a, if as_ID a =s id_SessionID me then mret tt
                      else _ ← RevokeAuthSession ctx (as_ID a) "user_revoked_other"; mret tt) ;;
         mret ok_true
     end).
Definition ListAdminDevices (r : Req) (me : Identity) : P AuthReply :=
  if id_SessionID me =s "" then session_required
  else
    ctx ← sub_timeout (rq_ctx r) (5 * Second);
    l ← ListAdminAuthSessions ctx (id_AdminID me);
    match l with Err _ => list_failed | Ok l => mret (reply (Devices l)) end.
Definition RevokeAdminDevice (r : Req) (id : string) (me : Identity) : P AuthReply :=
  if id_SessionID me =s "" then session_required
  else
    ctx ← sub_timeout (rq_ctx r) (5 * Second);
    o ← GetAuthSession ctx id;
    match o with
    | Ok a =>
        if bool_decide (as_AdminID a = Some (id_AdminID me)) && (as_SubjectType a =s "admin")
        then
          e ← RevokeAuthSession ctx id "admin_revoked";
          match e with
          | Err _ => fail StatusInternalServerError "internal_error" "Failed to revoke device"
          | Ok _ =>
              _ ← RevokeChildAuthSessions ctx id "parent_revoked";
              mret (if id =s id_SessionID me then clearRefreshCookie r ok_true else ok_true)
          end
        else not_found
    | Err _ => not_found
    end.
End login.
