(* ===== verification/Device.v ===== *)
(** * Signing in a device ([internal/handler/auth.go])

    A device shows a user code and polls with a device code; a signed-in user or
    administrator approves or denies; the device exchanges the approval for a
    session of its own. *)
From S2P Require Import Prelude GoLib GoNet Json Model Lock Cache Effects World Store Handler Session Token Login.
From stdpp Require Import options.
Local Open Scope Z_scope.
Local Open Scope go_scope.

Definition deviceGrantTTL : Z := 10 * Minute.
Definition devicePollInterval : Z := 5 * Second.
Definition deviceUserAlphabet : string := "ABCDEFGHJKLMNPQRSTUVWXYZ23456789".

(** Eight letters of the alphabet, none where a draw fails. *)
Fixpoint draw_letters (n : nat) : M (option (list ascii)) :=
  match n with
  | O => mret (Some [])
  | S n' =>
      i ← rand_Int (Z.of_nat (String.length deviceUserAlphabet));
      match i with
      | None => mret None
      | Some i =>
          rest ← draw_letters n';
          mret (option_map (cons (nth (Z.to_nat i) (bytes deviceUserAlphabet) "A"%char)) rest)
      end
  end.
(** How a code is shown: four letters, a dash, four letters. *)
Definition display_code (normalized : string) : string := truncate 4 normalized +:+ "-" +:+ drop_bytes 4 normalized.

Definition normalizeDeviceUserCode (code : string) : string :=
  remove_byte " " (remove_byte "-" (ToUpper (TrimSpace code))).
Definition validDeviceUserCode (code : string) : bool :=
  (String.length code =? 8)%nat && forallb (λ c, bool_decide (c ∈ bytes deviceUserAlphabet)) (bytes code).

Definition normalizeDeviceScopes (scopes : list string) : option (list string) :=
  match scopes with
  | [] => Some ["user"]
  | [s] => let scope := ToLower (TrimSpace s) in
           if (scope =s "user") || (scope =s "admin") then Some [scope] else None
  | _ => None
  end.
(** The first scope that is known, [user] without any. *)
Fixpoint grant_scope (scopes : list string) : string :=
  match scopes with
  | [] => "user"
  | raw :: rest =>
      let scope := ToLower (TrimSpace raw) in
      if scope =s "admin" then "admin" else if scope =s "user" then "user" else grant_scope rest
  end.
Definition deviceGrantScope (g : AuthDeviceGrant) : string := grant_scope (dg_Scopes g).

Definition firstNonEmptyString (values : list string) : string :=
  match list_find (λ v, TrimSpace v ≠ "") values with Some (_, v) => TrimSpace v | None => "" end.

(** The origin links are made with. *)
Fixpoint first_origin (fallback : string) (origins : list string) : string + string :=
  match origins with
  | [] => inr fallback
  | raw :: rest =>
      let origin := TrimRightByte (TrimSpace raw) "/" in
      if (origin =s "") || (origin =s "*") then first_origin fallback rest
      else if EqualFold origin "https://www.example.com" then inl origin
      else first_origin (if fallback =s "" then origin else fallback) rest
  end.
Definition frontendBaseURL (r : Req) (cfg : Config) : string :=
  match first_origin "" (Split (cf_CORSOrigin cfg) ",") with
  | inl origin => origin
  | inr fallback =>
      if fallback <>s "" then fallback
      else
        let proto := if negb (rq_TLS r) && EqualFold (rq_ForwardedProto r) "http" then "http" else "https" in
        let host := if TrimSpace (rq_ForwardedHost r) <>s "" then TrimSpace (rq_ForwardedHost r) else rq_Host r in
        proto +:+ "://" +:+ host
  end.

(** Only plain sessions of users and administrators decide about devices. *)
Definition claims_refused (c : Claims) : option Response :=
  if (cl_Role c <>s "user") && (cl_Role c <>s "admin")
  then Some (ErrorJSON StatusForbidden "forbidden" "A user or admin session is required to authorize TUI devices")
  else if (cl_LoginMethod c =s "impersonation") || (cl_ImpersonatedByAdminID c <>s "") || (cl_ParentSessionID c <>s "")
  then Some (ErrorJSON StatusForbidden "forbidden" "Impersonation sessions cannot authorize TUI devices")
  else None.
Definition deviceGrantAuthorizeForbidden (c : Claims) (g : AuthDeviceGrant) : option Response :=
  let scope := deviceGrantScope g in
  if (scope =s "admin") && (cl_Role c <>s "admin")
  then Some (ErrorJSON StatusForbidden "forbidden" "Only admin sessions can authorize admin TUI devices")
  else if (scope =s "user") && (cl_Role c <>s "user")
  then Some (ErrorJSON StatusForbidden "forbidden" "Only user sessions can authorize user TUI devices")
  else None.

Section device.
Set Default Proof Using "Type*".
Context `{Jwt} `{Digest} (env : AuthEnv).

Definition secret : string := cf_JWTSecret (en_cfg env).
Definition hashDeviceSecret (kind value : string) : string :=
  EncodeToHex (mac_sha256 (bytes secret) (bytes ("autopeer-device-auth:" +:+ kind +:+ ":" +:+ value))).
(** The raw code and its hash. *)
Definition generateDeviceCode : M (option (string * string)) :=
  b ← rand_read;
  mret (option_map (λ b, let raw := "ap_dev_" +:+ EncodeRawURL b in (raw, hashDeviceSecret "device" raw)) b).
Definition generateDeviceUserCode : M (option (string * string)) :=
  l ← draw_letters 8;
  mret (option_map (λ l, (display_code (text l), hashDeviceSecret "user" (text l))) l).

Definition deviceAuthorizeClaims (r : Req) : P (Response + Claims) :=
  c ← ExtractClaims (en_cfg env) r;
  mret (match c with
        | Err _ => inl (ErrorJSON StatusUnauthorized "unauthorized" "Invalid or missing token")
        | Ok claims => match claims_refused claims with Some e => inl e | None => inr claims end
        end).

Record deviceCodeReq : Type := MkDeviceCodeReq {
  dc_ClientName : string;
  dc_DeviceName : string;
  dc_Version : string;
  dc_Scopes : list string
}.
Definition shorten (n : nat) (s : string) : string := if (n <? String.length s)%nat then truncate n s else s.
Definition DeviceCode (r : Req) (body : option deviceCodeReq) : P AuthReply :=
  ok ← checkIPRate (getClientIP r) 20;
  if negb ok then fail StatusTooManyRequests "rate_limited" "Too many device authorization requests"
  else
  match body with
  | None => fail StatusBadRequest "bad_request" "Invalid JSON body"
  | Some req =>
    let clientName := shorten 80 (firstNonEmptyString [dc_ClientName req; "autopeer-tui"]) in
    let deviceName := shorten 120 (firstNonEmptyString [dc_DeviceName req; requestDeviceName r]) in
    let version := shorten 40 (TrimSpace (dc_Version req)) in
    match normalizeDeviceScopes (dc_Scopes req) with
    | None => fail StatusBadRequest "unsupported_scope" "Only one user or admin scope is supported"
    | Some scopes =>
      d ← lifted generateDeviceCode;
      match d with
      | None => fail StatusInternalServerError "internal_error" "Failed to generate device code"
      | Some (deviceCode, deviceHash) =>
        u ← lifted generateDeviceUserCode;
        match u with
        | None => fail StatusInternalServerError "internal_error" "Failed to generate user code"
        | Some (userCode, userHash) =>
          now ← anow;
          ctx ← sub_timeout (rq_ctx r) (5 * Second);
          e ← CreateAuthDeviceGrant ctx
                (MkGrant "" deviceHash userHash clientName deviceName version scopes "pending" None "" None None
                   (RealIP_ r) (rq_UserAgent r) None "" 0 None None 0 (now + deviceGrantTTL) None None None);
          match e with
          | Some _ => fail StatusInternalServerError "internal_error" "Failed to store device authorization request"
          | None =>
            let uri := frontendBaseURL r (en_cfg env) +:+ "/cli/activate" in
            done (JObj [("device_code", JStr deviceCode); ("user_code", JStr userCode); ("verification_uri", JStr uri);
                        ("verification_uri_complete", JStr (uri +:+ "?user_code=" +:+ userCode));
                        ("expires_in", JNum (seconds deviceGrantTTL)); ("interval", JNum (seconds devicePollInterval))])
          end
        end
      end
    end
  end.

Definition request_not_found : P AuthReply :=
  fail StatusNotFound "device_request_not_found" "Device authorization request not found or expired".
(** The unexpired grant of a user code, for claims that may decide about it. *)
Definition with_grant (ctx : Ctx) (claims : Claims) (normalized : string) (next : AuthDeviceGrant → P AuthReply) : P AuthReply :=
  g ← GetAuthDeviceGrantByUserCodeHash ctx (hashDeviceSecret "user" normalized);
  match g with
  | Err _ => request_not_found
  | Ok grant =>
      now ← anow;
      if dg_ExpiresAt grant <? now then request_not_found
      else match deviceGrantAuthorizeForbidden claims grant with
           | Some e => mret (refuse e)
           | None => next grant
           end
  end.
Definition DeviceRequest (r : Req) (user_code : string) : P AuthReply :=
  c ← deviceAuthorizeClaims r;
  match c with
  | inl e => mret (refuse e)
  | inr claims =>
    let normalized := normalizeDeviceUserCode user_code in
    if negb (validDeviceUserCode normalized) then fail StatusBadRequest "bad_request" "Invalid device code"
    else
      ctx ← sub_timeout (rq_ctx r) (5 * Second);
      with_grant ctx claims normalized (λ grant,
        done (JObj [("user_code", JStr (display_code normalized)); ("client_name", JStr (dg_ClientName grant));
                    ("device_name", JStr (dg_DeviceName grant)); ("version", JStr (dg_Version grant));
                    ("scopes", JArr (JStr <$> dg_Scopes grant)); ("status", JStr (dg_Status grant));
                    ("created_at", JStr (RFC3339Nano (dg_CreatedAt grant)));
                    ("expires_at", JStr (RFC3339Nano (dg_ExpiresAt grant)))]))
  end.

Definition parse_decision (s : string) : option decision :=
  let d := ToLower (TrimSpace s) in
  if d =s "approve" then Some Approved
  else if (d =s "deny") || (d =s "denied") then Some Denied else None.
Definition DeviceAuthorize (r : Req) (body : option (string * string)) (me : Identity) : P AuthReply :=
  c ← deviceAuthorizeClaims r;
  match c with
  | inl e => mret (refuse e)
  | inr claims =>
    match body with
    | None => fail StatusBadRequest "bad_request" "Invalid JSON body"
    | Some (user_code, decision) =>
      let normalized := normalizeDeviceUserCode user_code in
      if negb (validDeviceUserCode normalized) then fail StatusBadRequest "bad_request" "Invalid device code"
      else
        match parse_decision decision with
        | None => fail StatusBadRequest "bad_request" "Decision must be approve or deny"
        | Some d =>
          ctx ← sub_timeout (rq_ctx r) (5 * Second);
          with_grant ctx claims normalized (λ existing,
            let approvedASN := if deviceGrantScope existing =s "user" then Some (id_ASN me) else None in
            g ← AuthorizeAuthDeviceGrant ctx (hashDeviceSecret "user" normalized) d approvedASN (id_Email me)
                  (id_SessionID me) (RealIP_ r) (rq_UserAgent r);
            match g with
            | Err _ => fail StatusConflict "device_request_inactive"
                         "Device authorization request is not pending or has expired"
            | Ok grant =>
                let operator := if cl_Role claims =s "user" then as_operator (id_ASN me) else id_Email me in
                audit ctx "auth.device_authorize" operator
                  [("grant_id", JStr (dg_ID grant)); ("decision", JStr (decision_text d)); ("client", JStr (dg_ClientName grant));
                   ("device", JStr (dg_DeviceName grant)); ("scope", JStr (deviceGrantScope grant))] ;;
                done (JObj [("ok", JBool true); ("status", JStr (dg_Status grant))])
            end)
        end
    end
  end.

(** ** Exchanging an approval *)
Definition device_name (g : AuthDeviceGrant) : string :=
  let n := TrimSpace (dg_DeviceName g) in if n =s "" then "AutoPeer TUI" else n.
Definition createDeviceUserSession (ctx : Ctx) (r : Req) (g : AuthDeviceGrant) : P (result AuthReply) :=
  match dg_ApprovedASN g with
  | None => mret (Err "device grant has no approved user")
  | Some asn =>
    if dg_ApprovedEmail g =s "" then mret (Err "device grant has no approved user")
    else
      t ← generateRefreshToken;
      match t with
      | None => mret (Err "rand")
      | Some (raw, hash) =>
        now ← anow;
        s ← ExchangeAuthDeviceGrant ctx (dg_DeviceCodeHash g)
              (new_session r "user" (Some asn) None (dg_ApprovedEmail g) None hash (device_name g) "device_cli"
                 (now + cf_UserRefreshTokenTTL (en_cfg env)));
        match s with
        | Err e => mret (Err e)
        | Ok session =>
            j ← SignUserSessionJWT (en_cfg env) asn (dg_ApprovedEmail g) (as_ID session) "device_cli"
                  (cf_UserAccessTokenTTL (en_cfg env));
            mret (token <-? j ;;
                  Ok (setRefreshCookie r raw (seconds (cf_UserRefreshTokenTTL (en_cfg env)))
                        (reply (LoggedIn (MkAuthResponse token (seconds (cf_UserAccessTokenTTL (en_cfg env)))
                          (seconds (cf_UserRefreshTokenTTL (en_cfg env))) asn session "user" (Some asn) (dg_ApprovedEmail g))))))
        end
      end
  end.
Definition createDeviceAdminSession (ctx : Ctx) (r : Req) (g : AuthDeviceGrant) : P (result AuthReply) :=
  match dg_ApprovedBySessionID g with
  | None => mret (Err "device grant has no approved admin")
  | Some sid =>
    if dg_ApprovedEmail g =s "" then mret (Err "device grant has no approved admin")
    else
      o ← GetAuthSession ctx sid;
      match o with
      | Err e => mret (Err e)
      | Ok approver =>
        now ← anow;
        match as_AdminID approver with
        | Some admin =>
          if (as_SubjectType approver <>s "admin") || inactive now approver
          then mret (Err "approving admin session is inactive")
          else
            t ← generateRefreshToken;
            match t with
            | None => mret (Err "rand")
            | Some (raw, hash) =>
              now ← anow;
              s ← ExchangeAuthDeviceGrant ctx (dg_DeviceCodeHash g)
                    (new_session r "admin" None (Some admin) (as_Email approver) None hash (device_name g) "device_cli"
                       (now + cf_AdminRefreshTokenTTL (en_cfg env)));
              match s with
              | Err e => mret (Err e)
              | Ok session =>
                  j ← SignAdminSessionJWT (en_cfg env) admin (as_Email approver) (as_ID session)
                        (cf_AdminAccessTokenTTL (en_cfg env));
                  mret (token <-? j ;;
                        Ok (setRefreshCookie r raw (seconds (cf_AdminRefreshTokenTTL (en_cfg env)))
                              (reply (LoggedIn (MkAuthResponse token (seconds (cf_AdminAccessTokenTTL (en_cfg env)))
                                (seconds (cf_AdminRefreshTokenTTL (en_cfg env))) 0 session "admin" None (as_Email approver))))))
              end
            end
        | None => mret (Err "approving admin session is inactive")
        end
      end
  end.

Definition expired_token (msg : string) : P AuthReply := fail StatusBadRequest "expired_token" msg.
Definition session_of (a : AuthReply) : string :=
  match logged_in a with Some x => as_ID (ar_Session x) | None => "" end.
Definition operator_of (a : AuthReply) : string :=
  match logged_in a with
  | Some x => if ar_Role x =s "user" then as_operator (ar_ASN x) else ar_Email x
  | None => ""
  end.
(** The body: grant type and device code. *)
Definition DeviceToken (r : Req) (body : option (string * string)) : P AuthReply :=
  ok ← checkIPRate (getClientIP r) 60;
  if negb ok then fail StatusTooManyRequests "slow_down" "Slow down device authorization polling"
  else
  match body with
  | None => fail StatusBadRequest "bad_request" "Invalid JSON body"
  | Some (grantType, deviceCode) =>
    if (grantType <>s "urn:ietf:params:oauth:grant-type:device_code") || (TrimSpace deviceCode =s "")
    then fail StatusBadRequest "unsupported_grant_type" "Invalid device authorization grant"
    else
      ctx ← sub_timeout (rq_ctx r) (5 * Second);
      g ← PollAuthDeviceGrant ctx (hashDeviceSecret "device" (TrimSpace deviceCode)) devicePollInterval;
      match g with
      | Err _ => expired_token "Invalid or expired device code"
      | Ok grant =>
        now ← anow;
        if dg_ExpiresAt grant <? now then expired_token "Device code expired"
        else if dg_Status grant =s "pending"
        then fail StatusBadRequest "authorization_pending" "Authorization is still pending"
        else if dg_Status grant =s "denied"
        then fail StatusBadRequest "access_denied" "Device authorization was denied"
        else if dg_Status grant =s "exchanged" then expired_token "Device code was already exchanged"
        else if dg_Status grant =s "approved"
        then
          s ← (if deviceGrantScope grant =s "admin" then createDeviceAdminSession ctx r grant
               else createDeviceUserSession ctx r grant);
          match s with
          | Err _ => fail StatusUnauthorized "expired_token" "Device code could not be exchanged"
          | Ok resp =>
              audit ctx "auth.device_exchange" (operator_of resp)
                [("grant_id", JStr (dg_ID grant)); ("session", JStr (session_of resp)); ("client", JStr (dg_ClientName grant));
                 ("device", JStr (dg_DeviceName grant)); ("scope", JStr (deviceGrantScope grant))] ;;
              mret resp
          end
        else expired_token "Device authorization request is inactive"
      end
  end.
End device.
