(* ===== verification/SignIn.v ===== *)
(** * Sign-in among other requests

    What any number of sign-in requests, clean-ups and other programs, run
    action by action in any order, can do to codes, sessions and grants. *)
From S2P Require Import Prelude GoLib GoNet Json Model Lock Cache Effects World Store Handler Session Token Login Device.
From stdpp Require Import sorting options.
Local Open Scope Z_scope.
Local Open Scope go_scope.

(** ** The world's part *)
Record elapses (w w' : World) : Prop := {
  el_now : w_now w ≤ w_now w';
  el_uuid : w_uuid w' `suffix_of` w_uuid w;
  el_rnd : e_rnd (w_ext w') `suffix_of` e_rnd (w_ext w)
}.
#[export] Instance elapses_preorder : PreOrder elapses.
Proof.
  split; [by intros w; split|]. intros w1 w2 w3 [A1 A2 A3] [B1 B2 B3].
  split; [lia|by etransitivity|by etransitivity].
Qed.
Lemma elapses_same w w' : w_now w' = w_now w → w_ext w' = w_ext w → elapses w w'.
Proof. intros H1 H2. split; unfold w_uuid; rewrite ?H1, ?H2; done. Qed.
Lemma elapses_draws w :
  elapses w (draw_db w).2 ∧ elapses w (draw_redis w).2 ∧ elapses w (draw_rnd w).2 ∧ elapses w (draw_uuid w).2.
Proof.
  destruct w as [d c r l cs [edb eu er ea ere] lg]. unfold draw_db, draw_redis, draw_rnd, draw_uuid. cbn.
  split_and!; [destruct edb|destruct ere|destruct er|destruct eu]; cbn;
    split; unfold w_uuid; cbn; try done; try lia; by apply suffix_cons_r.
Qed.
Abbreviation passes := (all_acts elapses).
Lemma passes_act {R} (f : World → R * World) : (∀ w, elapses w (f w).2) → passes (act f).
Proof. apply all_acts_act. Qed.
Lemma passes_stmt {R} ctx (onerr : string → R) (f : World → R * World) :
  (∀ w, elapses w (f w).2) → passes (stmt ctx onerr f).
Proof.
  intros H. apply passes_act. intros w. unfold stmt_step. destruct (expired _ _); [reflexivity|].
  pose proof (elapses_draws w) as (Hd & _). destruct (draw_db w) as [[e|] w']; [done|]. etransitivity; [exact Hd|apply H].
Qed.
Lemma passes_gets {R} (f : World → R) : passes (gets f).
Proof. by apply passes_act. Qed.
Lemma passes_cache {R} (f : option string → World → R * Cache) :
  passes (act (λ w, let '(down, w1) := draw_redis w in let '(r, c) := f down w1 in (r, set_cache c w1))).
Proof.
  apply passes_act. intros w. pose proof (elapses_draws w) as (_ & Hd & _). destruct (draw_redis w) as [down w1].
  destruct (f down w1) as [r c]. etransitivity; [exact Hd|]. by apply elapses_same.
Qed.
Lemma passes_cacheGet {A} (dec : json → option A) b k : passes (cacheGet dec b k).
Proof. apply (passes_cache (λ down w1, Get dec (w_now w1) down (w_cache w1) b k)). Qed.
Lemma passes_cachePut b k v t : passes (cachePut b k v t).
Proof. apply (passes_cache (λ down w1, Put (w_now w1) down None (w_cache w1) b k v t)). Qed.
Lemma passes_rand : passes rand_read.
Proof. apply passes_act. intros w. apply elapses_draws. Qed.
Lemma passes_audit ctx a o t d : passes (auditLog ctx a o t d).
Proof. apply passes_stmt. intros w. by apply elapses_same. Qed.
Lemma passes_mail t tm v : passes (sendMail t tm v).
Proof. apply passes_act. intros w. by apply elapses_same. Qed.
Lemma passes_query {R} ctx (f : World → result R) : passes (query ctx f).
Proof. by apply passes_stmt. Qed.
Create HintDb pass.
#[export] Hint Resolve passes_gets passes_cacheGet passes_cachePut passes_rand passes_audit passes_mail passes_query : pass.
(** Walks a program of the world. *)
Ltac pass_walk :=
  repeat match goal with
  | |- all_acts _ (mret _) => exact I
  | |- all_acts _ (_ ≫= _) => apply all_acts_bind; [|intros ?]
  | |- all_acts _ (match ?x with _ => _ end) => destruct x
  | |- all_acts _ _ => solve [auto with pass nocore]
  | |- _ => progress cbv beta iota zeta
  end.
Lemma passes_setting key : passes (GetSiteSettingValue key).
Proof. unfold GetSiteSettingValue, cached_setting, now_, GetSiteSetting. pass_walk. Qed.
Lemma passes_Int m : passes (rand_Int m).
Proof. unfold rand_Int. pass_walk. Qed.
Lemma passes_NewString : passes (u ← act draw_uuid; mret (default "" u)).
Proof. apply all_acts_bind; [|done]. apply passes_act. intros w. apply elapses_draws. Qed.
#[export] Hint Resolve passes_setting passes_Int passes_NewString : pass.
Lemma passes_letters n : passes (draw_letters n).
Proof. induction n as [|n IH]; cbn [draw_letters]; pass_walk. Qed.
Lemma passes_exec {A} (p : M A) : passes p → passes (act (exec p)).
Proof. intros Hp. apply passes_act. intros w. by apply rtc_within; [apply _|apply all_acts_exec]. Qed.
#[export] Hint Resolve passes_letters : pass.

(** ** What rows go through *)

(** [o] after a step: still there and related, or, where rows may go, gone. *)
Definition row_steps {A} (step : A → A → Prop) (may_go : Prop) (o o' : option A) : Prop :=
  match o, o' with
  | Some a, Some b => step a b
  | Some _, None => may_go
  | None, None => True
  | None, Some _ => False
  end.
Lemma row_steps_refl {A} (step : A → A → Prop) `{!Reflexive step} g o : row_steps step g o o.
Proof. destruct o; cbn; [reflexivity|done]. Qed.
Lemma row_steps_trans {A} (step : A → A → Prop) `{!Transitive step} g o1 o2 o3 :
  row_steps step g o1 o2 → row_steps step g o2 o3 → row_steps step g o1 o3.
Proof. destruct o1, o2, o3; cbn; try done. apply transitivity. Qed.

(** A code is for one operator, and once used it stays used. *)
Record code_step (a b : UserLoginCode) : Prop := {
  cs_ID : lc_ID b = lc_ID a;
  cs_ASN : lc_ASN b = lc_ASN a;
  cs_Used : lc_Used a = true → lc_Used b = true
}.
#[export] Instance code_step_preorder : PreOrder code_step.
Proof. split; [by intros a; split|]. intros a b c [] []. split; [congruence..|auto]. Qed.
Record challenge_step (a b : GPGChallenge) : Prop := {
  hs_ASN : gc_ASN b = gc_ASN a;
  hs_Used : gc_Used a = true → gc_Used b = true
}.
#[export] Instance challenge_step_preorder : PreOrder challenge_step.
Proof. split; [by intros a; split|]. intros a b c [] []. split; [congruence|auto]. Qed.

(** A session keeps its subject, its parent and its expiry, and once revoked it
    stays so and has no refresh token. *)
Record session_step (a b : AuthSession) : Prop := {
  ss_ID : as_ID b = as_ID a;
  ss_SubjectType : as_SubjectType b = as_SubjectType a;
  ss_ASN : as_ASN b = as_ASN a;
  ss_AdminID : as_AdminID b = as_AdminID a;
  ss_Email : as_Email b = as_Email a;
  ss_Parent : as_ParentSessionID b = as_ParentSessionID a;
  ss_Method : as_LoginMethod b = as_LoginMethod a;
  ss_Created : as_CreatedAt b = as_CreatedAt a;
  ss_Expires : as_ExpiresAt b = as_ExpiresAt a;
  ss_Revoked t : as_RevokedAt a = Some t → as_RevokedAt b = Some t ∧ as_RefreshTokenHash b = as_RefreshTokenHash a
}.
#[export] Instance session_step_preorder : PreOrder session_step.
Proof.
  split; [by intros a; split|]. intros a b c [] []. split; try congruence.
  intros t Ht. destruct (ss_Revoked0 t Ht) as [H1 H2]. destruct (ss_Revoked1 t H1) as [H3 H4]. by rewrite H4.
Qed.

(** The stages of a device grant. *)
Inductive GrantStage : Type :=
| GPending
| GApproved (asn : option Z) (email : string)
| GDenied
| GExchanged (asn : option Z) (email : string)
| GOther.
Inductive grant_move : GrantStage → GrantStage → Prop :=
| move_approve asn email : grant_move GPending (GApproved asn email)
| move_deny : grant_move GPending GDenied
| move_exchange asn email : grant_move (GApproved asn email) (GExchanged asn email).
Definition stage (g : AuthDeviceGrant) : GrantStage :=
  if dg_Status g =s "pending" then GPending
  else if dg_Status g =s "approved" then GApproved (dg_ApprovedASN g) (dg_ApprovedEmail g)
  else if dg_Status g =s "denied" then GDenied
  else if dg_Status g =s "exchanged" then GExchanged (dg_ApprovedASN g) (dg_ApprovedEmail g)
  else GOther.
(** A grant keeps its codes, scope and expiry, and its stage moves along the
    state machine. *)
Record grant_step (g g' : AuthDeviceGrant) : Prop := {
  gs_ID : dg_ID g' = dg_ID g;
  gs_Device : dg_DeviceCodeHash g' = dg_DeviceCodeHash g;
  gs_User : dg_UserCodeHash g' = dg_UserCodeHash g;
  gs_Scopes : dg_Scopes g' = dg_Scopes g;
  gs_Expires : dg_ExpiresAt g' = dg_ExpiresAt g;
  gs_stage : rtc grant_move (stage g) (stage g')
}.
#[export] Instance grant_step_preorder : PreOrder grant_step.
Proof.
  split; [by intros g; split|]. intros g1 g2 g3 [] []. split; try congruence. by etransitivity.
Qed.
Lemma grant_step_same g g' :
  dg_ID g' = dg_ID g → dg_DeviceCodeHash g' = dg_DeviceCodeHash g → dg_UserCodeHash g' = dg_UserCodeHash g →
  dg_Scopes g' = dg_Scopes g → dg_ExpiresAt g' = dg_ExpiresAt g → stage g' = stage g → grant_step g g'.
Proof. intros ????? H. split; try done. by rewrite H. Qed.

(** ** The state's part *)
Inductive issue : Type := NewCode (asn : Z) | NewChallenge (asn : Z).
Definition s_uuid (s : ASt) : list string := w_uuid (a_world s).
Definition unused_codes (asn : Z) (s : ASt) : gset string :=
  dom (filter (λ kc : string * UserLoginCode, lc_ASN kc.2 = asn ∧ lc_Used kc.2 = false) (s_codes s)).
Definition unused_challenges (asn : Z) (s : ASt) : gset string :=
  dom (filter (λ kc : string * GPGChallenge, gc_ASN kc.2 = asn ∧ gc_Used kc.2 = false) (s_gpg s)).
(** The sessions that [h] refreshes. *)
Definition holders (h : string) (m : gmap string AuthSession) : gset string := dom (filter (λ ka, has_refresh h ka.2) m).
Lemma elem_of_holders h m id : id ∈ holders h m ↔ ∃ a, m !! id = Some a ∧ has_refresh h a.
Proof. unfold holders. rewrite elem_of_dom. split; intros [a H]; exists a; by apply map_lookup_filter_Some in H || apply map_lookup_filter_Some. Qed.

(** Ids are drawn once. *)
Record ids_ok (s : ASt) : Prop := {
  io_nodup : NoDup (s_uuid s);
  io_codes id c : s_codes s !! id = Some c → lc_ID c = id ∧ id ∉ s_uuid s;
  io_gpg id c : s_gpg s !! id = Some c → id ∉ s_uuid s
}.

(** What one action may do: [allowed] are the credentials it may issue, [h] a
    refresh hash it must not bring into the table. *)
Record evolves (allowed : issue → Prop) (h : string) (s s' : ASt) : Prop := {
  ev_world : elapses (a_world s) (a_world s');
  ev_codes asn : ¬ allowed (NewCode asn) → unused_codes asn s' ⊆ unused_codes asn s;
  ev_gpg asn : ¬ allowed (NewChallenge asn) → unused_challenges asn s' ⊆ unused_challenges asn s;
  ev_code_rows id : id ∉ s_uuid s → row_steps code_step True (s_codes s !! id) (s_codes s' !! id);
  ev_gpg_rows id : id ∉ s_uuid s → row_steps challenge_step True (s_gpg s !! id) (s_gpg s' !! id);
  ev_ids : ids_ok s → ids_ok s';
  ev_sessions id : id ∉ s_uuid s → row_steps session_step True (s_sessions s !! id) (s_sessions s' !! id);
  ev_grants id : id ∉ s_uuid s → row_steps grant_step False (s_grants s !! id) (s_grants s' !! id);
  ev_refresh : holders h (s_sessions s') ⊆ holders h (s_sessions s);
  ev_admins : au_admins (a_auth s') = au_admins (a_auth s)
}.
Lemma suffix_notin {A} (x : A) l l' : l' `suffix_of` l → x ∉ l → x ∉ l'.
Proof. intros [k ->] Hx Hin. apply Hx. set_solver. Qed.
#[export] Instance evolves_preorder allowed h : PreOrder (evolves allowed h).
Proof.
  split.
  - intros s. split; try done; intros id _; apply row_steps_refl; apply _.
  - intros s1 s2 s3 [W1 C1 G1 X1 Y1 I1 S1 D1 R1 A1] [W2 C2 G2 X2 Y2 I2 S2 D2 R2 A2].
    pose proof (el_uuid _ _ W1) as Hu. split; [by etransitivity|..].
    + intros asn Ha. transitivity (unused_codes asn s2); auto.
    + intros asn Ha. transitivity (unused_challenges asn s2); auto.
    + intros id Hid. eapply row_steps_trans; [apply _|by apply X1|]. apply X2. by eapply suffix_notin.
    + intros id Hid. eapply row_steps_trans; [apply _|by apply Y1|]. apply Y2. by eapply suffix_notin.
    + auto.
    + intros id Hid. eapply row_steps_trans; [apply _|by apply S1|]. apply S2. by eapply suffix_notin.
    + intros id Hid. eapply row_steps_trans; [apply _|by apply D1|]. apply D2. by eapply suffix_notin.
    + by etransitivity.
    + congruence.
Qed.
Lemma evolves_weaken (al al' : issue → Prop) h s s' : (∀ i, al i → al' i) → evolves al h s s' → evolves al' h s s'.
Proof. intros H []. split; auto. Qed.

(** The hashes of device grants are theirs alone. *)
Record grants_wf (s : ASt) : Prop := {
  gw_id id g : s_grants s !! id = Some g → dg_ID g = id;
  gw_device id id' g g' : s_grants s !! id = Some g → s_grants s !! id' = Some g' →
    dg_DeviceCodeHash g = dg_DeviceCodeHash g' → id = id'
}.

(** Updates of one table. *)
Section tables.
Context (al : issue → Prop) (h : string).

Lemma ids_ok_world s w : elapses (a_world s) w → ids_ok s → ids_ok (set_world w s).
Proof.
  intros [_ Hu _] [H1 H2 H3]. unfold s_uuid in *. split; cbn.
  - destruct Hu as [k Hk]. rewrite Hk in H1. by apply NoDup_app in H1 as (_ & _ & H1).
  - intros id c Hc. destruct (H2 _ _ Hc). split; [done|]. by eapply suffix_notin.
  - intros id c Hc. eapply suffix_notin; [exact Hu|]. by eapply H3.
Qed.
Lemma ev_lifted s w : elapses (a_world s) w → evolves al h s (set_world w s).
Proof.
  intros Hw. split; try done; try (intros id _; apply row_steps_refl; apply _). by apply ids_ok_world.
Qed.
(** Codes that can only be used up or go. *)
Lemma ev_set_codes s m :
  (∀ id c', m !! id = Some c' → ∃ c, s_codes s !! id = Some c ∧ code_step c c') → evolves al h s (set_codes m s).
Proof.
  intros Hm. split; try done; try (intros id _; apply row_steps_refl; apply _).
  - intros asn _ id. unfold unused_codes. rewrite !elem_of_dom. intros [c' (Hc' & H1 & H2)%map_lookup_filter_Some].
    destruct (Hm id c' Hc') as (c & Hc & [_ Ha Hu]). exists c. apply map_lookup_filter_Some. cbn in *.
    split_and!; [done|congruence|]. destruct (lc_Used c); [|done]. by rewrite Hu in H2.
  - intros id _. change (s_codes (set_codes m s)) with m. destruct (m !! id) as [c'|] eqn:E.
    + destruct (Hm _ _ E) as (c & -> & Hs). exact Hs.
    + by destruct (s_codes s !! id).
  - intros [H1 H2 H3]. split; [done| |done]. intros id c' (c & Hc & Hs)%Hm. rewrite (cs_ID _ _ Hs). by apply (H2 id).
Qed.
Lemma ev_set_gpg s m :
  (∀ id c', m !! id = Some c' → ∃ c, s_gpg s !! id = Some c ∧ challenge_step c c') → evolves al h s (set_gpg m s).
Proof.
  intros Hm. split; try done; try (intros id _; apply row_steps_refl; apply _).
  - intros asn _ id. unfold unused_challenges. rewrite !elem_of_dom. intros [c' (Hc' & H1 & H2)%map_lookup_filter_Some].
    destruct (Hm id c' Hc') as (c & Hc & [Ha Hu]). exists c. apply map_lookup_filter_Some. cbn in *.
    split_and!; [done|congruence|]. destruct (gc_Used c); [|done]. by rewrite Hu in H2.
  - intros id _. change (s_gpg (set_gpg m s)) with m. destruct (m !! id) as [c'|] eqn:E.
    + destruct (Hm _ _ E) as (c & -> & Hs). exact Hs.
    + by destruct (s_gpg s !! id).
  - intros [H1 H2 H3]. split; [done..|]. intros id c' (c & Hc & Hs)%Hm. by apply (H3 id c).
Qed.
Lemma ev_set_sessions s m :
  (∀ id, id ∉ s_uuid s → row_steps session_step True (s_sessions s !! id) (m !! id)) →
  holders h m ⊆ holders h (s_sessions s) → evolves al h s (set_sessions m s).
Proof.
  intros H1 H2. split; try done; try (intros id _; apply row_steps_refl; apply _). by intros [].
Qed.
Lemma ev_set_grants s m :
  (∀ id, id ∉ s_uuid s → row_steps grant_step False (s_grants s !! id) (m !! id)) → evolves al h s (set_grants m s).
Proof.
  intros H1. split; try done; try (intros id _; apply row_steps_refl; apply _). by intros [].
Qed.

Lemma fresh_id_spec s u s1 :
  fresh_id s = (u, s1) → a_auth s1 = a_auth s ∧ elapses (a_world s) (a_world s1)
  ∧ (∀ id, u = Some id → s_uuid s = id :: s_uuid s1).
Proof.
  unfold fresh_id. pose proof (elapses_draws (a_world s)) as (_ & _ & _ & Hu).
  destruct (draw_uuid (a_world s)) as [u' w] eqn:E. intros [= <- <-]. split_and!; [done|exact Hu|].
  intros id ->. unfold s_uuid, w_uuid. cbn. revert E. unfold draw_uuid. destruct (e_uuid _); [done|]. by intros [= -> <-].
Qed.
Lemma same_tables s s1 :
  a_auth s1 = a_auth s → s_codes s1 = s_codes s ∧ s_gpg s1 = s_gpg s ∧ s_sessions s1 = s_sessions s ∧ s_grants s1 = s_grants s.
Proof. unfold s_codes, s_gpg, s_sessions, s_grants. by intros ->. Qed.
Lemma same_grants s s1 : a_auth s1 = a_auth s → s_grants s1 = s_grants s.
Proof. apply same_tables. Qed.
Lemma ev_fresh s s1 : a_auth s1 = a_auth s → elapses (a_world s) (a_world s1) → evolves al h s s1.
Proof. intros E Hw. destruct s1 as [d w]. cbn in *. subst d. apply (ev_lifted s w Hw). Qed.

Lemma ids_ok_fresh s s1 id :
  a_auth s1 = a_auth s → s_uuid s = id :: s_uuid s1 → ids_ok s →
  NoDup (s_uuid s1) ∧ id ∉ s_uuid s1
  ∧ (∀ k c, s_codes s1 !! k = Some c → lc_ID c = k ∧ k ∉ s_uuid s1) ∧ (∀ k c, s_gpg s1 !! k = Some c → k ∉ s_uuid s1).
Proof.
  intros Ha Hu [H1 H2 H3]. rewrite Hu in *. apply NoDup_cons in H1 as [H0 H1]. unfold s_codes, s_gpg in *. rewrite Ha in *.
  split_and!; [done..| |]; intros k c Hc.
  - destruct (H2 _ _ Hc). set_solver.
  - specialize (H3 _ _ Hc). set_solver.
Qed.
Lemma ev_new_code s s1 id c :
  a_auth s1 = a_auth s → elapses (a_world s) (a_world s1) → s_uuid s = id :: s_uuid s1 → s_codes s1 !! id = None →
  lc_ID c = id → al (NewCode (lc_ASN c)) → evolves al h s (set_codes (<[id := c]> (s_codes s1)) s1).
Proof.
  intros Ha Hw Hu Hn Hid Hal.
  destruct (same_tables s s1 Ha) as (Hc & Ho & Hs & Hg).
  split; try done.
  - intros asn Hasn. unfold unused_codes. change (s_codes (set_codes ?m _)) with m. rewrite Hc in Hn |- *.
    rewrite map_filter_insert_False; [by rewrite delete_id|]. cbn. intros [<- _]. done.
  - intros asn _. unfold unused_challenges. change (s_gpg (set_codes _ s1)) with (s_gpg s1). by rewrite Ho.
  - intros k Hk. change (s_codes (set_codes ?m _)) with m. rewrite Hc. rewrite lookup_insert_ne by (rewrite Hu in Hk; set_solver).
    apply row_steps_refl. apply _.
  - intros k _. change (s_gpg (set_codes _ s1)) with (s_gpg s1). rewrite Ho. apply row_steps_refl. apply _.
  - intros Hio. destruct (ids_ok_fresh s s1 id Ha Hu Hio) as (H1 & H2 & H3 & H4). split; [done| |done].
    intros k x. change (s_codes (set_codes ?m _)) with m. intros [(<- & <-)|(_ & Hx)]%lookup_insert_Some; [done|by apply H3].
  - intros k _. change (s_sessions _) with (s_sessions s1) at 2. rewrite Hs. apply row_steps_refl. apply _.
  - intros k _. change (s_grants _) with (s_grants s1) at 2. rewrite Hg. apply row_steps_refl. apply _.
  - change (s_sessions (set_codes _ s1)) with (s_sessions s1). by rewrite Hs.
  - cbn. by rewrite Ha.
Qed.
Lemma ev_new_challenge s s1 id c :
  a_auth s1 = a_auth s → elapses (a_world s) (a_world s1) → s_uuid s = id :: s_uuid s1 → s_gpg s1 !! id = None →
  al (NewChallenge (gc_ASN c)) → evolves al h s (set_gpg (<[id := c]> (s_gpg s1)) s1).
Proof.
  intros Ha Hw Hu Hn Hal.
  destruct (same_tables s s1 Ha) as (Ho & Hc & Hs & Hg).
  split; try done.
  - intros asn _. unfold unused_codes. change (s_codes (set_gpg _ s1)) with (s_codes s1). by rewrite Ho.
  - intros asn Hasn. unfold unused_challenges. change (s_gpg (set_gpg ?m _)) with m. rewrite Hc in Hn |- *.
    rewrite map_filter_insert_False; [by rewrite delete_id|]. cbn. intros [<- _]. done.
  - intros k _. change (s_codes (set_gpg _ s1)) with (s_codes s1). rewrite Ho. apply row_steps_refl. apply _.
  - intros k Hk. change (s_gpg (set_gpg ?m _)) with m. rewrite Hc. rewrite lookup_insert_ne by (rewrite Hu in Hk; set_solver).
    apply row_steps_refl. apply _.
  - intros Hio. destruct (ids_ok_fresh s s1 id Ha Hu Hio) as (H1 & H2 & H3 & H4). split; [done..|].
    intros k x. change (s_gpg (set_gpg ?m _)) with m. intros [(<- & <-)|(_ & Hx)]%lookup_insert_Some; [done|by eapply H4].
  - intros k _. change (s_sessions _) with (s_sessions s1) at 2. rewrite Hs. apply row_steps_refl. apply _.
  - intros k _. change (s_grants _) with (s_grants s1) at 2. rewrite Hg. apply row_steps_refl. apply _.
  - change (s_sessions (set_gpg _ s1)) with (s_sessions s1). by rewrite Hs.
  - cbn. by rewrite Ha.
Qed.

Lemma ev_map_sessions s f :
  (∀ a, session_step a (f a)) → (∀ a, ¬ has_refresh h a → ¬ has_refresh h (f a)) →
  evolves al h s (set_sessions (f <$> s_sessions s) s).
Proof.
  intros Hf Hh. apply ev_set_sessions.
  - intros id _. rewrite lookup_fmap. destruct (s_sessions s !! id); cbn; auto.
  - intros id. rewrite !elem_of_holders. intros (b & Hb & Hr). apply lookup_fmap_Some in Hb as (a & <- & Ha). exists a.
    split; [done|]. apply dec_stable. naive_solver.
Qed.
Lemma ev_alter_session s f id :
  (∀ a, session_step a (f a)) → (∀ a, ¬ has_refresh h a → ¬ has_refresh h (f a)) →
  evolves al h s (set_sessions (alter f id (s_sessions s)) s).
Proof.
  intros Hf Hh. apply ev_set_sessions.
  - intros id' _. destruct (decide (id = id')) as [->|Hid].
    + rewrite lookup_alter_eq. destruct (s_sessions s !! id'); cbn; auto.
    + rewrite lookup_alter_ne by done. apply row_steps_refl. apply _.
  - intros id'. rewrite !elem_of_holders. intros (b & Hb & Hr).
    apply lookup_alter_Some in Hb as [(-> & a & Ha & ->)|(_ & Hb)]; [|by exists b]. exists a. split; [done|]. apply dec_stable. naive_solver.
Qed.
Lemma ev_insert_session s id a b :
  s_sessions s !! id = Some a → session_step a b → (¬ has_refresh h a → ¬ has_refresh h b) →
  evolves al h s (set_sessions (<[id := b]> (s_sessions s)) s).
Proof.
  intros Ha Hs Hh. apply ev_set_sessions.
  - intros id' _. destruct (decide (id = id')) as [<-|Hid].
    + by rewrite lookup_insert_eq, Ha.
    + rewrite lookup_insert_ne by done. apply row_steps_refl. apply _.
  - intros id'. rewrite !elem_of_holders. intros (c & Hc & Hr). apply lookup_insert_Some in Hc as [(<- & <-)|(_ & Hc)]; [|by exists c].
    exists a. split; [done|]. apply dec_stable. naive_solver.
Qed.
Lemma ev_put_grant s g g' :
  grants_wf s → s_grants s !! dg_ID g = Some g → grant_step g g' → evolves al h s (put_grant g' s).
Proof.
  intros Hwf Hg Hs. apply ev_set_grants. intros id _. rewrite (gs_ID _ _ Hs).
  destruct (decide (dg_ID g = id)) as [<-|Hid].
  - by rewrite lookup_insert_eq, Hg.
  - rewrite lookup_insert_ne by done. apply row_steps_refl. apply _.
Qed.
End tables.

Section moves.
Set Default Proof Using "Type*".
Context {JW : Jwt} {DG : Digest} {BC : Bcrypt} {GP : OpenPGP} (env : AuthEnv) (al : issue → Prop) (h : string).

(** No random token still to be drawn hashes to [h]. *)
Definition fresh_tokens (s : ASt) : Prop :=
  h ≠ "" → ∀ b, Some b ∈ e_rnd (w_ext (a_world s)) → hashRefreshToken (EncodeToHex b) ≠ h.
Record ok (s : ASt) : Prop := { ok_grants : grants_wf s; ok_tokens : fresh_tokens s }.
Record moves (s s' : ASt) : Prop := { mv_evolves : evolves al h s s'; mv_grants : grants_wf s' }.
Abbreviation holds := (under ok moves).

Lemma moves_ok s s' : ok s → moves s s' → ok s'.
Proof.
  intros [_ Ht] [He Hg]. split; [done|]. intros Hh b Hb. apply Ht; [done|].
  destruct (el_rnd _ _ (ev_world _ _ _ _ He)) as [k ->]. set_solver.
Qed.
Lemma moves_trans s1 s2 s3 : moves s1 s2 → moves s2 s3 → moves s1 s3.
Proof. intros [H1 _] [H2 Hg]. split; [by etransitivity|done]. Qed.
(** Steps that leave the grants alone. *)
Lemma moves_grants s s' : ok s → s_grants s' = s_grants s → evolves al h s s' → moves s s'.
Proof.
  intros [[G1 G2] _] E He. split; [done|]. split; rewrite E; auto.
Qed.
Lemma moves_lifted s w : ok s → elapses (a_world s) w → moves s (set_world w s).
Proof. intros Ho Hw. apply moves_grants; [done..|]. by apply ev_lifted. Qed.
Lemma moves_refl s : ok s → moves s s.
Proof. intros Ho. apply moves_grants; [done..|reflexivity]. Qed.

Lemma un_lifted {A} (p : M A) : passes p → holds (λ _, True) (lifted p).
Proof.
  intros Hp. apply under_acts with (λ s s', ok s → moves s s'); [auto|].
  eapply all_acts_along; [|exact Hp]. intros s w Hw Ho. by apply moves_lifted.
Qed.
Lemma un_gets {R} (f : ASt → R) : holds (λ _, True) (gets f).
Proof. apply under_act. intros s Ho. split; [by apply moves_refl|done]. Qed.
Lemma un_astmt {R} (Q : R → Prop) ctx (onerr : string → R) f :
  (∀ e, Q (onerr e)) → (∀ s, ok s → moves s (f s).2 ∧ Q (f s).1) → holds Q (astmt ctx onerr f).
Proof.
  intros He Hf. apply under_act. intros s Ho. unfold astmt_step. destruct (expired _ _); [split; [by apply moves_refl|apply He]|].
  pose proof (elapses_draws (a_world s)) as (Hd & _). destruct (draw_db (a_world s)) as [[e|] w].
  - split; [by apply moves_lifted|apply He].
  - pose proof (moves_lifted s w Ho Hd) as Hm. destruct (Hf (set_world w s)) as [H1 H2]; [by eapply moves_ok|].
    split; [by eapply moves_trans|done].
Qed.
Lemma un_aquery {R} ctx (f : ASt → result R) : holds (λ _, True) (aquery ctx f).
Proof. apply un_astmt; [done|]. intros s Ho. split; [by apply moves_refl|done]. Qed.
(** A statement that may draw an id first. *)
Lemma moves_fresh s u s1 s2 : ok s → fresh_id s = (u, s1) → moves s1 s2 → moves s s2.
Proof.
  intros Ho (Ha & Hw & _)%fresh_id_spec Hm. eapply moves_trans; [|exact Hm]. apply moves_grants; [done| |by apply ev_fresh].
  unfold s_grants. by rewrite Ha.
Qed.
Lemma ok_fresh s u s1 : ok s → fresh_id s = (u, s1) → ok s1.
Proof.
  intros [[G1 G2] Ht] (Ha & Hw & _)%fresh_id_spec. split.
  - split; unfold s_grants; rewrite Ha; auto.
  - intros Hh b Hb. apply Ht; [done|]. destruct (el_rnd _ _ Hw) as [k ->]. set_solver.
Qed.

(** ** Statements *)
Lemma un_CreateLoginCode ctx asn email hash e : al (NewCode asn) → holds (λ _, True) (CreateLoginCode ctx asn email hash e).
Proof.
  intros Hal. apply un_astmt; [done|]. intros s Ho. split; [|done].
  destruct (fresh_id s) as [u s1] eqn:E. pose proof (ok_fresh _ _ _ Ho E) as Ho1.
  destruct u as [id|]; [|apply (moves_fresh s None s1); [done..|by apply moves_refl]].
  destruct (s_codes s1 !! id) eqn:Hid; [apply (moves_fresh s (Some id) s1); [done..|by apply moves_refl]|].
  apply fresh_id_spec in E as (Ha & Hw & Hu). apply moves_grants; [done|by apply (same_grants s s1)|].
  by apply ev_new_code; [..|apply Hu| | |].
Qed.
Lemma un_MarkLoginCodeUsed ctx id : holds (λ _, True) (MarkLoginCodeUsed ctx id).
Proof.
  apply un_astmt; [done|]. intros s Ho. split; [|done]. destruct (s_codes s !! id) as [c|] eqn:Hc; [|by apply moves_refl].
  destruct (lc_Used c); [by apply moves_refl|]. apply moves_grants; [done..|]. apply ev_set_codes.
  intros id' c' [(<- & <-)|(Hne & Hc')]%lookup_insert_Some; [by exists c|by exists c'].
Qed.
Lemma un_IncrementFailures ctx id : holds (λ _, True) (IncrementLoginCodeFailures ctx id).
Proof.
  apply un_astmt; [done|]. intros s Ho. split; [|done]. apply moves_grants; [done..|]. apply ev_set_codes.
  intros id' c'. rewrite lookup_alter_Some. intros [(-> & c & Hc & ->)|(_ & Hc)]; [by exists c|by exists c'].
Qed.
Lemma un_DeleteCodes ctx : holds (λ _, True) (DeleteExpiredLoginCodes ctx).
Proof.
  apply un_astmt; [done|]. intros s Ho. split; [|done]. apply moves_grants; [done..|]. apply ev_set_codes.
  intros id' c' (Hc & _)%map_lookup_filter_Some. by exists c'.
Qed.
Lemma un_CreateGPGChallenge ctx asn fps ch e : al (NewChallenge asn) → holds (λ _, True) (CreateGPGChallenge ctx asn fps ch e).
Proof.
  intros Hal. apply un_astmt; [done|]. intros s Ho. split; [|done].
  destruct (fresh_id s) as [u s1] eqn:E. pose proof (ok_fresh _ _ _ Ho E) as Ho1.
  destruct u as [id|]; [|apply (moves_fresh s None s1); [done..|by apply moves_refl]].
  destruct (s_gpg s1 !! id) eqn:Hid; [apply (moves_fresh s (Some id) s1); [done..|by apply moves_refl]|].
  apply fresh_id_spec in E as (Ha & Hw & Hu). apply moves_grants; [done|by apply (same_grants s s1)|].
  by apply ev_new_challenge; [..|apply Hu| |].
Qed.
Lemma un_MarkGPG ctx id : holds (λ _, True) (MarkGPGChallengeUsed ctx id).
Proof.
  apply un_astmt; [done|]. intros s Ho. split; [|done]. destruct (s_gpg s !! id) as [c|] eqn:Hc; [|by apply moves_refl].
  destruct (gc_Used c); [by apply moves_refl|]. apply moves_grants; [done..|]. apply ev_set_gpg.
  intros id' c' [(<- & <-)|(Hne & Hc')]%lookup_insert_Some; [by exists c|by exists c'].
Qed.
Lemma un_DeleteChallenges ctx : holds (λ _, True) (DeleteExpiredGPGChallenges ctx).
Proof.
  apply un_astmt; [done|]. intros s Ho. split; [|done]. apply moves_grants; [done..|]. apply ev_set_gpg.
  intros id' c' (Hc & _)%map_lookup_filter_Some. by exists c'.
Qed.

(** *** Sessions *)
Lemma moves_insert_session s a : ok s → ¬ has_refresh h a → moves s (insert_session a s).2.
Proof.
  intros Ho Ha. unfold insert_session. destruct (fresh_id s) as [u s1] eqn:E. pose proof (ok_fresh _ _ _ Ho E) as Ho1.
  destruct u as [id|]; [|apply (moves_fresh s None s1); [done..|by apply moves_refl]].
  destruct (session_error s1 id a) as [e|] eqn:Es; [apply (moves_fresh s (Some id) s1); [done..|by apply moves_refl]|].
  cbv zeta. cbn [snd]. apply fresh_id_spec in E as (Hau & Hw & Hu). specialize (Hu id eq_refl).
  assert (s_sessions s1 = s_sessions s) as Hss by (unfold s_sessions; by rewrite Hau).
  assert (s_sessions s1 !! id = None) as Hid.
  { revert Es. unfold session_error. destruct (s_sessions s1 !! id); [|done]. repeat case_match; done. }
  apply moves_grants; [done|by apply (same_grants s s1)|].
  set (b := stored_session id (s_now s1) a).
  assert (evolves al h s (set_sessions (<[id := b]> (s_sessions s)) s)) as Hev.
  { apply ev_set_sessions.
    - intros id' Hid'. rewrite lookup_insert_ne by (rewrite Hu in Hid'; set_solver). apply row_steps_refl. apply _.
    - intros id'. rewrite !elem_of_holders. intros (x & Hx & Hr). apply lookup_insert_Some in Hx as [(<- & <-)|(_ & Hx)]; [|by exists x].
      by destruct (Ha Hr). }
  destruct s1 as [d1 w1], s as [d w]. cbn in Hau. subst d1. unfold set_sessions, s_codes, s_gpg, s_sessions, s_grants, set_auth in *.
  cbn in *. etransitivity; [exact Hev|]. by apply (ev_lifted al h (MkASt _ w) w1).
Qed.
Lemma un_CreateAuthSession ctx a : ¬ has_refresh h a → holds (λ _, True) (CreateAuthSession ctx a).
Proof. intros Ha. apply un_astmt; [done|]. intros s Ho. split; [by apply moves_insert_session|done]. Qed.

Lemma revoke_step now reason a : as_RevokedAt a = None → session_step a (revoke now reason a).
Proof. intros Hr. split; try done. intros t. by rewrite Hr. Qed.
Lemma revoke_unheld now reason a : ¬ has_refresh h (revoke now reason a).
Proof. intros [H1 H2]. by apply H1. Qed.
Lemma un_RevokeAuthSession ctx id reason : holds (λ _, True) (RevokeAuthSession ctx id reason).
Proof.
  apply un_astmt; [done|]. intros s Ho. split; [|done]. destruct (s_sessions s !! id) as [a|] eqn:Ha; [|by apply moves_refl].
  destruct (as_RevokedAt a) eqn:Hr; [by apply moves_refl|]. apply moves_grants; [done..|].
  eapply ev_insert_session; [done|by apply revoke_step|]. intros _. apply revoke_unheld.
Qed.
Lemma un_RevokeChild ctx id reason : holds (λ _, True) (RevokeChildAuthSessions ctx id reason).
Proof.
  apply un_astmt; [done|]. intros s Ho. split; [|done]. apply moves_grants; [done..|]. apply ev_map_sessions.
  - intros a. destruct (bool_decide _ && _) eqn:E; [|reflexivity]. apply revoke_step. boolify. by destruct (as_RevokedAt a).
  - intros a Ha. destruct (bool_decide _ && _); [apply revoke_unheld|done].
Qed.
Lemma un_TouchAuthSession ctx id : holds (λ _, True) (TouchAuthSession ctx id).
Proof.
  apply un_astmt; [done|]. intros s Ho. split; [|done]. apply moves_grants; [done..|]. apply ev_alter_session.
  - intros a. destruct (as_RevokedAt a) eqn:E; [reflexivity|]. by split.
  - intros a Ha. by destruct (as_RevokedAt a).
Qed.
Lemma un_RotateAuthSession ctx id old new : (h ≠ "" → new ≠ h) → holds (λ _, True) (RotateAuthSessionRefresh ctx id old new).
Proof.
  intros Hn. apply un_astmt; [done|]. intros s Ho. split; [|done]. destruct (s_sessions s !! id) as [a|] eqn:Ha; [|by apply moves_refl].
  destruct (bool_decide _ && live _ a) eqn:E; [|by apply moves_refl]. unfold rotate_row.
  do 2 (destruct (bool_decide (map_Exists _ _)); [by apply moves_refl|]). apply moves_grants; [done..|].
  eapply ev_insert_session; [done| |].
  - split; try done. intros t Ht. apply andb_true_iff in E as [_ E]. unfold live in E. by rewrite Ht in E.
  - intros _ [H1 H2]. by apply Hn in H1.
Qed.
Lemma forget_step m g : grant_step g (forget_sessions m g).
Proof. by apply grant_step_same. Qed.
Lemma un_DeleteSessions ctx : holds (λ _, True) (DeleteExpiredAuthSessions ctx).
Proof.
  apply un_astmt; [done|]. intros s Ho. split; [|done]. set (m := kept_sessions (s_now s) (s_sessions s)).
  assert (∀ id a, m !! id = Some a → s_sessions s !! id = Some a) as Hm.
  { intros id a (H & _)%map_lookup_filter_Some. by apply map_lookup_filter_Some in H as [H _]. }
  clearbody m. split.
  - transitivity (set_sessions m s).
    + apply ev_set_sessions.
      * intros id _. destruct (m !! id) as [a|] eqn:Hid; [|by destruct (s_sessions s !! id)].
        rewrite (Hm _ _ Hid). cbn. reflexivity.
      * intros id. rewrite !elem_of_holders. intros (a & Ha & Hr). exists a. split; [by apply Hm|done].
    + cbn [snd]. apply ev_set_grants. intros id _. rewrite lookup_fmap. change (s_grants (set_sessions m s)) with (s_grants s).
      destruct (s_grants s !! id) as [g|]; cbn; [apply forget_step|done].
  - destruct Ho as [[G1 G2] _]. split; cbn [snd]; change (s_grants (set_grants ?x _)) with x.
    + intros id g. rewrite lookup_fmap, fmap_Some. intros (g0 & Hg & ->). by apply (G1 _ _ Hg).
    + intros id id' g g'. rewrite !lookup_fmap, !fmap_Some. intros (g0 & Hg & ->) (g1 & Hg' & ->). by apply (G2 _ _ _ _ Hg Hg').
Qed.

(** *** Grants *)
Lemma grant_where_spec p `{∀ g, Decision (p g)} s g :
  ok s → grant_where p s = Some g → p g ∧ s_grants s !! dg_ID g = Some g.
Proof.
  intros [[G1 _] _] Hh. apply head_Some_elem_of, list_elem_of_filter in Hh as [Hp Hin]. split; [done|].
  apply list_elem_of_fmap in Hin as ([id g'] & -> & Hin). apply elem_of_map_to_list in Hin. cbn. by rewrite (G1 _ _ Hin).
Qed.
Lemma moves_put_grant s g g' :
  ok s → s_grants s !! dg_ID g = Some g → grant_step g g' → moves s (put_grant g' s).
Proof.
  intros Ho Hg Hs. split; [eapply ev_put_grant; [by apply ok_grants|done..]|].
  destruct (ok_grants _ Ho) as [G1 G2]. pose proof (gs_ID _ _ Hs) as HI. pose proof (gs_Device _ _ Hs) as HD.
  split; cbn; change (s_grants (set_grants ?x _)) with x.
  - intros id x [(<- & <-)|(_ & Hx)]%lookup_insert_Some; [done|by apply G1].
  - intros id id' x x' [(<- & <-)|(Hn & Hx)]%lookup_insert_Some [(<- & <-)|(Hn' & Hx')]%lookup_insert_Some; rewrite ?HI, ?HD.
    + done.
    + intros E. by apply (G2 _ _ _ _ Hg Hx').
    + intros E. by apply (G2 _ _ _ _ Hx Hg).
    + by apply G2.
Qed.
Lemma un_CreateAuthDeviceGrant ctx g : holds (λ _, True) (CreateAuthDeviceGrant ctx g).
Proof.
  apply un_astmt; [done|]. intros s Ho. split; [|done]. destruct (fresh_id s) as [u s1] eqn:E.
  pose proof (ok_fresh _ _ _ Ho E) as Ho1.
  destruct u as [id|]; [|apply (moves_fresh s None s1); [done..|by apply moves_refl]].
  destruct (s_grants s1 !! id) as [x|] eqn:Hid; [apply (moves_fresh s (Some id) s1); [done..|by apply moves_refl]|].
  cbn [isNil negb].
  case_bool_decide as Hd; [apply (moves_fresh s (Some id) s1); [done..|by apply moves_refl]|].
  case_bool_decide as Hu; [apply (moves_fresh s (Some id) s1); [done..|by apply moves_refl]|].
  cbn [snd]. apply fresh_id_spec in E as (Hau & Hw & Huu). specialize (Huu id eq_refl).
  match goal with |- moves _ (set_grants (<[_ := ?b]> _) _) => set (g1 := b) end. split.
  - transitivity (set_grants (<[id := g1]> (s_grants s)) s).
    + apply ev_set_grants. intros id' Hid'. rewrite lookup_insert_ne by (rewrite Huu in Hid'; set_solver).
      apply row_steps_refl. apply _.
    + destruct s1 as [d1 w1], s as [d w]. cbn in Hau. subst d1. by apply (ev_lifted al h (MkASt _ w) w1).
  - destruct (ok_grants _ Ho1) as [G1 G2]. split; change (s_grants (set_grants ?x _)) with x.
    + intros id' x [(<- & <-)|(_ & Hx)]%lookup_insert_Some; [done|by apply G1].
    + assert (∀ id' x, s_grants s1 !! id' = Some x → dg_DeviceCodeHash x ≠ dg_DeviceCodeHash g) as Hnew.
      { intros id' x Hx Ex. apply Hd. by exists id', x. }
      intros i1 i2 x x' [(<- & <-)|(Hn & Hx)]%lookup_insert_Some [(<- & <-)|(Hn' & Hx')]%lookup_insert_Some; cbn.
      * done.
      * intros Ex. by destruct (Hnew i2 x').
      * intros Ex. by destruct (Hnew i1 x).
      * by apply G2.
Qed.
Lemma un_AuthorizeGrant ctx hash d asn email sid ip ua :
  holds (λ _, True) (AuthorizeAuthDeviceGrant ctx hash d asn email sid ip ua).
Proof.
  apply un_astmt; [done|]. intros s Ho. split; [|done]. destruct (grant_where _ s) as [g|] eqn:Eg; [|by apply moves_refl].
  destruct (grant_where_spec _ _ _ Ho Eg) as [(_ & Hst & _) Hg].
  destruct (match d with Approved => _ | Denied => _ end); [by apply moves_refl|].
  cbv zeta. cbn [snd]. apply moves_put_grant with g; [done..|]. split; try done.
  apply rtc_once. unfold stage at 1. rewrite Hst. destruct d; constructor.
Qed.
Lemma un_PollGrant_hash ctx hash i :
  holds (λ r, ∀ g, r = Ok g → dg_DeviceCodeHash g = hash) (PollAuthDeviceGrant ctx hash i).
Proof.
  apply under_bind with (λ _, True); [apply un_gets|]. intros next _.
  apply un_astmt; [done|]. intros s Ho. destruct (grant_where _ s) as [g|] eqn:Eg; [|split; [by apply moves_refl|done]].
  destruct (grant_where_spec _ _ _ Ho Eg) as [Hh Hg]. split; [|by intros g' [= <-]].
  cbv zeta. cbn [snd]. apply moves_put_grant with g; [done..|]. by apply grant_step_same.
Qed.
Lemma un_PollGrant ctx hash i : holds (λ _, True) (PollAuthDeviceGrant ctx hash i).
Proof. eapply under_weaken; [..|apply un_PollGrant_hash]; done. Qed.
Lemma insert_session_grants s a : s_grants (insert_session a s).2 = s_grants s.
Proof.
  unfold insert_session. destruct (fresh_id s) as [u s1] eqn:E. apply fresh_id_spec in E as (Hau & _ & _).
  pose proof (same_grants s s1 Hau). destruct u as [id|]; [|done]. by destruct (session_error s1 id a).
Qed.
Lemma un_ExchangeGrant ctx hash a : ¬ has_refresh h a → holds (λ _, True) (ExchangeAuthDeviceGrant ctx hash a).
Proof.
  intros Ha. apply un_astmt; [done|]. intros s Ho. split; [|done]. destruct (grant_where _ s) as [g|] eqn:Eg; [|by apply moves_refl].
  destruct (grant_where_spec _ _ _ Ho Eg) as [(_ & Hst & _) Hg]. destruct (exchange_error a g); [by apply moves_refl|].
  pose proof (moves_insert_session s a Ho Ha) as Hm. pose proof (insert_session_grants s a) as Hgr.
  destruct (insert_session a s) as [[b|e] s1]; [|done]. cbn [snd] in *. eapply moves_trans; [exact Hm|].
  apply moves_put_grant with g; [by eapply moves_ok|by rewrite Hgr|]. split; try done.
  apply rtc_once. unfold stage. rewrite Hst. cbn. constructor.
Qed.

(** *** Refresh tokens *)
Definition new_token (t : option (string * string)) : Prop := ∀ raw hash, t = Some (raw, hash) → h ≠ "" → hash ≠ h.
Lemma un_generateRefreshToken : holds new_token generateRefreshToken.
Proof.
  apply under_bind with (λ r, ∀ b, r = Some b → h ≠ "" → hashRefreshToken (EncodeToHex b) ≠ h).
  - intros s Ho. cbn [along]. pose proof (elapses_draws (a_world s)) as (_ & _ & Hr & _).
    assert (∀ b, (draw_rnd (a_world s)).1 = Some b → Some b ∈ e_rnd (w_ext (a_world s))) as Hin.
    { unfold draw_rnd. destruct (e_rnd _) as [|o l]; [done|]. cbn. intros b ->. set_solver. }
    destruct (draw_rnd (a_world s)) as [r w]. cbn in *. split; [by apply moves_lifted|].
    intros b -> Hh. apply (ok_tokens _ Ho Hh). by apply Hin.
  - intros [b|] Hb; cbn; [|done]. intros raw hash [= <- <-] Hh. by apply Hb.
Qed.
Lemma new_token_session r subject asn admin email parent raw hash dn lm e :
  new_token (Some (raw, hash)) → ¬ has_refresh h (new_session r subject asn admin email parent hash dn lm e).
Proof. intros Ht [H1 H2]. by apply (Ht raw hash). Qed.

End moves.

(** ** Handlers *)
Create HintDb signin.
#[export] Hint Resolve un_gets un_aquery un_MarkLoginCodeUsed un_IncrementFailures un_MarkGPG un_RevokeAuthSession un_RevokeChild
  un_TouchAuthSession un_CreateAuthDeviceGrant un_AuthorizeGrant un_PollGrant un_DeleteCodes un_DeleteChallenges un_DeleteSessions : signin.
Ltac si_step :=
  match goal with
  | |- under _ _ (λ _, True) (mret _) => exact I
  | |- under _ _ _ (lifted _) => apply un_lifted; solve [pass_walk]
  | |- under (ok ?h) _ _ (generateRefreshToken ≫= _) =>
      apply under_bind with (new_token h); [apply un_generateRefreshToken|intros [[? ?]|] ?]
  | |- under _ _ _ (_ ≫= _) => apply under_bind with (λ _, True); [|intros ? _]
  | |- under _ _ _ (forM _ _) => apply under_forM; intros ?
  | |- under _ _ _ (CreateAuthSession _ _) => apply un_CreateAuthSession; by eapply new_token_session
  | |- under _ _ _ (ExchangeAuthDeviceGrant _ _ _) => apply un_ExchangeGrant; by eapply new_token_session
  | |- under _ _ _ (RotateAuthSessionRefresh _ _ _ _) => apply un_RotateAuthSession; by eauto
  | |- under _ _ _ (match ?x with _ => _ end) => destruct x
  | |- under _ _ _ _ => solve [auto with signin nocore]
  | |- _ => progress cbv beta iota zeta
  end.
Ltac si_walk := repeat si_step.

Section handlers.
Set Default Proof Using "Type*".
Context {JW : Jwt} {DG : Digest} {BC : Bcrypt} {GP : OpenPGP} (env : AuthEnv) (al : issue → Prop) (h : string).
Abbreviation holds := (under (ok h) (moves al h)).

Lemma un_anow : holds (λ _, True) anow.
Proof. apply un_gets. Qed.
Lemma un_sub_timeout ctx d : holds (λ _, True) (sub_timeout ctx d).
Proof. unfold sub_timeout, anow. si_walk. Qed.
Lemma un_checkIPRate ip limit : holds (λ _, True) (checkIPRate ip limit).
Proof. apply un_lifted, passes_exec. unfold checkIPRate_, now_. pass_walk. Qed.
Lemma un_recently key d : holds (λ _, True) (recently key d).
Proof. unfold recently, anow. si_walk. Qed.
Lemma un_stamp key : holds (λ _, True) (stamp key).
Proof. unfold stamp, anow. si_walk. Qed.
Lemma un_login_disabled : holds (λ _, True) (login_disabled env).
Proof. unfold login_disabled. si_walk. Qed.
Lemma un_audit ctx a o d : holds (λ _, True) (audit ctx a o d).
Proof. unfold audit. si_walk. Qed.
Lemma un_ExtractClaims cfg r : holds (λ _, True) (ExtractClaims cfg r).
Proof. unfold ExtractClaims, anow. si_walk. Qed.
Lemma un_sign cfg a b c d e f g i j : holds (λ _, True) (sign cfg a b c d e f g i j).
Proof. unfold sign, anow, NewString. si_walk. Qed.
#[local] Hint Resolve un_anow un_sub_timeout un_checkIPRate un_recently un_stamp un_login_disabled un_audit un_ExtractClaims
  un_sign : signin.
Lemma un_SignUser cfg a b c d e : holds (λ _, True) (SignUserSessionJWT cfg a b c d e).
Proof. apply un_sign. Qed.
Lemma un_SignAdmin cfg a b c d : holds (λ _, True) (SignAdminSessionJWT cfg a b c d).
Proof. apply un_sign. Qed.
Lemma un_SignImp cfg a b c d e : holds (λ _, True) (SignImpersonationJWT cfg a b c d e).
Proof. apply un_sign. Qed.
#[local] Hint Resolve un_SignUser un_SignAdmin un_SignImp : signin.
Lemma un_createUserSession ctx r asn email lm : holds (λ _, True) (createUserSession env ctx r asn email lm).
Proof. unfold createUserSession. si_walk. Qed.
Lemma un_createAdminSession ctx r a email : holds (λ _, True) (createAdminSession env ctx r a email).
Proof. unfold createAdminSession. si_walk. Qed.
Lemma un_createImpersonation ctx r asn email a p b : holds (λ _, True) (createImpersonationSession env ctx r asn email a p b).
Proof. unfold createImpersonationSession. si_walk. Qed.
#[local] Hint Resolve un_createUserSession un_createAdminSession un_createImpersonation : signin.
Lemma un_VerifyCode r b : holds (λ _, True) (VerifyCode env r b).
Proof. unfold VerifyCode, invalid_code, fail, GetLatestValidLoginCode. si_walk. Qed.
Lemma un_RequestCode r b :
  (∀ asn t, b = Some (asn, t) → al (NewCode asn)) → holds (λ _, True) (RequestCode env r b).
Proof.
  intros Hb. unfold RequestCode, fail, done, generateCode. destruct b as [[asn t]|]; [|si_walk].
  specialize (Hb asn t eq_refl). pose proof un_CreateLoginCode. si_walk; auto with nocore.
Qed.
Lemma un_AdminLogin r b : holds (λ _, True) (AdminLogin env r b).
Proof. unfold AdminLogin, fail, Admin_GetByEmail. si_walk. Qed.
Lemma un_AdminLoginAs r b me : holds (λ _, True) (AdminLoginAs env r b me).
Proof. unfold AdminLoginAs, fail. si_walk. Qed.
Lemma un_RequestGPG r b :
  (∀ asn t, b = Some (asn, t) → al (NewChallenge asn)) → holds (λ _, True) (RequestGPGChallenge env r b).
Proof.
  intros Hb. unfold RequestGPGChallenge, fail, done. destruct b as [[asn t]|]; [|si_walk].
  specialize (Hb asn t eq_refl). pose proof un_CreateGPGChallenge. si_walk; auto with nocore.
Qed.
Lemma un_VerifyGPG r b : holds (λ _, True) (VerifyGPGSignature env r b).
Proof. unfold VerifyGPGSignature, fail, GetGPGChallenge. si_walk. Qed.
Lemma un_reused ctx r hash : holds (λ _, True) (refresh_reused ctx r hash).
Proof. unfold refresh_reused, GetAuthSessionByPreviousRefreshHash. si_walk. Qed.
Lemma un_refreshed a : holds (λ _, True) (refreshed_token env a).
Proof. unfold refreshed_token. si_walk. Qed.
#[local] Hint Resolve un_reused un_refreshed : signin.
Lemma un_Refresh r : holds (λ _, True) (Refresh env r).
Proof. unfold Refresh, fail, GetAuthSessionByRefreshHash, GetAuthSession. si_walk. Qed.
Lemma un_GetAuthSession ctx id : holds (λ _, True) (GetAuthSession ctx id).
Proof. apply un_aquery. Qed.
Lemma un_ListUser ctx a : holds (λ _, True) (ListUserAuthSessions ctx a).
Proof. apply un_aquery. Qed.
Lemma un_ListAdmin ctx a : holds (λ _, True) (ListAdminAuthSessions ctx a).
Proof. apply un_aquery. Qed.
Lemma un_UserCodeHash ctx a : holds (λ _, True) (GetAuthDeviceGrantByUserCodeHash ctx a).
Proof. apply un_aquery. Qed.
#[local] Hint Resolve un_GetAuthSession un_ListUser un_ListAdmin un_UserCodeHash : signin.
Lemma un_Logout r me : holds (λ _, True) (Logout r me).
Proof. unfold Logout. si_walk. Qed.
Lemma un_own r me next : holds (λ _, True) next → holds (λ _, True) (own_session env r me next).
Proof. intros Hn. unfold own_session, session_required, fail. si_walk. Qed.
Lemma un_ListUserDevices r me : holds (λ _, True) (ListUserDevices env r me).
Proof. apply un_own. unfold list_failed, fail. si_walk. Qed.
Lemma un_RevokeUserDevice r id me : holds (λ _, True) (RevokeUserDevice env r id me).
Proof. apply un_own. unfold not_found, fail. si_walk. Qed.
Lemma un_RevokeOthers r me : holds (λ _, True) (RevokeOtherUserDevices env r me).
Proof. apply un_own. unfold list_failed, fail. si_walk. Qed.
Lemma un_ListAdminDevices r me : holds (λ _, True) (ListAdminDevices r me).
Proof. unfold ListAdminDevices, session_required, list_failed, fail. si_walk. Qed.
Lemma un_RevokeAdminDevice r id me : holds (λ _, True) (RevokeAdminDevice r id me).
Proof. unfold RevokeAdminDevice, session_required, not_found, fail. si_walk. Qed.
Lemma passes_deviceCode : passes (generateDeviceCode env).
Proof. unfold generateDeviceCode. pass_walk. Qed.
Lemma passes_userCode : passes (generateDeviceUserCode env).
Proof. unfold generateDeviceUserCode. pass_walk. Qed.
#[local] Hint Resolve passes_deviceCode passes_userCode : pass.
Lemma un_DeviceCode r b : holds (λ _, True) (DeviceCode env r b).
Proof. unfold DeviceCode, fail, done. si_walk. Qed.
Lemma un_deviceClaims r : holds (λ _, True) (deviceAuthorizeClaims env r).
Proof. unfold deviceAuthorizeClaims. si_walk. Qed.
Lemma un_with_grant ctx c n next : (∀ g, holds (λ _, True) (next g)) → holds (λ _, True) (with_grant env ctx c n next).
Proof. intros Hn. unfold with_grant, request_not_found, fail. si_walk. Qed.
#[local] Hint Resolve un_deviceClaims : signin.
Lemma un_DeviceRequest r c : holds (λ _, True) (DeviceRequest env r c).
Proof. unfold DeviceRequest, fail, done. si_walk. apply un_with_grant. intros g. exact I. Qed.
Lemma un_DeviceAuthorize r b me : holds (λ _, True) (DeviceAuthorize env r b me).
Proof. unfold DeviceAuthorize, fail, done. si_walk. apply un_with_grant. intros g. si_walk. Qed.
Lemma un_deviceUser ctx r g : holds (λ _, True) (createDeviceUserSession env ctx r g).
Proof. unfold createDeviceUserSession. si_walk. Qed.
Lemma un_deviceAdmin ctx r g : holds (λ _, True) (createDeviceAdminSession env ctx r g).
Proof. unfold createDeviceAdminSession. si_walk. Qed.
#[local] Hint Resolve un_deviceUser un_deviceAdmin : signin.
Lemma un_DeviceToken r b : holds (λ _, True) (DeviceToken env r b).
Proof. unfold DeviceToken, expired_token, fail. si_walk. Qed.

(** The middleware, in front of anything. *)
Lemma un_validateSession ctx c : holds (λ _, True) (validateSession ctx c).
Proof. unfold validateSession, touch_later. si_walk. Qed.
#[local] Hint Resolve un_validateSession : signin.
Lemma un_requireAuth {A} cfg (refuse : Response → A) role r next :
  (∀ me, holds (λ _, True) (next me)) → holds (λ _, True) (requireAuth cfg refuse role r next).
Proof. intros Hn. unfold requireAuth. si_walk. Qed.
Lemma un_anyRefreshToken : holds (λ _, True) generateRefreshToken.
Proof using. eapply under_weaken; [..|apply un_generateRefreshToken]; done. Qed.
End handlers.
#[export] Hint Resolve un_anyRefreshToken un_SignUser un_SignAdmin un_SignImp un_anow un_sub_timeout un_checkIPRate un_recently un_stamp un_login_disabled un_audit
  un_createUserSession un_createAdminSession un_GetAuthSession
  un_reused un_refreshed un_deviceUser un_deviceAdmin : signin.

(** ** Threads *)

(** The pages behind the middleware, as [cmd/center/routes.go] mounts them;
    [PElsewhere] is any page that does not touch these tables. *)
Inductive Page : Type :=
| PLogout
| PDeviceRequest (user_code : string)
| PDeviceAuthorize (body : option (string * string))
| PListUserDevices
| PRevokeUserDevice (id : string)
| PRevokeOtherUserDevices
| PAdminLoginAs (body : option (Z * bool))
| PListAdminDevices
| PRevokeAdminDevice (id : string)
| PElsewhere (role : option string) (page : Identity → M AuthReply).
Definition page_role (p : Page) : option string :=
  match p with
  | PLogout | PDeviceRequest _ | PDeviceAuthorize _ => None
  | PListUserDevices | PRevokeUserDevice _ | PRevokeOtherUserDevices => Some "user"
  | PAdminLoginAs _ | PListAdminDevices | PRevokeAdminDevice _ => Some "admin"
  | PElsewhere role _ => role
  end.
Inductive Thread : Type :=
| TRequestCode (r : Req) (body : option (Z * string))
| TVerifyCode (r : Req) (body : option (Z * string))
| TRequestGPG (r : Req) (body : option (Z * string))
| TVerifyGPG (r : Req) (body : option (Z * string * string * string))
| TAdminLogin (r : Req) (body : option (string * string * string))
| TDeviceCode (r : Req) (body : option deviceCodeReq)
| TDeviceToken (r : Req) (body : option (string * string))
| TRefresh (r : Req)
| TPage (r : Req) (p : Page)
| TCleanup (ctx : Ctx)
| TOther (q : M unit).

Section threads.
Set Default Proof Using "Type*".
Context {JW : Jwt} {DG : Digest} {BC : Bcrypt} {GP : OpenPGP} (env : AuthEnv).

Definition page (r : Req) (p : Page) (me : Identity) : P AuthReply :=
  match p with
  | PLogout => Logout r me
  | PDeviceRequest c => DeviceRequest env r c
  | PDeviceAuthorize b => DeviceAuthorize env r b me
  | PListUserDevices => ListUserDevices env r me
  | PRevokeUserDevice id => RevokeUserDevice env r id me
  | PRevokeOtherUserDevices => RevokeOtherUserDevices env r me
  | PAdminLoginAs b => AdminLoginAs env r b me
  | PListAdminDevices => ListAdminDevices r me
  | PRevokeAdminDevice id => RevokeAdminDevice r id me
  | PElsewhere _ q => lifted (q me)
  end.
Definition no_reply : AuthReply := reply (Plain Panicked).
Definition run (t : Thread) : P AuthReply :=
  match t with
  | TRequestCode r b => RequestCode env r b
  | TVerifyCode r b => VerifyCode env r b
  | TRequestGPG r b => RequestGPGChallenge env r b
  | TVerifyGPG r b => VerifyGPGSignature env r b
  | TAdminLogin r b => AdminLogin env r b
  | TDeviceCode r b => DeviceCode env r b
  | TDeviceToken r b => DeviceToken env r b
  | TRefresh r => Refresh env r
  | TPage r p => requireAuth (en_cfg env) refuse (page_role p) r (page r p)
  | TCleanup ctx =>
      _ ← DeleteExpiredLoginCodes ctx; _ ← DeleteExpiredGPGChallenges ctx; _ ← DeleteExpiredAuthSessions ctx; mret no_reply
  | TOther q => _ ← lifted q; mret no_reply
  end.
(** A thread, which keeps its name with its reply. *)
Definition run_thread (t : Thread) : P (Thread * AuthReply) := x ← run t; mret (t, x).

(** Other programs may use up time, ids and randomness. *)
Definition thread_ok (t : Thread) : Prop :=
  match t with
  | TPage _ (PElsewhere _ q) => ∀ me, passes (q me)
  | TOther q => passes q
  | _ => True
  end.
Definition issues (t : Thread) (i : issue) : Prop :=
  match t, i with
  | TRequestCode _ (Some (asn, _)), NewCode asn' => asn' = asn
  | TRequestGPG _ (Some (asn, _)), NewChallenge asn' => asn' = asn
  | _, _ => False
  end.

Lemma un_page al h r p me :
  match p with PElsewhere _ q => ∀ me, passes (q me) | _ => True end → under (ok h) (moves al h) (λ _, True) (page r p me).
Proof.
  destruct p; cbn; intros Hp.
  - apply un_Logout.
  - apply un_DeviceRequest.
  - apply un_DeviceAuthorize.
  - apply un_ListUserDevices.
  - apply un_RevokeUserDevice.
  - apply un_RevokeOthers.
  - apply un_AdminLoginAs.
  - apply un_ListAdminDevices.
  - apply un_RevokeAdminDevice.
  - by apply un_lifted.
Qed.
Lemma un_run al h t : thread_ok t → (∀ i, issues t i → al i) → under (ok h) (moves al h) (λ _, True) (run t).
Proof.
  intros Ht Hi. destruct t; cbn [run].
  - apply un_RequestCode. intros asn t ->. by apply Hi.
  - apply un_VerifyCode.
  - apply un_RequestGPG. intros asn t ->. by apply Hi.
  - apply un_VerifyGPG.
  - apply un_AdminLogin.
  - apply un_DeviceCode.
  - apply un_DeviceToken.
  - apply un_Refresh.
  - apply un_requireAuth. intros me. apply un_page. by destruct p.
  - apply under_bind with (λ _, True); [apply un_DeleteCodes|]. intros _ _.
    apply under_bind with (λ _, True); [apply un_DeleteChallenges|]. intros _ _.
    apply under_bind with (λ _, True); [apply un_DeleteSessions|done].
  - apply under_bind with (λ _, True); [by apply un_lifted|done].
Qed.
Lemma un_thread al h t : thread_ok t → (∀ i, issues t i → al i) → under (ok h) (moves al h) (λ _, True) (run_thread t).
Proof. intros Ht Hi. apply under_bind with (λ _, True); [by apply un_run|done]. Qed.
End threads.
