(* ===== verification/SignInScenario.v ===== *)
(** * Concrete sign-ins

    A small set of codes, sessions and grants at which the theorems on sign-in
    are applied, with concrete stand-ins for signing, hashing and OpenPGP, and
    decision procedures for the invariants. *)
From S2P Require Import Prelude GoLib GoNet Json Model Lock Cache Effects World Store Handler Scenario Session Token Login Device SignIn.
From stdpp Require Import options.
Local Open Scope Z_scope.
Local Open Scope go_scope.

(** A token is the id of its session, and every token is a user's. *)
Definition plain_jwt : Jwt := {|
  SignedString _ c := Ok (cl_SessionID c);
  ParseWithClaims key now token :=
    match key "HS256" with
    | Some _ => Ok (MkClaims "user" 4242420001 "op@example.org" token "j" "access" "email" "" "" "4242420001" now now (now + Minute))
    | None => Err "no key"
    end
|}.
(** Nothing is hidden: hashes are the texts themselves. *)
Definition plain_digest : Digest := {| sha256 l := l; mac_sha256 _ l := l |}.
Definition plain_bcrypt : Bcrypt := {|
  GenerateFromPassword p _ := Ok p;
  CompareHashAndPassword h p := h =s p
|}.
(** A signed message is its text, and every signature is by the key AB. *)
Definition plain_pgp : OpenPGP := {|
  Block := string;
  Entity := string;
  Decode s := (Some s, "");
  Block_Bytes b := b;
  ReadArmoredKeyRing s := Ok [s];
  ReadKeyRing s := Ok [s];
  VerifySignature _ _ := Ok [chr 171]
|}.

Definition desk_cfg : Config := MkConfig "secret" (15 * Minute) (15 * Minute) (30 * Day) (12 * Hour) (15 * Minute) "" "https://www.example.com".
Definition desk_env : AuthEnv :=
  MkAuthEnv desk_cfg false (λ _, Ok "op@example.org") (λ _, Ok ["AB"]) (λ _, Err "not found") (λ _ _ _, Ok true)
    (λ _ _ _, None) (λ l, l).
(** A request with an access token and a refresh cookie. *)
Definition desk_req (token : string) (cookie : option string) : Req :=
  MkReq Background "198.51.100.7:4000" (if token =s "" then "" else "Bearer " +:+ token) "TUI/1" cookie true "" "center" "".

Definition desk_now : Z := 1000000000 * Second.
Definition desk_code (id code : string) (failures : Z) : UserLoginCode :=
  MkCode id 4242420001 "op@example.org" code (desk_now + 10 * Minute) false failures time_zero.
Definition desk_challenge : GPGChallenge :=
  MkChallenge "g1" 4242420001 ["AB"] "00ff" (desk_now + 10 * Minute) false time_zero.
Definition desk_session (id subject : string) (asn : option Z) (admin parent : option string) (hash : string) (revoked : option Z)
  : AuthSession :=
  MkSession id subject asn admin "op@example.org" parent hash "" None "TUI/1" "198.51.100.7" "TUI/1" "email"
    (desk_now - Hour) None (desk_now + Day) revoked "".
Definition desk_grant (status : string) : AuthDeviceGrant :=
  MkGrant "d1" (@hashDeviceSecret plain_digest desk_env "device" "ap_dev_x") (@hashDeviceSecret plain_digest desk_env "user" "ABCDEFGH")
    "tui" "laptop" "1.0" ["user"] status
    (if status =s "pending" then None else Some 4242420001) (if status =s "pending" then "" else "op@example.org")
    (if status =s "pending" then None else Some "s1") None "198.51.100.7" "TUI/1" None "" 0 None None
    (desk_now - Minute) (desk_now + 9 * Minute) None None None.
(** Sessions s1 of the operator, s2 of an administrator, and s3 of the
    administrator as the operator; s2 may have been revoked. *)
Definition desk_auth (status : string) (revoked : option Z) : AuthDB :=
  MkAuthDB {["c1" := desk_code "c1" "123456" 0]} {["g1" := desk_challenge]}
    (<["s1" := desk_session "s1" "user" (Some 4242420001) None None (@hashRefreshToken plain_digest "tok") None]>
     (<["s2" := desk_session "s2" "admin" None (Some "a1") None (@hashRefreshToken plain_digest "adm") revoked]>
      {["s3" := desk_session "s3" "impersonation" (Some 4242420001) (Some "a1") (Some "s2") (@hashRefreshToken plain_digest "imp") None]}))
    {["d1" := desk_grant status]} {["root@example.org" := MkAdmin "a1" "root@example.org" "pw"]}.
Definition rnd (c : ascii) : option (list ascii) := Some [c; c; c].
Definition desk_world : World :=
  MkWorld (sample_db "active") (MkCache None None "" false) (MkRedis ∅ desk_now) ∅ ∅
    (MkExt [] ["u1"; "u2"; "u3"; "u4"; "u5"; "u6"] [rnd "a"; rnd "b"; rnd "c"; rnd "d"; rnd "e"; rnd "f"] [] []) [].
Definition desk (status : string) (revoked : option Z) : ASt := MkASt (desk_auth status revoked) desk_world.

Definition asn1 : Z := 4242420001.
(** Thread by thread, in turns. *)
Definition rounds (n : nat) (threads : nat) : list nat := mjoin (replicate n (seq 0 threads)).

(** ** Deciding the invariants *)
Definition grants_wfb (s : ASt) : bool :=
  bool_decide (map_Forall (λ id g, dg_ID g = id
    ∧ map_Forall (λ id' g', dg_DeviceCodeHash g = dg_DeviceCodeHash g' → id = id') (s_grants s)) (s_grants s)).
Lemma grants_wfb_ok s : grants_wfb s = true → grants_wf s.
Proof.
  unfold grants_wfb. rewrite bool_decide_eq_true. intros H. split.
  - intros id g Hg. apply (H id g Hg).
  - intros id id' g g' Hg Hg'. destruct (H id g Hg) as [_ Hd]. by apply (Hd id' g').
Qed.
Definition ids_okb (s : ASt) : bool :=
  bool_decide (NoDup (s_uuid s)) && bool_decide (map_Forall (λ id c, lc_ID c = id ∧ id ∉ s_uuid s) (s_codes s))
  && bool_decide (map_Forall (λ id _, id ∉ s_uuid s) (s_gpg s)).
Lemma ids_okb_ok s : ids_okb s = true → ids_ok s.
Proof.
  unfold ids_okb. rewrite !andb_true_iff, !bool_decide_eq_true. intros [[H1 H2] H3].
  split; [done|intros id c Hc; by apply H2|intros id c Hc; by eapply H3].
Qed.
Definition fresh_tokensb {DG : Digest} (h : string) (s : ASt) : bool :=
  forallb (λ o, match o with Some b => hashRefreshToken (EncodeToHex b) <>s h | None => true end) (e_rnd (w_ext (a_world s))).
Lemma fresh_tokensb_ok {DG : Digest} h s : fresh_tokensb h s = true → fresh_tokens h s.
Proof. intros H _ b Hb. rewrite list_elem_of_In in Hb. apply (proj1 (forallb_forall _ _) H) in Hb. cbn in Hb. by boolify. Qed.
