(* ===== verification/SignInSpec.v ===== *)
(** * What sign-in's parts compute

    User codes survive being typed; the middleware admits exactly live sessions;
    an address gets at most its share of attempts a minute. *)
From S2P Require Import Prelude GoLib GoNet Json Model Lock Cache Effects World Store Handler Session Token Login Device SignInScenario.
From stdpp Require Import options.
Local Open Scope Z_scope.
Local Open Scope go_scope.

(** ** User codes *)
Definition letter (c : ascii) : Prop := c ∈ bytes deviceUserAlphabet.
(** A letter as somebody may type it. *)
Definition types (c d : ascii) : Prop := d = c ∨ d = to_lower c.
Definition letter_ok (c d : ascii) : Prop :=
  Forall (not_first d) spaces ∧ Forall (not_first d) (map reverse_string spaces) ∧ (N_of_ascii d < 128)%N
  ∧ to_upper d = c ∧ c ≠ "-"%char ∧ c ≠ " "%char.
#[export] Instance letter_ok_dec c d : Decision (letter_ok c d).
Proof. unfold letter_ok. apply _. Defined.
Lemma letters_ok : Forall (λ c, letter_ok c c ∧ letter_ok c (to_lower c)) (bytes deviceUserAlphabet).
Proof. apply (bool_decide_unpack _). vm_compute. exact I. Qed.
Lemma typed_ok c d : letter c → types c d → letter_ok c d.
Proof. intros Hc Hd. destruct (proj1 (Forall_forall _ _) letters_ok c Hc). by destruct Hd as [->| ->]. Qed.
Lemma normalize_typed l typed :
  length l = 8%nat → Forall letter l → Forall2 types (bytes (display_code (text l))) (bytes typed) →
  normalizeDeviceUserCode typed = text l.
Proof.
  intros Hl Hf Ht.
  do 8 (destruct l as [|? l]; [done|]). destruct l; [|done].
  repeat match goal with H : Forall letter (_ :: _) |- _ => apply Forall_cons in H as [? H] end.
  rewrite <- (text_bytes typed). remember (bytes typed) as t. clear Heqt.
  change (bytes _) with [a; a0; a1; a2; "-"%char; a3; a4; a5; a6] in Ht.
  repeat match goal with H : Forall2 _ (_ :: _) _ |- _ => apply Forall2_cons_inv_l in H as (? & ? & ? & H & ->) end.
  apply Forall2_nil_inv_l in Ht as ->.
  repeat match goal with Ha : letter ?a, Ht : types ?a ?x |- _ => apply (typed_ok a x Ha) in Ht as (? & ? & ? & ? & ? & ?); clear Ha end.
  match goal with Ht : types "-" ?x |- _ => assert (x = "-"%char) as -> by (by destruct Ht as [->| ->]); clear Ht end.
  unfold normalizeDeviceUserCode. rewrite (TrimSpace_id x x7 _ (text [x1; x0; x2; "-"%char; x4; x5; x6; x7])) by done.
  unfold ToUpper, remove_byte. rewrite !bytes_text, upper_bytes_ascii by (repeat constructor; done). cbn [map].
  repeat match goal with H : to_upper _ = _ |- _ => rewrite H; clear H end.
  change (to_upper "-") with "-"%char.
  repeat first [rewrite filter_cons_True by done|rewrite filter_cons_False by (by intros [])|rewrite filter_nil]. done.
Qed.
Lemma nth_letter i : letter (nth i (bytes deviceUserAlphabet) "A"%char).
Proof.
  unfold letter. rewrite list_elem_of_In. destruct (nth_in_or_default i (bytes deviceUserAlphabet) "A"%char) as [H| ->]; [done|].
  by left.
Qed.
Lemma draw_letters_spec n w l : (exec (draw_letters n) w).1 = Some l → length l = n ∧ Forall letter l.
Proof.
  revert w l. induction n as [|n IH]; intros w l; [by intros [= <-]|]. cbn [draw_letters]. rewrite exec_bind.
  destruct (exec (rand_Int _) w) as [[i|] w1]; [|done]. rewrite exec_bind.
  specialize (IH w1). destruct (exec (draw_letters n) w1) as [[l1|] w2]; [|done]. cbn. intros [= <-].
  destruct (IH l1 eq_refl) as [Hl Hf]. split; [cbn; by f_equal|]. constructor; [apply nth_letter|done].
Qed.

(** C40: However a person types the code a device shows, in either case, the
    center accepts it as a code and finds it under the hash it stored: showing and
    reading back a user code is the identity. *)
Theorem user_code_roundtrip {DG : Digest} (env : AuthEnv) (w : World) (shown hash typed : string)
  (Hgen : (exec (generateDeviceUserCode env) w).1 = Some (shown, hash))
  (Htyped : Forall2 types (bytes shown) (bytes typed)) :
  validDeviceUserCode (normalizeDeviceUserCode typed) = true
  ∧ hashDeviceSecret env "user" (normalizeDeviceUserCode typed) = hash
  ∧ display_code (normalizeDeviceUserCode typed) = shown.
Proof.
  unfold generateDeviceUserCode in Hgen. rewrite exec_bind in Hgen. pose proof (draw_letters_spec 8 w) as Hd.
  destruct (exec (draw_letters 8) w) as [[l|] w1]; [|done]. destruct (Hd l eq_refl) as [Hl Hf].
  injection Hgen as <- <-. rewrite (normalize_typed l typed) by done. split_and!; [|done..].
  unfold validDeviceUserCode. apply andb_true_intro. split.
  - apply Nat.eqb_eq. rewrite <- Hl. clear. induction l; cbn; [done|by f_equal].
  - apply forallb_forall. intros c Hc. rewrite bytes_text in Hc. apply bool_decide_eq_true.
    apply (proj1 (Forall_forall _ _) Hf). by rewrite list_elem_of_In.
Qed.
Lemma user_code_roundtrip_witness :
  let w := set_ext (MkExt [] [] [Some [chr 1]; Some [chr 2]; Some [chr 3]; Some [chr 4]; Some [chr 5]; Some [chr 6]; Some [chr 31]; Some [chr 24]] [] [])
             desk_world in
  @hashDeviceSecret plain_digest desk_env "user" (normalizeDeviceUserCode "bcDE-fg92") = @hashDeviceSecret plain_digest desk_env "user" "BCDEFG92".
Proof.
  intros w. eapply (user_code_roundtrip (DG := plain_digest) desk_env w "BCDE-FG92" _ "bcDE-fg92"); [vm_compute; reflexivity|].
  repeat first [apply Forall2_nil; done|apply Forall2_cons; split; [by first [left; reflexivity|right; reflexivity]|]].
Defined.

(** ** The middleware *)
Lemma exec_astmt {R} ctx (onerr : string → R) f s :
  e_db (w_ext (a_world s)) = [] → expired ctx (s_now s) = false → exec (astmt ctx onerr f) s = f s.
Proof.
  intros Hd Hc. unfold astmt. rewrite exec_act. unfold astmt_step, draw_db. rewrite Hc, Hd. by destruct s.
Qed.
(** Both the session and, when it impersonates, its parent are live. *)
Definition admitted (c : Claims) (s : ASt) : bool :=
  if cl_SessionID c =s "" then true
  else match s_sessions s !! cl_SessionID c with
       | None => false
       | Some a =>
           negb (inactive (s_now s) a) && negb (role_mismatch (cl_Role c) (as_SubjectType a))
           && match (if as_SubjectType a =s "impersonation" then as_ParentSessionID a else None) with
              | None => true
              | Some pid => match s_sessions s !! pid with Some p => negb (inactive (s_now s) p) | None => false end
              end
       end.
Definition role_fits (role : option string) (c : Claims) : bool :=
  match role with
  | Some x => cl_Role c =s x
  | None => (cl_Role c =s "user") || (cl_Role c =s "admin")
  end.
(** The session is marked as used now. *)
Definition touched (c : Claims) (s : ASt) : ASt :=
  if cl_SessionID c =s "" then s
  else set_sessions (alter (λ a, if isNil (as_RevokedAt a) then touch (s_now s) a else a) (cl_SessionID c) (s_sessions s)) s.
Lemma exec_touch_later c s :
  e_db (w_ext (a_world s)) = [] → (cl_SessionID c =s "") = false →
  exec (touch_later (cl_SessionID c)) s = (tt, touched c s).
Proof.
  intros Hd Hn. unfold touch_later, TouchAuthSession. rewrite exec_bind. unfold sub_timeout, anow. rewrite exec_bind.
  unfold gets. rewrite exec_act. cbv beta iota zeta. cbn [exec mret prog_mret]. rewrite exec_bind, exec_astmt; [|done|].
  - unfold touched. by rewrite Hn.
  - cbn. apply Z.leb_gt. unfold s_now, Second. lia.
Qed.
Lemma exec_validate ctx c s :
  e_db (w_ext (a_world s)) = [] → expired ctx (s_now s) = false →
  if admitted c s then exec (validateSession ctx c) s = (None, touched c s)
  else ∃ e, exec (validateSession ctx c) s = (Some e, s).
Proof.
  intros Hd Hc. unfold admitted, validateSession. destruct (cl_SessionID c =s "") eqn:Hn; [by unfold touched; rewrite Hn|].
  rewrite exec_bind. unfold GetAuthSession, aquery. rewrite exec_astmt by done. cbv beta iota zeta.
  destruct (s_sessions s !! cl_SessionID c) as [a|]; cbn [found]; [|by eexists].
  rewrite exec_bind. change (exec anow s) with (s_now s, s). cbv beta iota zeta.
  destruct (inactive (s_now s) a); [by eexists|]. destruct (role_mismatch _ _); [by eexists|]. cbn [negb andb].
  destruct (if as_SubjectType a =s "impersonation" then _ else _) as [pid|].
  - rewrite exec_bind, exec_astmt by done. cbv beta iota zeta. destruct (s_sessions s !! pid) as [p|]; cbn [found]; [|by eexists].
    rewrite exec_bind. change (exec anow s) with (s_now s, s). cbv beta iota zeta.
    destruct (inactive (s_now s) p); cbn [negb]; [by eexists|]. by rewrite exec_bind, exec_touch_later.
  - by rewrite exec_bind, exec_touch_later.
Qed.

(** C11: The middleware lets a request through exactly when its token is valid,
    the token's role is the one the page wants, and the session behind the token
    (with the administrator's session behind that) is neither revoked nor
    expired; the page then sees the token's identity and the session is marked as
    used.  Any other request is answered 401 or 403 and changes nothing. *)
Theorem requireAuth_admits {JW : Jwt} {A : Type} (cfg : Config) (refuse : Response → A) (role : option string) (r : Req)
    (next : Identity → P A) (s : ASt)
  (Hdb : e_db (w_ext (a_world s)) = []) (Hctx : expired (rq_ctx r) (s_now s) = false) :
  match (exec (ExtractClaims cfg r) s).1 with
  | Ok c =>
      if role_fits role c && admitted c s
      then exec (requireAuth cfg refuse role r next) s = exec (next (contextWithClaims c)) (touched c s)
      else ∃ status code msg, (status = StatusUnauthorized ∨ status = StatusForbidden)
             ∧ exec (requireAuth cfg refuse role r next) s = (refuse (ErrorJSON status code msg), s)
  | Err _ => exec (requireAuth cfg refuse role r next) s
             = (refuse (ErrorJSON StatusUnauthorized "unauthorized" "Invalid or missing token"), s)
  end.
Proof.
  unfold requireAuth. rewrite exec_bind.
  assert ((exec (ExtractClaims cfg r) s).2 = s) as Hs by done.
  destruct (exec (ExtractClaims cfg r) s) as [e s1]. cbn in Hs |- *. subst s1. destruct e as [c|e]; [|done].
  assert (role_fits role c = negb (match role with Some x => cl_Role c <>s x | None => false end
            || (isNil role && (cl_Role c <>s "user") && (cl_Role c <>s "admin")))) as Hr.
  { destruct role as [x|]; cbn; [by destruct (cl_Role c =s x)|]. by destruct (cl_Role c =s "user"), (cl_Role c =s "admin"). }
  rewrite Hr. destruct (match role with Some x => cl_Role c <>s x | None => false end); cbn [orb negb andb].
  { eexists _, _, _. split; [by right|done]. }
  destruct (isNil role && _ && _); cbn [negb andb]; [eexists _, _, _; split; [by right|done]|].
  rewrite exec_bind. pose proof (exec_validate (rq_ctx r) c s Hdb Hctx) as Hv.
  destruct (admitted c s); [by rewrite Hv|]. destruct Hv as [e ->]. eexists _, _, _. split; [by left|done].
Qed.
Lemma requireAuth_admits_witness :
  let s := desk "pending" None in
  let next := λ me : Identity, mret (JSON (id_ASN me) JNull) : P Response in
  ∃ c, (exec (@ExtractClaims plain_jwt desk_cfg (desk_req "s1" None)) s).1 = Ok c ∧ cl_SessionID c = "s1"
    ∧ exec (@requireAuth plain_jwt desk_cfg _ (λ x, x) (Some "user") (desk_req "s1" None) next) s
      = exec (next (contextWithClaims c)) (touched c s).
Proof.
  intros s next. eexists. split; [vm_compute; reflexivity|]. split; [reflexivity|].
  exact (@requireAuth_admits plain_jwt _ desk_cfg (λ x, x) (Some "user") (desk_req "s1" None) next s eq_refl eq_refl).
Defined.
