(* ===== verification/SignInSafety.v ===== *)
(** * What sign-in guarantees

    Theorems about any number of sign-in requests, clean-ups and other programs
    that run action by action in any order. *)
From S2P Require Import Prelude GoLib GoNet Json Model Lock Cache Effects World Store Handler Scenario Session Token Login Device SignIn SignInScenario.
From stdpp Require Import sorting options.
Local Open Scope Z_scope.
Local Open Scope go_scope.

Section pool.
Set Default Proof Using "Type*".
Context {JW : Jwt} {DG : Digest} {BC : Bcrypt} {GP : OpenPGP} (env : AuthEnv).

Lemma moves_rtc al h s s' : ok h s → rtc (moves al h) s s' → moves al h s s'.
Proof.
  intros Ho Hr. revert Ho. induction Hr as [s|s1 s2 s3 H1 _ IH]; intros Ho; [by apply moves_refl|].
  eapply moves_trans; [exact H1|]. apply IH. by eapply moves_ok.
Qed.
(** What the threads together can do. *)
Lemma pool_moves (ts : list Thread) al h s c :
  Forall thread_ok ts → (∀ t i, t ∈ ts → issues t i → al i) → ok h s →
  pool_steps (s, run_thread env <$> ts) c → moves al h s c.1 ∧ ok h c.1.
Proof.
  intros Hts Hal Ho Hsteps.
  destruct (under_pool (ok h) (moves al h) (λ _ _, True) _ _ (moves_ok al h) Hsteps Ho) as (H1 & H2 & _).
  - intros i p. cbn. rewrite list_lookup_fmap, fmap_Some. intros (t & Ht & ->).
    apply un_thread; [by eapply (proj1 (Forall_lookup _ _) Hts)|]. intros j Hj.
    apply (Hal t); [by eapply list_elem_of_lookup_2|done].
  - split; [|done]. by apply moves_rtc.
Qed.
Lemma ok_empty s : grants_wf s → ok "" s.
Proof using. intros Hg. split; [done|]. by intros []. Qed.

(** C10: A device grant follows its state machine, however requests, clean-ups
    and other programs interleave: from pending to approved or denied, from
    approved to exchanged and nowhere else; who it was approved for, its codes,
    its scope and its expiry never change. *)
Theorem grant_lifecycle (ts : list Thread) (s : ASt) (c : ASt * list (P (Thread * AuthReply))) (id : string)
    (g : AuthDeviceGrant)
  (Hts : Forall thread_ok ts) (Hwf : grants_wf s) (Hid : id ∉ s_uuid s) (Hg : s_grants s !! id = Some g)
  (Hsteps : pool_steps (s, run_thread env <$> ts) c) :
  ∃ g', s_grants c.1 !! id = Some g' ∧ rtc grant_move (stage g) (stage g')
    ∧ dg_DeviceCodeHash g' = dg_DeviceCodeHash g ∧ dg_UserCodeHash g' = dg_UserCodeHash g
    ∧ dg_Scopes g' = dg_Scopes g ∧ dg_ExpiresAt g' = dg_ExpiresAt g.
Proof.
  destruct (pool_moves ts (λ _, True) "" s c Hts) as [[Hm _] _]; [done|by apply ok_empty|done|].
  pose proof (ev_grants _ _ _ _ Hm id Hid) as H. rewrite Hg in H. destruct (s_grants c.1 !! id) as [g'|]; [|done].
  exists g'. destruct H. by split_and!.
Qed.

(** ** Ended sessions *)

(** At the instant [t] the session is gone, revoked or expired, or it
    impersonates and the administrator's session is. *)
Definition over (t : Z) (s : ASt) (sid : string) : Prop :=
  sid ∉ s_uuid s ∧ match s_sessions s !! sid with None => True | Some a => inactive t a = true end.
Definition ended (t : Z) (s : ASt) (sid : string) : Prop :=
  over t s sid ∨ ∃ a pid, sid ∉ s_uuid s ∧ s_sessions s !! sid = Some a ∧ as_SubjectType a = "impersonation"
                   ∧ as_ParentSessionID a = Some pid ∧ over t s pid.
Lemma inactive_step t t' a b : session_step a b → t ≤ t' → inactive t a = true → inactive t' b = true.
Proof using.
  intros Hs Hn. unfold inactive. rewrite (ss_Expires _ _ Hs). rewrite !orb_true_iff, !Z.ltb_lt. intros [H|H]; [left|right; lia].
  destruct (as_RevokedAt a) as [r|] eqn:E; [|done]. destruct (ss_Revoked _ _ Hs r E) as [-> _]. done.
Qed.
Lemma over_stable al h s s' t sid : moves al h s s' → over t s sid → over t s' sid.
Proof using.
  intros [He _] [Hid H]. pose proof (ev_world _ _ _ _ He) as Hw. split; [by eapply suffix_notin; [apply Hw|]|].
  pose proof (ev_sessions _ _ _ _ He sid Hid) as Hr. destruct (s_sessions s !! sid) as [a|], (s_sessions s' !! sid) as [b|];
    try done. by eapply inactive_step.
Qed.
Lemma ended_stable al h s s' t sid : moves al h s s' → ended t s sid → ended t s' sid.
Proof using.
  intros Hm [H|(a & pid & Hid & Ha & Hi & Hp & Ho)]; [left; by eapply over_stable|].
  pose proof (mv_evolves _ _ _ _ Hm) as He. pose proof (ev_world _ _ _ _ He) as Hw.
  pose proof (ev_sessions _ _ _ _ He sid Hid) as Hr. rewrite Ha in Hr.
  assert (sid ∉ s_uuid s') as Hid' by by eapply suffix_notin; [apply Hw|].
  destruct (s_sessions s' !! sid) as [b|] eqn:Hb; [|left; split; [done|by rewrite Hb]].
  right. exists b, pid. cbn in Hr. rewrite (ss_SubjectType _ _ Hr), (ss_Parent _ _ Hr).
  split_and!; [done..|by eapply over_stable].
Qed.
(** Every token of the request is of this session. *)
Definition bears (r : Req) (sid : string) : Prop :=
  ∀ s c, (exec (ExtractClaims (en_cfg env) r) s).1 = Ok c → cl_SessionID c = sid.
(** What the middleware answers itself. *)
Definition turned_away (x : AuthReply) : Prop :=
  x ∈ [refuse (ErrorJSON StatusUnauthorized "unauthorized" "Invalid or missing token");
       refuse (ErrorJSON StatusForbidden "forbidden" "Access denied");
       refuse (ErrorJSON StatusForbidden "forbidden" "Authentication required");
       refuse (ErrorJSON StatusUnauthorized "unauthorized" "Session expired or revoked")].

(** Known throughout: the session is over, or it impersonates under [pid]'s,
    which is. *)
Definition ended_by (t : Z) (sid : string) (o : option string) (s : ASt) : Prop :=
  match o with
  | None => over t s sid
  | Some pid => over t s pid ∧ sid ∉ s_uuid s
      ∧ ∀ a, s_sessions s !! sid = Some a → as_SubjectType a = "impersonation" ∧ as_ParentSessionID a = Some pid
  end.
Record refusing (t : Z) (sid : string) (o : option string) (s : ASt) : Prop := {
  rf_ok : ok "" s;
  rf_ended : ended_by t sid o s;
  rf_now : t ≤ s_now s
}.
Abbreviation anything := (λ _ : issue, True).
Lemma ended_by_some t s sid : ended t s sid → ∃ o, ended_by t sid o s.
Proof using.
  intros [H|(a & pid & Hid & Ha & Hi & Hp & Ho)]; [by exists None|]. exists (Some pid). split_and!; [done..|].
  intros b Hb. rewrite Ha in Hb. by injection Hb as <-.
Qed.
Lemma ended_by_stable al h s s' t sid o : moves al h s s' → ended_by t sid o s → ended_by t sid o s'.
Proof using.
  intros Hm. destruct o as [pid|]; [|by apply over_stable with al h]. intros (Ho & Hid & Ha).
  pose proof (mv_evolves _ _ _ _ Hm) as He. pose proof (ev_sessions _ _ _ _ He sid Hid) as Hr.
  split_and!; [by eapply over_stable|by eapply suffix_notin; [apply (ev_world _ _ _ _ He)|]|].
  intros b Hb. rewrite Hb in Hr. destruct (s_sessions s !! sid) as [a|]; [|done].
  rewrite (ss_SubjectType _ _ Hr), (ss_Parent _ _ Hr). by apply Ha.
Qed.
Lemma refusing_stable t sid o s s' : refusing t sid o s → moves anything "" s s' → refusing t sid o s'.
Proof using.
  intros [H1 H2 H3] Hm. split; [by eapply moves_ok|by eapply ended_by_stable|].
  pose proof (el_now _ _ (ev_world _ _ _ _ (mv_evolves _ _ _ _ Hm))). unfold s_now in *. lia.
Qed.
Abbreviation refuses t sid o := (under (refusing t sid o) (moves anything "")).
Lemma un_refusing {A} t sid o (p : P A) :
  under (ok "") (moves anything "") (λ _, True) p → refuses t sid o (λ _, True) p.
Proof using. apply under_weaken; [by intros w []|done..]. Qed.
Lemma un_lookup t sid o (Q : result AuthSession → Prop) ctx id :
  (∀ e, Q (Err e)) → (∀ s a, refusing t sid o s → s_sessions s !! id = Some a → Q (Ok a)) →
  refuses t sid o Q (GetAuthSession ctx id).
Proof using.
  intros He Ha. apply under_act. intros s Hs.
  destruct (un_GetAuthSession anything "" ctx id s (rf_ok _ _ _ _ Hs)) as [Hm _]. split; [exact Hm|].
  unfold astmt_step. destruct (expired _ _); [apply He|]. pose proof (elapses_draws (a_world s)) as (Hd & _).
  destruct (draw_db (a_world s)) as [[e|] w]; [apply He|]. cbn.
  destruct (s_sessions (set_world w s) !! id) as [a|] eqn:E; [|apply He]. apply (Ha (set_world w s) a); [|done].
  eapply refusing_stable; [done|]. apply moves_lifted; [by destruct Hs|done].
Qed.
Lemma un_now t sid o : refuses t sid o (λ now, t ≤ now) anow.
Proof using. apply under_act. intros s Hs. split; [by apply moves_refl; destruct Hs|apply Hs]. Qed.
Lemma inactive_later t t' a : t ≤ t' → inactive t a = true → inactive t' a = true.
Proof using. by apply inactive_step. Qed.
(** A session known to be over, when it is looked up. *)
Lemma over_lookup t s sid a : over t s sid → s_sessions s !! sid = Some a → inactive t a = true.
Proof using. intros [_ H] Ha. by rewrite Ha in H. Qed.
Lemma un_validate_ended ctx c t sid o :
  sid ≠ "" → cl_SessionID c = sid → refuses t sid o is_Some (validateSession ctx c).
Proof using.
  intros Hne Hsid. unfold validateSession. rewrite bool_decide_eq_false_2 by congruence. rewrite Hsid.
  apply under_bind with (λ r, ∀ a, r = Ok a → inactive t a = true
    ∨ as_SubjectType a = "impersonation" ∧ ∃ pid, o = Some pid ∧ as_ParentSessionID a = Some pid).
  { apply un_lookup; [done|]. intros s b [_ He _] Hb a [= ->]. destruct o as [pid|]; [|left; by eapply over_lookup].
    right. destruct He as (_ & _ & H). destruct (H a Hb). by split; [|exists pid]. }
  intros [a|e] Ha; [|by eexists]. apply under_bind with (λ now, t ≤ now); [apply un_now|]. intros now Hnow.
  destruct (inactive now a) eqn:Ei; [by eexists|].
  destruct (Ha a eq_refl) as [Hia|(Hsub & pid & -> & Hpid)]; [by rewrite (inactive_later t now) in Ei|].
  destruct (role_mismatch _ _); [by eexists|]. rewrite bool_decide_eq_true_2, Hpid by done.
  apply under_bind with (λ r, ∀ a, r = Ok a → inactive t a = true).
  { apply un_lookup; [done|]. intros s p [_ (Ho & _) _] Hp p' [= ->]. by eapply over_lookup. }
  intros [p|e] Hp; [|by eexists]. apply under_bind with (λ now, t ≤ now); [apply un_now|]. intros now' Hnow'.
  rewrite (inactive_later t now'); [by eexists|done|by apply Hp].
Qed.
Lemma un_page_ended r p t sid o :
  sid ≠ "" → bears r sid → refuses t sid o (λ x, turned_away x.2) (run_thread env (TPage r p)).
Proof.
  intros Hne Hb. apply under_bind with turned_away; [|done]. cbn [run]. unfold requireAuth.
  apply under_bind with (λ e, ∀ c, e = Ok c → cl_SessionID c = sid).
  { apply under_bind with (λ now, ∃ s, now = s_now s); [|intros now [s ->] c Hc; by apply (Hb s)].
    apply under_act. intros s Hs. split; [by apply moves_refl; destruct Hs|by eexists]. }
  intros [c|e] Hc; [|repeat constructor]. destruct (match page_role p with Some _ => _ | None => _ end).
  { by do 1 constructor 2; constructor. }
  destruct (isNil (page_role p) && _ && _); [by do 2 constructor 2; constructor|].
  apply under_bind with is_Some; [by apply un_validate_ended, Hc|]. intros ? [x ->]. by do 3 constructor 2; constructor.
Qed.

(** C5: An ended session lets nobody in: once it was revoked or has expired, or
    the session of the administrator behind it was, no request that bears its
    token passes the middleware, whatever else runs meanwhile. *)
Theorem dead_session_refused (ts : list Thread) (s : ASt) (c : ASt * list (P (Thread * AuthReply))) (sid : string)
    (i : nat) (r : Req) (p : Page) (t : Thread) (x : AuthReply)
  (Hts : Forall thread_ok ts) (Hwf : grants_wf s) (Hne : sid ≠ "") (Hended : ended (s_now s) s sid)
  (Hi : ts !! i = Some (TPage r p)) (Hb : bears r sid)
  (Hsteps : pool_steps (s, run_thread env <$> ts) c) (Hdone : c.2 !! i = Some (Ret (t, x))) :
  turned_away x.
Proof.
  destruct (ended_by_some _ _ _ Hended) as [o Ho].
  destruct (under_pool (refusing (s_now s) sid o) (moves anything "") (λ j y, j = i → turned_away y.2) _ _
              (refusing_stable _ _ _) Hsteps) as (_ & _ & H).
  - split; [by apply ok_empty|done|done].
  - intros j q. cbn. rewrite list_lookup_fmap, fmap_Some. intros (t' & Ht' & ->). destruct (decide (j = i)) as [->|Hj].
    + rewrite Hi in Ht'. injection Ht' as <-. eapply under_weaken; [..|by apply un_page_ended]; [done..|]. by intros y Hy _.
    + eapply under_weaken; [..|apply un_refusing, un_thread; [by eapply (proj1 (Forall_lookup _ _) Hts)|done]]; done.
  - by apply (H i _ Hdone).
Qed.
End pool.

(** ** At a concrete desk *)
Section desk.
#[local] Existing Instances plain_jwt plain_digest plain_bcrypt plain_pgp.
Definition approval : list Thread :=
  [TPage (desk_req "s1" None) (PDeviceAuthorize (Some ("abcd-efgh", "approve")));
   TDeviceToken (desk_req "" None) (Some ("urn:ietf:params:oauth:grant-type:device_code", "ap_dev_x"))].
Lemma grant_lifecycle_witness :
  let s := desk "pending" None in
  let c := schedule (replicate 40 0%nat ++ replicate 40 1%nat) (s, run_thread desk_env <$> approval) in
  (∃ g', s_grants c.1 !! "d1" = Some g' ∧ rtc grant_move (stage (desk_grant "pending")) (stage g')
     ∧ dg_DeviceCodeHash g' = dg_DeviceCodeHash (desk_grant "pending") ∧ dg_UserCodeHash g' = dg_UserCodeHash (desk_grant "pending")
     ∧ dg_Scopes g' = dg_Scopes (desk_grant "pending") ∧ dg_ExpiresAt g' = dg_ExpiresAt (desk_grant "pending"))
  ∧ dg_Status <$> s_grants c.1 !! "d1" = Some "exchanged".
Proof.
  intros s c. split; [|vm_compute; reflexivity].
  apply (grant_lifecycle desk_env approval s c "d1" (desk_grant "pending")).
  - by repeat constructor.
  - apply grants_wfb_ok. vm_compute. reflexivity.
  - vm_compute. set_solver.
  - done.
  - apply schedule_steps.
Defined.

(** The administrator's session was revoked a minute ago. *)
Definition impostor : list Thread := [TPage (desk_req "s3" None) PListUserDevices; TRefresh (desk_req "" (Some "imp"))].
Lemma dead_session_refused_witness :
  let s := desk "pending" (Some (desk_now - Minute)) in
  let c := schedule (rounds 20 2) (s, run_thread desk_env <$> impostor) in
  ∃ t x, c.2 !! 0%nat = Some (Ret (t, x)) ∧ turned_away x.
Proof.
  intros s c. eexists _, _. split; [vm_compute; reflexivity|].
  refine (dead_session_refused desk_env impostor s c "s3" 0 (desk_req "s3" None) PListUserDevices _ _ _ _ _ _ eq_refl _ _ _).
  - by repeat constructor.
  - apply grants_wfb_ok. vm_compute. reflexivity.
  - done.
  - right. eexists _, "s2". split; [vm_compute; set_solver|]. split; [vm_compute; reflexivity|].
    split; [reflexivity|]. split; [reflexivity|]. split; [vm_compute; set_solver|vm_compute; reflexivity].
  - intros s' c' Hc. injection Hc as <-. reflexivity.
  - apply schedule_steps.
  - vm_compute. reflexivity.
Defined.
End desk.
