(* ===== verification/SignInOnce.v ===== *)
(** * Credentials are spent once

    However requests interleave, no more sign-ins succeed than there were codes,
    challenges, device grants or refresh tokens to spend: each success is paid
    for by the row it uses up. *)
From S2P Require Import Prelude GoLib GoNet Json Model Lock Cache Effects World Store Handler Session Token Login Device SignIn SignInScenario.
From stdpp Require Import options.
Local Open Scope Z_scope.
Local Open Scope go_scope.

Abbreviation anything := (λ _ : issue, True).
Definition result_of : Type := Thread * AuthReply.
(** Threads of a kind that ended with a sign-in. *)
Definition won (kind : Thread → bool) (x : result_of) : Z := if kind x.1 && negb (isNil (logged_in x.2)) then 1 else 0.
Definition wins (kind : Thread → bool) (l : list (P result_of)) : Z := sum_Z (earned (won kind) <$> l).
Lemma won_bounds kind x : 0 ≤ won kind x ≤ 1.
Proof. unfold won. destruct (_ && _); lia. Qed.

Lemma won_refused kind t x : logged_in x = None → won kind (t, x) = 0.
Proof. intros H. unfold won. cbn [fst snd]. rewrite H, andb_false_r. done. Qed.
Lemma won_other kind t x : kind t = false → won kind (t, x) = 0.
Proof. intros H. unfold won. cbn [fst]. by rewrite H. Qed.

(** What is never lost. *)
Section calm.
Context {DG : Digest}.
Definition calm (h : string) (s : ASt) : Prop := ok h s ∧ ids_ok s.
Lemma calm_moves al h s s' : calm h s → moves al h s s' → calm h s'.
Proof. intros [Ho Hi] Hm. split; [by eapply moves_ok|]. by apply (ev_ids _ _ _ _ (mv_evolves _ _ _ _ Hm)). Qed.
Lemma moves_weaken (al : issue → Prop) h s s' : moves al h s s' → moves anything h s s'.
Proof. intros [He Hg]. split; [by eapply evolves_weaken|done]. Qed.
End calm.

Section spend.
Set Default Proof Using "Type*".
Context {JW : Jwt} {DG : Digest} {BC : Bcrypt} {GP : OpenPGP} (env : AuthEnv).
(** The ledger [Phi] only rises by steps that issue nothing but [al], in states
    that satisfy [K]. *)
Context (al : issue → Prop) (h : string) (Phi : ASt → Z) (K : ASt → Prop).
Context (K_moves : ∀ s s', K s → moves anything h s s' → K s').
Context (Phi_moves : ∀ s s', calm h s → K s → moves al h s s' → Phi s ≤ Phi s').
Definition steady (s : ASt) : Prop := calm h s ∧ K s.
Abbreviation spends := (pays steady (moves anything h) Phi).

Lemma steady_moves s s' : steady s → moves anything h s s' → steady s'.
Proof using K_moves. intros [H1 H2] Hm. split; [by eapply calm_moves|by eapply K_moves]. Qed.
Lemma steady_refl s : steady s → moves anything h s s.
Proof using. intros [[Ho _] _]. by apply moves_refl. Qed.
Lemma moves_transitive : Transitive (moves anything h).
Proof using. intros s1 s2 s3. apply moves_trans. Qed.
Lemma quiet_step s s' : steady s → moves al h s s' → moves anything h s s' ∧ Phi s ≤ Phi s'.
Proof using Phi_moves. intros [Hc Hk] Hm. split; [by eapply moves_weaken|by apply Phi_moves]. Qed.
Lemma un_steady {A} (Q : A → Prop) (p : P A) : under (ok h) (moves al h) Q p → under steady (moves al h) Q p.
Proof using. apply under_weaken; [by intros s [[] ]|done..]. Qed.
Lemma spends_bind {A B} (Q : A → Prop) (reward : B → Z) (p : P A) (g : A → P B) c s :
  under (ok h) (moves al h) Q p → 0 ≤ c → steady s →
  (∀ a s', Q a → moves anything h s s' → steady s' → spends reward (g a) c s') → spends reward (p ≫= g) c s.
Proof using K_moves Phi_moves.
  intros Hp Hc Hs Hg. eapply pays_bind with (G' := moves al h);
    [apply steady_refl|apply moves_transitive|apply steady_moves|apply quiet_step|done..|by apply un_steady|exact Hg].
Qed.
Lemma spends_all {A} (reward : A → Z) (p : P A) c s :
  under (ok h) (moves al h) (λ _, True) p → (∀ a, reward a ≤ c) → 0 ≤ c → spends reward p c s.
Proof using K_moves Phi_moves.
  intros Hp Hr Hc. eapply pays_all with (G' := moves al h); [apply steady_moves|apply quiet_step|done|].
  apply un_steady. eapply under_weaken; [..|exact Hp]; auto.
Qed.
(** The statement that pays. *)
Lemma spends_astmt {R B} (reward : B → Z) ctx (onerr : string → R) f (g : R → P B) c s :
  under (ok h) (moves anything h) (λ _, True) (astmt ctx onerr f) → 0 ≤ c →
  (∀ s' e, moves anything h s s' → steady s' → spends reward (g (onerr e)) c s') →
  (∀ s', moves anything h s s' → steady s' → moves anything h s (f s').2 → steady (f s').2 →
     spends reward (g (f s').1) (c + Phi (f s').2 - Phi s') (f s').2) →
  spends reward (astmt ctx onerr f ≫= g) c s.
Proof using K_moves Phi_moves.
  intros Hu Hc He Hf. apply pays_act; [apply steady_moves|done|]. intros s1 H1 Hs1.
  pose proof (proj1 (Hu s1 (proj1 (proj1 Hs1)))) as Hm1. split; [done|]. revert Hm1. unfold astmt_step.
  destruct (expired _ _).
  { intros _. cbn [fst snd]. replace (c + _ - _) with c by lia. by apply He. }
  pose proof (elapses_draws (a_world s1)) as (Hd & _). destruct (draw_db (a_world s1)) as [o w]; cbn [snd] in Hd.
  assert (moves al h s1 (set_world w s1)) as Hm by (apply moves_lifted; [apply Hs1|done]).
  destruct (quiet_step _ _ Hs1 Hm) as [Hm' Hp]. intros Hm1. destruct o as [e|]; cbn [fst snd].
  - eapply pays_mono; [|apply He]; [lia|by eapply moves_trans|by eapply steady_moves].
  - eapply pays_mono; [|apply Hf]; [lia|by eapply moves_trans|by eapply steady_moves|by eapply moves_trans|by eapply steady_moves].
Qed.

(** The bound. *)
Lemma wins_bound (kind : Thread → bool) (ts : list Thread) (credit : Thread → Z) s c :
  steady s →
  (∀ t s, t ∈ ts → steady s → spends (λ x, won kind (t, x)) (run env t) (credit t) s) →
  pool_steps (s, run_thread env <$> ts) c → wins kind c.2 ≤ sum_Z (credit <$> ts) + Phi c.1 - Phi s.
Proof using K_moves.
  intros Hs Hp Hsteps.
  apply (pays_pool steady (moves anything h) Phi steady_refl moves_transitive steady_moves (won kind) _ c (credit <$> ts)
           Hsteps Hs). cbn [fst snd]. clear Hsteps. induction ts as [|t ts IH]; cbn; constructor.
  - apply pays_map. apply Hp; [by left|done].
  - apply IH. intros t' s' Ht'. apply Hp. by right.
Qed.
End spend.

(** ** Codes and challenges *)

(** Using up an unused row pays one; a new one costs one. *)
Lemma use_up {A} (P : string * A → Prop) `{∀ x, Decision (P x)} (m : gmap string A) id a b :
  m !! id = Some a → P (id, a) → ¬ P (id, b) → size (dom (filter P m)) = S (size (dom (filter P (<[id := b]> m)))).
Proof.
  intros Ha HP Hn. rewrite map_filter_insert_False, map_filter_delete, !size_dom by done.
  assert (filter P m !! id = Some a) as Hf by by apply map_lookup_filter_Some.
  rewrite map_size_delete_Some by by eexists.
  assert (size (filter P m) ≠ 0%nat); [|lia]. apply map_size_ne_0_lookup. by eexists _, _.
Qed.
Lemma new_one {A} (P : string * A → Prop) `{∀ x, Decision (P x)} (m : gmap string A) id a :
  (size (dom (filter P (<[id := a]> m))) ≤ S (size (dom (filter P m))))%nat.
Proof.
  transitivity (size ({[id]} ∪ dom (filter P m))).
  - apply subseteq_size. intros k. rewrite elem_of_union, elem_of_singleton, !elem_of_dom.
    intros [x [Hx HP]%map_lookup_filter_Some]. apply lookup_insert_Some in Hx as [[-> _]|[_ Hx]]; [by left|].
    right. exists x. by apply map_lookup_filter_Some.
  - rewrite size_union_alt, size_singleton. apply le_n_S, subseteq_size. set_solver.
Qed.
Definition unused (i : issue) (s : ASt) : gset string :=
  match i with NewCode asn => unused_codes asn s | NewChallenge asn => unused_challenges asn s end.
(** A sign-in with a credential of this kind, and a request for one. *)
Definition verifies (i : issue) (t : Thread) : bool :=
  match t, i with
  | TVerifyCode _ (Some (asn, _)), NewCode asn' => asn =? asn'
  | TVerifyGPG _ (Some (asn, _, _, _)), NewChallenge asn' => asn =? asn'
  | _, _ => false
  end.
#[export] Instance issues_dec t i : Decision (issues t i).
Proof. unfold issues. repeat case_match; apply _. Defined.
Definition request (i : issue) (t : Thread) : Z := if decide (issues t i) then 1 else 0.

Section codes.
Set Default Proof Using "Type*".
Context {JW : Jwt} {DG : Digest} {BC : Bcrypt} {GP : OpenPGP} (env : AuthEnv).
Context (Hscan : ∀ l, en_scan env l ≡ₚ l) (i : issue).
Definition left_over (s : ASt) : Z := - Z.of_nat (size (unused i s)).
Definition others : issue → Prop := λ j, j ≠ i.
Abbreviation steady' := (steady "" (λ _, True)).
Abbreviation spends' := (pays steady' (moves anything "") left_over).

Lemma left_over_moves s s' : calm "" s → True → moves others "" s s' → left_over s ≤ left_over s'.
Proof using.
  intros _ _ [He _]. unfold left_over. enough (unused i s' ⊆ unused i s) as H%subseteq_size by lia.
  unfold unused. destruct i eqn:E; [apply (ev_codes _ _ _ _ He)|apply (ev_gpg _ _ _ _ He)]; intros Hn; by apply Hn.
Qed.
Lemma sp_bind {A B} (reward : B → Z) (p : P A) (g : A → P B) c s :
  under (ok "") (moves others "") (λ _, True) p → 0 ≤ c → steady' s →
  (∀ a s', moves anything "" s s' → steady' s' → spends' reward (g a) c s') → spends' reward (p ≫= g) c s.
Proof using.
  intros Hp Hc Hs Hg. eapply spends_bind with (K := λ _, True) (al := others); [done|apply left_over_moves|done..|].
  intros a s' _. apply Hg.
Qed.
Lemma sp_all {A} (reward : A → Z) (p : P A) c s :
  under (ok "") (moves others "") (λ _, True) p → (∀ a, reward a ≤ c) → 0 ≤ c → spends' reward p c s.
Proof using. apply spends_all; [done|apply left_over_moves]. Qed.
Lemma sp_astmt {R B} (reward : B → Z) ctx (onerr : string → R) f (g : R → P B) c s :
  under (ok "") (moves anything "") (λ _, True) (astmt ctx onerr f) → 0 ≤ c →
  (∀ s' e, moves anything "" s s' → steady' s' → spends' reward (g (onerr e)) c s') →
  (∀ s', moves anything "" s s' → steady' s' → moves anything "" s (f s').2 → steady' (f s').2 →
     spends' reward (g (f s').1) (c + left_over (f s').2 - left_over s') (f s').2) →
  spends' reward (astmt ctx onerr f ≫= g) c s.
Proof using. apply spends_astmt with (K := λ _, True) (al := others); [done|apply left_over_moves]. Qed.

(** A row of the credential's kind and operator, or one that is gone. *)
Definition row_known (id : string) (s : ASt) : Prop :=
  id ∉ s_uuid s ∧
  match i with
  | NewCode asn => ∀ c, s_codes s !! id = Some c → lc_ASN c = asn
  | NewChallenge asn => ∀ c, s_gpg s !! id = Some c → gc_ASN c = asn
  end.
Lemma row_known_moves id s s' : moves anything "" s s' → row_known id s → row_known id s'.
Proof using.
  intros [He _] [Hid H]. pose proof (ev_world _ _ _ _ He) as Hw. split; [by eapply suffix_notin; [apply Hw|]|].
  pose proof (ev_code_rows _ _ _ _ He id Hid) as Hc. pose proof (ev_gpg_rows _ _ _ _ He id Hid) as Hg.
  destruct i as [asn|asn] eqn:E0.
  - intros c Hc'. rewrite Hc' in Hc. destruct (s_codes s !! id) as [c0|] eqn:E; [|done]. destruct Hc as [_ -> _]. by apply H.
  - intros c Hg'. rewrite Hg' in Hg. destruct (s_gpg s !! id) as [c0|] eqn:E; [|done]. destruct Hg as [-> _]. by apply H.
Qed.
Lemma sp_mark_code {B} (reward : B → Z) ctx id asn (g : result bool → P B) s :
  i = NewCode asn → row_known id s →
  (∀ b s', moves anything "" s s' → steady' s' → spends' reward (g b) (match b with Ok true => 1 | _ => 0 end) s') →
  spends' reward (MarkLoginCodeUsed ctx id ≫= g) 0 s.
Proof using.
  intros Hi Hr Hg. apply sp_astmt; [apply un_MarkLoginCodeUsed|done|intros; by apply Hg|].
  intros s' Hm Hs'. pose proof (row_known_moves _ _ _ Hm Hr) as [_ Hk]. rewrite Hi in Hk.
  assert (0 + left_over s' - left_over s' = 0) as E0 by lia.
  destruct (s_codes s' !! id) as [c|] eqn:Hc; cbn [fst snd]; [|intros; rewrite E0; by apply (Hg (Ok false))].
  destruct (lc_Used c) eqn:Hu; cbn [fst snd]; intros Hm2 Hs2; [rewrite E0; by apply (Hg (Ok false))|].
  eapply pays_mono; [|by apply (Hg (Ok true))]. unfold left_over, unused. rewrite Hi. unfold unused_codes.
  change (s_codes (set_codes ?m _)) with m. rewrite (use_up _ (s_codes s') id c (use_code c)); [lia|done| |by intros []].
  split; [by apply (Hk c)|done].
Qed.
Lemma sp_mark_challenge {B} (reward : B → Z) ctx id asn (g : result bool → P B) s :
  i = NewChallenge asn → row_known id s →
  (∀ b s', moves anything "" s s' → steady' s' → spends' reward (g b) (match b with Ok true => 1 | _ => 0 end) s') →
  spends' reward (MarkGPGChallengeUsed ctx id ≫= g) 0 s.
Proof using.
  intros Hi Hr Hg. apply sp_astmt; [apply un_MarkGPG|done|intros; by apply Hg|].
  intros s' Hm Hs'. pose proof (row_known_moves _ _ _ Hm Hr) as [_ Hk]. rewrite Hi in Hk.
  assert (0 + left_over s' - left_over s' = 0) as E0 by lia.
  destruct (s_gpg s' !! id) as [c|] eqn:Hc; cbn [fst snd]; [|intros; rewrite E0; by apply (Hg (Ok false))].
  destruct (gc_Used c) eqn:Hu; cbn [fst snd]; intros Hm2 Hs2; [rewrite E0; by apply (Hg (Ok false))|].
  eapply pays_mono; [|by apply (Hg (Ok true))]. unfold left_over, unused. rewrite Hi. unfold unused_challenges.
  change (s_gpg (set_gpg ?m _)) with m. rewrite (use_up _ (s_gpg s') id c (use_challenge c)); [lia|done| |by intros []].
  split; [by apply (Hk c)|done].
Qed.
Lemma latest_code_in l c : latest_code l = Some c → c ∈ l.
Proof using.
  revert c. induction l as [|x l IH]; intros c; [done|]. unfold latest_code at 1. cbn [foldr]. fold (latest_code l).
  destruct (latest_code l) as [d|].
  - destruct (lc_CreatedAt d <=? lc_CreatedAt x); [intros [= ->]; by left|intros Hd; right; by apply IH].
  - intros [= ->]. by left.
Qed.
Lemma sp_find_code {B} (reward : B → Z) ctx asn (g : result UserLoginCode → P B) s :
  i = NewCode asn →
  (∀ e s', moves anything "" s s' → steady' s' → spends' reward (g (Err e)) 0 s') →
  (∀ c s', moves anything "" s s' → steady' s' → row_known (lc_ID c) s' → spends' reward (g (Ok c)) 0 s') →
  spends' reward (GetLatestValidLoginCode (en_scan env) ctx asn ≫= g) 0 s.
Proof using Hscan.
  intros Hi He Hg. apply sp_astmt; [apply un_aquery|done|intros; by apply He|].
  intros s' Hm Hs' _ _. cbn [fst snd]. replace (0 + _ - _) with 0 by lia. destruct (latest_code _) as [c|] eqn:Hc; [|by apply He].
  apply latest_code_in, list_elem_of_filter in Hc as [Hv Hin]. rewrite Hscan in Hin.
  apply list_elem_of_fmap in Hin as ([id c'] & -> & Hin). apply elem_of_map_to_list in Hin. cbn in *.
  apply Hg; [done..|]. destruct (io_codes s' (proj2 (proj1 Hs')) id c' Hin) as [-> Hid]. split; [done|]. rewrite Hi.
  intros c'' Hc''. rewrite Hin in Hc''. injection Hc'' as <-. unfold valid_code in Hv. boolify. lia.
Qed.
Lemma sp_find_challenge {B} (reward : B → Z) ctx id asn (g : result GPGChallenge → P B) s :
  i = NewChallenge asn →
  (∀ e s', moves anything "" s s' → steady' s' → spends' reward (g (Err e)) 0 s') →
  (∀ c s', moves anything "" s s' → steady' s' → row_known id s' → spends' reward (g (Ok c)) 0 s') →
  spends' reward (GetGPGChallenge ctx id asn ≫= g) 0 s.
Proof using.
  intros Hi He Hg. apply sp_astmt; [apply un_aquery|done|intros; by apply He|].
  intros s' Hm Hs' _ _. cbn [fst snd]. replace (0 + _ - _) with 0 by lia.
  destruct (s_gpg s' !! id) as [c|] eqn:Hc; cbn; [|by apply He]. destruct (_ && _ && _) eqn:Hv; cbn; [|by apply He].
  apply Hg; [done..|]. split; [by apply (io_gpg s' (proj2 (proj1 Hs')) id c)|]. rewrite Hi. intros c'. rewrite Hc. intros [= <-].
  boolify. lia.
Qed.
(** A new row costs the request that issued it. *)
Lemma sp_new_code {B} (reward : B → Z) ctx asn email hash e (g : option string → P B) s :
  i = NewCode asn → (∀ r s', moves anything "" s s' → steady' s' → spends' reward (g r) 0 s') →
  spends' reward (CreateLoginCode ctx asn email hash e ≫= g) 1 s.
Proof using.
  intros Hi Hg. apply sp_astmt; [by apply un_CreateLoginCode|done|intros; eapply pays_mono; [|by apply Hg]; lia|].
  intros s' Hm Hs' Hm2 Hs2. eapply pays_mono; [|by apply Hg]. revert Hm2 Hs2. clear Hg Hm.
  destruct (fresh_id s') as [u s1] eqn:E. apply fresh_id_spec in E as (Ha & _ & _).
  assert (left_over s1 = left_over s') as El.
  { unfold left_over, unused. rewrite Hi. unfold unused_codes. by rewrite (proj1 (same_tables _ _ Ha)). }
  intros _ _. destruct u as [id|]; [|cbn; lia]. destruct (s_codes s1 !! id); cbn [snd]; [lia|].
  rewrite <- El. unfold left_over, unused. rewrite Hi. unfold unused_codes. change (s_codes (set_codes ?m _)) with m.
  match goal with |- context [<[id := ?c]> _] =>
    pose proof (new_one (λ kc : string * UserLoginCode, lc_ASN kc.2 = asn ∧ lc_Used kc.2 = false) (s_codes s1) id c) end. lia.
Qed.
Lemma sp_new_challenge {B} (reward : B → Z) ctx asn fps ch e (g : result string → P B) s :
  i = NewChallenge asn → (∀ r s', moves anything "" s s' → steady' s' → spends' reward (g r) 0 s') →
  spends' reward (CreateGPGChallenge ctx asn fps ch e ≫= g) 1 s.
Proof using.
  intros Hi Hg. apply sp_astmt; [by apply un_CreateGPGChallenge|done|intros; eapply pays_mono; [|by apply Hg]; lia|].
  intros s' Hm Hs' Hm2 Hs2. eapply pays_mono; [|by apply Hg]. revert Hm2 Hs2. clear Hg Hm.
  destruct (fresh_id s') as [u s1] eqn:E. apply fresh_id_spec in E as (Ha & _ & _).
  assert (left_over s1 = left_over s') as El.
  { unfold left_over, unused. rewrite Hi. unfold unused_challenges. by rewrite (proj1 (proj2 (same_tables _ _ Ha))). }
  intros _ _. destruct u as [id|]; [|cbn; lia]. destruct (s_gpg s1 !! id); cbn [snd]; [lia|].
  rewrite <- El. unfold left_over, unused. rewrite Hi. unfold unused_challenges. change (s_gpg (set_gpg ?m _)) with m.
  match goal with |- context [<[id := ?c]> _] =>
    pose proof (new_one (λ kc : string * GPGChallenge, gc_ASN kc.2 = asn ∧ gc_Used kc.2 = false) (s_gpg s1) id c) end. lia.
Qed.

(** *** The handlers *)
Ltac sp_step :=
  match goal with
  | |- pays _ _ _ _ (MarkLoginCodeUsed _ _ ≫= _) _ _ => fail 1
  | |- pays _ _ _ _ (MarkGPGChallengeUsed _ _ ≫= _) _ _ => fail 1
  | |- pays _ _ _ _ (mret _) _ _ => split; [lia|first [by rewrite won_refused by done|done]]
  | |- pays _ _ _ _ (_ ≫= _) _ _ => apply sp_bind; [solve [si_walk]|lia|done|intros ? ? ? ?]
  | |- pays _ _ _ _ (match ?x with _ => _ end) _ _ => destruct x
  | |- _ => progress cbv beta iota zeta
  end.
Ltac sp_walk := repeat sp_step.
(** The session after a credential was used up. *)
Lemma sp_paid t (p : P AuthReply) s :
  under (ok "") (moves others "") (λ _, True) p → spends' (λ x, won (verifies i) (t, x)) p 1 s.
Proof using. intros Hp. apply sp_all; [done| |done]. intros a. apply won_bounds. Qed.
Lemma sp_VerifyCode r asn code s :
  i = NewCode asn → steady' s →
  spends' (λ x, won (verifies i) (TVerifyCode r (Some (asn, code)), x)) (VerifyCode env r (Some (asn, code))) 0 s.
Proof using Hscan.
  intros Hi Hs. unfold VerifyCode, invalid_code, fail. sp_walk.
  apply sp_find_code; [done|intros; sp_walk|]. intros c s5 _ Hs5 Hk. sp_walk.
  eapply sp_mark_code; [done..|]. intros [[]|] s6 _ Hs6; [|sp_walk..].
  apply sp_paid. si_walk.
Qed.
Lemma sp_VerifyGPG r asn id m k s :
  i = NewChallenge asn → steady' s →
  spends' (λ x, won (verifies i) (TVerifyGPG r (Some (asn, id, m, k)), x)) (VerifyGPGSignature env r (Some (asn, id, m, k))) 0 s.
Proof using.
  intros Hi Hs. unfold VerifyGPGSignature, fail. sp_walk.
  apply sp_find_challenge; [done|intros; sp_walk|]. intros c s5 _ Hs5 Hk. sp_walk.
  eapply sp_mark_challenge; [done..|]. intros [[]|] s6 _ Hs6; [|sp_walk..].
  apply sp_paid. si_walk.
Qed.
Lemma sp_RequestCode r asn ts s :
  i = NewCode asn → steady' s →
  spends' (λ x, won (verifies i) (TRequestCode r (Some (asn, ts)), x)) (RequestCode env r (Some (asn, ts))) 1 s.
Proof using.
  intros Hi Hs. unfold RequestCode, generateCode, fail, done. sp_walk.
  apply sp_new_code; [done|]. intros [e|] s6 _ Hs6; sp_walk.
Qed.
Lemma sp_RequestGPG r asn ts s :
  i = NewChallenge asn → steady' s →
  spends' (λ x, won (verifies i) (TRequestGPG r (Some (asn, ts)), x)) (RequestGPGChallenge env r (Some (asn, ts))) 1 s.
Proof using.
  intros Hi Hs. unfold RequestGPGChallenge, fail, done. sp_walk.
  apply sp_new_challenge; [done|]. intros [id|e] s6 _ Hs6; sp_walk.
Qed.
Lemma sp_run t s :
  thread_ok t → steady' s → spends' (λ x, won (verifies i) (t, x)) (run env t) (request i t) s.
Proof using Hscan.
  intros Ht Hs. unfold request. destruct (decide (issues t i)) as [Hi|Hi].
  - destruct t as [r [[asn ts]|]| |r [[asn ts]|]| | | | | | | |], i as [a|a] eqn:Ei; try done; cbn in Hi; subst a; cbn [run];
      rewrite <- Ei; [by apply sp_RequestCode|by apply sp_RequestGPG].
  - destruct (verifies i t) eqn:Hv.
    + destruct t as [|r [[asn code]|]| |r [[[[asn id] m] k]|]| | | | | | |], i as [a|a] eqn:Ei; try done; cbn in Hv;
        apply Z.eqb_eq in Hv as ->; cbn [run]; rewrite <- Ei; [by apply sp_VerifyCode|by apply sp_VerifyGPG].
    + apply sp_all; [|intros a; by rewrite won_other|done]. apply un_run; [done|]. intros j Hj. unfold others. congruence.
Qed.
End codes.

(** C4: However requests, clean-ups and other programs interleave, the sign-ins
    of an operator by e-mail are at most the codes that were unused and the
    requests for new ones, and so for GPG challenges: every credential signs in
    once. *)
Theorem one_login_per_code {JW : Jwt} {DG : Digest} {BC : Bcrypt} {GP : OpenPGP} (env : AuthEnv) (i : issue)
    (ts : list Thread) (s : ASt) (c : ASt * list (P result_of))
  (Hscan : ∀ l, en_scan env l ≡ₚ l) (Hts : Forall thread_ok ts) (Hwf : grants_wf s) (Hids : ids_ok s)
  (Hsteps : pool_steps (s, run_thread env <$> ts) c) :
  wins (verifies i) c.2 ≤ Z.of_nat (size (unused i s)) + sum_Z (request i <$> ts).
Proof.
  enough (wins (verifies i) c.2 ≤ sum_Z (request i <$> ts) + left_over i c.1 - left_over i s) by (unfold left_over in *; lia).
  eapply wins_bound with (K := λ _, True) (h := ""); [done| | |done].
  - split; [|done]. split; [|done]. split; [done|]. by intros [].
  - intros t s' Ht Hs'. apply sp_run; [done|by eapply (proj1 (Forall_forall _ _) Hts)|done].
Qed.

(** ** Device grants *)
Definition exchanges {DG : Digest} (env : AuthEnv) (hash : string) (t : Thread) : bool :=
  match t with
  | TDeviceToken _ (Some (_, code)) => hashDeviceSecret env "device" (TrimSpace code) =s hash
  | _ => false
  end.
Definition exchanged (id : string) (s : ASt) : Z :=
  match s_grants s !! id with Some g => if dg_Status g =s "exchanged" then 1 else 0 | None => 0 end.

Section grants.
Set Default Proof Using "Type*".
Context {JW : Jwt} {DG : Digest} {BC : Bcrypt} {GP : OpenPGP} (env : AuthEnv) (id hash : string).
Definition grant_known (s : ASt) : Prop :=
  id ∉ s_uuid s ∧ ∃ g, s_grants s !! id = Some g ∧ dg_DeviceCodeHash g = hash.
Abbreviation steadyg := (steady "" grant_known).
Abbreviation spendsg := (pays steadyg (moves anything "") (exchanged id)).

Lemma grant_known_moves s s' : grant_known s → moves anything "" s s' → grant_known s'.
Proof using.
  intros (Hid & g & Hg & Hh) [He _]. pose proof (ev_grants _ _ _ _ He id Hid) as H. rewrite Hg in H.
  split; [by eapply suffix_notin; [apply (ev_world _ _ _ _ He)|]|].
  destruct (s_grants s' !! id) as [g'|]; [|done]. exists g'. by rewrite (gs_Device _ _ H).
Qed.
Lemma exchanged_stage g : (dg_Status g =s "exchanged") = true ↔ stage g = GExchanged (dg_ApprovedASN g) (dg_ApprovedEmail g).
Proof using. unfold stage. repeat case_bool_decide; split; congruence. Qed.
Lemma stage_exchanged g asn email : stage g = GExchanged asn email → (dg_Status g =s "exchanged") = true.
Proof using. unfold stage. intros H. repeat case_bool_decide; congruence. Qed.
Lemma exchanged_terminal asn email y : rtc grant_move (GExchanged asn email) y → y = GExchanged asn email.
Proof using. inversion 1 as [|? ? ? Hm]; subst; [done|]. inversion Hm. Qed.
Lemma exchanged_moves s s' : calm "" s → grant_known s → moves anything "" s s' → exchanged id s ≤ exchanged id s'.
Proof using.
  intros _ (Hid & g & Hg & _) [He _]. pose proof (ev_grants _ _ _ _ He id Hid) as H. unfold exchanged. rewrite Hg in *.
  destruct (s_grants s' !! id) as [g'|]; [|done]. destruct (dg_Status g =s "exchanged") eqn:E; [|by case_match].
  apply exchanged_stage in E. pose proof (gs_stage _ _ H) as Hs. rewrite E in Hs. apply exchanged_terminal in Hs.
  by rewrite (stage_exchanged _ _ _ Hs).
Qed.
Lemma spg_bind {A B} (Q : A → Prop) (reward : B → Z) (p : P A) (g : A → P B) c s :
  under (ok "") (moves anything "") Q p → 0 ≤ c → steadyg s →
  (∀ a s', Q a → moves anything "" s s' → steadyg s' → spendsg reward (g a) c s') → spendsg reward (p ≫= g) c s.
Proof using. apply spends_bind; [apply grant_known_moves|apply exchanged_moves]. Qed.
Lemma spg_all {A} (reward : A → Z) (p : P A) c s :
  under (ok "") (moves anything "") (λ _, True) p → (∀ a, reward a ≤ c) → 0 ≤ c → spendsg reward p c s.
Proof using. apply spends_all; [apply grant_known_moves|apply exchanged_moves]. Qed.

(** The exchange pays one. *)
Lemma spg_exchange {B} (reward : B → Z) ctx a (g : result AuthSession → P B) s :
  ¬ has_refresh "" a →
  (∀ r s', moves anything "" s s' → steadyg s' → spendsg reward (g r) (match r with Ok _ => 1 | Err _ => 0 end) s') →
  spendsg reward (ExchangeAuthDeviceGrant ctx hash a ≫= g) 0 s.
Proof using.
  intros Ha Hg. eapply spends_astmt with (al := anything);
    [apply grant_known_moves|apply exchanged_moves|by apply un_ExchangeGrant|done|intros; by apply Hg|].
  intros s' Hm Hs'. assert (0 + exchanged id s' - exchanged id s' = 0) as E0 by lia.
  destruct (grant_where _ s') as [x|] eqn:Ex; cbn [fst snd]; [|intros; rewrite E0; by apply (Hg (Err _))].
  destruct (grant_where_spec "" _ _ _ (proj1 (proj1 Hs')) Ex) as [(Hh & Hst & _) Hx].
  destruct (exchange_error a x); cbn [fst snd]; [intros; rewrite E0; by apply (Hg (Err _))|].
  destruct (proj2 Hs') as (_ & g0 & Hg0 & Hh0). assert (dg_ID x = id) as Hid.
  { eapply (gw_device s'); [apply Hs'|done..|congruence]. }
  rewrite Hid in Hx.
  pose proof (insert_session_grants s' a) as Hgr.
  destruct (insert_session a s') as [[b|e] s1]; cbn [fst snd] in *; intros Hm2 Hs2.
  - eapply pays_mono; [|by apply (Hg (Ok b))].
    unfold exchanged at 1. change (s_grants (put_grant ?g ?s)) with (<[dg_ID g := g]> (s_grants s)). cbn [dg_ID exchange_grant].
    rewrite Hid, lookup_insert_eq. cbn. unfold exchanged. rewrite Hx, Hst. done.
  - eapply pays_mono; [|by apply (Hg (Err e))]. unfold exchanged. rewrite Hgr. lia.
Qed.
Ltac spg_step :=
  match goal with
  | |- pays _ _ _ _ (ExchangeAuthDeviceGrant _ _ _ ≫= _) _ _ => fail 1
  | |- pays _ _ _ _ (PollAuthDeviceGrant _ _ _ ≫= _) _ _ => fail 1
  | |- pays _ _ _ _ (match _ with _ => _ end ≫= _) _ _ => fail 1
  | |- pays _ _ _ _ (mret _) _ _ => split; [lia|first [by rewrite won_refused by done|done]]
  | |- pays _ _ _ _ (_ ≫= _) _ _ => apply spg_bind with (λ _, True); [solve [si_walk]|lia|done|intros ? ? _ ? ?]
  | |- pays _ _ _ _ (match ?x with _ => _ end) _ _ => destruct x
  | |- _ => progress cbv beta iota zeta
  end.
Ltac spg_walk := repeat spg_step.
Lemma spg_seq {A B} (reward : B → Z) (price : A → Z) (p : P A) (g : A → P B) c s :
  steadyg s → spendsg price p c s → (∀ a s', steadyg s' → spendsg reward (g a) (price a) s') → spendsg reward (p ≫= g) c s.
Proof using.
  intros Hs Hp Hg. eapply pays_seq;
    [apply steady_refl|apply moves_transitive|apply steady_moves, grant_known_moves|done|exact Hp|].
  intros a s' _. apply Hg.
Qed.
Definition opened {A} (r : result A) : Z := match r with Ok _ => 1 | Err _ => 0 end.
Lemma new_session_empty r subject asn admin email parent hash' dn lm e :
  ¬ has_refresh "" (new_session r subject asn admin email parent hash' dn lm e).
Proof using. by intros []. Qed.
Lemma spg_opened {A} (p : P (result A)) s :
  under (ok "") (moves anything "") (λ _, True) p → spendsg opened p 1 s.
Proof using. intros Hp. apply spg_all; [done| |done]. by intros []. Qed.
Lemma spg_user ctx r g s : dg_DeviceCodeHash g = hash → steadyg s → spendsg opened (createDeviceUserSession env ctx r g) 0 s.
Proof using.
  intros Hh Hs. unfold createDeviceUserSession. rewrite Hh. spg_walk.
  apply spg_exchange; [apply new_session_empty|]. intros [?|?] ? _ ?; [|spg_walk]. apply spg_opened. si_walk.
Qed.
Lemma spg_admin ctx r g s : dg_DeviceCodeHash g = hash → steadyg s → spendsg opened (createDeviceAdminSession env ctx r g) 0 s.
Proof using.
  intros Hh Hs. unfold createDeviceAdminSession. rewrite Hh. spg_walk.
  apply spg_exchange; [apply new_session_empty|]. intros [?|?] ? _ ?; [|spg_walk]. apply spg_opened. si_walk.
Qed.
Lemma spg_DeviceToken r gt code s :
  hashDeviceSecret env "device" (TrimSpace code) = hash → steadyg s →
  spendsg (λ x, won (exchanges env hash) (TDeviceToken r (Some (gt, code)), x)) (DeviceToken env r (Some (gt, code))) 0 s.
Proof using.
  intros Hh Hs. unfold DeviceToken, expired_token, fail. rewrite Hh. spg_walk.
  eapply spg_bind; [apply un_PollGrant_hash|done|done|]. intros [g|?] ? Hg _ ?; [|spg_walk].
  specialize (Hg g eq_refl). spg_walk.
  apply spg_seq with opened; [done|case_match; [by apply spg_admin|by apply spg_user]|].
  intros [?|?] ? ?; cbn [opened]; [|spg_walk].
  apply spg_all; [si_walk|intros a'; apply won_bounds|done].
Qed.
Lemma spg_run t s :
  thread_ok t → steadyg s → spendsg (λ x, won (exchanges env hash) (t, x)) (run env t) 0 s.
Proof using.
  intros Ht Hs. destruct (exchanges env hash t) eqn:Hx.
  - destruct t as [| | | | | |r [[gt code]|]| | | |]; try done. apply bool_decide_eq_true in Hx. by apply spg_DeviceToken.
  - apply spg_all; [|intros a; by rewrite won_other|done]. by apply un_run.
Qed.
End grants.

(** C7: A device code opens at most one session, and none once its grant has
    been exchanged, however the polls for it interleave. *)
Theorem device_code_once {JW : Jwt} {DG : Digest} {BC : Bcrypt} {GP : OpenPGP} (env : AuthEnv) (id : string) (g : AuthDeviceGrant)
    (ts : list Thread) (s : ASt) (c : ASt * list (P result_of))
  (Hts : Forall thread_ok ts) (Hwf : grants_wf s) (Hids : ids_ok s) (Hid : id ∉ s_uuid s) (Hg : s_grants s !! id = Some g)
  (Hsteps : pool_steps (s, run_thread env <$> ts) c) :
  wins (exchanges env (dg_DeviceCodeHash g)) c.2 ≤ (if dg_Status g =s "exchanged" then 0 else 1).
Proof.
  assert (steady "" (grant_known id (dg_DeviceCodeHash g)) s) as Hs.
  { split; [|split; [done|by exists g]]. split; [|done]. split; [done|]. by intros []. }
  pose proof (wins_bound env "" (exchanged id) _ (grant_known_moves _ _) (exchanges env (dg_DeviceCodeHash g)) ts (λ _, 0) s c Hs) as Hb.
  replace (sum_Z ((λ _, 0) <$> ts)) with 0 in Hb by (clear; induction ts; [done|by cbn]).
  enough (wins (exchanges env (dg_DeviceCodeHash g)) c.2 ≤ 0 + exchanged id c.1 - exchanged id s) as H.
  { unfold exchanged in H. rewrite Hg in H. repeat case_match; lia. }
  apply Hb; [|done]. intros t s' Ht Hs'. apply spg_run; [by eapply (proj1 (Forall_forall _ _) Hts)|done].
Qed.

(** ** Refresh tokens *)
Definition refreshes {DG : Digest} (h : string) (t : Thread) : bool :=
  match t with TRefresh r => match rq_cookie r with Some x => hashRefreshToken x =s h | None => false end | _ => false end.

Section refresh.
Set Default Proof Using "Type*".
Context {JW : Jwt} {DG : Digest} {BC : Bcrypt} {GP : OpenPGP} (env : AuthEnv) (h : string) (Hh : h ≠ "").
Definition unspent (s : ASt) : Z := - Z.of_nat (size (holders h (s_sessions s))).
Abbreviation steadyr := (steady h (λ _, True)).
Abbreviation spendsr := (pays steadyr (moves anything h) unspent).

Lemma unspent_moves s s' : calm h s → True → moves anything h s s' → unspent s ≤ unspent s'.
Proof using.
  intros _ _ [He _]. unfold unspent. pose proof (subseteq_size _ _ (ev_refresh _ _ _ _ He)). lia.
Qed.
Lemma spr_bind {A B} (Q : A → Prop) (reward : B → Z) (p : P A) (g : A → P B) c s :
  under (ok h) (moves anything h) Q p → 0 ≤ c → steadyr s →
  (∀ a s', Q a → moves anything h s s' → steadyr s' → spendsr reward (g a) c s') → spendsr reward (p ≫= g) c s.
Proof using. apply spends_bind; [done|apply unspent_moves]. Qed.
Lemma spr_all {A} (reward : A → Z) (p : P A) c s :
  under (ok h) (moves anything h) (λ _, True) p → (∀ a, reward a ≤ c) → 0 ≤ c → spendsr reward p c s.
Proof using. apply spends_all; [done|apply unspent_moves]. Qed.

(** Rotating the token pays one. *)
Lemma spr_rotate {B} (reward : B → Z) ctx id new (g : result bool → P B) s :
  new ≠ h →
  (∀ b s', moves anything h s s' → steadyr s' → spendsr reward (g b) (match b with Ok true => 1 | _ => 0 end) s') →
  spendsr reward (RotateAuthSessionRefresh ctx id h new ≫= g) 0 s.
Proof.
  intros Hn Hg. eapply spends_astmt with (al := anything) (K := λ _, True);
    [done|apply unspent_moves|by apply un_RotateAuthSession|done|intros; by apply Hg|].
  intros s' Hm Hs'. assert (0 + unspent s' - unspent s' = 0) as E0 by lia.
  destruct (s_sessions s' !! id) as [a|] eqn:Ha; cbn [fst snd]; [|intros; rewrite E0; by apply (Hg (Ok false))].
  destruct (bool_decide (has_refresh h a) && live (s_now s') a) eqn:Ea;
    cbn [fst snd]; [|intros; rewrite E0; by apply (Hg (Ok false))].
  apply andb_true_iff in Ea as [Hr%bool_decide_eq_true _]. unfold rotate_row.
  do 2 (destruct (bool_decide (map_Exists _ _)); cbn [fst snd]; [intros; rewrite E0; by apply (Hg (Err _))|]).
  intros Hm2 Hs2. eapply pays_mono; [|by apply (Hg (Ok true))]. unfold unspent, holders.
  change (s_sessions (set_sessions ?m _)) with m.
  match goal with |- context [<[id := ?b]> _] => rewrite (use_up _ (s_sessions s') id a b); [lia|done..|] end.
  by intros [_ H].
Qed.
Ltac spr_step :=
  match goal with
  | |- pays _ _ _ _ (RotateAuthSessionRefresh _ _ _ _ ≫= _) _ _ => fail 1
  | |- pays _ _ _ _ (generateRefreshToken ≫= _) _ _ =>
      apply spr_bind with (new_token h); [apply un_generateRefreshToken|lia|done|intros [[? ?]|] ? ? ? ?]
  | |- pays _ _ _ _ (mret _) _ _ => split; [lia|by rewrite won_refused by done]
  | |- pays _ _ _ _ (_ ≫= _) _ _ => apply spr_bind with (λ _, True); [solve [si_walk]|lia|done|intros ? ? _ ? ?]
  | |- pays _ _ _ _ (match ?x with _ => _ end) _ _ => destruct x
  | |- _ => progress cbv beta iota zeta
  end.
Lemma spr_Refresh r cookie s :
  rq_cookie r = Some cookie → hashRefreshToken cookie = h → steadyr s →
  spendsr (λ x, won (refreshes h) (TRefresh r, x)) (Refresh env r) 0 s.
Proof.
  intros Hc Hx Hs.
  unfold Refresh, refresh_reused, fail, GetAuthSessionByRefreshHash, GetAuthSessionByPreviousRefreshHash.
  rewrite Hc, Hx. repeat spr_step.
  apply spr_rotate; [by eauto|]. intros [[]|] ? _ ?; [|repeat spr_step..].
  apply spr_all; [si_walk|intros ?; apply won_bounds|done].
Qed.
Lemma spr_run t s : thread_ok t → steadyr s → spendsr (λ x, won (refreshes h) (t, x)) (run env t) 0 s.
Proof.
  intros Ht Hs. destruct (refreshes h t) eqn:Hx.
  - destruct t as [| | | | | | |r| | |]; try done. cbn in Hx. destruct (rq_cookie r) as [x|] eqn:Hc; [|done].
    apply bool_decide_eq_true in Hx. by eapply spr_Refresh.
  - apply spr_all; [|intros a; by rewrite won_other|done]. by apply un_run.
Qed.
End refresh.

(** C6: A refresh token renews a session at most once, and only while a session
    holds it: the renewals with it are at most the sessions that hold it (one,
    as the column is unique), provided no new token has its hash. *)
Theorem refresh_once {JW : Jwt} {DG : Digest} {BC : Bcrypt} {GP : OpenPGP} (env : AuthEnv) (h : string)
    (ts : list Thread) (s : ASt) (c : ASt * list (P result_of))
  (Hts : Forall thread_ok ts) (Hwf : grants_wf s) (Hids : ids_ok s) (Hh : h ≠ "") (Hfresh : fresh_tokens h s)
  (Hsteps : pool_steps (s, run_thread env <$> ts) c) :
  wins (refreshes h) c.2 ≤ Z.of_nat (size (holders h (s_sessions s))).
Proof.
  enough (wins (refreshes h) c.2 ≤ 0 + unspent h c.1 - unspent h s) by (unfold unspent in *; lia).
  pose proof (wins_bound env h (unspent h) (λ _, True) (λ _ _ _ _, I) (refreshes h) ts (λ _, 0) s c) as Hb.
  replace (sum_Z ((λ _, 0) <$> ts)) with 0 in Hb by (clear; induction ts; [done|by cbn]).
  apply Hb; [by split_and!| |done]. intros t s' Ht Hs'. apply spr_run; [done|by eapply (proj1 (Forall_forall _ _) Hts)|done].
Qed.

(** ** At a concrete desk *)
Section desk.
#[local] Existing Instances plain_jwt plain_digest plain_bcrypt plain_pgp.
Definition code_race : list Thread :=
  [TVerifyCode (desk_req "" None) (Some (asn1, "123456")); TVerifyCode (desk_req "" None) (Some (asn1, "123456"));
   TRequestCode (desk_req "" None) (Some (asn1, ""))].

Lemma one_login_per_code_witness :
  let s := desk "pending" None in
  let c := schedule (rounds 40 3) (s, run_thread desk_env <$> code_race) in
  wins (verifies (NewCode asn1)) c.2 = 1
  ∧ wins (verifies (NewCode asn1)) c.2 ≤ Z.of_nat (size (unused (NewCode asn1) s)) + sum_Z (request (NewCode asn1) <$> code_race).
Proof.
  intros s c. split; [vm_compute; reflexivity|].
  apply (one_login_per_code desk_env (NewCode asn1) code_race s c).
  - done.
  - by repeat constructor.
  - apply grants_wfb_ok. vm_compute. reflexivity.
  - apply ids_okb_ok. vm_compute. reflexivity.
  - apply schedule_steps.
Defined.

Definition poll_race : list Thread :=
  replicate 2 (TDeviceToken (desk_req "" None) (Some ("urn:ietf:params:oauth:grant-type:device_code", "ap_dev_x"))).
Lemma device_code_once_witness :
  let s := desk "approved" None in
  let c := schedule (rounds 30 2) (s, run_thread desk_env <$> poll_race) in
  wins (exchanges desk_env (dg_DeviceCodeHash (desk_grant "approved"))) c.2 = 1
  ∧ wins (exchanges desk_env (dg_DeviceCodeHash (desk_grant "approved"))) c.2 ≤ 1.
Proof.
  intros s c. split; [vm_compute; reflexivity|].
  apply (device_code_once desk_env "d1" (desk_grant "approved") poll_race s c).
  - by repeat constructor.
  - apply grants_wfb_ok. vm_compute. reflexivity.
  - apply ids_okb_ok. vm_compute. reflexivity.
  - vm_compute. set_solver.
  - done.
  - apply schedule_steps.
Defined.

Definition refresh_race : list Thread := replicate 2 (TRefresh (desk_req "" (Some "tok"))).
Lemma refresh_once_witness :
  let s := desk "approved" None in
  let h := hashRefreshToken "tok" in
  let c := schedule (rounds 30 2) (s, run_thread desk_env <$> refresh_race) in
  wins (refreshes h) c.2 = 1 ∧ wins (refreshes h) c.2 ≤ Z.of_nat (size (holders h (s_sessions s))).
Proof.
  intros s h c. split; [vm_compute; reflexivity|].
  apply (refresh_once desk_env h refresh_race s c).
  - by repeat constructor.
  - apply grants_wfb_ok. vm_compute. reflexivity.
  - apply ids_okb_ok. vm_compute. reflexivity.
  - done.
  - apply fresh_tokensb_ok. vm_compute. reflexivity.
  - apply schedule_steps.
Defined.
End desk.
