(* ===== verification/AdminPeer.v ===== *)
(** * Peer administration ([internal/handler/admin_peer.go])

    Approval, rejection, suspension, deletion, update, listing, and the import
    and export of peers, with the response each request gets. *)
From S2P Require Import Prelude GoLib Json ApiVersion Model Peering Lock Cache Effects World Store Handler.
From stdpp Require Import options.
Local Open Scope Z_scope.
Local Open Scope go_scope.

Section handlers.
Context (env : Env).

Definition lock_busy : Response :=
  ErrorJSON StatusConflict "operation_in_progress" "Another operation is in progress for this peer, please retry".

Definition refreshContactEmail (storedEmail : string) (asn : Z) : string :=
  match env_LookupASNEmail env asn with Ok fresh => fresh | Err _ => storedEmail end.

(** ** Approval *)
Record approvePeerResult : Type := MkApproved {
  ar_NodeName : string;
  ar_NodeLocation : string;
  ar_NodePublicIP : string;
  ar_NodeOurLLA : string;
  ar_NodeOurWgPubkey : string
}.

(** [None]: the node row was gone and its fields were read. *)
Definition approvePeerCore (ctx : Ctx) (peerID actor : string) : M (option (result approvePeerResult)) :=
  r ← GetByID ctx peerID;
  match r with
  | Err e => mret (Some (Err ("peer not found: " +:+ e)))
  | Ok peer =>
    if peer_Status peer <>s "pending" then mret (Some (Err "peer not found or not pending"))
    else
      a ← SendCommand (peer_NodeID peer) (TypePeerAdd (payload_of peerID peer));
      match a with
      | NoAnswer e => mret (Some (Err ("agent unreachable: " +:+ e)))
      | Answered resp =>
        if refused resp then mret (Some (Err ("agent failed to configure peer: " +:+ msg_Error resp)))
        else
          u ← UpdateStatus ctx peerID "active" [];
          match u with
          | Some e =>
              rb ← SendCommand (peer_NodeID peer) (TypePeerRemove peerID (peer_RemoteASN peer));
              (if rollback_failed rb
               then auditLog ctx "peer.approve.diverged" actor (Some peerID)
                      [("asn", JNum (peer_RemoteASN peer));
                       ("rollback_err", match rb with NoAnswer e => JStr e | Answered _ => JNull end)]
               else mret tt) ;;
              mret (Some (Err ("failed to update peer status in DB: " +:+ e)))
          | None =>
              n ← Node_GetByID ctx (peer_NodeID peer);
              match n with
              | Err _ => mret None
              | Ok node =>
                  sendMail (refreshContactEmail (peer_ContactEmail peer) (peer_RemoteASN peer)) "peer-approved"
                    [("asn", JNum (peer_RemoteASN peer)); ("nodeName", JStr (node_Name node));
                     ("nodeLocation", JStr (node_Location node)); ("ourPublicIp", JStr (node_PublicIP node));
                     ("ourWgPubkey", JStr (node_OurWgPubkey node)); ("ourLla", JStr (node_OurLLA node));
                     ("listenPort", JNum (peer_WgListenPort peer)); ("remoteWgPubkey", JStr (peer_RemotePubkey peer));
                     ("remoteLla", JStr (peer_RemoteLLA peer)); ("remoteEndpoint", JStr (peer_RemoteEndpoint peer));
                     ("wgInterfaceName", JStr (peer_WgInterfaceName peer))] ;;
                  auditLog ctx "peer.approve" actor (Some peerID) [("asn", JNum (peer_RemoteASN peer))] ;;
                  mret (Some (Ok (MkApproved (node_Name node) (node_Location node) (node_PublicIP node)
                                    (node_OurLLA node) (node_OurWgPubkey node))))
              end
          end
      end
  end.

Definition ApprovePeer (peerID adminEmail : string) : M Response :=
  withPeerLock (env_locker env) ("peer:" +:+ peerID) lock_busy (
    r ← approvePeerCore Background peerID adminEmail;
    mret (match r with
          | None => Panicked
          | Some (Err e) => ErrorJSON StatusInternalServerError "approve_failed" e
          | Some (Ok _) => JSON StatusOK (status_body "active")
          end)).

(** ** Rejection: [reason] is [None] when the body does not decode. *)
Definition RejectPeer (peerID adminEmail : string) (reason : option string) : M Response :=
  match reason with
  | None | Some "" => mret (ErrorJSON StatusBadRequest "bad_request" "Rejection reason is required")
  | Some reason =>
      r ← GetByID Background peerID;
      let notfound := ErrorJSON StatusNotFound "peer_not_found" "Peer not found or not in pending status" in
      match r with
      | Err _ => mret notfound
      | Ok peer =>
        if peer_Status peer <>s "pending" then mret notfound
        else
          node ← Node_GetByID Background (peer_NodeID peer);
          u ← UpdateStatus Background peerID "rejected" [WithRejectReason reason];
          match u with
          | Some _ => mret (ErrorJSON StatusInternalServerError "internal_error" "failed to update peer status")
          | None =>
              v ← GetSettingValue "peer_rejected_enabled";
              let done :=
                auditLog Background "peer.reject" adminEmail (Some peerID)
                  [("asn", JNum (peer_RemoteASN peer)); ("reason", JStr reason)] ;;
                mret (JSON StatusOK (status_body "rejected")) in
              if v =s "true" then
                match node with
                | Err _ => mret Panicked
                | Ok node =>
                    sendMail (refreshContactEmail (peer_ContactEmail peer) (peer_RemoteASN peer)) "peer-rejected"
                      [("asn", JNum (peer_RemoteASN peer)); ("nodeName", JStr (node_Name node)); ("reason", JStr reason)] ;;
                    done
                end
              else done
          end
      end
  end.

(** ** Suspension *)
Definition SuspendPeer (peerID adminEmail reason : string) : M Response :=
  withPeerLock (env_locker env) ("peer:" +:+ peerID) lock_busy (
    r ← GetByID Background peerID;
    let notfound := ErrorJSON StatusNotFound "peer_not_found" "Peer not found or not active" in
    match r with
    | Err _ => mret notfound
    | Ok peer =>
      if peer_Status peer <>s "active" then mret notfound
      else
        node ← Node_GetByID Background (peer_NodeID peer);
        a ← SendCommand (peer_NodeID peer) (TypePeerRemove peerID (peer_RemoteASN peer));
        match a with
        | NoAnswer e => mret (ErrorJSON StatusServiceUnavailable "agent_error" ("Failed to reach agent: " +:+ e))
        | Answered resp =>
          if refused resp
          then mret (ErrorJSON StatusInternalServerError "agent_error" ("Agent failed to remove peer: " +:+ msg_Error resp))
          else
            u ← UpdateStatus Background peerID "suspended" [];
            match u with
            | Some _ =>
                _ ← SendCommand (peer_NodeID peer) (TypePeerAdd (payload_of peerID peer));
                mret (ErrorJSON StatusInternalServerError "internal_error" "failed to update peer status")
            | None =>
                auditLog Background "peer.suspend" adminEmail (Some peerID) [("asn", JNum (peer_RemoteASN peer))] ;;
                v ← GetSettingValue "peer_suspended_enabled";
                let done := ClearPeerAlerts peerID ;; mret (JSON StatusOK (status_body "suspended")) in
                if v =s "true" then
                  match node with
                  | Err _ => mret Panicked
                  | Ok node =>
                      sendMail (refreshContactEmail (peer_ContactEmail peer) (peer_RemoteASN peer)) "peer-suspended"
                        [("asn", JNum (peer_RemoteASN peer)); ("nodeName", JStr (node_Name node)); ("reason", JStr reason)] ;;
                      done
                  end
                else done
            end
        end
    end).

Definition UnsuspendPeer (peerID adminEmail : string) : M Response :=
  withPeerLock (env_locker env) ("peer:" +:+ peerID) lock_busy (
    r ← GetByID Background peerID;
    let notfound := ErrorJSON StatusNotFound "peer_not_found" "Peer not found or not suspended" in
    match r with
    | Err _ => mret notfound
    | Ok peer =>
      if peer_Status peer <>s "suspended" then mret notfound
      else
        node ← Node_GetByID Background (peer_NodeID peer);
        a ← SendCommand (peer_NodeID peer) (TypePeerAdd (payload_of peerID peer));
        match a with
        | NoAnswer e => mret (ErrorJSON StatusServiceUnavailable "agent_error" ("Failed to reach agent: " +:+ e))
        | Answered resp =>
          if refused resp
          then mret (ErrorJSON StatusInternalServerError "agent_error" ("Agent failed to add peer: " +:+ msg_Error resp))
          else
            u ← UpdateStatus Background peerID "active" [];
            match u with
            | Some _ =>
                _ ← SendCommand (peer_NodeID peer) (TypePeerRemove peerID (peer_RemoteASN peer));
                mret (ErrorJSON StatusInternalServerError "internal_error" "failed to update peer status")
            | None =>
                auditLog Background "peer.unsuspend" adminEmail (Some peerID) [("asn", JNum (peer_RemoteASN peer))] ;;
                v ← GetSettingValue "peer_unsuspended_enabled";
                let done := mret (JSON StatusOK (status_body "active")) in
                if v =s "true" then
                  match node with
                  | Err _ => mret Panicked
                  | Ok node =>
                      sendMail (refreshContactEmail (peer_ContactEmail peer) (peer_RemoteASN peer)) "peer-unsuspended"
                        [("asn", JNum (peer_RemoteASN peer)); ("nodeName", JStr (node_Name node))] ;;
                      done
                  end
                else done
            end
        end
    end).

(** ** Deletion *)
Definition DeletePeer (peerID adminEmail : string) : M Response :=
  withPeerLock (env_locker env) ("peer:" +:+ peerID) lock_busy (
    r ← GetByID Background peerID;
    match r with
    | Err _ => mret (ErrorJSON StatusNotFound "peer_not_found" "Peer not found")
    | Ok peer =>
        node ← Node_GetByID Background (peer_NodeID peer);
        let finish :=
          d ← Delete_ Background peerID;
          match d with
          | Some _ => mret (ErrorJSON StatusInternalServerError "internal_error" "Failed to delete peer")
          | None =>
              auditLog Background "peer.admin_delete" adminEmail (Some peerID) [("asn", JNum (peer_RemoteASN peer))] ;;
              let nodeName := match node with Ok n => node_Name n | Err _ => "" end in
              v ← GetSettingValue "peer_deleted_enabled";
              (if (v =s "true") && (peer_ContactEmail peer <>s "")
               then sendMail (peer_ContactEmail peer) "peer-deleted"
                      [("asn", JNum (peer_RemoteASN peer)); ("nodeName", JStr nodeName)]
               else mret tt) ;;
              notifyPeerBot (peer_RemoteASN peer) "peer_deleted" "peer.deleted"
                [("asn", JNum (peer_RemoteASN peer)); ("nodeName", JStr nodeName); ("peerId", JStr peerID)] ;;
              ClearPeerAlerts peerID ;;
              mret (JSON StatusOK (status_body "deleted"))
          end in
        if peer_Status peer =s "active" then
          a ← SendCommand (peer_NodeID peer) (TypePeerRemove peerID (peer_RemoteASN peer));
          match a with
          | NoAnswer e => mret (ErrorJSON StatusServiceUnavailable "agent_error" ("Failed to reach agent: " +:+ e))
          | Answered resp =>
              if refused resp
              then mret (ErrorJSON StatusInternalServerError "agent_error" ("Agent failed to remove peer: " +:+ msg_Error resp))
              else finish
          end
        else finish
    end).

(** ** Update *)
Definition UpdatePeer (peerID adminEmail : string) (body : option json) : M Response :=
  withPeerLock (env_locker env) ("peer:" +:+ peerID) lock_busy (
    match decodePeerUpdateJSON body with
    | None => mret (ErrorJSON StatusBadRequest "bad_request" "Invalid JSON body")
    | Some b =>
      match check_update b with
      | Some msg => mret (ErrorJSON StatusBadRequest "bad_request" msg)
      | None =>
        r ← GetByID Background peerID;
        match r with
        | Err _ => mret (ErrorJSON StatusNotFound "peer_not_found" "Peer not found")
        | Ok peer =>
            _ ← Node_GetByID Background (peer_NodeID peer);
            rc ← reconfigure_if_active peerID peer b;
            match reconfigure_error rc with
            | Some resp => mret resp
            | None =>
                u ← UpdateFields Background peerID (update_fields b peer);
                match u with
                | Some _ => mret (ErrorJSON StatusInternalServerError "internal_error" "Agent commands succeeded but DB update failed")
                | None =>
                    auditLog Background "peer.update" adminEmail (Some peerID)
                      (update_changes b peer ++ [("asn", JNum (peer_RemoteASN peer))]) ;;
                    mret (JSON StatusOK (status_body "updated"))
                end
            end
        end
      end
    end).

(** [body] is [None] for malformed JSON, else the [email] and [retry] fields. *)
Definition UpdateContactEmail_ (peerID adminEmail : string) (body : option (string * bool)) : M Response :=
  match body with
  | None => mret (ErrorJSON StatusBadRequest "bad_request" "Invalid JSON body")
  | Some (email, retry) =>
    if (email =s "") && negb retry
    then mret (ErrorJSON StatusBadRequest "bad_request" "Provide email or set retry=true")
    else
      r ← GetByID Background peerID;
      match r with
      | Err _ => mret (ErrorJSON StatusNotFound "peer_not_found" "Peer not found")
      | Ok peer =>
          let store newEmail source :=
            u ← UpdateContactEmail Background peerID newEmail;
            match u with
            | Some _ => mret (ErrorJSON StatusInternalServerError "internal_error" "Failed to update contact email")
            | None =>
                auditLog Background "peer.email_updated" adminEmail (Some peerID)
                  [("asn", JNum (peer_RemoteASN peer)); ("source", JStr source)] ;;
                mret (JSON StatusOK (JObj [("email", JStr newEmail)]))
            end in
          if retry : bool then
            match env_LookupASNEmail env (peer_RemoteASN peer) with
            | Err e => mret (ErrorJSON StatusBadRequest "registry_error" ("Registry lookup failed: " +:+ e))
            | Ok fresh => store fresh "registry"
            end
          else store email "manual"
      end
  end.

(** ** Import of the peers an agent already carries *)
Record ImportCounts : Type := MkCounts {
  ic_inserted : Z;
  ic_skipped : Z;
  ic_dbErrors : Z;
  ic_missing : list json
}.

Definition ImportNodePeers (nodeID adminEmail : string) : M Response :=
  a ← SendCommand nodeID TypePeersImport;
  match a with
  | NoAnswer e => mret (ErrorJSON StatusServiceUnavailable "agent_error" ("Failed to reach agent: " +:+ e))
  | Answered resp =>
    if refused resp
    then mret (ErrorJSON StatusInternalServerError "agent_error" ("Agent scan failed: " +:+ msg_Error resp))
    else
      c ← foldM (λ c p,
            let lookup := env_LookupASNEmail env (pi_ASN p) in
            let email := match lookup with Ok e => e | Err _ => "" end in
            let wgManaged := pi_WgManaged p || ((pi_BgpProtoName p =s "") && (pi_BirdConfigFilename p =s "")) in
            r ← ImportPeer Background (MkPeer "" nodeID (pi_ASN p) (pi_RemotePubkey p) (pi_RemoteEndpoint p)
                  (pi_RemoteLLA p) email (pi_WgListenPort p) (pi_WgInterface p) (pi_BgpProtoName p)
                  (pi_BirdConfigFilename p) wgManaged None None "" None None false None 0 0 0);
            match r with
            | Err _ => mret (MkCounts (ic_inserted c) (ic_skipped c) (ic_dbErrors c + 1) (ic_missing c))
            | Ok peerID =>
                if peerID =s "" then mret (MkCounts (ic_inserted c) (ic_skipped c + 1) (ic_dbErrors c) (ic_missing c))
                else
                  auditLog Background "peer.import_peer" adminEmail (Some peerID)
                    [("asn", JNum (pi_ASN p)); ("node_id", JStr nodeID); ("wg_managed", JBool wgManaged)] ;;
                  mret (MkCounts (ic_inserted c + 1) (ic_skipped c) (ic_dbErrors c)
                    (match lookup with
                     | Err e => ic_missing c ++
                         [JObj [("peer_id", JStr peerID); ("asn", JNum (pi_ASN p)); ("reason", JStr e)]]
                     | Ok _ => ic_missing c
                     end))
            end) (MkCounts 0 0 0 []) (msg_Peers resp);
      let total := Z.of_nat (length (msg_Peers resp)) in
      auditLog Background "peer.import" adminEmail (Some nodeID)
        [("inserted", JNum (ic_inserted c)); ("skipped", JNum (ic_skipped c)); ("db_errors", JNum (ic_dbErrors c));
         ("total", JNum total); ("missing_email", JNum (Z.of_nat (length (ic_missing c))))] ;;
      mret (JSON StatusOK (JObj
        [("status", JStr "completed"); ("inserted", JNum (ic_inserted c)); ("skipped", JNum (ic_skipped c));
         ("db_errors", JNum (ic_dbErrors c)); ("total", JNum total);
         ("missing_email", match ic_missing c with [] => JNull | l => JArr l end)]))
  end.

(** ** Export and import of all peers *)
Record peerExportEntry : Type := MkExportEntry {
  ex_NodeID : string;
  ex_NodeName : string;
  ex_RemoteASN : Z;
  ex_RemotePubkey : string;
  ex_RemoteEndpoint : string;
  ex_RemoteLLA : string;
  ex_ContactEmail : string;
  ex_WgListenPort : Z;
  ex_WgInterfaceName : string;
  ex_BgpProtoName : string;
  ex_BirdConfigFilename : string;
  ex_WgManaged : bool;
  ex_MTU : option Z;
  ex_WgPreSharedKey : option string;
  ex_Status : string
}.
Record peerExportFile : Type := MkExportFile {
  ef_Version : Z;
  ef_ExportedAt : string;
  ef_Peers : list peerExportEntry
}.
Definition peerExportVersion : Z := 1.

Definition export_entry (nodeName : string → string) (p : Peer) : peerExportEntry :=
  MkExportEntry (peer_NodeID p) (nodeName (peer_NodeID p)) (peer_RemoteASN p) (peer_RemotePubkey p)
    (peer_RemoteEndpoint p) (peer_RemoteLLA p) (peer_ContactEmail p) (peer_WgListenPort p)
    (peer_WgInterfaceName p) (peer_BgpProtoName p) (peer_BirdConfigFilename p) (peer_WgManaged p)
    (peer_MTU p) (peer_WgPreSharedKey p) (peer_Status p).

Definition name_of (nodes : list Node) (id : string) : string :=
  default "" (node_Name <$> head (filter (λ n, node_ID n = id) nodes)).

(** The file, or the error response. *)
Definition ExportPeers (adminEmail : string) : M (Response + peerExportFile) :=
  r ← ListAll Background;
  match r with
  | Err _ => mret (inl (ErrorJSON StatusInternalServerError "internal_error" "Failed to load peers"))
  | Ok peers =>
      n ← Node_List Background;
      now ← now_;
      let nodes := match n with Ok l => l | Err _ => [] end in
      let entries := map (export_entry (name_of nodes)) peers in
      auditLog Background "peer.export" adminEmail None [("count", JNum (Z.of_nat (length entries)))] ;;
      mret (inr (MkExportFile peerExportVersion (RFC3339 now) entries))
  end.

Definition entry_peer (e : peerExportEntry) : Peer :=
  MkPeer "" (ex_NodeID e) (ex_RemoteASN e) (ex_RemotePubkey e) (ex_RemoteEndpoint e) (ex_RemoteLLA e)
    (ex_ContactEmail e) (ex_WgListenPort e) (ex_WgInterfaceName e) (ex_BgpProtoName e) (ex_BirdConfigFilename e)
    (ex_WgManaged e) (ex_MTU e) (ex_WgPreSharedKey e) (ex_Status e) None None false None 0 0 0.

Record ImportTally : Type := MkTally {
  it_imported : Z;
  it_overwritten : Z;
  it_skipped : Z;
  it_errors : list (string * Z * string);     (* node, ASN, reason *)
  it_nodeExists : gmap string bool
}.
Definition tally_error (t : ImportTally) (nodeID : string) (asn : Z) (reason : string) : ImportTally :=
  MkTally (it_imported t) (it_overwritten t) (it_skipped t) (it_errors t ++ [(nodeID, asn, reason)]) (it_nodeExists t).

(** One entry of the file. *)
Definition import_entry (adminEmail : string) (overwrite : bool) (t : ImportTally) (e : peerExportEntry)
  : M ImportTally :=
  if ex_NodeID e =s "" then mret (tally_error t "" (ex_RemoteASN e) "missing node_id")
  else if ex_RemoteASN e <=? 0 then mret (tally_error t (ex_NodeID e) (ex_RemoteASN e) "invalid remote_asn")
  else
    t ← match it_nodeExists t !! ex_NodeID e with
        | Some _ => mret t
        | None =>
            n ← Node_GetByID Background (ex_NodeID e);
            mret (MkTally (it_imported t) (it_overwritten t) (it_skipped t) (it_errors t)
                    (<[ex_NodeID e := is_ok n]> (it_nodeExists t)))
        end;
    if negb (default false (it_nodeExists t !! ex_NodeID e))
    then mret (tally_error t (ex_NodeID e) (ex_RemoteASN e) "node not found")
    else
      r ← ImportPeerFull Background (entry_peer e) overwrite;
      match r with
      | Err msg => mret (tally_error t (ex_NodeID e) (ex_RemoteASN e) ("db error: " +:+ msg))
      | Ok (Imported, peerID) =>
          auditLog Background "peer.import_peer" adminEmail (Some peerID)
            [("asn", JNum (ex_RemoteASN e)); ("node_id", JStr (ex_NodeID e)); ("source", JStr "json")] ;;
          mret (MkTally (it_imported t + 1) (it_overwritten t) (it_skipped t) (it_errors t) (it_nodeExists t))
      | Ok (Overwritten, peerID) =>
          auditLog Background "peer.import_peer" adminEmail (Some peerID)
            [("asn", JNum (ex_RemoteASN e)); ("node_id", JStr (ex_NodeID e)); ("source", JStr "json");
             ("overwrite", JBool true)] ;;
          mret (MkTally (it_imported t) (it_overwritten t + 1) (it_skipped t) (it_errors t) (it_nodeExists t))
      | Ok (Skipped, _) =>
          mret (MkTally (it_imported t) (it_overwritten t) (it_skipped t + 1) (it_errors t) (it_nodeExists t))
      end.

(** [entries] is [None] when the body is neither an export file nor an array. *)
Definition ImportPeers (adminEmail : string) (overwrite : bool) (entries : option (list peerExportEntry))
  : M Response :=
  match entries with
  | None => mret (ErrorJSON StatusBadRequest "invalid_json" "Body must be a peer export object or a JSON array of peers")
  | Some entries =>
      t ← foldM (import_entry adminEmail overwrite) (MkTally 0 0 0 [] ∅) entries;
      let total := Z.of_nat (length entries) in
      auditLog Background "peer.import_json" adminEmail None
        [("imported", JNum (it_imported t)); ("overwritten", JNum (it_overwritten t));
         ("skipped", JNum (it_skipped t)); ("errors", JNum (Z.of_nat (length (it_errors t))));
         ("total", JNum total); ("overwrite", JBool overwrite)] ;;
      mret (JSON StatusOK (JObj
        [("status", JStr "completed"); ("imported", JNum (it_imported t));
         ("overwritten", JNum (it_overwritten t)); ("skipped", JNum (it_skipped t)); ("total", JNum total);
         ("errors", JArr (map (λ '(n, a, r), JObj [("node_id", JStr n); ("asn", JNum a); ("reason", JStr r)])
                     (it_errors t)))]))
  end.

(** ** Listing *)
Definition opt_field {A} (name : string) (f : A → json) (o : option A) : obj :=
  match o with Some a => [(name, f a)] | None => [] end.
Definition JTime (t : Z) : json := JStr (RFC3339Nano t).

Definition admin_peer_json (r : AdminPeerListResult) : json :=
  let p := ap_Peer r in
  JObj ([("id", JStr (peer_ID p)); ("node_id", JStr (peer_NodeID p)); ("remote_asn", JNum (peer_RemoteASN p));
     ("remote_pubkey", JStr (peer_RemotePubkey p)); ("remote_endpoint", JStr (peer_RemoteEndpoint p));
     ("remote_lla", JStr (peer_RemoteLLA p)); ("contact_email", JStr (peer_ContactEmail p));
     ("wg_listen_port", JNum (peer_WgListenPort p)); ("wg_interface_name", JStr (peer_WgInterfaceName p));
     ("wg_managed", JBool (peer_WgManaged p)); ("status", JStr (peer_Status p))]
    ++ opt_field "reject_reason" JStr (peer_RejectReason p)
    ++ [("created_at", JStr (RFC3339 (peer_CreatedAt p))); ("updated_at", JStr (RFC3339 (peer_UpdatedAt p)));
        ("node_name", JStr (node_Name (ap_Node r))); ("node_location", JStr (node_Location (ap_Node r)))]
    ++ opt_field "mtu" JNum (peer_MTU p)
    ++ opt_field "latest_rtt" JFloat (ap_Latest r ≫= pm_RttMs)
    ++ opt_field "latest_bgp_state" JStr (pm_BGPState <$> ap_Latest r)
    ++ [("rx_bytes_24h", JNum (ap_RxDelta r)); ("tx_bytes_24h", JNum (ap_TxDelta r))]
    ++ opt_field "endpoint_mismatch_since" JTime (peer_EndpointMismatchSince p)
    ++ [("bgp_suspended_by_endpoint", JBool (peer_BGPSuspendedByEndpoint p))]).

(** The query parameters arrive as text, "" when absent. *)
Definition ListPeers (version status asnStr nodeID pageStr perPageStr : string) : M Response :=
  let page := match Atoi pageStr with Some p => if 0 <? p then p else 1 | None => 1 end in
  let perPage := match Atoi perPageStr with
                 | Some pp => if (0 <? pp) && (pp <=? 200) then pp else 20
                 | None => 20
                 end in
  let asn := default 0 (ParseInt64 asnStr) in
  r ← List_ Background (MkListParams status nodeID asn page perPage);
  mret (match r with
        | Err _ => ErrorJSON StatusInternalServerError "internal_error" "Failed to fetch peers"
        | Ok (rows, total) =>
            JSON StatusOK (JSONVersioned version ResourcePeer "peers" (JObj
              [("peers", JArr (map admin_peer_json rows)); ("total", JNum total);
               ("page", JNum page); ("per_page", JNum perPage)]))
        end).
End handlers.
