(* ===== verification/UserPeer.v ===== *)
(** * Peers of a logged-in operator ([internal/handler/peer.go])

    Every operation is scoped to the ASN of the session. *)
From S2P Require Import Prelude GoLib Json ApiVersion Model Peering Lock Cache Effects World Store Handler AdminPeer.
From stdpp Require Import options.
Local Open Scope Z_scope.
Local Open Scope go_scope.

Definition user_busy : Response :=
  ErrorJSON StatusConflict "operation_in_progress" "Another peer operation is in progress, please retry".
Definition peer_not_found : Response := ErrorJSON StatusNotFound "peer_not_found" "Peer not found".
Definition operator_of (asn : Z) : string := "AS" +:+ fmt_d asn.

(** ** Reading *)
Definition peer_fields (p : Peer) : obj :=
  [("id", JStr (peer_ID p)); ("node_id", JStr (peer_NodeID p)); ("remote_asn", JNum (peer_RemoteASN p));
   ("remote_pubkey", JStr (peer_RemotePubkey p)); ("remote_endpoint", JStr (peer_RemoteEndpoint p));
   ("remote_lla", JStr (peer_RemoteLLA p)); ("contact_email", JStr (peer_ContactEmail p));
   ("wg_listen_port", JNum (peer_WgListenPort p)); ("wg_interface_name", JStr (peer_WgInterfaceName p));
   ("wg_managed", JBool (peer_WgManaged p)); ("status", JStr (peer_Status p))]
  ++ opt_field "reject_reason" JStr (peer_RejectReason p)
  ++ opt_field "endpoint_mismatch_since" JTime (peer_EndpointMismatchSince p)
  ++ [("bgp_suspended_by_endpoint", JBool (peer_BGPSuspendedByEndpoint p));
      ("created_at", JTime (peer_CreatedAt p)); ("updated_at", JTime (peer_UpdatedAt p))].

Definition list_item (pn : Peer * Node) : json :=
  JObj (peer_fields pn.1
    ++ [("node_name", JStr (node_Name pn.2)); ("node_location", JStr (node_Location pn.2))]
    ++ opt_field "mtu" JNum (peer_MTU pn.1)
    ++ opt_field "wg_preshared_key" JStr (peer_WgPreSharedKey pn.1)).

Definition detail_item (pn : Peer * Node) : json :=
  JObj (peer_fields pn.1
    ++ [("node_name", JStr (node_Name pn.2)); ("node_location", JStr (node_Location pn.2));
        ("node_public_ip", JStr (node_PublicIP pn.2)); ("node_our_lla", JStr (node_OurLLA pn.2));
        ("node_our_wg_pubkey", JStr (node_OurWgPubkey pn.2))]
    ++ opt_field "mtu" JNum (peer_MTU pn.1)
    ++ opt_field "wg_preshared_key" JStr (peer_WgPreSharedKey pn.1)).

(** [version] is the API version of the request. *)
Definition List (version : string) (asn : Z) : M Response :=
  r ← ListByASN Background asn;
  mret (match r with
        | Err _ => ErrorJSON StatusInternalServerError "internal_error" "Failed to fetch peers"
        | Ok rows => JSON StatusOK (JSONVersioned version ResourcePeer "" (JArr (map list_item rows)))
        end).

Definition Get_ (version : string) (asn : Z) (peerID : string) : M Response :=
  r ← GetByIDAndASNWithNode Background peerID asn;
  mret (match r with
        | Err _ => peer_not_found
        | Ok pn => JSON StatusOK (JSONVersioned version ResourcePeer "" (detail_item pn))
        end).

(** ** Metrics *)
Definition metric_point (m : PeerMetric) : json :=
  JObj [("time", JTime (pm_Time m)); ("rx_bytes", JNum (pm_RxBytes m)); ("tx_bytes", JNum (pm_TxBytes m));
        ("rtt_ms", jopt JFloat (pm_RttMs m));
        ("bgp_state", if pm_BGPState m =s "" then JNull else JStr (pm_BGPState m));
        ("last_handshake", jopt (λ t, JStr (RFC3339 t)) (pm_LastHandshake m))].

(** [hours]: the query parameter, "" when absent. *)
Definition metric_hours (hours : string) : Z :=
  match Atoi hours with Some v => if (0 <? v) && (v <=? 720) then v else 24 | None => 24 end.

Definition Metrics (asn : Z) (peerID hours : string) : M Response :=
  r ← GetByIDAndASN Background peerID asn;
  match r with
  | Err _ => mret peer_not_found
  | Ok _ =>
      s ← GetLatestPeerMetricSummary Background peerID;
      d ← QueryPeerMetrics Background peerID (metric_hours hours);
      mret (match d with
            | Err _ => ErrorJSON StatusInternalServerError "internal_error" "Failed to fetch metrics"
            | Ok ms =>
                let latest {A} (f : PeerMetric → option A) : option A := last ms ≫= f in
                JSON StatusOK (JObj
                  [("peer_id", JStr peerID);
                   ("latest_rtt", jopt JFloat (latest pm_RttMs));
                   ("latest_bgp_state",
                     jopt JStr (latest (λ m, if pm_BGPState m =s "" then None else Some (pm_BGPState m))));
                   ("latest_handshake", jopt (λ t, JStr (RFC3339 t)) (latest pm_LastHandshake));
                   ("latest_wg_actual_endpoint",
                     match s with Ok m => JStr (pm_WgActualEndpoint m) | Err _ => JNull end);
                   ("points", JArr (map metric_point ms))])
            end)
  end.

Definition Summary (asn : Z) : M Response :=
  r ← SummaryByASN Background asn;
  mret (match r with
        | Err _ => ErrorJSON StatusInternalServerError "internal_error" "Failed to fetch peer summary"
        | Ok rows => JSON StatusOK (JArr (map (λ '(id, m),
            JObj [("peer_id", JStr id);
                  ("latest_rtt", jopt JFloat (m ≫= pm_RttMs));
                  ("latest_bgp_state", jopt JStr (pm_BGPState <$> m));
                  ("latest_handshake", jopt (λ t, JStr (RFC3339 t)) (m ≫= pm_LastHandshake));
                  ("latest_bgp_uptime_secs", jopt JNum (m ≫= pm_BGPUptimeSecs))]) rows))
        end).

Section handlers.
Context (env : Env).

Definition CreationStatus : M Response :=
  if env_admin env
  then v ← GetSiteSettingValue "peer_creation_enabled"; mret (JSON StatusOK (JObj [("enabled", JBool (v =s "true"))]))
  else mret (JSON StatusOK (JObj [("enabled", JBool true)])).

(** ** Creation *)
Record createPeerReq : Type := MkCreateReq {
  cr_NodeID : string;
  cr_RemotePubkey : string;
  cr_RemoteEndpoint : string;
  cr_RemoteLLA : string;
  cr_MTU : option Z;
  cr_EnablePSK : bool
}.

(** The checks on the body, in the order they are made. *)
Definition check_create (req : createPeerReq) : option string :=
  if cr_NodeID req =s "" then Some "node_id is required"
  else if bad_pubkey (cr_RemotePubkey req) then Some "Invalid WireGuard public key (must be Base64)"
  else if negb (validateEndpoint (cr_RemoteEndpoint req))
  then Some "Invalid endpoint (format: IP:Port or [IPv6]:Port)"
  else if negb (validateLLA (cr_RemoteLLA req)) then Some "Invalid link-local address (must be fe80::/10)"
  else if bad_mtu (cr_MTU req) then Some "MTU must be between 576 and 9000"
  else None.

Definition created_body (peerID status : string) (wgPort : Z) (wgIfName : string) (mtu : option Z) (psk : option string)
  : json :=
  JObj [("id", JStr peerID); ("status", JStr status); ("wg_listen_port", JNum wgPort);
        ("wg_interface_name", JStr wgIfName); ("mtu", jopt JNum mtu); ("wg_preshared_key", jopt JStr psk)].

Definition port_conflict_msg (wgPort : Z) : string :=
  "WireGuard port " +:+ fmt_d wgPort +:+ " is already used on this node; your ASN shares a port suffix with an existing peer. Please contact the administrator.".

(** After the insert: audit, automatic approval or the submission notices. *)
Definition create_announce (asn : Z) (req : createPeerReq) (node : Node) (email : string) (peer : Peer) : M Response :=
  let peerID := peer_ID peer in
  let reply status := JSON StatusCreated (created_body peerID status (peer_WgListenPort peer)
                        (peer_WgInterfaceName peer) (cr_MTU req) (peer_WgPreSharedKey peer)) in
  let submitted : M unit :=
    now ← now_;
    sendMail email "peer-submitted"
      [("asn", JNum asn); ("nodeName", JStr (node_Name node)); ("nodeLocation", JStr (node_Location node));
       ("ourWgPubkey", JStr (node_OurWgPubkey node)); ("ourLla", JStr (node_OurLLA node));
       ("ourPublicIp", JStr (node_PublicIP node)); ("createdAt", JStr (RFC3339 now))] in
  let notify := notifyPeerBot asn "peer_submitted" "peer.submitted"
                  [("asn", JNum asn); ("nodeName", JStr (node_Name node))] in
  auditLog Background "peer.create" (operator_of asn) (Some peerID)
    [("node_id", JStr (cr_NodeID req)); ("asn", JNum asn)] ;;
  auto ← (if env_admin env then GetSiteSettingValue "auto_approve_peers" else mret "");
  if auto =s "true" then
    r ← approvePeerCore env Background peerID "system:auto-approve";
    match r with
    | None => mret Panicked
    | Some (Ok _) => mret (reply "active")
    | Some (Err _) => submitted ;; notify ;; mret (reply "pending")
    end
  else submitted ;; notify ;; mret (reply "pending").

(** From the existence check to the insert. *)
Definition create_insert (asn : Z) (req : createPeerReq) (node : Node) : M Response :=
  ex ← ExistsByNodeAndASN Background (cr_NodeID req) asn;
  match ex with
  | Ok true => mret (ErrorJSON StatusConflict "peer_exists" "You already have a peer on this node")
  | _ =>
    let email := match env_LookupASNEmail env asn with Ok e => e | Err _ => "" end in
    let wgPort := WgPort asn (node_WgPortPrefix node) in
    let wgIfName := WgInterfaceName asn in
    c ← CountPendingByASN Background asn;
    if 10 <=? match c with Ok n => n | Err _ => 0 end
    then mret (ErrorJSON StatusTooManyRequests "too_many_pending" "You have too many pending peer requests")
    else
      pe ← ExistsByNodeAndPort Background (cr_NodeID req) wgPort;
      match pe with
      | Ok true => mret (ErrorJSON StatusConflict "port_conflict" (port_conflict_msg wgPort))
      | _ =>
        psk ← (if cr_EnablePSK req
               then rnd ← rand_read;
                    mret (match GeneratePSK rnd with Ok k => Ok (Some k) | Err e => Err e end)
               else mret (Ok None));
        match psk with
        | Err _ => mret (ErrorJSON StatusInternalServerError "internal_error" "Failed to generate pre-shared key")
        | Ok psk =>
          now ← now_;
          r ← Create Background (MkPeer "" (cr_NodeID req) asn (cr_RemotePubkey req) (cr_RemoteEndpoint req)
                (cr_RemoteLLA req) email wgPort wgIfName "" "" true (cr_MTU req) psk "pending" None None false None 0
                now now);
          match r with
          | inl (PgUnique constraint) =>
              mret (if Contains constraint "port"
                    then ErrorJSON StatusConflict "port_conflict" "computed WireGuard port conflicts with an existing peer on this node"
                    else ErrorJSON StatusInternalServerError "internal_error" "Failed to create peer")
          | inl _ => mret (ErrorJSON StatusInternalServerError "internal_error" "Failed to create peer")
          | inr peer => create_announce asn req node email peer
          end
        end
      end
  end.

(** [body] is [None] for malformed JSON. *)
Definition Create_ (asn : Z) (body : option createPeerReq) : M Response :=
  enabled ← (if env_admin env then GetSiteSettingValue "peer_creation_enabled" else mret "true");
  if enabled <>s "true"
  then mret (ErrorJSON StatusForbidden "peer_creation_disabled" "Peer creation is currently disabled")
  else
    match body with
    | None => mret (ErrorJSON StatusBadRequest "bad_request" "Invalid JSON body")
    | Some req =>
      match check_create req with
      | Some msg => mret (ErrorJSON StatusBadRequest "bad_request" msg)
      | None =>
        n ← Node_GetByID Background (cr_NodeID req);
        let invalid := ErrorJSON StatusBadRequest "invalid_node" "Node not found or disabled" in
        match n with
        | Err _ => mret invalid
        | Ok node =>
          if negb (node_Enabled node) then mret invalid
          else
            withPeerLock (env_locker env) ("peer-create:" +:+ cr_NodeID req +:+ ":" +:+ fmt_d asn) user_busy
              (create_insert asn req node)
        end
      end
    end.

(** ** Deletion *)
Definition Delete (asn : Z) (peerID : string) : M Response :=
  withPeerLock (env_locker env) ("peer:" +:+ peerID) user_busy (
    r ← GetByIDAndASN Background peerID asn;
    match r with
    | Err _ => mret peer_not_found
    | Ok peer =>
        let finish :=
          d ← Delete_ Background peerID;
          match d with
          | Some _ => mret (ErrorJSON StatusInternalServerError "internal_error" "Failed to delete peer")
          | None =>
              auditLog Background "peer.delete" (operator_of asn) (Some peerID) [] ;;
              notifyPeerBot asn "peer_deleted" "peer.deleted" [("asn", JNum asn); ("peerId", JStr peerID)] ;;
              mret (JSON StatusOK (status_body "deleted"))
          end in
        if peer_Status peer =s "active" then
          a ← SendCommand (peer_NodeID peer) (TypePeerRemove peerID asn);
          match a with
          | NoAnswer e => mret (ErrorJSON StatusServiceUnavailable "agent_error" ("Failed to reach agent: " +:+ e))
          | Answered resp =>
              if refused resp
              then mret (ErrorJSON StatusInternalServerError "agent_error" ("Agent failed to remove peer: " +:+ msg_Error resp))
              else finish
          end
        else finish
    end).

(** ** Update *)
Definition Update (asn : Z) (peerID : string) (body : option json) : M Response :=
  withPeerLock (env_locker env) ("peer:" +:+ peerID) user_busy (
    match decodePeerUpdateJSON body with
    | None => mret (ErrorJSON StatusBadRequest "bad_request" "Invalid JSON body")
    | Some b =>
      match check_update b with
      | Some msg => mret (ErrorJSON StatusBadRequest "bad_request" msg)
      | None =>
        r ← GetByIDAndASN Background peerID asn;
        match r with
        | Err _ => mret peer_not_found
        | Ok peer =>
          if (peer_Status peer <>s "pending") && (peer_Status peer <>s "active")
          then mret (ErrorJSON StatusBadRequest "bad_request" "Only pending or active peers can be edited")
          else
            rc ← reconfigure_if_active peerID peer b;
            match reconfigure_error rc with
            | Some resp => mret resp
            | None =>
                u ← UpdateFields Background peerID (update_fields b peer);
                match u with
                | Some _ => mret (ErrorJSON StatusInternalServerError "internal_error" "Failed to update peer")
                | None =>
                    auditLog Background "peer.user_update" (operator_of asn) (Some peerID) (update_changes b peer) ;;
                    mret (JSON StatusOK (status_body "updated"))
                end
            end
        end
      end
    end).
End handlers.
