(* ===== verification/BotPeer.v ===== *)
(** * Peer operations of the Telegram bot ([internal/ws/bot_peer_handler.go],
    [internal/ws/bot_admin_handler.go])

    The same lifecycle as the HTTP handlers, reached over the bot connection:
    operators act on the ASN bound to their Telegram account, administrators on
    any peer.  Every handler works under a context with a deadline. *)
From S2P Require Import Prelude GoLib Json Model Peering Lock Cache Effects World Store Handler AdminPeer UserPeer.
From stdpp Require Import options.
Local Open Scope Z_scope.
Local Open Scope go_scope.

(** The result payloads: success with an optional id or message, or an error. *)
Inductive BotReply : Type :=
| BotOk (info : string)
| BotErr (error : string).

Section handlers.
Context (env : Env).

Definition bot_busy : BotReply := BotErr "another peer operation is in progress, please retry".

(** ** Operators *)
Record BotUserPeerCreatePayload : Type := MkBotCreate {
  bcp_TgUserID : Z;
  bcp_NodeID : string;
  bcp_RemotePubkey : string;
  bcp_RemoteEndpoint : string;
  bcp_RemoteLLA : string;
  bcp_MTU : option Z
}.

Definition handleBotUserPeerCreate (payload : BotUserPeerCreatePayload) : M BotReply :=
  ctx ← with_timeout (10 * Second);
  binding ← Binding_GetByTgUserID ctx (bcp_TgUserID payload);
  match binding with
  | Err _ => mret (BotErr "not bound")
  | Ok asn =>
    n ← Node_GetByID ctx (bcp_NodeID payload);
    let missing := BotErr "node not found or disabled" in
    match n with
    | Err _ => mret missing
    | Ok node =>
      if negb (node_Enabled node) then mret missing
      else
        match BuildPendingPeer None
                (MkInput asn (bcp_NodeID payload) (node_WgPortPrefix node) (bcp_RemotePubkey payload)
                   (bcp_RemoteEndpoint payload) (bcp_RemoteLLA payload) (bcp_MTU payload) false) with
        | Err e => mret (BotErr e)
        | Ok peer =>
          withPeerLock (env_locker env) ("peer-create:" +:+ bcp_NodeID payload +:+ ":" +:+ fmt_d asn) bot_busy (
            ex ← ExistsByNodeAndASN ctx (bcp_NodeID payload) asn;
            match ex with
            | Ok true => mret (BotErr "peer already exists for this node")
            | _ =>
                let email := match env_LookupASNEmail env asn with Ok e => e | Err _ => "" end in
                r ← Create ctx (assign (set_ContactEmail email) peer);
                mret (match r with
                      | inl _ => BotErr "create failed (port or peer conflict)"
                      | inr p => BotOk (peer_ID p)
                      end)
            end)
        end
    end
  end.

Definition handleBotUserPeerDelete (tg : Z) (peerID : string) : M BotReply :=
  ctx ← with_timeout (10 * Second);
  binding ← Binding_GetByTgUserID ctx tg;
  match binding with
  | Err _ => mret (BotErr "not bound")
  | Ok asn =>
    r ← GetByIDAndASN ctx peerID asn;
    match r with
    | Err _ => mret (BotErr "peer not found")
    | Ok peer =>
      withPeerLock (env_locker env) ("peer:" +:+ peer_ID peer) bot_busy (
        (if peer_Status peer =s "active" then
           connected ← gets (λ w, bool_decide (peer_NodeID peer ∈ w_conns w));
           if connected : bool
           then _ ← SendCommand (peer_NodeID peer) (TypePeerRemove (peer_ID peer) (peer_RemoteASN peer)); mret tt
           else mret tt
         else mret tt) ;;
        d ← Delete_ ctx (peer_ID peer);
        match d with
        | Some _ => mret (BotErr "delete failed")
        | None => ClearPeerAlerts (peer_ID peer) ;; mret (BotOk "")
        end)
    end
  end.

(** The key is checked after trimming white space, and stored as it came. *)
Definition bot_check_update (b : peerUpdateBody) : option string :=
  if no_fields b then Some "no fields to update"
  else if match ub_RemotePubkey b with Some pk => bad_pubkey (TrimSpace pk) | None => false end
  then Some "invalid WireGuard public key (must be Base64)"
  else if match ub_RemoteEndpoint b with Some ep => negb (validateEndpoint ep) | None => false end
  then Some "invalid endpoint (format: IP:Port or [IPv6]:Port)"
  else if match ub_RemoteLLA b with Some l => negb (validateLLA l) | None => false end
  then Some "invalid link-local address (must be fe80::/10)"
  else if ub_MTUSet b && bad_mtu (ub_MTU b) then Some "MTU must be between 576 and 9000"
  else None.

Definition bot_reconfigure_error (r : Reconfigured) : option BotReply :=
  match r with
  | RecDone => None
  | RecRemoveErr e => Some (BotErr ("failed to remove old peer config: " +:+ e))
  | RecRemoveRefused e => Some (BotErr ("agent rejected peer removal: " +:+ e))
  | RecAddErr e => Some (BotErr ("failed to re-add peer (rollback attempted): " +:+ e))
  | RecAddRefused e => Some (BotErr ("agent rejected peer re-add (rollback attempted): " +:+ e))
  end.

Definition handleBotUserPeerUpdate (tg : Z) (peerID : string) (b : peerUpdateBody) : M BotReply :=
  ctx ← with_timeout (15 * Second);
  binding ← Binding_GetByTgUserID ctx tg;
  match binding with
  | Err _ => mret (BotErr "not bound")
  | Ok asn =>
    match bot_check_update b with
    | Some msg => mret (BotErr msg)
    | None =>
      withPeerLock (env_locker env) ("peer:" +:+ peerID) bot_busy (
        r ← GetByIDAndASN ctx peerID asn;
        match r with
        | Err _ => mret (BotErr "peer not found")
        | Ok peer =>
          if (peer_Status peer <>s "pending") && (peer_Status peer <>s "active")
          then mret (BotErr "only pending or active peers can be edited")
          else
            rc ← reconfigure_if_active (peer_ID peer) peer b;
            match bot_reconfigure_error rc with
            | Some reply => mret reply
            | None =>
                u ← UpdateFields ctx (peer_ID peer) (update_fields b peer);
                match u with
                | Some _ => mret (BotErr "failed to update peer")
                | None =>
                    auditLog ctx "peer.user_update" (operator_of asn) (Some (peer_ID peer)) (update_changes b peer) ;;
                    mret (BotOk "")
                end
            end
        end)
    end
  end.

(** ** Administrators: no peer lock is taken. *)
Definition is_online (nodeID : string) : M bool := gets (λ w, bool_decide (nodeID ∈ w_conns w)).

Definition handleBotAdminApprove (ctx : Ctx) (peerID : string) : M BotReply :=
  r ← GetByIDWithNode ctx peerID;
  match r with
  | Err _ => mret (BotErr "peer not found")
  | Ok (peer, node) =>
    if peer_Status peer <>s "pending" then mret (BotErr "peer is not pending")
    else
      on ← is_online (peer_NodeID peer);
      if negb on then mret (BotErr "node is offline")
      else
        a ← SendCommand (peer_NodeID peer) (TypePeerAdd (payload_of (peer_ID peer) peer));
        match a with
        | NoAnswer e => mret (BotErr e)
        | Answered resp =>
          if refused resp then mret (BotErr (msg_Error resp))
          else
            u ← UpdateStatus ctx (peer_ID peer) "active" [];
            match u with
            | Some _ =>
                _ ← SendCommand (peer_NodeID peer) (TypePeerRemove (peer_ID peer) (peer_RemoteASN peer));
                mret (BotErr "db update failed")
            | None =>
                notifyPeerBot (peer_RemoteASN peer) "" "peer.approved"
                  [("peer_id", JStr (peer_ID peer)); ("nodeName", JStr (node_Name node))] ;;
                mret (BotOk "peer approved")
            end
        end
  end.

Definition handleBotAdminReject (ctx : Ctx) (peerID reason : string) : M BotReply :=
  r ← GetByIDWithNode ctx peerID;
  match r with
  | Err _ => mret (BotErr "peer not found")
  | Ok (peer, node) =>
    if peer_Status peer <>s "pending" then mret (BotErr "peer is not pending")
    else
      u ← UpdateStatus ctx (peer_ID peer) "rejected" [WithRejectReason reason];
      match u with
      | Some _ => mret (BotErr "db update failed")
      | None =>
          notifyPeerBot (peer_RemoteASN peer) "" "peer.rejected"
            [("peer_id", JStr (peer_ID peer)); ("nodeName", JStr (node_Name node)); ("reason", JStr reason)] ;;
          mret (BotOk "peer rejected")
      end
  end.

(** The agent's answer is not looked at. *)
Definition handleBotAdminSuspend (ctx : Ctx) (peerID reason : string) : M BotReply :=
  r ← GetByID ctx peerID;
  match r with
  | Err _ => mret (BotErr "peer not found")
  | Ok peer =>
    if peer_Status peer <>s "active" then mret (BotErr "peer is not active")
    else
      on ← is_online (peer_NodeID peer);
      (if on : bool
       then _ ← SendCommand (peer_NodeID peer) (TypePeerRemove (peer_ID peer) (peer_RemoteASN peer)); mret tt
       else mret tt) ;;
      u ← UpdateStatus ctx (peer_ID peer) "suspended" [];
      match u with
      | Some _ => mret (BotErr "db update failed")
      | None =>
          ClearPeerAlerts (peer_ID peer) ;;
          notifyPeerBot (peer_RemoteASN peer) "" "peer.suspended"
            [("peer_id", JStr (peer_ID peer)); ("reason", JStr reason)] ;;
          mret (BotOk "peer suspended")
      end
  end.

Definition handleBotAdminUnsuspend (ctx : Ctx) (peerID : string) : M BotReply :=
  r ← GetByID ctx peerID;
  match r with
  | Err _ => mret (BotErr "peer not found")
  | Ok peer =>
    if peer_Status peer <>s "suspended" then mret (BotErr "peer is not suspended")
    else
      on ← is_online (peer_NodeID peer);
      (if on : bool
       then _ ← SendCommand (peer_NodeID peer) (TypePeerAdd (payload_of (peer_ID peer) peer)); mret tt
       else mret tt) ;;
      u ← UpdateStatus ctx (peer_ID peer) "active" [];
      match u with
      | Some _ => mret (BotErr "db update failed")
      | None =>
          notifyPeerBot (peer_RemoteASN peer) "" "peer.unsuspended" [("peer_id", JStr (peer_ID peer))] ;;
          mret (BotOk "peer unsuspended")
      end
  end.

Definition handleBotAdminPeerAction (action peerID reason : string) : M BotReply :=
  ctx ← with_timeout (10 * Second);
  if action =s "approve" then handleBotAdminApprove ctx peerID
  else if action =s "reject" then handleBotAdminReject ctx peerID reason
  else if action =s "suspend" then handleBotAdminSuspend ctx peerID reason
  else if action =s "unsuspend" then handleBotAdminUnsuspend ctx peerID
  else mret (BotErr ("unknown action: " +:+ action)).
End handlers.
