(* ===== verification/GoTime.v ===== *)
(** * Parsing instants ([time.Parse] with [time.RFC3339])

    As Go parses this layout: one-digit hours and a fraction after a period or a
    comma are accepted, and offsets of up to 24 hours and 60 minutes. *)
From S2P Require Import Prelude GoLib.
From stdpp Require Import options.
Local Open Scope Z_scope.

(** Days since 1970-01-01. *)
Definition days_of_civil (y m d : Z) : Z :=
  let y' := if m <=? 2 then y - 1 else y in
  let yoe := y' mod 400 in
  let doy := (153 * ((m + 9) mod 12) + 2) / 5 + d - 1 in
  y' / 400 * 146097 + (yoe * 365 + yoe / 4 - yoe / 100 + doy) - 719468.
Definition leap (y : Z) : bool := (y mod 4 =? 0) && (negb (y mod 100 =? 0) || (y mod 400 =? 0)).
Definition days_in (y m : Z) : Z :=
  if m =? 2 then (if leap y then 29 else 28) else if bool_decide (m ∈ [4; 6; 9; 11]) then 30 else 31.

(** A parser of digits: a value and the rest. *)
Fixpoint digits (n : nat) (acc : Z) (l : list ascii) : option (Z * list ascii) :=
  match n, l with
  | O, _ => Some (acc, l)
  | S n', c :: l' => v ← digit_val c; digits n' (acc * 10 + v) l'
  | S _, [] => None
  end.
Definition literal (c : ascii) (l : list ascii) : option (list ascii) :=
  match l with x :: l' => if bool_decide (x = c) then Some l' else None | [] => None end.
(** Two digits, or one when no second one follows. *)
Definition one_or_two (l : list ascii) : option (Z * list ascii) :=
  match digits 2 0 l with Some r => Some r | None => digits 1 0 l end.
Definition up_to (hi : Z) (r : option (Z * list ascii)) : option (Z * list ascii) :=
  match r with Some (v, l) => if v <=? hi then Some (v, l) else None | None => None end.
Definition is_digit (c : ascii) : bool := negb (isNil (digit_val c)).
(** The nanoseconds of a fraction: at most nine digits count. *)
Definition fraction (l : list ascii) : Z * list ascii :=
  match l with
  | p :: ((c :: _) as l') =>
      if bool_decide (p ∈ ["."; ","]%char) && is_digit c then
        let rest := drop_while is_digit l' in
        let ds := take 9 (take (length l' - length rest) l') in
        (default 0 (parse_digits 0 ds) * 10 ^ (9 - Z.of_nat (length ds)), rest)
      else (0, l)
  | _ => (0, l)
  end.
(** Seconds east of Greenwich. *)
Definition zone (l : list ascii) : option (Z * list ascii) :=
  match l with
  | [] => None
  | c :: l' =>
      if bool_decide (c = "Z"%char) then Some (0, l')
      else
        '(h, l1) ← up_to 24 (digits 2 0 l');
        l2 ← literal ":" l1;
        '(m, l3) ← up_to 60 (digits 2 0 l2);
        let off := (h * 60 + m) * 60 in
        if bool_decide (c = "+"%char) then Some (off, l3)
        else if bool_decide (c = "-"%char) then Some (- off, l3) else None
  end.
(** Unix nanoseconds. *)
Definition ParseRFC3339 (s : string) : option Z :=
  '(y, l) ← digits 4 0 (bytes s); l ← literal "-" l;
  '(mo, l) ← up_to 12 (digits 2 0 l); l ← literal "-" l;
  '(d, l) ← digits 2 0 l; l ← literal "T" l;
  '(h, l) ← up_to 23 (one_or_two l); l ← literal ":" l;
  '(mi, l) ← up_to 59 (digits 2 0 l); l ← literal ":" l;
  '(sec, l) ← up_to 59 (digits 2 0 l);
  let '(ns, l) := fraction l in
  '(off, l) ← zone l;
  match l with
  | [] =>
      if (mo <? 1) || (d <? 1) || (days_in y mo <? d) then None
      else Some ((days_of_civil y mo d * 86400 + h * 3600 + mi * 60 + sec - off) * 1000000000 + ns)
  | _ => None
  end.

(** Boundaries of the calendar, offsets and fractions. *)
Example ParseRFC3339_examples :
  map ParseRFC3339 ["1970-01-01T00:00:00Z"; "2024-02-29T23:59:59.5Z"; "2023-02-29T00:00:00Z"; "2025-01-01T1:00:00+01:00";
                    "2025-01-01T01:00:00,123456789012+01:00"; "2025-01-01 01:00:00Z"; "2025-01-01T24:00:00Z"]
  = [Some 0; Some 1709251199500000000; None; Some 1735689600000000000; Some 1735689600123456789; None; None].
Proof. by vm_compute. Qed.
