(* ===== verification/McpStore.v ===== *)
(** * The rows of the MCP servers ([internal/model/model.go],
    [internal/repository/mcp.go]) and their process memory

    Keys, sessions, audit rows, idempotency keys and operations, with the
    constraints of migrations 036 to 042 and 057; the event-stream sessions and
    approvals the process holds.  They extend the world of the other components:
    a program of that world runs here unchanged. *)
From S2P Require Import Prelude GoLib Json Model Lock Cache Effects World Store.
From stdpp Require Import sorting options.
Local Open Scope Z_scope.
Local Open Scope go_scope.

(** ** Rows *)

(** [MCPKey] and [AdminMCPKey] differ in their owner: an ASN, or the id of an
    administrator. *)
Record KeyRow (O : Type) : Type := MkKey {
  k_ID : string;
  k_Owner : O;
  k_Name : string;
  k_KeyHash : string;
  k_KeyPrefix : string;
  k_Capabilities : list string;
  k_ExpiresAt : option Z;
  k_LastUsedAt : option Z;
  k_RevokedAt : option Z;
  k_ScopeVersion : Z;
  k_CreatedAt : Z
}.
Arguments MkKey {O}. Arguments k_ID {O}. Arguments k_Owner {O}. Arguments k_Name {O}. Arguments k_KeyHash {O}.
Arguments k_KeyPrefix {O}. Arguments k_Capabilities {O}. Arguments k_ExpiresAt {O}. Arguments k_LastUsedAt {O}.
Arguments k_RevokedAt {O}. Arguments k_ScopeVersion {O}. Arguments k_CreatedAt {O}.
Abbreviation MCPKey := (KeyRow Z).
Abbreviation AdminMCPKey := (KeyRow string).

Record MCPSession : Type := MkMCPSession {
  ms_ID : string;
  ms_ASN : option Z;
  ms_KeyID : option string;
  ms_IsAdmin : bool;
  ms_AdminKeyID : option string;
  ms_ConnectedAt : Z;
  ms_DisconnectedAt : option Z;
  ms_LastPingAt : option Z
}.

Record MCPAuditLog : Type := MkAuditLog {
  al_ID : string;
  al_SessionID : option string;
  al_ASN : option Z;
  al_AdminID : option string;
  al_KeyID : option string;
  al_AdminKeyID : option string;
  al_ToolName : string;
  al_Args : json;
  al_Capability : option string;
  al_Mode : string;
  al_ResourceType : option string;
  al_ResourceID : option string;
  al_IdempotencyKey : option string;
  al_RequestHash : option string;
  al_DurationMs : option Z;
  al_ClientIP : string;
  al_UserAgent : string;
  al_ResultOK : bool;
  al_ErrorMsg : option string;
  al_CalledAt : Z
}.

Record MCPIdempotencyKey : Type := MkIdempotency {
  ik_ID : string;
  ik_ActorType : string;
  ik_KeyID : option string;
  ik_AdminKeyID : option string;
  ik_ASN : option Z;
  ik_AdminID : option string;
  ik_ToolName : string;
  ik_IdempotencyKey : string;
  ik_RequestHash : string;
  ik_Status : string;
  ik_ResourceType : option string;
  ik_ResourceID : option string;
  ik_ResponseJSON : json;
  ik_ErrorCode : string;
  ik_ErrorMessage : string;
  ik_CreatedAt : Z;
  ik_UpdatedAt : Z
}.

Record MCPOperation : Type := MkOperation {
  op_ID : string;
  op_ActorType : string;
  op_KeyID : option string;
  op_AdminKeyID : option string;
  op_ASN : option Z;
  op_AdminID : option string;
  op_OperationType : string;
  op_ResourceType : string;
  op_ResourceID : string;
  op_RequestedArgs : json;
  op_Status : string;
  op_IdempotencyKey : string;
  op_RequestHash : string;
  op_CreatedAt : Z;
  op_UpdatedAt : Z
}.

(** Whose request it is: the ASN of a user key, the administrator of an admin key. *)
Inductive Actor : Type := User (asn : Z) | Administrator (adminID : string).
#[export] Instance Actor_eq_dec : EqDecision Actor.
Proof. solve_decision. Defined.

(** An open event stream ([mcpSession], [adminMCPSession]): [ss_ch] is the
    buffered channel, [ss_sem] the number of requests being served. *)
Record Sse : Type := MkSse {
  ss_actor : Actor;
  ss_sessionID : string;
  ss_keyID : string;
  ss_capabilities : list string;
  ss_ch : list json;
  ss_sem : nat
}.

Record McpDB : Type := MkMcpDB {
  md_user_keys : gmap string MCPKey;
  md_admin_keys : gmap string AdminMCPKey;
  md_sessions : gmap string MCPSession;
  md_audit : list MCPAuditLog;                       (* newest first *)
  md_idem : gmap string MCPIdempotencyKey;
  md_ops : gmap string MCPOperation
}.

(** What the process holds.  Sessions are objects that several requests share:
    the maps hold addresses into [mm_heap], where an object stays after its
    entry is gone. *)
Record McpMem : Type := MkMcpMem {
  mm_heap : list Sse;
  mm_user : gmap string nat;                         (* [MCPHandler.sessions] *)
  mm_admin : gmap string nat;                        (* [AdminMCPHandler.sessions] *)
  mm_approvals : gmap string Z;                      (* nonce to expiry, in seconds *)
  mm_tasks : list MCPAuditLog                        (* audit rows handed to the job queue *)
}.

Record MSt : Type := MkMSt { m_db : McpDB; m_mem : McpMem; m_world : World }.
Abbreviation Q := (prog MSt).

Definition set_mworld (w : World) (s : MSt) : MSt := MkMSt (m_db s) (m_mem s) w.
Definition set_mdb (d : McpDB) (s : MSt) : MSt := MkMSt d (m_mem s) (m_world s).
Definition set_mem (m : McpMem) (s : MSt) : MSt := MkMSt (m_db s) m (m_world s).
Definition m_now (s : MSt) : Z := w_now (m_world s).
Definition m_ukeys (s : MSt) : gmap string MCPKey := md_user_keys (m_db s).
Definition m_akeys (s : MSt) : gmap string AdminMCPKey := md_admin_keys (m_db s).
Definition m_sessions (s : MSt) : gmap string MCPSession := md_sessions (m_db s).
Definition m_idem (s : MSt) : gmap string MCPIdempotencyKey := md_idem (m_db s).
Definition m_ops (s : MSt) : gmap string MCPOperation := md_ops (m_db s).
Definition m_heap (s : MSt) : list Sse := mm_heap (m_mem s).
Definition m_approvals (s : MSt) : gmap string Z := mm_approvals (m_mem s).

Definition set_ukeys (m : gmap string MCPKey) (s : MSt) : MSt :=
  set_mdb (MkMcpDB m (m_akeys s) (m_sessions s) (md_audit (m_db s)) (m_idem s) (m_ops s)) s.
Definition set_akeys (m : gmap string AdminMCPKey) (s : MSt) : MSt :=
  set_mdb (MkMcpDB (m_ukeys s) m (m_sessions s) (md_audit (m_db s)) (m_idem s) (m_ops s)) s.
Definition set_msessions (m : gmap string MCPSession) (s : MSt) : MSt :=
  set_mdb (MkMcpDB (m_ukeys s) (m_akeys s) m (md_audit (m_db s)) (m_idem s) (m_ops s)) s.
Definition add_audit (a : MCPAuditLog) (s : MSt) : MSt :=
  set_mdb (MkMcpDB (m_ukeys s) (m_akeys s) (m_sessions s) (a :: md_audit (m_db s)) (m_idem s) (m_ops s)) s.
Definition set_idem (m : gmap string MCPIdempotencyKey) (s : MSt) : MSt :=
  set_mdb (MkMcpDB (m_ukeys s) (m_akeys s) (m_sessions s) (md_audit (m_db s)) m (m_ops s)) s.
Definition set_ops (m : gmap string MCPOperation) (s : MSt) : MSt :=
  set_mdb (MkMcpDB (m_ukeys s) (m_akeys s) (m_sessions s) (md_audit (m_db s)) (m_idem s) m) s.
Definition set_heap (h : list Sse) (s : MSt) : MSt :=
  set_mem (MkMcpMem h (mm_user (m_mem s)) (mm_admin (m_mem s)) (m_approvals s) (mm_tasks (m_mem s))) s.
Definition set_approvals (m : gmap string Z) (s : MSt) : MSt :=
  set_mem (MkMcpMem (m_heap s) (mm_user (m_mem s)) (mm_admin (m_mem s)) m (mm_tasks (m_mem s))) s.
Definition add_task (a : MCPAuditLog) (s : MSt) : MSt :=
  set_mem (MkMcpMem (m_heap s) (mm_user (m_mem s)) (mm_admin (m_mem s)) (m_approvals s) (mm_tasks (m_mem s) ++ [a])) s.

(** Programs of the world, here. *)
Abbreviation inworld := (along m_world set_mworld).

(** ** Statements, with the oracle and the contexts of the world *)
Definition mstmt_step {R} (ctx : Ctx) (onerr : string → R) (f : MSt → R * MSt) (s : MSt) : R * MSt :=
  if expired ctx (m_now s) then (onerr "context deadline exceeded", s)
  else match draw_db (m_world s) with
       | (Some e, w) => (onerr e, set_mworld w s)
       | (None, w) => f (set_mworld w s)
       end.
Definition mstmt {R} (ctx : Ctx) (onerr : string → R) (f : MSt → R * MSt) : Q R := act (mstmt_step ctx onerr f).
Definition mquery {R} (ctx : Ctx) (f : MSt → result R) : Q (result R) := mstmt ctx Err (λ s, (f s, s)).
Definition one {A} (r : option A) : result A := match r with Some a => Ok a | None => Err ErrNoRows end.
Definition mfresh (s : MSt) : option string * MSt :=
  let '(u, w) := draw_uuid (m_world s) in (u, set_mworld w s).
(** The zero [time.Time]; a column without [nullzero] stores it as it is. *)
Definition zero_time : Z := -62135596800 * Second.

Definition rows {A} (m : gmap string A) : list A := snd <$> map_to_list m.
Definition newest {A} (at_ : A → Z) (a b : A) : Prop := at_ b ≤ at_ a.
#[export] Instance newest_dec {A} (f : A → Z) a b : Decision (newest f a b).
Proof. unfold newest. apply _. Defined.

(** ** Keys: the two tables have the same columns and the same statements *)
Section keys.
Context {O : Type} `{EqDecision O} (get : MSt → gmap string (KeyRow O)) (put : gmap string (KeyRow O) → MSt → MSt).
Context (table : string).

Definition with_id (id : string) (k : KeyRow O) : KeyRow O :=
  MkKey id (k_Owner k) (k_Name k) (k_KeyHash k) (k_KeyPrefix k) (k_Capabilities k) (k_ExpiresAt k) (k_LastUsedAt k)
    (k_RevokedAt k) (k_ScopeVersion k) (k_CreatedAt k).
Definition used_at (now : Z) (k : KeyRow O) : KeyRow O :=
  MkKey (k_ID k) (k_Owner k) (k_Name k) (k_KeyHash k) (k_KeyPrefix k) (k_Capabilities k) (k_ExpiresAt k) (Some now)
    (k_RevokedAt k) (k_ScopeVersion k) (k_CreatedAt k).

(** The stored row, as [RETURNING] gives it back. *)
Definition CreateKey (ctx : Ctx) (k : KeyRow O) : Q (result (KeyRow O)) :=
  mstmt ctx Err (λ s,
    match mfresh s with
    | (None, s1) => (Err "gen_random_uuid", s1)
    | (Some id, s1) =>
        if negb (isNil (get s1 !! id)) then (Err (err_text (PgUnique (table +:+ "_pkey"))), s1)
        else if bool_decide (map_Exists (λ _ x, k_KeyHash x = k_KeyHash k) (get s1))
        then (Err (err_text (PgUnique (table +:+ "_key_hash_key"))), s1)
        else (Ok (with_id id k), put (<[id := with_id id k]> (get s1)) s1)
    end).
Definition GetKeyByHash (ctx : Ctx) (hash : string) : Q (result (KeyRow O)) :=
  mquery ctx (λ s, one (head (filter (λ k, k_KeyHash k = hash) (rows (get s))))).
Definition ListKeys (ctx : Ctx) (owner : O) : Q (result (list (KeyRow O))) :=
  mquery ctx (λ s, Ok (merge_sort (newest k_CreatedAt) (filter (λ k, k_Owner k = owner) (rows (get s))))).
Definition TouchKey (ctx : Ctx) (id : string) : Q (option string) :=
  mstmt ctx Some (λ s, (None, put (alter (used_at (m_now s)) id (get s)) s)).
Definition CountKeys (ctx : Ctx) (owner : O) : Q (result Z) :=
  mquery ctx (λ s, Ok (Z.of_nat (length (filter (λ k, k_Owner k = owner) (rows (get s)))))).
(** [forget]: sessions lose the key ([ON DELETE SET NULL]). *)
Definition DeleteKey (forget : string → MCPSession → MCPSession) (ctx : Ctx) (id : string) (owner : O) : Q (option string) :=
  mstmt ctx Some (λ s,
    match get s !! id with
    | Some k => if decide (k_Owner k = owner)
                then (None, set_msessions (forget id <$> m_sessions s) (put (delete id (get s)) s)) else (None, s)
    | None => (None, s)
    end).
End keys.

Definition forget_key (id : string) (x : MCPSession) : MCPSession :=
  MkMCPSession (ms_ID x) (ms_ASN x) (if decide (ms_KeyID x = Some id) then None else ms_KeyID x) (ms_IsAdmin x)
    (ms_AdminKeyID x) (ms_ConnectedAt x) (ms_DisconnectedAt x) (ms_LastPingAt x).
Definition forget_admin_key (id : string) (x : MCPSession) : MCPSession :=
  MkMCPSession (ms_ID x) (ms_ASN x) (ms_KeyID x) (ms_IsAdmin x)
    (if decide (ms_AdminKeyID x = Some id) then None else ms_AdminKeyID x) (ms_ConnectedAt x) (ms_DisconnectedAt x)
    (ms_LastPingAt x).

Definition CreateUserKey : Ctx → MCPKey → Q (result MCPKey) := CreateKey m_ukeys set_ukeys "user_mcp_keys".
Definition GetUserKeyByHash : Ctx → string → Q (result MCPKey) := GetKeyByHash m_ukeys.
Definition ListUserKeys : Ctx → Z → Q (result (list MCPKey)) := ListKeys m_ukeys.
Definition ListAllUserKeys (ctx : Ctx) (asn : Z) : Q (result (list MCPKey)) :=
  mquery ctx (λ s, Ok (merge_sort (newest k_CreatedAt) (filter (λ k, 0 < asn → k_Owner k = asn) (rows (m_ukeys s))))).
Definition DeleteUserKey : Ctx → string → Z → Q (option string) := DeleteKey m_ukeys set_ukeys forget_key.
Definition TouchUserKey : Ctx → string → Q (option string) := TouchKey m_ukeys set_ukeys.
Definition CountUserKeys : Ctx → Z → Q (result Z) := CountKeys m_ukeys.
Definition GetUserKeyByID (ctx : Ctx) (id : string) : Q (result MCPKey) := mquery ctx (λ s, one (m_ukeys s !! id)).
(** The deleted row. *)
Definition ForceDeleteUserKey (ctx : Ctx) (id : string) : Q (result MCPKey) :=
  mstmt ctx Err (λ s,
    match m_ukeys s !! id with
    | Some k => (Ok k, set_msessions (forget_key id <$> m_sessions s) (set_ukeys (delete id (m_ukeys s)) s))
    | None => (Err ErrNoRows, s)
    end).
Definition CreateAdminKey : Ctx → AdminMCPKey → Q (result AdminMCPKey) := CreateKey m_akeys set_akeys "admin_mcp_keys".
Definition GetAdminKeyByHash : Ctx → string → Q (result AdminMCPKey) := GetKeyByHash m_akeys.
Definition ListAdminKeys : Ctx → string → Q (result (list AdminMCPKey)) := ListKeys m_akeys.
Definition DeleteAdminKey : Ctx → string → string → Q (option string) := DeleteKey m_akeys set_akeys forget_admin_key.
Definition TouchAdminKey : Ctx → string → Q (option string) := TouchKey m_akeys set_akeys.
Definition CountAdminKeys : Ctx → string → Q (result Z) := CountKeys m_akeys.

(** ** Sessions *)
Definition missing {A} (m : gmap string A) (id : option string) : bool :=
  match id with Some id => isNil (m !! id) | None => false end.
Definition CreateSession (ctx : Ctx) (x : MCPSession) : Q (option string) :=
  mstmt ctx Some (λ s,
    if negb (isNil (m_sessions s !! ms_ID x)) then (Some (err_text (PgUnique "mcp_sessions_pkey")), s)
    else if missing (m_ukeys s) (ms_KeyID x) then (Some (err_text (PgForeignKey "mcp_sessions_key_id_fkey")), s)
    else if missing (m_akeys s) (ms_AdminKeyID x) then (Some (err_text (PgForeignKey "fk_mcp_sessions_admin_key_id")), s)
    else (None, set_msessions (<[ms_ID x := x]> (m_sessions s)) s)).
Definition CloseSession (ctx : Ctx) (id : string) : Q (option string) :=
  mstmt ctx Some (λ s, (None, set_msessions (alter (λ x, MkMCPSession (ms_ID x) (ms_ASN x) (ms_KeyID x) (ms_IsAdmin x)
    (ms_AdminKeyID x) (ms_ConnectedAt x) (Some (m_now s)) (ms_LastPingAt x)) id (m_sessions s)) s)).
Definition PingSession (ctx : Ctx) (id : string) : Q (option string) :=
  mstmt ctx Some (λ s, (None, set_msessions (alter (λ x, MkMCPSession (ms_ID x) (ms_ASN x) (ms_KeyID x) (ms_IsAdmin x)
    (ms_AdminKeyID x) (ms_ConnectedAt x) (ms_DisconnectedAt x) (Some (m_now s))) id (m_sessions s)) s)).
Definition ListSessions (ctx : Ctx) (limit : Z) : Q (result (list MCPSession)) :=
  mquery ctx (λ s, Ok (take (Z.to_nat limit) (merge_sort (newest ms_ConnectedAt) (rows (m_sessions s))))).

(** ** Audit rows *)
Definition audit_id (id : string) (a : MCPAuditLog) : MCPAuditLog :=
  MkAuditLog id (al_SessionID a) (al_ASN a) (al_AdminID a) (al_KeyID a) (al_AdminKeyID a) (al_ToolName a) (al_Args a)
    (al_Capability a) (al_Mode a) (al_ResourceType a) (al_ResourceID a) (al_IdempotencyKey a) (al_RequestHash a)
    (al_DurationMs a) (al_ClientIP a) (al_UserAgent a) (al_ResultOK a) (al_ErrorMsg a) (al_CalledAt a).
Definition LogAudit (ctx : Ctx) (a : MCPAuditLog) : Q (option string) :=
  mstmt ctx Some (λ s,
    match mfresh s with
    | (None, s1) => (Some "gen_random_uuid", s1)
    | (Some id, s1) =>
        if bool_decide (Exists (λ b, al_ID b = id) (md_audit (m_db s1))) then (Some (err_text (PgUnique "mcp_audit_logs_pkey")), s1)
        else if missing (m_sessions s1) (al_SessionID a)
        then (Some (err_text (PgForeignKey "fk_mcp_audit_logs_session_id")), s1)
        else (None, add_audit (audit_id id a) s1)
    end).
(** Filters of a listing: an ASN, a tool, the page and its size. *)
Record AuditParams : Type := MkAuditParams { pr_ASN : Z; pr_Search : string; pr_Page : Z; pr_PageSize : Z }.
Definition audit_matches (ps : AuditParams) (a : MCPAuditLog) : Prop :=
  (0 < pr_ASN ps → al_ASN a = Some (pr_ASN ps)) ∧ (pr_Search ps ≠ "" → al_ToolName a = pr_Search ps).
#[export] Instance audit_matches_dec ps a : Decision (audit_matches ps a).
Proof. unfold audit_matches. apply _. Defined.
Definition ListAuditLogs (ctx : Ctx) (ps : AuditParams) : Q (result (list MCPAuditLog * Z)) :=
  let page := if pr_Page ps <? 1 then 1 else pr_Page ps in
  let size := if pr_PageSize ps <? 1 then 20 else Z.min 200 (pr_PageSize ps) in
  let offset := wrap64 ((page - 1) * size) in
  let matching s := filter (audit_matches ps) (md_audit (m_db s)) in
  total ← mquery ctx (λ s, Ok (Z.of_nat (length (matching s))));
  match total with
  | Err e => mret (Err e)
  | Ok total =>
      r ← mquery ctx (λ s,
            if offset <? 0 then Err "ERROR: OFFSET must not be negative (SQLSTATE=2201X)"
            else Ok (take (Z.to_nat size) (drop (Z.to_nat offset) (merge_sort (newest al_CalledAt) (matching s)))));
      mret (match r with Err e => Err e | Ok l => Ok (l, total) end)
  end.
Definition ListAuditLogsByASN (ctx : Ctx) (asn limit : Z) : Q (result (list MCPAuditLog)) :=
  mquery ctx (λ s, Ok (take (Z.to_nat limit)
    (merge_sort (newest al_CalledAt) (filter (λ a, al_ASN a = Some asn) (md_audit (m_db s)))))).

(** ** Idempotency keys *)
Definition idem_of (actorType keyID adminKeyID toolName idemKey : string) (x : MCPIdempotencyKey) : Prop :=
  ik_ActorType x = actorType ∧ ik_ToolName x = toolName ∧ ik_IdempotencyKey x = idemKey
  ∧ if decide (actorType = "admin") then ik_AdminKeyID x = Some adminKeyID else ik_KeyID x = Some keyID.
#[export] Instance idem_of_dec a k ak t i x : Decision (idem_of a k ak t i x).
Proof. unfold idem_of. destruct (decide (a = "admin")); apply _. Defined.
Definition GetIdempotency (ctx : Ctx) (actorType keyID adminKeyID toolName idemKey : string) : Q (result MCPIdempotencyKey) :=
  mquery ctx (λ s, one (head (filter (idem_of actorType keyID adminKeyID toolName idemKey) (rows (m_idem s))))).

(** NULLs never collide in a unique constraint. *)
Definition same_slot (key : MCPIdempotencyKey → option string) (x y : MCPIdempotencyKey) : Prop :=
  ik_ActorType x = ik_ActorType y ∧ ik_ToolName x = ik_ToolName y ∧ ik_IdempotencyKey x = ik_IdempotencyKey y
  ∧ key x = key y ∧ is_Some (key x).
#[export] Instance same_slot_dec key x y : Decision (same_slot key x y).
Proof. unfold same_slot. apply _. Defined.
Definition idem_id (id : string) (x : MCPIdempotencyKey) : MCPIdempotencyKey :=
  MkIdempotency id (ik_ActorType x) (ik_KeyID x) (ik_AdminKeyID x) (ik_ASN x) (ik_AdminID x) (ik_ToolName x)
    (ik_IdempotencyKey x) (ik_RequestHash x) (ik_Status x) (ik_ResourceType x) (ik_ResourceID x) (ik_ResponseJSON x)
    (ik_ErrorCode x) (ik_ErrorMessage x) (ik_CreatedAt x) (ik_UpdatedAt x).
Definition CreateIdempotency (ctx : Ctx) (x : MCPIdempotencyKey) : Q (result MCPIdempotencyKey) :=
  mstmt ctx Err (λ s,
    match mfresh s with
    | (None, s1) => (Err "gen_random_uuid", s1)
    | (Some id, s1) =>
        if negb (isNil (m_idem s1 !! id)) then (Err (err_text (PgUnique "mcp_idempotency_keys_pkey")), s1)
        else if bool_decide (map_Exists (λ _ y, same_slot ik_KeyID x y ∨ same_slot ik_AdminKeyID x y) (m_idem s1))
        then (Err (err_text (PgUnique "mcp_idempotency_keys_actor_type_key_id_tool_name_idempotenc_key")), s1)
        else (Ok (idem_id id x), set_idem (<[id := idem_id id x]> (m_idem s1)) s1)
    end).
Definition complete (now : Z) (status resourceType resourceID : string) (response : json) (errorCode errorMessage : string)
    (x : MCPIdempotencyKey) : MCPIdempotencyKey :=
  MkIdempotency (ik_ID x) (ik_ActorType x) (ik_KeyID x) (ik_AdminKeyID x) (ik_ASN x) (ik_AdminID x) (ik_ToolName x)
    (ik_IdempotencyKey x) (ik_RequestHash x) status
    (if resourceType =s "" then ik_ResourceType x else Some resourceType)
    (if resourceID =s "" then ik_ResourceID x else Some resourceID)
    response errorCode errorMessage (ik_CreatedAt x) now.
Definition CompleteIdempotency (ctx : Ctx) (id status resourceType resourceID : string) (response : json)
    (errorCode errorMessage : string) : Q (option string) :=
  mstmt ctx Some (λ s, (None, set_idem
    (alter (complete (m_now s) status resourceType resourceID response errorCode errorMessage) id (m_idem s)) s)).

(** ** Operations *)
Definition op_id (id : string) (x : MCPOperation) : MCPOperation :=
  MkOperation id (op_ActorType x) (op_KeyID x) (op_AdminKeyID x) (op_ASN x) (op_AdminID x) (op_OperationType x)
    (op_ResourceType x) (op_ResourceID x) (op_RequestedArgs x) (op_Status x) (op_IdempotencyKey x) (op_RequestHash x)
    (op_CreatedAt x) (op_UpdatedAt x).
Definition CreateOperation (ctx : Ctx) (x : MCPOperation) : Q (result MCPOperation) :=
  mstmt ctx Err (λ s,
    match mfresh s with
    | (None, s1) => (Err "gen_random_uuid", s1)
    | (Some id, s1) =>
        if negb (isNil (m_ops s1 !! id)) then (Err (err_text (PgUnique "mcp_operations_pkey")), s1)
        else (Ok (op_id id x), set_ops (<[id := op_id id x]> (m_ops s1)) s1)
    end).
Definition ListOperationsByASN (ctx : Ctx) (asn limit : Z) : Q (result (list MCPOperation)) :=
  let limit := if (limit <? 1) || (200 <? limit) then 50 else limit in
  mquery ctx (λ s, Ok (take (Z.to_nat limit)
    (merge_sort (newest op_CreatedAt) (filter (λ x, op_ASN x = Some asn) (rows (m_ops s)))))).
Definition GetOperationByASN (ctx : Ctx) (asn : Z) (id : string) : Q (result MCPOperation) :=
  mquery ctx (λ s, one (x ← m_ops s !! id; if decide (op_ASN x = Some asn) then Some x else None)).
