(* ===== verification/Mcp.v ===== *)
(** * The MCP servers ([internal/handler/mcp.go], [mcp_session.go],
    [mcp_capabilities.go], [admin_mcp.go])

    What the servers for operators and administrators share: capabilities, the
    audit log, event streams, and JSON-RPC messages on them. *)
From S2P Require Import Prelude GoLib Json Model Lock Cache Effects World Store Handler Decode McpStore.
From stdpp Require Import options.
Local Open Scope Z_scope.
Local Open Scope go_scope.

(** The collaborators: whether a job queue is configured, [uuid.Parse], and the
    signing secret, when a configuration is loaded. *)
Record McpEnv : Type := MkMcpEnv {
  mc_queue : bool;
  mc_uuid_Parse : string → bool;
  mc_JWTSecret : option string
}.

Definition mnow : Q Z := gets m_now.
(** [context.WithTimeout(context.Background(), d)]. *)
Definition within (d : Z) : Q Ctx := now ← mnow; mret (Some (now + d)).
Definition NewUUID : Q string := inworld (u ← act draw_uuid; mret (default "" u)).

(** ** Capabilities *)
Definition defaultUserMCPCapabilities : list string := ["read:nodes"; "read:peers"; "read:metrics"].
Definition allowedUserMCPCapabilities : list string :=
  ["read:nodes"; "read:peers"; "read:metrics"; "read:audit"; "read:preferences"; "write:peer:create";
   "write:peer:update_pending"; "write:peer:cancel_pending"; "write:operation:create"; "write:preferences"].
Definition defaultAdminMCPCapabilities : list string :=
  ["admin:read:topology"; "admin:read:peers"; "admin:read:metrics"; "admin:read:audit"; "admin:read:mcp_keys";
   "admin:read:settings"].
Definition allowedAdminMCPCapabilities : list string :=
  ["admin:read:topology"; "admin:read:peers"; "admin:read:metrics"; "admin:read:audit"; "admin:read:mcp_keys";
   "admin:read:settings"; "admin:read:system"; "admin:read:sensitive"].

Fixpoint distinct_allowed (allowed seen : list string) (requested : list string) : list string :=
  match requested with
  | [] => []
  | c :: l =>
      if negb (bool_decide (c ∈ allowed)) then distinct_allowed allowed seen l
      else if bool_decide (c ∈ seen) then distinct_allowed allowed seen l
      else c :: distinct_allowed allowed (c :: seen) l
  end.
Definition sanitizeCapabilities (requested allowed defaults : list string) : list string :=
  match requested with
  | [] => defaults
  | _ => match distinct_allowed allowed [] requested with [] => defaults | out => out end
  end.
Fixpoint validateCapabilities (requested allowed : list string) : result unit :=
  match requested with
  | [] => Ok tt
  | c :: l => if bool_decide (c ∈ allowed) then validateCapabilities l allowed else Err ("invalid capability: " +:+ c)
  end.
Definition hasCapability (caps : list string) (required : string) : bool :=
  (required =s "") || bool_decide (required ∈ caps).

(** ** The audit log *)
Record auditEntry : Type := MkEntry {
  ae_sessionID : string;
  ae_asn : Z;
  ae_adminID : string;
  ae_keyID : string;
  ae_adminKeyID : string;
  ae_toolName : string;
  ae_args : json;
  ae_capability : string;
  ae_mode : string;
  ae_resourceType : string;
  ae_resourceID : string;
  ae_idempotencyKey : option string;
  ae_requestHash : string;
  ae_durationMs : Z;
  ae_clientIP : string;
  ae_userAgent : string;
  ae_resultOK : bool;
  ae_errMsg : string
}.
Definition non_empty (s : string) : option string := if s =s "" then None else Some s.
Definition mcpModeRead : string := "read".

Section audit.
Context (env : McpEnv).

Definition buildAuditLog (e : auditEntry) : MCPAuditLog :=
  MkAuditLog ""
    (if (ae_sessionID e <>s "") && mc_uuid_Parse env (ae_sessionID e) then Some (ae_sessionID e) else None)
    (if ae_asn e =? 0 then None else Some (ae_asn e))
    (non_empty (ae_adminID e)) (non_empty (ae_keyID e)) (non_empty (ae_adminKeyID e)) (ae_toolName e) (ae_args e)
    (non_empty (ae_capability e)) (ae_mode e) (non_empty (ae_resourceType e)) (non_empty (ae_resourceID e))
    (ae_idempotencyKey e) (non_empty (ae_requestHash e))
    (if 0 <? ae_durationMs e then Some (ae_durationMs e) else None)
    (ae_clientIP e) (ae_userAgent e) (ae_resultOK e) (non_empty (ae_errMsg e)) zero_time.

(** The job queue is tried first; an unavailable one counts as a failure. *)
Definition enqueue_step (a : MCPAuditLog) (s : MSt) : bool * MSt :=
  let '(down, w) := draw_redis (m_world s) in
  (isNil down, if isNil down then add_task a (set_mworld w s) else set_mworld w s).
Definition writeAuditLogDetailed (e : auditEntry) : Q unit :=
  let mode := if ae_mode e =s "" then "read" else ae_mode e in
  let entry := buildAuditLog (MkEntry (ae_sessionID e) (ae_asn e) (ae_adminID e) (ae_keyID e) (ae_adminKeyID e)
    (ae_toolName e) (ae_args e) (ae_capability e) mode (ae_resourceType e) (ae_resourceID e) (ae_idempotencyKey e)
    (ae_requestHash e) (ae_durationMs e) (ae_clientIP e) (ae_userAgent e) (ae_resultOK e) (ae_errMsg e)) in
  queued ← (if mc_queue env then act (enqueue_step entry) else mret false);
  if queued : bool then mret tt
  else ctx ← within (5 * Second); _ ← LogAudit ctx entry; mret tt.
Definition writeAuditLog (sessionID : string) (asn : Z) (adminID toolName : string) (args : json) (resultOK : bool)
    (errMsg : string) : Q unit :=
  writeAuditLogDetailed (MkEntry sessionID asn adminID "" "" toolName args "" "read" "" "" None "" 0 "" "" resultOK errMsg).

(** ** Rows of sessions *)
Definition insertMCPSession (sessionID : string) (asn : Z) (keyID : string) (isAdmin : bool) (adminKeyID : string) : Q unit :=
  ctx ← within (5 * Second);
  _ ← CreateSession ctx (MkMCPSession sessionID (if asn =? 0 then None else Some asn) (non_empty keyID) isAdmin
        (non_empty adminKeyID) zero_time None None);
  mret tt.
Definition closeMCPSession (sessionID : string) : Q unit :=
  ctx ← within (5 * Second); _ ← CloseSession ctx sessionID; mret tt.
Definition pingMCPSession (sessionID : string) : Q unit :=
  ctx ← within (3 * Second); _ ← PingSession ctx sessionID; mret tt.

(** ** Event streams *)
Inductive Side : Type := UserSide | AdminSide.
Definition side_of (a : Actor) : Side := match a with User _ => UserSide | Administrator _ => AdminSide end.
Definition streams (d : Side) (s : MSt) : gmap string nat :=
  match d with UserSide => mm_user (m_mem s) | AdminSide => mm_admin (m_mem s) end.
Definition set_streams (d : Side) (m : gmap string nat) (s : MSt) : MSt :=
  let mem := m_mem s in
  set_mem (match d with
           | UserSide => MkMcpMem (mm_heap mem) m (mm_admin mem) (mm_approvals mem) (mm_tasks mem)
           | AdminSide => MkMcpMem (mm_heap mem) (mm_user mem) m (mm_approvals mem) (mm_tasks mem)
           end) s.
Definition set_ch (l : list json) (x : Sse) : Sse :=
  MkSse (ss_actor x) (ss_sessionID x) (ss_keyID x) (ss_capabilities x) l (ss_sem x).
Definition set_sem (n : nat) (x : Sse) : Sse :=
  MkSse (ss_actor x) (ss_sessionID x) (ss_keyID x) (ss_capabilities x) (ss_ch x) n.
Definition ch_size : nat := 64.
Definition sem_size : nat := 5.

(** What is written to the stream. *)
Inductive frame : Type := FEndpoint (url : string) | FKeepalive | FMessage (j : json).
(** A reply: [http.Error], an accepted message, or a stream that has ended. *)
Inductive HttpReply : Type :=
| HttpError (status : Z) (text : string)
| Accepted
| Stream (l : list frame).
(** What wakes the loop of a stream. *)
Inductive wake : Type := Keepalive | Queued | Disconnected.

(** A new session object, under its id. *)
Definition store_session (d : Side) (x : Sse) : Q nat :=
  act (λ s, let a := length (m_heap s) in
            (a, set_streams d (<[ss_sessionID x := a]> (streams d s)) (set_heap (m_heap s ++ [x]) s))).
Definition sse_at (a : nat) (s : MSt) : option Sse := m_heap s !! a.
(** Takes the next message, when there is one. *)
Definition take_message (a : nat) : Q (option json) :=
  act (λ s, match sse_at a s with
            | Some x => match ss_ch x with
                        | m :: l => (Some m, set_heap (<[a := set_ch l x]> (m_heap s)) s)
                        | [] => (None, s)
                        end
            | None => (None, s)
            end).
Fixpoint sse_loop (sessionID : string) (a : nat) (ticks : list wake) : Q (list frame) :=
  match ticks with
  | [] | Disconnected :: _ => mret []
  | Keepalive :: l =>
      pingMCPSession sessionID ;; fs ← sse_loop sessionID a l; mret (FKeepalive :: fs)
  | Queued :: l =>
      m ← take_message a; fs ← sse_loop sessionID a l; mret (match m with Some j => FMessage j :: fs | None => fs end)
  end.
Definition serve_stream (path : string) (actor : Actor) (keyID : string) (caps : list string) (flusher : bool)
    (ticks : list wake) : Q HttpReply :=
  if negb flusher then mret (HttpError StatusInternalServerError "SSE not supported")
  else
    sessionID ← NewUUID;
    let d := side_of actor in
    a ← store_session d (MkSse actor sessionID keyID caps [] 0);
    (match actor with
     | User asn => insertMCPSession sessionID asn keyID false ""
     | Administrator _ => insertMCPSession sessionID 0 "" true keyID
     end) ;;
    fs ← sse_loop sessionID a ticks;
    act (λ s, (tt, set_streams d (delete sessionID (streams d s)) s)) ;;
    closeMCPSession sessionID ;;
    mret (Stream (FEndpoint (path +:+ "?session_id=" +:+ sessionID) :: fs)).
(** [HandleSSE] of both handlers. *)
Definition HandleSSE (asn : Z) (keyID : string) (caps : list string) (flusher : bool) (ticks : list wake) : Q HttpReply :=
  serve_stream "/api/v1/mcp" (User asn) keyID caps flusher ticks.
Definition AdminHandleSSE (adminID adminKeyID : string) (caps : list string) (flusher : bool) (ticks : list wake) : Q HttpReply :=
  serve_stream "/api/v1/admin/mcp" (Administrator adminID) adminKeyID caps flusher ticks.

(** ** JSON-RPC *)
Record jsonRPCRequest : Type := MkRequest { rq_ID : json; rq_Method : string; rq_Params : option json }.
Record jsonRPCErr : Type := MkRPCErr { er_Code : Z; er_Message : string }.
Definition rpc_fields : fields := [("jsonrpc", FString); ("id", FAny); ("method", FString); ("params", FAny)].
Definition decode_request (body : option json) : option jsonRPCRequest :=
  v ← body;
  a ← decode false rpc_fields v;
  if forallb any_ok (assigned "id" a)
  then Some (MkRequest (default JNull (any_of <$> raw_field "id" a)) (str_field "method" a) (raw_field "params" a))
  else None.
Definition rpc_response (id : json) (r : json + jsonRPCErr) : json :=
  JObj ([("jsonrpc", JStr "2.0"); ("id", id)]
        ++ match r with
           | inl v => [("result", v)]
           | inr e => [("error", JObj [("code", JNum (er_Code e)); ("message", JStr (er_Message e))])]
           end).
(** A full channel drops the message. *)
Definition sendSSE (a : nat) (m : json) : Q unit :=
  act (λ s, (tt, match sse_at a s with
                 | Some x => if (length (ss_ch x) <? ch_size)%nat
                             then set_heap (<[a := set_ch (ss_ch x ++ [m]) x]> (m_heap s)) s else s
                 | None => s
                 end)).
Definition acquire_sem (a : nat) : Q bool :=
  act (λ s, match sse_at a s with
            | Some x => if (ss_sem x <? sem_size)%nat
                        then (true, set_heap (<[a := set_sem (S (ss_sem x)) x]> (m_heap s)) s) else (false, s)
            | None => (false, s)
            end).
Definition release_sem (a : nat) : Q unit :=
  act (λ s, (tt, match sse_at a s with
                 | Some x => set_heap (<[a := set_sem (pred (ss_sem x)) x]> (m_heap s)) s
                 | None => s
                 end)).

(** What the two servers differ in. *)
Record Server : Type := MkServer {
  sv_name : string;
  sv_list : list string → json;
  sv_call : Ctx → Sse → option json → Q (json + jsonRPCErr)
}.
Definition initialize_result (name : string) : json :=
  JObj [("capabilities", JObj [("tools", JObj [])]); ("protocolVersion", JStr "2024-11-05");
        ("serverInfo", JObj [("name", JStr name); ("version", JStr "1.0.0")])].
Definition dispatch (sv : Server) (ctx : Ctx) (a : nat) (x : Sse) (req : jsonRPCRequest) : Q unit :=
  let method := rq_Method req in
  r ← (if method =s "initialize" then mret (inl (initialize_result (sv_name sv)))
       else if method =s "tools/list" then mret (inl (sv_list sv (ss_capabilities x)))
       else if method =s "tools/call" then sv_call sv ctx x (rq_Params req)
       else mret (inr (MkRPCErr (-32601) ("Method not found: " +:+ method))));
  sendSSE a (rpc_response (rq_ID req) r).
(** The session found under an id: its object, and the fields that never change. *)
Definition find_session (d : Side) (sessionID : string) : Q (option (nat * Sse)) :=
  gets (λ s, match streams d s !! sessionID with Some a => option_map (pair a) (sse_at a s) | None => None end).
Definition error_text (msg : string) : string :=
  text ([chr 123; chr 34] ++ bytes "error" ++ [chr 34; chr 58; chr 34] ++ bytes msg ++ [chr 34; chr 125]).
(** The request is served in a goroutine, which is the rest of the program: the
    reply does not wait for it. *)
Definition handle_message (sv : Server) (actor : Actor) (sessionID : string) (body : option json) : Q HttpReply :=
  if sessionID =s "" then mret (HttpError StatusBadRequest (error_text "missing session_id"))
  else
    f ← find_session (side_of actor) sessionID;
    match f with
    | None => mret (HttpError StatusNotFound (error_text "session not found or expired"))
    | Some (a, x) =>
        match decode_request body with
        | None => sendSSE a (rpc_response JNull (inr (MkRPCErr (-32700) "Parse error"))) ;; mret Accepted
        | Some req =>
            if bool_decide (ss_actor x ≠ actor)
            then mret (HttpError StatusNotFound (error_text "session not found or expired"))
            else
              ok ← acquire_sem a;
              if negb ok then mret (HttpError StatusTooManyRequests (error_text "too many concurrent requests"))
              else ctx ← within (30 * Second); dispatch sv ctx a x req ;; release_sem a ;; mret Accepted
        end
    end.
End audit.
