(* ===== verification/McpTools.v ===== *)
(** * Tools of the MCP server for operators ([internal/handler/mcp.go],
    [mcp_user_tools.go])

    What each tool reads and writes.  Tools on peers are programs of the world;
    the assistant and the administrators' server use some of them too. *)
From S2P Require Import Prelude GoLib Json Model Peering Lock Cache Effects World Store Handler AdminPeer UserPeer Decode McpStore Mcp Login.
From stdpp Require Import options.
Local Open Scope Z_scope.
Local Open Scope go_scope.

(** What a tool returns: a map, or another value. *)
Inductive Data : Type := DMap (o : obj) | DVal (j : json).
Definition data_json (d : Data) : json := match d with DMap o => JObj o | DVal j => j end.
(** [fmt.Errorf("%s: %w", what, err)]. *)
Definition wrapped {A} (what e : string) : result A := Err (what +:+ ": " +:+ e).

(** ** Nodes and settings *)
Definition mcp_node_json (n : Node) : json :=
  JObj [("id", JStr (node_ID n)); ("name", JStr (node_Name n)); ("location", JStr (node_Location n));
        ("public_ip", JStr (node_PublicIP n)); ("our_asn", JNum (node_OurASN n)); ("our_lla", JStr (node_OurLLA n));
        ("our_wg_pubkey", JStr (node_OurWgPubkey n)); ("online", JBool (node_Online n)); ("enabled", JBool (node_Enabled n))].
Definition toolNodesList (ctx : Ctx) : M (result Data) :=
  r ← Node_ListEnabled ctx;
  mret (match r with Err e => wrapped "failed to query nodes" e | Ok l => Ok (DVal (JArr (map mcp_node_json l))) end).
Definition toolPeerCreationStatus (ctx : Ctx) : M (result Data) :=
  r ← GetSiteSetting ctx "peer_creation_enabled";
  mret (Ok (DVal (JObj [("enabled", JBool (match r with Err _ => true | Ok v => v =s "true" end))]))).

(** ** Peers *)
Definition mcp_peer_fields (p : Peer) : obj :=
  [("id", JStr (peer_ID p)); ("node_id", JStr (peer_NodeID p)); ("remote_asn", JNum (peer_RemoteASN p));
   ("remote_pubkey", JStr (peer_RemotePubkey p)); ("remote_endpoint", JStr (peer_RemoteEndpoint p));
   ("remote_lla", JStr (peer_RemoteLLA p)); ("contact_email", JStr (peer_ContactEmail p));
   ("wg_listen_port", JNum (peer_WgListenPort p)); ("wg_interface_name", JStr (peer_WgInterfaceName p));
   ("wg_managed", JBool (peer_WgManaged p)); ("status", JStr (peer_Status p))]
  ++ opt_field "reject_reason" JStr (peer_RejectReason p)
  ++ [("created_at", JTime (peer_CreatedAt p)); ("updated_at", JTime (peer_UpdatedAt p))].
Definition mcp_peer_item (pn : Peer * Node) : json :=
  JObj (mcp_peer_fields pn.1
    ++ [("node_name", JStr (node_Name pn.2)); ("node_location", JStr (node_Location pn.2))]
    ++ opt_field "mtu" JNum (peer_MTU pn.1)).
Definition toolPeerList (ctx : Ctx) (asn : Z) : M (result Data) :=
  r ← ListByASN ctx asn;
  mret (match r with Err e => wrapped "failed to query peers" e | Ok l => Ok (DVal (JArr (map mcp_peer_item l))) end).
Definition toolPeerSummary (ctx : Ctx) (asn : Z) : M (result Data) :=
  r ← SummaryByASN ctx asn;
  mret (match r with
        | Err e => wrapped "failed to query peer summary" e
        | Ok rows => Ok (DVal (JArr (map (λ '(id, m),
            JObj [("peer_id", JStr id); ("latest_rtt", jopt JFloat (m ≫= pm_RttMs));
                  ("latest_bgp_state", jopt JStr (pm_BGPState <$> m));
                  ("latest_handshake", jopt (λ t, JStr (RFC3339 t)) (m ≫= pm_LastHandshake));
                  ("latest_bgp_uptime_secs", jopt JNum (m ≫= pm_BGPUptimeSecs))]) rows)))
        end).
Definition mcp_peer_detail (pn : Peer * Node) : json :=
  JObj (mcp_peer_fields pn.1 ++ opt_field "mtu" JNum (peer_MTU pn.1)
    ++ [("node_name", JStr (node_Name pn.2)); ("node_location", JStr (node_Location pn.2));
        ("node_public_ip", JStr (node_PublicIP pn.2)); ("node_our_lla", JStr (node_OurLLA pn.2));
        ("node_our_wg_pubkey", JStr (node_OurWgPubkey pn.2))]).
Definition toolPeerGet (ctx : Ctx) (asn : Z) (id : string) : M (result Data) :=
  if id =s "" then mret (Err "id is required")
  else
    r ← GetByIDAndASNWithNode ctx id asn;
    mret (match r with Err _ => Err "peer not found" | Ok pn => Ok (DVal (mcp_peer_detail pn)) end).

(** ** Metrics *)
Definition mcp_metric_point (m : PeerMetric) : json :=
  JObj [("time", JTime (pm_Time m)); ("rx_bytes", JNum (pm_RxBytes m)); ("tx_bytes", JNum (pm_TxBytes m));
        ("rtt_ms", jopt JFloat (pm_RttMs m)); ("bgp_state", jopt JStr (non_empty (pm_BGPState m)));
        ("last_handshake", jopt JTime (pm_LastHandshake m)); ("bgp_uptime_secs", jopt JNum (pm_BGPUptimeSecs m))].
Definition metrics_of (ctx : Ctx) (id : string) (hours : Z) : M (result Data) :=
  r ← QueryPeerMetrics ctx id hours;
  mret (match r with
        | Err e => wrapped "failed to query metrics" e
        | Ok ms => Ok (DMap [("hours", JNum hours); ("peer_id", JStr id); ("points", JArr (map mcp_metric_point ms))])
        end).
Definition toolPeerGetMetrics (ctx : Ctx) (asn : Z) (id : string) (hours : Z) : M (result Data) :=
  if id =s "" then mret (Err "id is required")
  else
    r ← GetByIDAndASN ctx id asn;
    match r with Err _ => mret (Err "peer not found") | Ok _ => metrics_of ctx id hours end.
(** Stops at the first error. *)
Fixpoint all_metrics (ctx : Ctx) (asn hours : Z) (l : list (Peer * Node)) : M (result (list json)) :=
  match l with
  | [] => mret (Ok [])
  | pn :: l' =>
      m ← toolPeerGetMetrics ctx asn (peer_ID pn.1) hours;
      match m with
      | Err e => mret (Err e)
      | Ok d =>
          rest ← all_metrics ctx asn hours l';
          mret (match rest with
                | Err e => Err e
                | Ok js => Ok (JObj [("peer_id", JStr (peer_ID pn.1)); ("node_name", JStr (node_Name pn.2));
                                     ("node_location", JStr (node_Location pn.2)); ("status", JStr (peer_Status pn.1));
                                     ("metrics", data_json d)] :: js)
                end)
      end
  end.
Definition toolPeerGetAllMetrics (ctx : Ctx) (asn hours : Z) : M (result Data) :=
  r ← ListByASN ctx asn;
  match r with
  | Err e => mret (wrapped "failed to query peers" e)
  | Ok l =>
      js ← all_metrics ctx asn hours l;
      mret (match js with Err e => Err e | Ok js => Ok (DMap [("hours", JNum hours); ("peers", JArr js)]) end)
  end.

(** ** Creation *)
Definition mcp_check_create (nodeID pubkey endpoint lla : string) (mtu : option Z) : option string :=
  if (nodeID =s "") || (pubkey =s "") || (endpoint =s "") || (lla =s "")
  then Some "node_id, remote_pubkey, remote_endpoint, and remote_lla are required"
  else if bad_pubkey pubkey then Some "invalid WireGuard public key (must be Base64, at least 40 chars)"
  else if negb (validateEndpoint endpoint) then Some "invalid endpoint format (expected IP:Port or hostname:Port)"
  else if negb (validateLLA lla) then Some "invalid link-local address (must be in fe80::/10)"
  else if bad_mtu mtu then Some "MTU must be between 576 and 9000"
  else None.
Definition yes (r : result bool) : bool := match r with Ok b => b | Err _ => false end.
(** The row: what the literal leaves out is zero. *)
Definition mcp_peer (nodeID : string) (asn : Z) (pubkey endpoint lla : string) (wgPort : Z) (mtu : option Z) : Peer :=
  MkPeer "" nodeID asn pubkey endpoint lla "" wgPort (WgInterfaceName asn) "" "" false mtu None "pending" None None
    false None 0 0 0.
Definition port_in_use (wgPort : Z) (how : string) : result Data :=
  Err ("WireGuard port " +:+ fmt_d wgPort +:+ " is already in use on this node" +:+ how +:+ "; contact the administrator").
Definition mcp_insert (ctx : Ctx) (asn : Z) (node : Node) (nodeID pubkey endpoint lla : string) (mtu : option Z) : M (result Data) :=
  ex ← ExistsByNodeAndASN ctx nodeID asn;
  if yes ex then mret (Err "you already have a peer on this node")
  else
    c ← CountPendingByASN ctx asn;
    if 10 <=? match c with Ok n => n | Err _ => 0 end then mret (Err "too many pending peer requests (max 10)")
    else
      let wgPort := WgPort asn (node_WgPortPrefix node) in
      pe ← ExistsByNodeAndPort ctx nodeID wgPort;
      if yes pe then mret (port_in_use wgPort "")
      else
        r ← Create ctx (mcp_peer nodeID asn pubkey endpoint lla wgPort mtu);
        mret (match r with
              | inl (PgUnique _) => port_in_use wgPort " (concurrent request)"
              | inl e => wrapped "failed to create peer" (err_text e)
              | inr peer => Ok (DMap
                  [("id", JStr (peer_ID peer));
                   ("message", JStr "Peer created and is pending approval by an administrator.");
                   ("node_name", JStr (node_Name node)); ("status", JStr "pending");
                   ("wg_interface_name", JStr (WgInterfaceName asn)); ("wg_listen_port", JNum wgPort)])
              end).
Definition toolPeerCreate (ctx : Ctx) (asn : Z) (nodeID pubkey endpoint lla : string) (mtu : option Z) : M (result Data) :=
  match mcp_check_create nodeID pubkey endpoint lla mtu with
  | Some msg => mret (Err msg)
  | None =>
      v ← GetSiteSetting ctx "peer_creation_enabled";
      if match v with Ok v => v =s "false" | Err _ => false end
      then mret (Err "peer creation is currently disabled by the administrator")
      else
        n ← Node_GetByID ctx nodeID;
        match n with
        | Err _ => mret (Err "node not found or disabled")
        | Ok node =>
            if negb (node_Enabled node) then mret (Err "node not found or disabled")
            else mcp_insert ctx asn node nodeID pubkey endpoint lla mtu
        end
  end.

(** ** Pending peers *)
Definition is_pending (p : Peer) : bool := (peer_Status p =s "pending") || (peer_Status p =s "rejected").
Definition mcp_check_update (pubkey endpoint lla : option string) (mtu : option Z) : option string :=
  if isNil pubkey && isNil endpoint && isNil lla && isNil mtu then Some "at least one field must be provided"
  else if match pubkey with Some k => bad_pubkey k | None => false end then Some "invalid WireGuard public key"
  else if match endpoint with Some e => negb (validateEndpoint e) | None => false end then Some "invalid endpoint format"
  else if match lla with Some l => negb (validateLLA l) | None => false end then Some "invalid link-local address"
  else if bad_mtu mtu then Some "MTU must be between 576 and 9000"
  else None.
Definition mcp_update_fields (pubkey endpoint lla : option string) (mtu : option Z) : list column :=
  match pubkey with Some k => [set_RemotePubkey k] | None => [] end
  ++ match endpoint with Some e => [set_RemoteEndpoint e] | None => [] end
  ++ match lla with Some l => [set_RemoteLLA l] | None => [] end
  ++ match mtu with Some m => [set_MTU (Some m)] | None => [] end.
Definition toolPeerUpdatePending (ctx : Ctx) (asn : Z) (id : string) (pubkey endpoint lla : option string) (mtu : option Z)
    : M (result Data) :=
  if id =s "" then mret (Err "id is required")
  else
    r ← GetByIDAndASN ctx id asn;
    match r with
    | Err _ => mret (Err "peer not found")
    | Ok cur =>
        if negb (is_pending cur) then mret (Err "only pending or rejected peers can be updated by this tool")
        else
          match mcp_check_update pubkey endpoint lla mtu with
          | Some msg => mret (Err msg)
          | None =>
              u ← UpdateFields ctx id (mcp_update_fields pubkey endpoint lla mtu);
              mret (match u with
                    | Some e => wrapped "failed to update peer" e
                    | None => Ok (DMap [("id", JStr id); ("previous_status", JStr (peer_Status cur)); ("status", JStr "updated")])
                    end)
          end
    end.
Definition toolPeerCancelPending (ctx : Ctx) (asn : Z) (id : string) : M (result Data) :=
  r ← GetByIDAndASN ctx id asn;
  match r with
  | Err _ => mret (Err "peer not found")
  | Ok peer =>
      if negb (is_pending peer) then mret (Err "only pending or rejected peers can be cancelled by MCP")
      else
        d ← Delete_ ctx id;
        mret (match d with
              | Some e => wrapped "failed to cancel peer" e
              | None => Ok (DMap [("id", JStr id); ("previous_status", JStr (peer_Status peer)); ("status", JStr "cancelled")])
              end)
  end.

(** ** The handlers of the tools *)
Definition mcpModeSyncWrite : string := "sync_write".
Definition mcpModeOperation : string := "operation".
(** Decoded arguments, or the one error. *)
Definition decodeStrict {A} (fs : fields) (raw : json) (k : obj → Q (result A)) : Q (result A) :=
  match decode true fs raw with Some a => k a | None => mret (Err "invalid arguments") end.
Definition hours_of (a : obj) : result Z :=
  match opt_int "hours" a with
  | None => Ok 24
  | Some h => if (h <? 1) || (720 <? h) then Err "hours must be between 1 and 720" else Ok h
  end.
Definition limit_of (a : obj) : Z :=
  match opt_int "limit" a with Some l => if (1 <=? l) && (l <=? 200) then l else 50 | None => 50 end.

Definition opt_str_field (name : string) (o : option string) : obj := opt_field name JStr o.
Definition non_empty_field (name s : string) : obj := opt_field name JStr (non_empty s).
Definition audit_row_json (a : MCPAuditLog) : json :=
  JObj ([("id", JStr (al_ID a))] ++ opt_str_field "session_id" (al_SessionID a) ++ opt_field "asn" JNum (al_ASN a)
    ++ opt_str_field "admin_id" (al_AdminID a) ++ opt_str_field "key_id" (al_KeyID a)
    ++ opt_str_field "admin_key_id" (al_AdminKeyID a) ++ [("tool_name", JStr (al_ToolName a)); ("args", al_Args a)]
    ++ opt_str_field "capability" (al_Capability a) ++ [("mode", JStr (al_Mode a))]
    ++ opt_str_field "resource_type" (al_ResourceType a) ++ opt_str_field "resource_id" (al_ResourceID a)
    ++ opt_str_field "idempotency_key" (al_IdempotencyKey a) ++ opt_str_field "request_hash" (al_RequestHash a)
    ++ opt_field "duration_ms" JNum (al_DurationMs a) ++ non_empty_field "client_ip" (al_ClientIP a)
    ++ non_empty_field "user_agent" (al_UserAgent a) ++ [("result_ok", JBool (al_ResultOK a))]
    ++ opt_str_field "error_msg" (al_ErrorMsg a) ++ [("called_at", JTime (al_CalledAt a))]).
Definition operation_json (x : MCPOperation) : json :=
  JObj ([("id", JStr (op_ID x)); ("actor_type", JStr (op_ActorType x))] ++ opt_str_field "key_id" (op_KeyID x)
    ++ opt_str_field "admin_key_id" (op_AdminKeyID x) ++ opt_field "asn" JNum (op_ASN x)
    ++ opt_str_field "admin_id" (op_AdminID x)
    ++ [("operation_type", JStr (op_OperationType x)); ("resource_type", JStr (op_ResourceType x));
        ("resource_id", JStr (op_ResourceID x)); ("requested_args", op_RequestedArgs x); ("status", JStr (op_Status x));
        ("idempotency_key", JStr (op_IdempotencyKey x)); ("request_hash", JStr (op_RequestHash x));
        ("created_at", JTime (op_CreatedAt x)); ("updated_at", JTime (op_UpdatedAt x))]).
Definition listed {A} (f : A → json) (r : result (list A)) : result Data :=
  match r with Err e => Err e | Ok l => Ok (DVal (JArr (map f l))) end.

(** A handler takes its context, the key of the session, the ASN, the arguments
    and the hash of the request. *)
Definition ToolHandler : Type := Ctx → string → Z → json → string → Q (result Data).

Definition handleToolNodesList : ToolHandler := λ ctx _ _ _ _, inworld (toolNodesList ctx).
Definition handleToolPeerCreationStatus : ToolHandler := λ ctx _ _ _ _, inworld (toolPeerCreationStatus ctx).
Definition handleToolPeerList : ToolHandler := λ ctx _ asn _ _, inworld (toolPeerList ctx asn).
Definition handleToolPeerSummary : ToolHandler := λ ctx _ asn _ _, inworld (toolPeerSummary ctx asn).
Definition handleToolPeerGet : ToolHandler := λ ctx _ asn raw _,
  decodeStrict [("id", FString)] raw (λ a, inworld (toolPeerGet ctx asn (str_field "id" a))).
Definition handleToolPeerGetMetrics : ToolHandler := λ ctx _ asn raw _,
  decodeStrict [("id", FString); ("hours", FOptInt)] raw (λ a,
    match hours_of a with
    | Err e => mret (Err e)
    | Ok h => inworld (toolPeerGetMetrics ctx asn (str_field "id" a) h)
    end).
Definition handleToolUserMCPAuditLogs : ToolHandler := λ ctx _ asn raw _,
  decodeStrict [("limit", FOptInt)] raw (λ a,
    r ← ListAuditLogsByASN ctx asn (limit_of a); mret (listed audit_row_json r)).
Definition handleToolOperationsList : ToolHandler := λ ctx _ asn raw _,
  decodeStrict [("limit", FOptInt)] raw (λ a,
    r ← ListOperationsByASN ctx asn (limit_of a); mret (listed operation_json r)).
Definition handleToolOperationGet : ToolHandler := λ ctx _ asn raw _,
  decodeStrict [("id", FString)] raw (λ a,
    r ← GetOperationByASN ctx asn (str_field "id" a);
    mret (match r with Err e => Err e | Ok x => Ok (DVal (operation_json x)) end)).
Definition handleToolPeerCreate : ToolHandler := λ ctx _ asn raw _,
  decodeStrict [("node_id", FString); ("remote_pubkey", FString); ("remote_endpoint", FString); ("remote_lla", FString);
                ("mtu", FOptInt); ("idempotency_key", FString)] raw (λ a,
    inworld (toolPeerCreate ctx asn (str_field "node_id" a) (str_field "remote_pubkey" a) (str_field "remote_endpoint" a)
               (str_field "remote_lla" a) (opt_int "mtu" a))).
Definition update_args : fields :=
  [("id", FString); ("remote_pubkey", FOptString); ("remote_endpoint", FOptString); ("remote_lla", FOptString);
   ("mtu", FOptInt); ("idempotency_key", FString)].
Definition handleToolPeerUpdatePending : ToolHandler := λ ctx _ asn raw _,
  decodeStrict update_args raw (λ a,
    inworld (toolPeerUpdatePending ctx asn (str_field "id" a) (opt_str "remote_pubkey" a) (opt_str "remote_endpoint" a)
               (opt_str "remote_lla" a) (opt_int "mtu" a))).
Definition handleToolPeerCancelPending : ToolHandler := λ ctx _ asn raw _,
  decodeStrict [("id", FString); ("idempotency_key", FString)] raw (λ a,
    inworld (toolPeerCancelPending ctx asn (str_field "id" a))).

Definition createPeerOperation (ctx : Ctx) (keyID : string) (asn : Z) (operationType peerID : string) (raw : json)
    (idemKey requestHash : string) : Q (result Data) :=
  r ← CreateOperation ctx (MkOperation "" "user" (non_empty keyID) None (Some asn) None operationType "peer" peerID
        (map_json (any_map raw).1) "pending_admin_review" idemKey requestHash zero_time zero_time);
  mret (match r with
        | Err e => wrapped "failed to create operation" e
        | Ok op => Ok (DMap [("created_at", JTime (op_CreatedAt op)); ("operation_id", JStr (op_ID op));
                             ("resource_id", JStr (op_ResourceID op)); ("resource_type", JStr (op_ResourceType op));
                             ("status", JStr (op_Status op))])
        end).
Definition request_operation (ctx : Ctx) (keyID : string) (asn : Z) (operationType : string) (raw : json) (requestHash : string)
    (a : obj) : Q (result Data) :=
  r ← inworld (GetByIDAndASN ctx (str_field "id" a) asn);
  match r with
  | Err _ => mret (Err "peer not found")
  | Ok peer =>
      if (peer_Status peer <>s "active") && (peer_Status peer <>s "suspended")
      then mret (Err "operation is only required for active or suspended peers")
      else createPeerOperation ctx keyID asn operationType (str_field "id" a) raw (str_field "idempotency_key" a) requestHash
  end.
Definition handleToolPeerUpdateOperationCreate : ToolHandler := λ ctx keyID asn raw requestHash,
  decodeStrict update_args raw (request_operation ctx keyID asn "peer_update" raw requestHash).
Definition handleToolPeerDeleteOperationCreate : ToolHandler := λ ctx keyID asn raw requestHash,
  decodeStrict [("id", FString); ("idempotency_key", FString)] raw (request_operation ctx keyID asn "peer_delete" raw requestHash).
