(* ===== verification/McpKeys.v ===== *)
(** * MCP keys ([internal/middleware/middleware.go], [internal/handler/mcpkey.go],
    [admin_mcpkey.go])

    The middleware that admits requests with a key, the pages that create, list
    and delete keys, and those that list the audit log. *)
From S2P Require Import Prelude GoLib GoTime Json Model Lock Cache Effects World Store Handler AdminPeer UserPeer Decode McpStore Mcp McpTools Login.
From stdpp Require Import options.
Local Open Scope Z_scope.
Local Open Scope go_scope.

Definition StatusUnprocessableEntity : Z := 422.
Definition StatusUnauthorized : Z := 401.

Section keys.
Set Default Proof Using "Type*".
Context `{Digest}.
Definition hash_key (raw : string) : string := EncodeToHex (sha256 (bytes raw)).

(** ** The middleware *)

(** What it puts into the context of the request. *)
Record McpIdentity (O : Type) : Type := MkMcpIdentity { mi_owner : O; mi_keyID : string; mi_capabilities : list string }.
#[global] Arguments MkMcpIdentity {O}.
#[global] Arguments mi_owner {O}.
#[global] Arguments mi_keyID {O}.
#[global] Arguments mi_capabilities {O}.

Definition user_prefix : string := "ap_mcp_".
Definition admin_prefix : string := "ap_mcp_admin_".
Definition bearer (auth : string) : option string :=
  if (auth =s "") || negb (HasPrefix auth "Bearer ") then None else Some (TrimPrefix auth "Bearer ").
Definition unauthorized (msg : string) : Response := ErrorJSON StatusUnauthorized "unauthorized" msg.
(** The key behind a raw key: found by its hash, not expired, not revoked.  Its
    last use is written back in a goroutine. *)
Definition admit_key {O A} (find : Ctx → string → Q (result (KeyRow O))) (touch : Ctx → string → Q (option string))
    (refuse : Response → A) (subject capital : string) (ctx : Ctx) (rawKey : string) (next : McpIdentity O → Q A) : Q A :=
  r ← find ctx (hash_key rawKey);
  match r with
  | Err _ => mret (refuse (unauthorized ("Invalid or revoked " +:+ subject)))
  | Ok key =>
      now ← mnow;
      if match k_ExpiresAt key with Some e => e <? now | None => false end
      then mret (refuse (unauthorized (capital +:+ " has expired")))
      else if negb (isNil (k_RevokedAt key)) then mret (refuse (unauthorized (capital +:+ " has been revoked")))
      else
        tctx ← within (3 * Second);
        _ ← touch tctx (k_ID key);
        next (MkMcpIdentity (k_Owner key) (k_ID key) (k_Capabilities key))
  end.
Definition RequireMCPKey {A} (refuse : Response → A) (ctx : Ctx) (auth : string) (next : McpIdentity Z → Q A) : Q A :=
  match bearer auth with
  | None => mret (refuse (unauthorized "Missing MCP API key"))
  | Some rawKey =>
      if HasPrefix rawKey admin_prefix || negb (HasPrefix rawKey user_prefix)
      then mret (refuse (unauthorized "Invalid MCP API key format"))
      else admit_key GetUserKeyByHash TouchUserKey refuse "MCP API key" "MCP API key" ctx rawKey next
  end.
Definition RequireAdminMCPKey {A} (refuse : Response → A) (ctx : Ctx) (auth : string) (next : McpIdentity string → Q A) : Q A :=
  match bearer auth with
  | None => mret (refuse (unauthorized "Missing admin MCP API key"))
  | Some rawKey =>
      if negb (HasPrefix rawKey admin_prefix) then mret (refuse (unauthorized "Invalid admin MCP API key format"))
      else admit_key GetAdminKeyByHash TouchAdminKey refuse "admin MCP API key" "Admin MCP API key" ctx rawKey next
  end.

(** ** Creating keys *)
Definition mcpKeyMaxPerASN : Z := 10.
Definition adminMCPKeyMax : Z := 10.
Definition bad_request (code msg : string) : Response := ErrorJSON StatusBadRequest code msg.
Definition db_error (msg : string) : Response := ErrorJSON StatusInternalServerError "db_error" msg.
Definition key_fields : fields := [("name", FString); ("expires_at", FOptString); ("capabilities", FStrings)].
(** The checks on the body: the name and the requested capabilities. *)
Definition check_key_request (allowed : list string) (body : option json) : Response + obj :=
  match body ≫= decode false key_fields with
  | None => inl (bad_request "invalid_body" "Invalid request body")
  | Some a =>
      let name := str_field "name" a in
      if name =s "" then inl (bad_request "name_required" "Key name is required")
      else if (64 <? String.length name)%nat then inl (bad_request "name_too_long" "Key name must be 64 characters or fewer")
      else match validateCapabilities (strs_field "capabilities" a) allowed with
           | Err e => inl (bad_request "invalid_capability" e)
           | Ok _ => inr a
           end
  end.
Definition parse_expiry (now : Z) (o : option string) : Response + option Z :=
  match o with
  | None => inr None
  | Some s =>
      if s =s "" then inr None
      else match ParseRFC3339 s with
           | None => inl (bad_request "invalid_expires_at" "expires_at must be RFC3339 format")
           | Some t => if t <? now then inl (bad_request "expires_in_past" "expires_at must be in the future") else inr (Some t)
           end
  end.

(** What user keys and admin keys differ in. *)
Record KeyKind (O : Type) : Type := MkKeyKind {
  kk_count : Ctx → O → Q (result Z);
  kk_create : Ctx → KeyRow O → Q (result (KeyRow O));
  kk_max : Z;
  kk_prefix : string;
  kk_shown : nat;                   (* the length of the shown prefix *)
  kk_allowed : list string;
  kk_defaults : list string;
  kk_name : string;
  kk_owner_field : O → string * json
}.
#[global] Arguments MkKeyKind {O}.
#[global] Arguments kk_count {O}.
#[global] Arguments kk_create {O}.
#[global] Arguments kk_max {O}.
#[global] Arguments kk_prefix {O}.
#[global] Arguments kk_shown {O}.
#[global] Arguments kk_allowed {O}.
#[global] Arguments kk_defaults {O}.
#[global] Arguments kk_name {O}.
#[global] Arguments kk_owner_field {O}.
Definition user_kind : KeyKind Z :=
  MkKeyKind CountUserKeys CreateUserKey mcpKeyMaxPerASN user_prefix 16 allowedUserMCPCapabilities defaultUserMCPCapabilities
    "MCP key" (λ asn, ("asn", JNum asn)).
Definition admin_kind : KeyKind string :=
  MkKeyKind CountAdminKeys CreateAdminKey adminMCPKeyMax admin_prefix 20 allowedAdminMCPCapabilities
    defaultAdminMCPCapabilities "admin MCP key" (λ id, ("admin_id", JStr id)).

Definition new_key_row {O} (kind : KeyKind O) (owner : O) (a : obj) (expiresAt : option Z) (plaintext : string) : KeyRow O :=
  MkKey "" owner (str_field "name" a) (hash_key plaintext) (truncate (kk_shown kind) plaintext)
    (sanitizeCapabilities (strs_field "capabilities" a) (kk_allowed kind) (kk_defaults kind)) expiresAt None None 0 zero_time.
Definition created_key_json {O} (kind : KeyKind O) (k : KeyRow O) (plaintext : string) : json :=
  JObj [kk_owner_field kind (k_Owner k); ("capabilities", JArr (JStr <$> k_Capabilities k)); ("created_at", JTime (k_CreatedAt k));
        ("expires_at", jopt JTime (k_ExpiresAt k)); ("id", JStr (k_ID k)); ("key", JStr plaintext);
        ("key_prefix", JStr (k_KeyPrefix k)); ("last_used_at", jopt JTime (k_LastUsedAt k)); ("name", JStr (k_Name k))].
Definition create_key {O} (kind : KeyKind O) (ctx : Ctx) (owner : O) (body : option json) : Q Response :=
  match check_key_request (kk_allowed kind) body with
  | inl r => mret r
  | inr a =>
      c ← kk_count kind ctx owner;
      match c with
      | Err _ => mret (db_error ("Failed to count " +:+ kk_name kind +:+ "s"))
      | Ok count =>
          if kk_max kind <=? count
          then mret (ErrorJSON StatusUnprocessableEntity "limit_reached"
                 ("You have reached the maximum of 10 " +:+ kk_name kind +:+ "s. Revoke an existing key first."))
          else
            now ← mnow;
            match parse_expiry now (opt_str "expires_at" a) with
            | inl r => mret r
            | inr expiresAt =>
                rnd ← inworld rand_read;
                match rnd with
                | None => mret (ErrorJSON StatusInternalServerError "rand_error" "Failed to generate key")
                | Some rawBytes =>
                    let plaintext := kk_prefix kind +:+ EncodeToHex rawBytes in
                    k ← kk_create kind ctx (new_key_row kind owner a expiresAt plaintext);
                    mret (match k with
                          | Err _ => db_error ("Failed to create " +:+ kk_name kind)
                          | Ok k => JSON StatusCreated (created_key_json kind k plaintext)
                          end)
                end
            end
      end
  end.
Definition MCPKey_Create (ctx : Ctx) (asn : Z) (body : option json) : Q Response := create_key user_kind ctx asn body.
Definition CreateAdminKey_ (ctx : Ctx) (adminID : string) (body : option json) : Q Response :=
  create_key admin_kind ctx adminID body.
End keys.

(** ** Listing and deleting *)
Definition key_row_json {O} (owner : O → string * json) (k : KeyRow O) : json :=
  JObj ([("id", JStr (k_ID k)); owner (k_Owner k); ("name", JStr (k_Name k)); ("key_prefix", JStr (k_KeyPrefix k));
         ("capabilities", JArr (JStr <$> k_Capabilities k))]
        ++ opt_field "expires_at" JTime (k_ExpiresAt k) ++ opt_field "last_used_at" JTime (k_LastUsedAt k)
        ++ opt_field "revoked_at" JTime (k_RevokedAt k)
        ++ [("scope_version", JNum (k_ScopeVersion k)); ("created_at", JTime (k_CreatedAt k))]).
Definition keys_page {O} (kind : KeyKind O) (failure : string) (r : result (list (KeyRow O))) : Response :=
  match r with
  | Err _ => db_error failure
  | Ok l => JSON StatusOK (JArr (map (key_row_json (kk_owner_field kind)) l))
  end.
Definition message_page (msg : string) : Response := JSON StatusOK (JObj [("message", JStr msg)]).
Definition MCPKey_List (ctx : Ctx) (asn : Z) : Q Response :=
  r ← ListUserKeys ctx asn; mret (keys_page user_kind "Failed to list MCP keys" r).
Definition MCPKey_Delete (ctx : Ctx) (asn : Z) (id : string) : Q Response :=
  e ← DeleteUserKey ctx id asn;
  mret (match e with Some _ => db_error "Failed to revoke MCP key" | None => message_page "MCP key revoked" end).
Definition ListAdminKeys_ (ctx : Ctx) (adminID : string) : Q Response :=
  r ← ListAdminKeys ctx adminID; mret (keys_page admin_kind "Failed to list admin MCP keys" r).
Definition DeleteAdminKey_ (ctx : Ctx) (adminID id : string) : Q Response :=
  e ← DeleteAdminKey ctx id adminID;
  mret (match e with Some _ => db_error "Failed to revoke admin MCP key" | None => message_page "Admin MCP key revoked" end).
(** The [asn] parameter: absent, a number, or an error. *)
Definition asn_param (s : string) : option Z := if s =s "" then Some 0 else ParseInt64 s.
Definition invalid_asn : Response := bad_request "invalid_asn" "ASN must be a number".
Definition ListUserMCPKeys (ctx : Ctx) (asn : string) : Q Response :=
  match asn_param asn with
  | None => mret invalid_asn
  | Some v => r ← ListAllUserKeys ctx v; mret (keys_page user_kind "Failed to list user MCP keys" r)
  end.
Definition ForceDeleteUserMCPKey (ctx : Ctx) (adminID id : string) : Q Response :=
  r ← ForceDeleteUserKey ctx id;
  match r with
  | Err _ => mret (ErrorJSON StatusNotFound "not_found" "User MCP key not found")
  | Ok key =>
      inworld (auditLog ctx "admin_revoke_user_mcp_key" adminID (Some id)
        [("asn", JNum (k_Owner key)); ("key_name", JStr (k_Name key))]) ;;
      mret (message_page "User MCP key revoked")
  end.

(** ** The audit log *)
Definition short_audit_json (a : MCPAuditLog) : json :=
  JObj ([("id", JStr (al_ID a))] ++ opt_str_field "session_id" (al_SessionID a) ++ opt_field "asn" JNum (al_ASN a)
    ++ opt_str_field "admin_id" (al_AdminID a) ++ [("tool_name", JStr (al_ToolName a)); ("args", al_Args a);
        ("result_ok", JBool (al_ResultOK a))]
    ++ opt_str_field "error_msg" (al_ErrorMsg a) ++ [("called_at", JTime (al_CalledAt a))]).
Definition ListMCPAuditLogs (ctx : Ctx) (asn : Z) : Q Response :=
  r ← ListAuditLogsByASN ctx asn 200;
  mret (match r with
        | Err _ => db_error "Failed to list audit logs"
        | Ok l => JSON StatusOK (JArr (map short_audit_json l))
        end).
(** A query parameter within bounds, or its default. *)
Definition page_param (s : string) (dflt : Z) (ok : Z → bool) : Z :=
  match Atoi s with Some v => if ok v then v else dflt | None => dflt end.
Definition AdminListMCPAuditLogs (ctx : Ctx) (asn tool page per_page : string) : Q Response :=
  let page := page_param page 1 (λ p, 1 <=? p) in
  let perPage := page_param per_page 50 (λ p, (1 <=? p) && (p <=? 100)) in
  match asn_param asn with
  | None => mret invalid_asn
  | Some v =>
      r ← ListAuditLogs ctx (MkAuditParams v tool page perPage);
      mret (match r with
            | Err _ => db_error "Failed to list audit logs"
            | Ok (l, _) => JSON StatusOK (JObj [("logs", JArr (map short_audit_json l)); ("page", JNum page); ("per_page", JNum perPage)])
            end)
  end.
