(* ===== verification/McpUser.v ===== *)
(** * The MCP server for operators ([internal/handler/mcp.go])

    Its tools, and calls: capabilities, idempotency keys, the audit row. *)
From S2P Require Import Prelude GoLib Json Model Peering Lock Cache Effects World Store Handler AdminPeer UserPeer Decode McpStore Mcp McpTools Login.
From stdpp Require Import options.
Local Open Scope Z_scope.
Local Open Scope go_scope.

Record mcpToolDefinition : Type := MkTool {
  td_Name : string;
  td_Description : string;
  td_InputSchema : json;
  td_Capability : string;
  td_Mode : string;
  td_Handler : ToolHandler
}.

(** ** Schemas *)
Definition property (type description : string) : json :=
  JObj ((if description =s "" then [] else [("description", JStr description)]) ++ [("type", JStr type)]).
Definition schema (properties : obj) (required : list string) : json :=
  JObj ([("type", JStr "object"); ("properties", JObj (as_map properties))]
        ++ match required with [] => [] | _ => [("required", JArr (JStr <$> required))] end).
Definition emptySchema : json := schema [] [].
Definition peerIDSchema : json := schema [("id", property "string" "Peer UUID")] ["id"].
Definition limitSchema : json := schema [("limit", property "integer" "Max results (1-200, default 50)")] [].
Definition idempotency : string * json := ("idempotency_key", property "string" "Unique idempotency key for this write request").
Definition peer_id : string * json := ("id", property "string" "Peer UUID").
Definition settings_schema (pubkey endpoint lla mtu : string) : obj :=
  [peer_id; ("remote_pubkey", property "string" pubkey); ("remote_endpoint", property "string" endpoint);
   ("remote_lla", property "string" lla); ("mtu", property "integer" mtu); idempotency].

Definition mcpReadTool (name description capability : string) (s : json) (h : ToolHandler) : mcpToolDefinition :=
  MkTool name description s capability mcpModeRead h.
Definition mcpWriteTool (name description capability : string) (s : json) (h : ToolHandler) : mcpToolDefinition :=
  MkTool name description s capability mcpModeSyncWrite h.
Definition mcpOperationTool (name description capability : string) (s : json) (h : ToolHandler) : mcpToolDefinition :=
  MkTool name description s capability mcpModeOperation h.

Definition userToolDefinitions : list mcpToolDefinition :=
  [mcpReadTool "nodes_list" "List all available DN42 BGP peering nodes you can peer with." "read:nodes" emptySchema handleToolNodesList;
   mcpReadTool "peer_creation_status" "Check whether new peer creation is currently enabled on the platform." "read:peers"
     emptySchema handleToolPeerCreationStatus;
   mcpReadTool "peer_list" "List all BGP peers belonging to your ASN." "read:peers" emptySchema handleToolPeerList;
   mcpReadTool "peer_summary" "List all BGP peers with their latest RTT, BGP state, and handshake time." "read:metrics"
     emptySchema handleToolPeerSummary;
   mcpReadTool "peer_get" "Get full details of a single peer including node information." "read:peers" peerIDSchema handleToolPeerGet;
   mcpReadTool "peer_get_metrics" "Get time-series metrics for a peer (RTT, BGP state, bytes transferred)." "read:metrics"
     (schema [peer_id; ("hours", property "integer" "Hours of history (1-720, default 24)")] ["id"]) handleToolPeerGetMetrics;
   mcpReadTool "mcp_audit_logs_list" "List recent MCP audit logs for your ASN." "read:audit" limitSchema handleToolUserMCPAuditLogs;
   mcpReadTool "operations_list" "List pending MCP operations for your ASN." "read:peers" limitSchema handleToolOperationsList;
   mcpReadTool "operation_get" "Get one pending MCP operation by ID." "read:peers" peerIDSchema handleToolOperationGet;
   mcpWriteTool "peer_create" "Create a new BGP peer on a node. The peer starts in pending status awaiting approval."
     "write:peer:create"
     (schema [("node_id", property "string" "Node UUID (from nodes_list)");
              ("remote_pubkey", property "string" "Your WireGuard public key (Base64)");
              ("remote_endpoint", property "string" "Your public endpoint IP:Port or hostname:Port");
              ("remote_lla", property "string" "Your WireGuard link-local IPv6 address (fe80::/10)");
              ("mtu", property "integer" "Optional MTU override (576-9000)"); idempotency]
        ["node_id"; "remote_pubkey"; "remote_endpoint"; "remote_lla"; "idempotency_key"]) handleToolPeerCreate;
   mcpWriteTool "peer_update_pending" "Update WireGuard parameters of a pending or rejected peer. Active peers are not changed by this tool."
     "write:peer:update_pending"
     (schema (settings_schema "New WireGuard public key" "New endpoint IP:Port" "New link-local IPv6 address" "New MTU (576-9000)")
        ["id"; "idempotency_key"]) handleToolPeerUpdatePending;
   mcpWriteTool "peer_cancel_pending" "Cancel a pending or rejected peer request. Active peers are not deleted by this tool."
     "write:peer:cancel_pending" (schema [peer_id; idempotency] ["id"; "idempotency_key"]) handleToolPeerCancelPending;
   mcpOperationTool "peer_update_operation_create" "Request administrator review for updating an active or suspended peer."
     "write:operation:create"
     (schema (settings_schema "Requested WireGuard public key" "Requested endpoint IP:Port" "Requested link-local IPv6 address"
                "Requested MTU (576-9000)") ["id"; "idempotency_key"]) handleToolPeerUpdateOperationCreate;
   mcpOperationTool "peer_delete_operation_create" "Request administrator review for deleting an active or suspended peer."
     "write:operation:create" (schema [peer_id; idempotency] ["id"; "idempotency_key"]) handleToolPeerDeleteOperationCreate].

Definition tool_json (name description : string) (inputSchema : json) : json :=
  JObj [("name", JStr name); ("description", JStr description); ("inputSchema", inputSchema)].
Definition handleToolsList (capabilities : list string) : json :=
  JObj [("tools", JArr (map (λ d, tool_json (td_Name d) (td_Description d) (td_InputSchema d))
    (filter (λ d, hasCapability capabilities (td_Capability d) = true) userToolDefinitions)))].
Definition findUserTool (name : string) : option mcpToolDefinition :=
  head (filter (λ d, td_Name d = name) userToolDefinitions).

(** ** Requests *)
Definition mcpCallParams : fields := [("name", FString); ("arguments", FAny)].
(** A tool and its arguments; the arguments are an empty object when absent. *)
Definition decode_call (raw : option json) : option (string * json) :=
  v ← raw; a ← decode false mcpCallParams v; Some (str_field "name" a, default (JObj []) (raw_field "arguments" a)).
Definition secret_args : list string :=
  ["remote_pubkey"; "remote_endpoint"; "contact_email"; "token"; "secret"; "password"; "signed_message"; "approval_token"].
(** A nil map when the arguments do not decode. *)
Definition sanitizeArgs (raw : json) : json :=
  let '(m, ok) := any_map raw in if ok then map_json (option_map (λ m, foldr obj_delete m secret_args) m) else JNull.
Definition extractIdempotencyKey (raw : json) : string :=
  match raw with JObj o => str_field "idempotency_key" (assignments [("idempotency_key", FString)] o) | _ => "" end.
Definition inferResourceType (toolName : string) : string :=
  if HasPrefix toolName "peer_" then "peer" else if Contains toolName "operation" then "operation" else "".
Definition inferResourceID (data : option Data) : string :=
  match data with
  | Some (DMap o) =>
      match omap (λ key, match obj_get key o with Some (JStr s) => Some s | _ => None end) ["id"; "operation_id"; "peer_id"] with
      | s :: _ => s
      | [] => ""
      end
  | _ => ""
  end.

Section server.
Context `{Digest} `{JsonText} (env : McpEnv).

Definition mustJSON (j : json) : string := text (json_text j).
Definition mcpTextResult (j : json) : json :=
  JObj [("content", JArr [JObj [("text", JStr (mustJSON j)); ("type", JStr "text")]])].
Definition canonicalRequestHash (raw : json) : string :=
  EncodeToHex (sha256 (json_text (map_json (obj_delete "idempotency_key" <$> (any_map raw).1)))).

(** No key for a tool that reads. *)
Definition prepareIdempotency (ctx : Ctx) (x : Sse) (asn : Z) (name : string) (args : json) (def : mcpToolDefinition)
    : Q (result (option MCPIdempotencyKey) * string) :=
  if td_Mode def =s mcpModeRead then mret (Ok None, "")
  else
    let idem := extractIdempotencyKey args in
    if (String.length idem <? 16)%nat || (128 <? String.length idem)%nat
    then mret (Err "idempotency_key must be 16 to 128 characters", "")
    else
      let reqHash := canonicalRequestHash args in
      existing ← GetIdempotency ctx "user" (ss_keyID x) "" name idem;
      match existing with
      | Ok e => mret (Ok (Some e), reqHash)
      | Err e =>
          if e <>s ErrNoRows then mret (Err e, reqHash)
          else
            c ← CreateIdempotency ctx (MkIdempotency "" "user" (Some (ss_keyID x)) None (Some asn) None name idem reqHash
                  "processing" None None JNull "" "" zero_time zero_time);
            match c with
            | Err e =>
                existing ← GetIdempotency ctx "user" (ss_keyID x) "" name idem;
                mret (match existing with Ok e' => Ok (Some e') | Err _ => Err e end, reqHash)
            | Ok e =>
                now ← mnow;
                mret (Ok (Some (MkIdempotency (ik_ID e) (ik_ActorType e) (ik_KeyID e) (ik_AdminKeyID e) (ik_ASN e) (ik_AdminID e)
                  (ik_ToolName e) (ik_IdempotencyKey e) (ik_RequestHash e) (ik_Status e) (ik_ResourceType e) (ik_ResourceID e)
                  (ik_ResponseJSON e) (ik_ErrorCode e) (ik_ErrorMessage e) now (ik_UpdatedAt e))), reqHash)
            end
      end.

Definition rpc_error {A} (code : Z) (msg : string) : A + jsonRPCErr := inr (MkRPCErr code msg).
(** The answer a stored key gives instead of a call. *)
Definition replay (e : MCPIdempotencyKey) (reqHash : string) : option (json + jsonRPCErr) :=
  if ik_Status e <>s "processing" then
    Some (if ik_RequestHash e <>s reqHash then rpc_error (-32009) "idempotency_conflict"
          else if ik_Status e =s "succeeded" then inl (mcpTextResult (any_of (ik_ResponseJSON e)))
          else rpc_error (-32000) (ik_ErrorMessage e))
  else if negb (ik_CreatedAt e =? zero_time) then
    Some (if ik_RequestHash e <>s reqHash then rpc_error (-32009) "idempotency_conflict"
          else rpc_error (-32029) "operation_in_progress")
  else None.
Definition milliseconds (d : Z) : Z := Z.quot d 1000000.
Definition error_of {A} (r : result A) : string := match r with Ok _ => "" | Err e => e end.
(** The call itself: the handler, the outcome stored under the key, the audit row. *)
Definition execute (ctx : Ctx) (x : Sse) (asn : Z) (name : string) (args : json) (def : mcpToolDefinition)
    (idemKey : option MCPIdempotencyKey) (reqHash : string) : Q (json + jsonRPCErr) :=
  started ← mnow;
  r ← td_Handler def ctx (ss_keyID x) asn args reqHash;
  ended ← mnow;
  let data := match r with Ok d => Some d | Err _ => None end in
  (match idemKey with
   | None => mret tt
   | Some e =>
       _ ← CompleteIdempotency ctx (ik_ID e) (if is_ok r then "succeeded" else "failed") (inferResourceType name)
             (inferResourceID data) (jopt data_json data) "tool_failed" (error_of r);
       mret tt
   end) ;;
  writeAuditLogDetailed env (MkEntry (ss_sessionID x) asn "" (ss_keyID x) "" name (sanitizeArgs args) (td_Capability def)
    (td_Mode def) "" "" (non_empty (extractIdempotencyKey args)) reqHash (milliseconds (ended - started)) "" ""
    (is_ok r) (error_of r)) ;;
  mret (match r with Ok d => inl (mcpTextResult (data_json d)) | Err e => rpc_error (-32000) e end).
Definition asn_of (x : Sse) : Z := match ss_actor x with User asn => asn | Administrator _ => 0 end.
Definition handleToolsCall (ctx : Ctx) (x : Sse) (raw : option json) : Q (json + jsonRPCErr) :=
  match decode_call raw with
  | None => mret (rpc_error (-32602) "Invalid params")
  | Some (name, args) =>
      let asn := asn_of x in
      match findUserTool name with
      | None => mret (rpc_error (-32601) ("Unknown tool: " +:+ name))
      | Some def =>
          if negb (hasCapability (ss_capabilities x) (td_Capability def)) then
            writeAuditLog env (ss_sessionID x) asn "" name (sanitizeArgs args) false "forbidden" ;;
            mret (rpc_error (-32003) "forbidden")
          else
            '(idem, reqHash) ← prepareIdempotency ctx x asn name args def;
            match idem with
            | Err e =>
                writeAuditLog env (ss_sessionID x) asn "" name (sanitizeArgs args) false e ;; mret (rpc_error (-32602) e)
            | Ok idemKey =>
                match idemKey ≫= λ e, replay e reqHash with
                | Some answer => mret answer
                | None => execute ctx x asn name args def idemKey reqHash
                end
            end
      end
  end.

Definition user_server : Server := MkServer "AutoPeer MCP" handleToolsList handleToolsCall.
Definition HandleMessage (asn : Z) (sessionID : string) (body : option json) : Q HttpReply :=
  handle_message user_server (User asn) sessionID body.
End server.
