(* ===== verification/McpAdmin.v ===== *)
(** * The MCP server for administrators ([internal/handler/admin_mcp.go],
    [admin_mcp_tools.go])

    Tools that read.  Those on releases, the bot, statistics and notification
    settings call repositories that are not modelled: their handlers are a
    parameter of the server. *)
From S2P Require Import Prelude GoLib Json Model Peering Lock Cache Effects World Store Handler AdminPeer UserPeer Decode McpStore Mcp McpTools McpKeys McpUser Login.
From stdpp Require Import options.
Local Open Scope Z_scope.
Local Open Scope go_scope.

(** ** Nodes *)
Definition admin_node_json (n : Node) : json :=
  JObj [("id", JStr (node_ID n)); ("name", JStr (node_Name n)); ("location", JStr (node_Location n));
        ("public_ip", JStr (node_PublicIP n)); ("our_asn", JNum (node_OurASN n)); ("our_lla", JStr (node_OurLLA n));
        ("our_wg_pubkey", JStr (node_OurWgPubkey n)); ("online", JBool (node_Online n)); ("enabled", JBool (node_Enabled n));
        ("created_at", JTime (node_CreatedAt n))].
Definition adminToolNodesList (ctx : Ctx) : M (result Data) :=
  r ← Node_List ctx;
  mret (match r with Err e => wrapped "failed to query nodes" e | Ok l => Ok (DVal (JArr (map admin_node_json l))) end).
Definition count_status (status : string) (l : list Peer) : Z :=
  Z.of_nat (length (filter (λ p, peer_Status p = status) l)).
Definition node_stat (n : Node) (l : list Peer) : json :=
  JObj [("id", JStr (node_ID n)); ("name", JStr (node_Name n)); ("online", JBool (node_Online n));
        ("enabled", JBool (node_Enabled n)); ("active_peers", JNum (count_status "active" l));
        ("pending_peers", JNum (count_status "pending" l)); ("total_peers", JNum (Z.of_nat (length l)))].
(** A failing query counts no peers. *)
Definition adminToolNodesStats (ctx : Ctx) : M (result Data) :=
  r ← Node_List ctx;
  match r with
  | Err e => mret (wrapped "failed to query node stats" e)
  | Ok nodes =>
      stats ← foldM (λ acc n,
        l ← ListByNode ctx (node_ID n);
        mret (acc ++ [node_stat n (match l with Ok l => l | Err _ => [] end)])) [] nodes;
      mret (Ok (DVal (JArr stats)))
  end.

(** ** Peers *)
Definition adminToolPeersListAll (ctx : Ctx) (status : option string) (page perPage : Z) : M (result Data) :=
  r ← List_ ctx (MkListParams (default "" status) "" 0 page perPage);
  mret (match r with
        | Err e => wrapped "failed to query peers" e
        | Ok (l, _) => Ok (DVal (JArr (map (λ a, mcp_peer_item (ap_Peer a, ap_Node a)) l)))
        end).
Definition adminToolPeersListByASN (ctx : Ctx) (asn : Z) : M (result Data) :=
  if asn =? 0 then mret (Err "asn is required") else toolPeerList ctx asn.
Definition get_peer_and_node (ctx : Ctx) (id : string) (render : Peer → option Node → json) : M (result Data) :=
  if id =s "" then mret (Err "id is required")
  else
    r ← GetByID ctx id;
    match r with
    | Err _ => mret (Err "peer not found")
    | Ok p =>
        n ← Node_GetByID ctx (peer_NodeID p);
        mret (Ok (DVal (render p (match n with Ok n => Some n | Err _ => None end))))
    end.
Definition node_text (f : Node → string) (n : option Node) : json := JStr (match n with Some n => f n | None => "" end).
Definition admin_peer_detail (p : Peer) (n : option Node) : json :=
  JObj (mcp_peer_fields p ++ opt_field "mtu" JNum (peer_MTU p)
    ++ [("node_name", node_text node_Name n); ("node_location", node_text node_Location n);
        ("node_public_ip", node_text node_PublicIP n); ("node_our_lla", node_text node_OurLLA n);
        ("node_our_wg_pubkey", node_text node_OurWgPubkey n)]).
Definition adminToolPeerGet (ctx : Ctx) (id : string) : M (result Data) := get_peer_and_node ctx id admin_peer_detail.
Definition admin_peer_summary (p : Peer) (n : option Node) : json :=
  JObj ([("id", JStr (peer_ID p)); ("node_id", JStr (peer_NodeID p)); ("remote_asn", JNum (peer_RemoteASN p));
         ("wg_listen_port", JNum (peer_WgListenPort p)); ("wg_interface_name", JStr (peer_WgInterfaceName p));
         ("wg_managed", JBool (peer_WgManaged p)); ("status", JStr (peer_Status p))]
        ++ opt_field "reject_reason" JStr (peer_RejectReason p)
        ++ [("created_at", JTime (peer_CreatedAt p)); ("updated_at", JTime (peer_UpdatedAt p))]
        ++ opt_field "mtu" JNum (peer_MTU p)
        ++ [("node_name", node_text node_Name n); ("node_location", node_text node_Location n)]).
Definition adminToolPeerGetSummary (ctx : Ctx) (id : string) : M (result Data) := get_peer_and_node ctx id admin_peer_summary.
Definition adminToolPeerMetrics (ctx : Ctx) (id : string) (hours : Z) : M (result Data) :=
  if id =s "" then mret (Err "id is required")
  else
    r ← GetByID ctx id;
    match r with Err _ => mret (Err "peer not found") | Ok _ => metrics_of ctx id hours end.

(** ** Operators that have peers *)
Record userEntry : Type := MkUserEntry { ue_ASN : Z; ue_PeerCount : Z; ue_ActivePeers : Z; ue_FirstPeerAt : Z }.
Definition count_peer (p : Peer) (e : userEntry) : userEntry :=
  MkUserEntry (ue_ASN e) (ue_PeerCount e + 1) (ue_ActivePeers e + if peer_Status p =s "active" then 1 else 0)
    (Z.min (peer_CreatedAt p) (ue_FirstPeerAt e)).
(** Entries stay in the order in which their ASN was first seen. *)
Fixpoint add_peer (p : Peer) (l : list userEntry) : list userEntry :=
  match l with
  | [] => [count_peer p (MkUserEntry (peer_RemoteASN p) 0 0 (peer_CreatedAt p))]
  | e :: l' => if ue_ASN e =? peer_RemoteASN p then count_peer p e :: l' else e :: add_peer p l'
  end.
Definition user_entry_json (e : userEntry) : json :=
  JObj [("asn", JNum (ue_ASN e)); ("peer_count", JNum (ue_PeerCount e)); ("active_peers", JNum (ue_ActivePeers e));
        ("first_peer_at", JTime (ue_FirstPeerAt e))].
Definition adminToolUsersList (ctx : Ctx) : M (result Data) :=
  r ← List_ ctx (MkListParams "" "" 0 1 10000);
  mret (match r with
        | Err e => wrapped "failed to query users" e
        | Ok (l, _) => Ok (DVal (JArr (map user_entry_json (foldl (λ acc a, add_peer (ap_Peer a) acc) [] l))))
        end).

(** ** MCP keys, sessions, audit rows *)
Definition admin_key_json (k : MCPKey) : json :=
  JObj [("id", JStr (k_ID k)); ("asn", JNum (k_Owner k)); ("name", JStr (k_Name k)); ("key_prefix", JStr (k_KeyPrefix k));
        ("expires_at", jopt JTime (k_ExpiresAt k)); ("last_used_at", jopt JTime (k_LastUsedAt k));
        ("created_at", JTime (k_CreatedAt k))].
Definition adminToolMCPKeysList (ctx : Ctx) (asn : option Z) : Q (result Data) :=
  r ← ListAllUserKeys ctx (default 0 asn);
  mret (match r with Err e => wrapped "failed to query MCP keys" e | Ok l => Ok (DVal (JArr (map admin_key_json l))) end).
Definition session_json (x : MCPSession) : json :=
  JObj ([("id", JStr (ms_ID x))] ++ opt_field "asn" JNum (ms_ASN x) ++ opt_str_field "key_id" (ms_KeyID x)
    ++ [("is_admin", JBool (ms_IsAdmin x))] ++ opt_str_field "admin_key_id" (ms_AdminKeyID x)
    ++ [("connected_at", JTime (ms_ConnectedAt x))] ++ opt_field "disconnected_at" JTime (ms_DisconnectedAt x)
    ++ opt_field "last_ping_at" JTime (ms_LastPingAt x)).
Definition adminToolMCPSessionsList (ctx : Ctx) (limit : Z) : Q (result Data) :=
  r ← ListSessions ctx limit;
  mret (match r with Err e => wrapped "failed to query MCP sessions" e | Ok l => Ok (DVal (JArr (map session_json l))) end).
Definition adminToolAuditLogsList (ctx : Ctx) (asn : option Z) (tool : option string) (page perPage : Z) : Q (result Data) :=
  r ← ListAuditLogs ctx (MkAuditParams (default 0 asn) (default "" tool) page perPage);
  mret (match r with
        | Err e => wrapped "failed to query audit logs" e
        | Ok (l, _) => Ok (DMap [("logs", JArr (map short_audit_json l)); ("page", JNum page); ("per_page", JNum perPage)])
        end).
Definition GetAllSiteSettings (ctx : Ctx) : M (result (list (string * string))) :=
  query ctx (λ w, Ok (map_to_list (db_site (w_db w)))).
Definition adminToolSiteSettingsGet (ctx : Ctx) : M (result Data) :=
  r ← GetAllSiteSettings ctx;
  mret (match r with
        | Err e => wrapped "failed to query site settings" e
        | Ok l => Ok (DVal (JObj (as_map (map (λ kv, (kv.1, JStr kv.2)) l))))
        end).

(** ** The handlers of the tools *)
Definition AdminToolHandler : Type := Ctx → json → Q (result Data).
Definition normalizePage (page perPage : option Z) : Z * Z :=
  (match page with Some p => if 1 <=? p then p else 1 | None => 1 end,
   match perPage with Some p => if (1 <=? p) && (p <=? 100) then p else 50 | None => 50 end).
Definition handleAdminToolNodesList : AdminToolHandler := λ ctx _, inworld (adminToolNodesList ctx).
Definition handleAdminToolNodesStats : AdminToolHandler := λ ctx _, inworld (adminToolNodesStats ctx).
Definition handleAdminToolPeersListAll : AdminToolHandler := λ ctx raw,
  decodeStrict [("status", FOptString); ("page", FOptInt); ("per_page", FOptInt)] raw (λ a,
    let '(page, perPage) := normalizePage (opt_int "page" a) (opt_int "per_page" a) in
    inworld (adminToolPeersListAll ctx (opt_str "status" a) page perPage)).
Definition handleAdminToolPeersListByASN : AdminToolHandler := λ ctx raw,
  decodeStrict [("asn", FInt)] raw (λ a, inworld (adminToolPeersListByASN ctx (int_field "asn" a))).
Definition handleAdminToolPeerGet : AdminToolHandler := λ ctx raw,
  decodeStrict [("id", FString)] raw (λ a, inworld (adminToolPeerGetSummary ctx (str_field "id" a))).
Definition handleAdminToolPeerGetSensitive : AdminToolHandler := λ ctx raw,
  decodeStrict [("id", FString)] raw (λ a, inworld (adminToolPeerGet ctx (str_field "id" a))).
Definition handleAdminToolPeerMetrics : AdminToolHandler := λ ctx raw,
  decodeStrict [("id", FString); ("hours", FOptInt)] raw (λ a,
    match hours_of a with
    | Err e => mret (Err e)
    | Ok h => inworld (adminToolPeerMetrics ctx (str_field "id" a) h)
    end).
Definition handleAdminToolUsersList : AdminToolHandler := λ ctx _, inworld (adminToolUsersList ctx).
Definition handleAdminToolMCPKeysList : AdminToolHandler := λ ctx raw,
  decodeStrict [("asn", FOptInt)] raw (λ a, adminToolMCPKeysList ctx (opt_int "asn" a)).
Definition handleAdminToolMCPSessionsList : AdminToolHandler := λ ctx raw,
  decodeStrict [("limit", FOptInt)] raw (λ a, adminToolMCPSessionsList ctx (limit_of a)).
Definition handleAdminToolAuditLogsList : AdminToolHandler := λ ctx raw,
  decodeStrict [("asn", FOptInt); ("tool", FOptString); ("page", FOptInt); ("per_page", FOptInt)] raw (λ a,
    let '(page, perPage) := normalizePage (opt_int "page" a) (opt_int "per_page" a) in
    adminToolAuditLogsList ctx (opt_int "asn" a) (opt_str "tool" a) page perPage).
Definition handleAdminToolSiteSettingsGet : AdminToolHandler := λ ctx _, inworld (adminToolSiteSettingsGet ctx).

(** ** The tools *)
Record adminMCPToolDefinition : Type := MkAdminTool {
  at_Name : string;
  at_Description : string;
  at_InputSchema : json;
  at_Capability : string;
  at_Handler : AdminToolHandler
}.
Definition adminReadTool (name description capability : string) (s : json) (h : AdminToolHandler) : adminMCPToolDefinition :=
  MkAdminTool name description s capability h.
Definition integer : json := property "integer" "".
Definition text_property : json := property "string" "".

Section server.
Context `{Digest} `{JsonText} (env : McpEnv) (others : string → AdminToolHandler).

Definition adminToolDefinitions : list adminMCPToolDefinition :=
  [adminReadTool "nodes_list" "List all BGP peering nodes." "admin:read:topology" emptySchema handleAdminToolNodesList;
   adminReadTool "nodes_stats" "Get aggregated node statistics." "admin:read:topology" emptySchema handleAdminToolNodesStats;
   adminReadTool "peers_list_all" "List all peers across all ASNs with optional status filter." "admin:read:peers"
     (schema [("status", property "string" "Filter by status"); ("page", integer); ("per_page", integer)] []) handleAdminToolPeersListAll;
   adminReadTool "peers_list_by_asn" "List all peers for a specific ASN." "admin:read:peers"
     (schema [("asn", integer)] ["asn"]) handleAdminToolPeersListByASN;
   adminReadTool "peer_get" "Get details of a single peer by ID." "admin:read:peers" peerIDSchema handleAdminToolPeerGet;
   adminReadTool "peer_get_sensitive"
     "Get sensitive details of a single peer by ID, including endpoint, email, public keys, and node addresses."
     "admin:read:sensitive" peerIDSchema handleAdminToolPeerGetSensitive;
   adminReadTool "peer_metrics" "Get time-series metrics for any peer." "admin:read:metrics"
     (schema [("id", text_property); ("hours", integer)] ["id"]) handleAdminToolPeerMetrics;
   adminReadTool "users_list" "List all ASNs that have at least one peer on the platform." "admin:read:peers" emptySchema
     handleAdminToolUsersList;
   adminReadTool "mcp_keys_list" "List all user MCP keys metadata." "admin:read:mcp_keys" (schema [("asn", integer)] [])
     handleAdminToolMCPKeysList;
   adminReadTool "mcp_sessions_list" "List recent MCP sessions." "admin:read:mcp_keys" (schema [("limit", integer)] [])
     handleAdminToolMCPSessionsList;
   adminReadTool "audit_logs_list" "List MCP audit logs with optional filters." "admin:read:audit"
     (schema [("asn", integer); ("tool", text_property); ("page", integer); ("per_page", integer)] []) handleAdminToolAuditLogsList;
   adminReadTool "site_settings_get" "Get all current site settings." "admin:read:settings" emptySchema handleAdminToolSiteSettingsGet;
   adminReadTool "notification_settings_get" "Get notification settings." "admin:read:settings" emptySchema
     (others "notification_settings_get");
   adminReadTool "releases_list" "List agent releases." "admin:read:system" emptySchema (others "releases_list");
   adminReadTool "bot_settings_get" "Get Telegram bot settings metadata." "admin:read:settings" emptySchema (others "bot_settings_get");
   adminReadTool "bot_stats_get" "Get Telegram bot command statistics." "admin:read:system" emptySchema (others "bot_stats_get");
   adminReadTool "bot_blocked_list" "List Telegram bot blocked users." "admin:read:system" emptySchema (others "bot_blocked_list");
   adminReadTool "system_stats_get" "Get administrator system statistics." "admin:read:system" emptySchema (others "system_stats_get")].

Definition handleAdminToolsList (capabilities : list string) : json :=
  JObj [("tools", JArr (map (λ d, tool_json (at_Name d) (at_Description d) (at_InputSchema d))
    (filter (λ d, hasCapability capabilities (at_Capability d) = true) adminToolDefinitions)))].
Definition findAdminTool (name : string) : option adminMCPToolDefinition :=
  head (filter (λ d, at_Name d = name) adminToolDefinitions).
Definition admin_of (x : Sse) : string := match ss_actor x with User _ => "" | Administrator id => id end.
Definition handleAdminToolsCall (ctx : Ctx) (x : Sse) (raw : option json) : Q (json + jsonRPCErr) :=
  match decode_call raw with
  | None => mret (rpc_error (-32602) "Invalid params")
  | Some (name, args) =>
      match findAdminTool name with
      | None => mret (rpc_error (-32601) ("Unknown tool: " +:+ name))
      | Some def =>
          if negb (hasCapability (ss_capabilities x) (at_Capability def)) then
            writeAuditLog env (ss_sessionID x) 0 (admin_of x) name (sanitizeArgs args) false "forbidden" ;;
            mret (rpc_error (-32003) "forbidden")
          else
            started ← mnow;
            r ← at_Handler def ctx args;
            ended ← mnow;
            writeAuditLogDetailed env (MkEntry (ss_sessionID x) 0 (admin_of x) "" (ss_keyID x) name (sanitizeArgs args)
              (at_Capability def) mcpModeRead "" "" None "" (milliseconds (ended - started)) "" "" (is_ok r) (error_of r)) ;;
            mret (match r with Ok d => inl (mcpTextResult (data_json d)) | Err e => rpc_error (-32000) e end)
      end
  end.
Definition admin_server : Server := MkServer "AutoPeer Admin MCP" handleAdminToolsList handleAdminToolsCall.
Definition AdminHandleMessage (adminID sessionID : string) (body : option json) : Q HttpReply :=
  handle_message admin_server (Administrator adminID) sessionID body.
End server.
