(* ===== verification/Assistant.v ===== *)
(** * Tool calls of the assistant ([internal/handler/assistant.go])

    The assistant calls reading tools for a signed-in operator, each call under
    an approval: a token signed for one operator, tool, conversation and
    arguments, with a nonce the process remembers for two minutes. *)
From S2P Require Import Prelude GoLib Base64 Json Model Lock Cache Effects World Store Handler UserPeer Decode McpStore Mcp McpTools McpKeys McpUser Login.
From stdpp Require Import options.
Local Open Scope Z_scope.
Local Open Scope go_scope.

(** ** Requests *)
Definition assistantReadOnlyTools : list string :=
  ["nodes_list"; "peer_creation_status"; "peer_list"; "peer_summary"; "peer_get"; "peer_get_metrics"].
Record AssistantToolCallRequest : Type := MkAssistantReq {
  ar_ToolName : string;
  ar_Arguments : json;
  ar_ConversationID : string;
  ar_ApprovalToken : string
}.
(** Absent arguments are an empty object. *)
Definition decode_assistant (body : option json) : option AssistantToolCallRequest :=
  v ← body;
  a ← decode false [("tool_name", FString); ("arguments", FAny); ("conversation_id", FString); ("approval_token", FString)] v;
  Some (MkAssistantReq (str_field "tool_name" a) (default (JObj []) (raw_field "arguments" a))
          (str_field "conversation_id" a) (str_field "approval_token" a)).

Record assistantApprovalPayload : Type := MkApproval {
  ap_ASN : Z;
  ap_ConversationID : string;
  ap_ToolName : string;
  ap_Arguments : option json;
  ap_ExpiresAt : Z;
  ap_Nonce : string
}.
Definition payload_json (p : assistantApprovalPayload) : json :=
  JObj [("asn", JNum (ap_ASN p)); ("conversation_id", JStr (ap_ConversationID p)); ("tool_name", JStr (ap_ToolName p));
        ("arguments", default JNull (ap_Arguments p)); ("expires_at", JNum (ap_ExpiresAt p)); ("nonce", JStr (ap_Nonce p))].
Definition payload_fields : fields :=
  [("asn", FInt); ("conversation_id", FString); ("tool_name", FString); ("arguments", FAny); ("expires_at", FInt);
   ("nonce", FString)].
Definition decode_payload (v : json) : option assistantApprovalPayload :=
  a ← decode false payload_fields v;
  Some (MkApproval (int_field "asn" a) (str_field "conversation_id" a) (str_field "tool_name" a) (raw_field "arguments" a)
          (int_field "expires_at" a) (str_field "nonce" a)).

(** An error with a code of its own, or another. *)
Inductive toolError : Type := AssistantError (code message : string) | OtherError (message : string).
Definition tool_error_text (e : toolError) : string := match e with AssistantError _ m | OtherError m => m end.
Definition invalid_arguments : toolError := AssistantError "invalid_arguments" "Invalid tool arguments".
Definition decodeAssistantArgs (fs : fields) (raw : json) : toolError + obj :=
  match decode true fs raw with Some a => inr a | None => inl invalid_arguments end.
Definition metric_args : fields := [("id", FString); ("hours", FOptInt)].
Definition validateAssistantToolArgs (name : string) (raw : json) : option toolError :=
  let id_required := Some (AssistantError "id_required" "Peer id is required") in
  if bool_decide (name ∈ ["nodes_list"; "peer_creation_status"; "peer_list"; "peer_summary"]) then
    match decodeAssistantArgs [] raw with inl e => Some e | inr _ => None end
  else if name =s "peer_get" then
    match decodeAssistantArgs [("id", FString)] raw with
    | inl e => Some e
    | inr a => if str_field "id" a =s "" then id_required else None
    end
  else if name =s "peer_get_metrics" then
    match decodeAssistantArgs metric_args raw with
    | inl e => Some e
    | inr a =>
        if str_field "id" a =s "" then id_required
        else match opt_int "hours" a with
             | Some h => if (h <? 1) || (720 <? h)
                         then Some (AssistantError "hours_out_of_range" "hours must be between 1 and 720") else None
             | None => None
             end
    end
  else Some (AssistantError "unknown_tool" "Unknown tool").
(** A value that does not decode is kept as it is. *)
Definition compactJSON (raw : json) : json := if any_ok raw then any_of raw else raw.

Definition tool_result (r : result Data) : toolError + Data := match r with Ok d => inr d | Err e => inl (OtherError e) end.
Definition from_tool (p : M (result Data)) : M (toolError + Data) := r ← p; mret (tool_result r).
Definition callAssistantReadOnlyTool (ctx : Ctx) (asn : Z) (name : string) (raw : json) : M (toolError + Data) :=
  if name =s "nodes_list" then from_tool (toolNodesList ctx)
  else if name =s "peer_creation_status" then from_tool (toolPeerCreationStatus ctx)
  else if name =s "peer_list" then from_tool (toolPeerList ctx asn)
  else if name =s "peer_summary" then from_tool (toolPeerSummary ctx asn)
  else if name =s "peer_get" then
    match decodeAssistantArgs [("id", FString)] raw with
    | inl e => mret (inl e)
    | inr a => from_tool (toolPeerGet ctx asn (str_field "id" a))
    end
  else if name =s "peer_get_metrics" then
    match decodeAssistantArgs metric_args raw with
    | inl e => mret (inl e)
    | inr a => from_tool (toolPeerGetMetrics ctx asn (str_field "id" a) (default 24 (opt_int "hours" a)))
    end
  else mret (inl (OtherError ("unknown tool: " +:+ name))).

Section approvals.
Set Default Proof Using "Type*".
Context `{Digest} `{JsonText} (env : McpEnv).

(** ** Approval tokens *)
Definition approvalSecret : list ascii :=
  match mc_JWTSecret env with
  | None => bytes "autopeer-assistant-approval-unconfigured"
  | Some secret =>
      if secret =s "" then bytes "autopeer-assistant-approval-unconfigured"
      else mac_sha256 (bytes secret) (bytes "assistant-approval-v1")
  end.
Definition signAssistantApproval (p : assistantApprovalPayload) : string :=
  let b := json_text (payload_json p) in
  EncodeRawURL b +:+ "." +:+ EncodeRawURL (mac_sha256 approvalSecret b).
(** What the token approves, with a valid signature. *)
Definition signed_approval (token : string) : result assistantApprovalPayload :=
  match Split token "." with
  | [p; s] =>
      match DecodeRawURL p, DecodeRawURL s with
      | Some payloadBytes, Some sig =>
          if bool_decide (sig = mac_sha256 approvalSecret payloadBytes) then
            match json_parse payloadBytes ≫= decode_payload with
            | None => Err "invalid approval token"
            | Some payload => Ok payload
            end
          else Err "invalid approval token"
      | _, _ => Err "invalid approval token"
      end
  | _ => Err "approval token is required"
  end.
Definition verifyAssistantApproval (now : Z) (token : string) : result assistantApprovalPayload :=
  match signed_approval token with
  | Err e => Err e
  | Ok payload => if ap_ExpiresAt payload <? unix now then Err "approval token has expired" else Ok payload
  end.
Definition raw_text (raw : option json) : list ascii := match raw with Some j => json_text j | None => [] end.

(** ** The pages *)
Definition assistant_unauthorized : Response := ErrorJSON StatusUnauthorized "unauthorized" "User authentication is required".
Definition store_approval (nonce : string) (expiresAt : Z) : Q unit :=
  act (λ s, (tt, set_approvals (<[nonce := expiresAt]> (m_approvals s)) s)).
Definition HandleAssistantToolApproval (asn : Z) (body : option json) : Q Response :=
  if asn =? 0 then mret assistant_unauthorized
  else
    match decode_assistant body with
    | None => mret (bad_request "invalid_body" "Invalid request body")
    | Some req =>
        if negb (bool_decide (ar_ToolName req ∈ assistantReadOnlyTools))
        then mret (ErrorJSON StatusForbidden "tool_not_allowed" "This assistant can only request approved read-only tools")
        else
          match validateAssistantToolArgs (ar_ToolName req) (ar_Arguments req) with
          | Some e => mret (bad_request "invalid_arguments" (tool_error_text e))
          | None =>
              conv ← (if ar_ConversationID req =s "" then u ← NewUUID; mret ("assistant-" +:+ u)
                      else mret (ar_ConversationID req));
              now ← mnow;
              nonce ← NewUUID;
              let payload := MkApproval asn conv (ar_ToolName req) (Some (compactJSON (ar_Arguments req)))
                               (unix (now + 2 * Minute)) nonce in
              store_approval nonce (ap_ExpiresAt payload) ;;
              mret (JSON StatusCreated (JObj [("approval_token", JStr (signAssistantApproval payload));
                                              ("expires_at", JNum (ap_ExpiresAt payload))]))
          end
    end.
(** [LoadAndDelete] is one step; the clock is read after it. *)
Definition take_approval (nonce : string) : Q (option Z) :=
  act (λ s, (m_approvals s !! nonce, set_approvals (delete nonce (m_approvals s)) s)).
Definition consumeAssistantApproval (nonce : string) : Q bool :=
  if nonce =s "" then mret false
  else
    r ← take_approval nonce;
    match r with
    | None => mret false
    | Some expiresAt => now ← mnow; mret (unix now <=? expiresAt)
    end.
Definition cleanupAssistantApprovals : Q unit :=
  now ← mnow;
  act (λ s, (tt, set_approvals (filter (λ ne, unix now ≤ ne.2) (m_approvals s)) s)).

Definition matches_call (asn : Z) (req : AssistantToolCallRequest) (p : assistantApprovalPayload) : bool :=
  (ap_ASN p =? asn) && (ap_ToolName p =s ar_ToolName req) && (ap_ConversationID p =s ar_ConversationID req)
  && bool_decide (raw_text (ap_Arguments p) = json_text (compactJSON (ar_Arguments req))).
(** The call itself, once its approval is spent. *)
Definition assistant_call (ctx : Ctx) (asn : Z) (req : AssistantToolCallRequest) : Q Response :=
  r ← inworld (callAssistantReadOnlyTool ctx asn (ar_ToolName req) (ar_Arguments req));
  sessionID ← (if ar_ConversationID req =s "" then u ← NewUUID; mret ("assistant-" +:+ u) else mret (ar_ConversationID req));
  writeAuditLog env sessionID asn "" ("assistant." +:+ ar_ToolName req) (sanitizeArgs (ar_Arguments req))
    (match r with inr _ => true | inl _ => false end) (match r with inl e => tool_error_text e | inr _ => "" end) ;;
  mret (match r with
        | inl (AssistantError code msg) => bad_request code msg
        | inl (OtherError _) => ErrorJSON StatusUnprocessableEntity "tool_failed" "Assistant tool call failed"
        | inr d => JSON StatusOK (JObj [("conversation_id", JStr sessionID); ("result", data_json d);
                                        ("tool_name", JStr (ar_ToolName req))])
        end).
Definition HandleAssistantToolCall (ctx : Ctx) (asn : Z) (body : option json) : Q Response :=
  if asn =? 0 then mret assistant_unauthorized
  else
    match decode_assistant body with
    | None => mret (bad_request "invalid_body" "Invalid request body")
    | Some req =>
        if ar_ToolName req =s "" then mret (bad_request "tool_required" "tool_name is required")
        else if negb (bool_decide (ar_ToolName req ∈ assistantReadOnlyTools))
        then mret (ErrorJSON StatusForbidden "tool_not_allowed" "This assistant can only call approved read-only tools")
        else
          match validateAssistantToolArgs (ar_ToolName req) (ar_Arguments req) with
          | Some e => mret (bad_request "invalid_arguments" (tool_error_text e))
          | None =>
              now ← mnow;
              match verifyAssistantApproval now (ar_ApprovalToken req) with
              | Err _ => mret (ErrorJSON StatusForbidden "approval_invalid" "Approval token is invalid or expired")
              | Ok approval =>
                  if negb (matches_call asn req approval)
                  then mret (ErrorJSON StatusForbidden "approval_mismatch" "Approval token does not match this tool call")
                  else
                    ok ← consumeAssistantApproval (ap_Nonce approval);
                    if negb ok then mret (ErrorJSON StatusForbidden "approval_reused" "Approval token has already been used")
                    else assistant_call ctx asn req
              end
          end
    end.
End approvals.
