(* ===== verification/Lifecycle.v ===== *)
(** * The lifecycle of a peer and its agent

    What the database says about a peer and what the peer's agent was told,
    after each operation that changes either. *)
From S2P Require Import Prelude GoLib Json Model Lock Cache Effects World Store Rely Handler Wp Scenario AdminPeer UserPeer.
From stdpp Require Import options.
Local Open Scope Z_scope.
Local Open Scope go_scope.

(** ** Keeping track during a request *)
Definition accepted (e : event) : Prop :=
  match e with
  | EvCmd _ _ (Answered m) => refused m = false
  | EvCmd _ _ (NoAnswer _) => False
  | _ => True
  end.
Definition new_events (w0 w : World) : list event := drop (length (w_log w0)) (w_log w).

(** [tracks w0 id m d w]: since [w0] the log only grew, the rows are [m], and
    the agents were last told [d] about the peer. *)
Record tracks (w0 : World) (id : string) (m : gmap string Peer) (d : string → option PeerAddPayload) (w : World)
  : Prop := {
  tr_log : w_log w0 `prefix_of` w_log w;
  tr_peers : w_peers w = m;
  tr_view : ∀ node, agent_view (w_log w) node id = Configured (d node)
}.

(** A command since [w0] was refused or not answered. *)
Definition spoiled (w0 w : World) : Prop :=
  w_log w0 `prefix_of` w_log w ∧ ¬ Forall accepted (new_events w0 w).

(** The goal of an operation: in sync if it reports success, or if the agents
    accepted everything they were sent. *)
Definition settles (w0 : World) (id : string) (ok : bool) (w : World) : Prop :=
  w_log w0 `prefix_of` w_log w
  ∧ (ok = true ∨ Forall accepted (new_events w0 w) → in_sync w id).

Lemma new_events_app w0 w w' evs :
  w_log w0 `prefix_of` w_log w → w_log w' = w_log w ++ evs → new_events w0 w' = new_events w0 w ++ evs.
Proof.
  intros [k Hk] Hl. unfold new_events. rewrite Hl, drop_app_le; [done|].
  rewrite Hk, length_app. lia.
Qed.

Lemma prefix_grow {A} (l l' evs : list A) : l `prefix_of` l' → l `prefix_of` l' ++ evs.
Proof. apply prefix_app_r. Qed.

Lemma tracks_start w id : in_sync w id → tracks w id (w_peers w) (λ node, desired (w_peers w) node id) w.
Proof. intros H. by split. Qed.

Lemma tracks_calm w0 id m d w w' : calm w w' → tracks w0 id m d w → tracks w0 id m d w'.
Proof.
  intros Hc [L P V]. split.
  - destruct (calm_log _ _ Hc) as (evs & -> & _). by apply prefix_grow.
  - by rewrite (calm_peers _ _ Hc).
  - intros node. by rewrite (calm_view _ _ node id Hc).
Qed.

Lemma spoiled_grow w0 w w' evs : w_log w' = w_log w ++ evs → spoiled w0 w → spoiled w0 w'.
Proof.
  intros Hl [Hp Hn]. split; [rewrite Hl; by apply prefix_grow|].
  rewrite (new_events_app w0 w w' evs) by done. rewrite Forall_app. naive_solver.
Qed.

Lemma spoiled_calm w0 w w' : calm w w' → spoiled w0 w → spoiled w0 w'.
Proof. intros [_ _ _ (evs & Hl & _) _]. by apply spoiled_grow with evs. Qed.

Lemma spoiled_settles w0 id w : spoiled w0 w → settles w0 id false w.
Proof. intros [Hp Hn]. split; [done|]. intros [?|?]; done. Qed.

Lemma settles_any w0 id ok w : settles w0 id true w → settles w0 id ok w.
Proof. intros [Hp Hs]. split; [done|]. intros _. apply Hs. by left. Qed.

Lemma settles_calm w0 id ok w w' : calm w w' → settles w0 id ok w → settles w0 id ok w'.
Proof.
  intros Hc [Hp Hs]. destruct (calm_log _ _ Hc) as (evs & Hl & _).
  split; [rewrite Hl; by apply prefix_grow|].
  rewrite (new_events_app w0 w w' evs) by done. rewrite Forall_app.
  intros H. apply (calm_sync w w' id Hc), Hs. naive_solver.
Qed.

Lemma tracks_settles w0 id m d ok w :
  tracks w0 id m d w → (∀ node, d node = desired m node id) → settles w0 id ok w.
Proof.
  intros [L P V] Hd. split; [done|]. intros _ node. by rewrite V, Hd, P.
Qed.

(** *** Commands *)
Definition set_at (n : string) (v : option PeerAddPayload) (d : string → option PeerAddPayload)
    (node : string) : option PeerAddPayload := if bool_decide (node = n) then v else d node.

Lemma tracks_add w0 id m d w w' n pl msg :
  pa_PeerID pl = id → refused msg = false → sends n (TypePeerAdd pl) (Answered msg) w w' →
  tracks w0 id m d w → tracks w0 id m (set_at n (Some pl) d) w'.
Proof.
  intros Hid Hr (Hp & _ & _ & _ & Hl) [L P V]. split; [rewrite Hl; by apply prefix_grow|congruence|].
  intros node. rewrite Hl, agent_view_app, V. simpl. rewrite Hr. unfold set_at.
  repeat case_bool_decide; naive_solver.
Qed.

Lemma tracks_remove w0 id m d w w' n asn msg :
  refused msg = false → sends n (TypePeerRemove id asn) (Answered msg) w w' →
  tracks w0 id m d w → tracks w0 id m (set_at n None d) w'.
Proof.
  intros Hr (Hp & _ & _ & _ & Hl) [L P V]. split; [rewrite Hl; by apply prefix_grow|congruence|].
  intros node. rewrite Hl, agent_view_app, V. simpl. rewrite Hr. unfold set_at.
  repeat case_bool_decide; naive_solver.
Qed.

Lemma spoiled_cmd w0 w w' n c a :
  w_log w0 `prefix_of` w_log w → sends n c a w w' → ¬ accepted (EvCmd n c a) → spoiled w0 w'.
Proof.
  intros Hp (_ & _ & _ & _ & Hl) Ha. split; [rewrite Hl; by apply prefix_grow|].
  rewrite (new_events_app w0 w w' [EvCmd n c a]) by done. rewrite Forall_app, Forall_singleton. naive_solver.
Qed.

Lemma spoiled_sends w0 w w' n c a : sends n c a w w' → spoiled w0 w → spoiled w0 w'.
Proof. intros (_ & _ & _ & _ & Hl). by apply spoiled_grow with [EvCmd n c a]. Qed.

(** *** Rules for commands and updates *)

(** A first command: not sent, spoiled, or accepted. *)
Lemma wp_command n c Q w0 w :
  w_log w0 `prefix_of` w_log w →
  (∀ e, Q (NoAnswer e) w) →
  (∀ a w', spoiled w0 w' → match a with Answered m => refused m = true | NoAnswer _ => True end → Q a w') →
  (∀ m w', refused m = false → sends n c (Answered m) w w' → Q (Answered m) w') →
  wp (SendCommand n c) Q w.
Proof.
  intros Hp Hn Hs Ha. apply wp_SendCommand; [intros e _; apply Hn|]. intros [e|m] w' Hsend.
  - apply Hs; [|done]. apply (spoiled_cmd w0 w w' n c (NoAnswer e)); [done..|by intros []].
  - destruct (refused m) eqn:E; [apply Hs; [|done]; apply (spoiled_cmd w0 w w' n c (Answered m)); [done..|]; simpl; congruence|].
    by apply Ha.
Qed.

(** A rollback command, whose answer does not change the outcome. *)
Lemma wp_rollback n c w0 (Q : Answer → World → Prop) w :
  w_log w0 `prefix_of` w_log w → n ∈ w_conns w →
  (∀ a w', spoiled w0 w' → Q a w') →
  (∀ m w', refused m = false → sends n c (Answered m) w w' → Q (Answered m) w') →
  wp (SendCommand n c) Q w.
Proof.
  intros Hp Hin Hs Ha. apply wp_SendCommand; [done|]. intros [e|m] w' Hsend.
  - apply Hs. apply (spoiled_cmd w0 w w' n c (NoAnswer e)); [done..|by intros []].
  - destruct (refused m) eqn:E; [apply Hs; apply (spoiled_cmd w0 w w' n c (Answered m)); [done..|]; simpl; congruence|]. by apply Ha.
Qed.

Lemma wp_update_row ctx id cs Q w :
  (∀ e w', calm w w' → Q (Some e) w') →
  (∀ w' w'', calm w w' → w_peers w !! id = None → w'' = w' → Q None w'') →
  (∀ w' w'' p now, calm w w' → w_peers w !! id = Some p → w_log w'' = w_log w' →
     w_conns w'' = w_conns w' → w_nodes w'' = w_nodes w' →
     w_peers w'' = <[id := assign_all (set_UpdatedAt now :: map (sql_column now) cs) p]> (w_peers w) → Q None w'') →
  wp (UpdateFields ctx id cs) Q w.
Proof.
  intros He Hn Ho. apply wp_stmt; [done|]. intros w' Hc. unfold update_row.
  rewrite (calm_peers _ _ Hc). destruct (w_peers w !! id) as [p|] eqn:Hp; [|by eapply Hn].
  destruct (violation _ _ _); [by apply He|]. simpl. by eapply (Ho w' _ p (w_now w')).
Qed.

(** *** Rows after a status change *)
Definition status_row (now : Z) (st : string) (opts : list column) (p : Peer) : Peer :=
  assign_all (set_UpdatedAt now :: map (sql_column now) (set_Status st :: opts)) p.

(** Options of [UpdateStatus] set the reject reason only. *)
Definition reason_only (opts : list column) : Prop :=
  opts = [] ∨ ∃ r, opts = [WithRejectReason r].

Lemma status_row_fields now st opts p :
  reason_only opts → st ≠ "now()" →
  peer_NodeID (status_row now st opts p) = peer_NodeID p
  ∧ peer_Status (status_row now st opts p) = st
  ∧ ∀ id, payload_of id (status_row now st opts p) = payload_of id p.
Proof.
  intros Ho Hst. unfold status_row. destruct Ho as [->|[r ->]]; destruct p; cbn; unfold now_or;
    rewrite (bool_decide_eq_false_2 (st = "now()")) by done; done.
Qed.

Lemma desired_insert m node id p :
  desired (<[id := p]> m) node id
  = if bool_decide (peer_NodeID p = node ∧ peer_Status p = "active") then Some (payload_of id p) else None.
Proof. unfold desired. by rewrite lookup_insert_eq. Qed.

Lemma desired_lookup m node id p :
  m !! id = Some p →
  desired m node id
  = if bool_decide (peer_NodeID p = node ∧ peer_Status p = "active") then Some (payload_of id p) else None.
Proof. unfold desired. by intros ->. Qed.

(** The status of a row and what its agent was told settle together. *)
Lemma settles_status w0 id p now st opts ok w w' :
  reason_only opts → st ≠ "now()" → w_peers w0 !! id = Some p →
  tracks w0 id (w_peers w0) (set_at (peer_NodeID p) (if st =s "active" then Some (payload_of id p) else None)
                              (λ node, desired (w_peers w0) node id)) w →
  w_log w' = w_log w → w_peers w' = <[id := status_row now st opts p]> (w_peers w0) →
  settles w0 id ok w'.
Proof.
  intros Ho Hst Hp [L P V] Hl Hw. destruct (status_row_fields now st opts p Ho Hst) as (E1 & E2 & E3).
  split; [by rewrite Hl|]. intros _ node. rewrite Hl, V, Hw, desired_insert, E1, E2, E3. f_equal.
  unfold set_at. rewrite (desired_lookup _ node id p Hp). repeat case_bool_decide; naive_solver.
Qed.

(** Undoing a command restores what was told before. *)
Lemma tracks_restore w0 id n v d w :
  tracks w0 id (w_peers w0) (set_at n (desired (w_peers w0) n id) (set_at n v d)) w →
  (∀ node, d node = desired (w_peers w0) node id) →
  settles w0 id false w.
Proof.
  intros Ht Hd. eapply tracks_settles; [exact Ht|]. intros node. unfold set_at.
  repeat case_bool_decide; subst; naive_solver.
Qed.

Lemma tracks_unchanged w0 id ok w :
  tracks w0 id (w_peers w0) (λ node, desired (w_peers w0) node id) w → settles w0 id ok w.
Proof. intros Ht. by eapply tracks_settles. Qed.

(** ** Turning a peer on or off *)
Definition switch_cmd (on : bool) (id : string) (p : Peer) : Cmd :=
  if on then TypePeerAdd (payload_of id p) else TypePeerRemove id (peer_RemoteASN p).

Lemma tracks_switch w0 id m d w w' on p msg :
  refused msg = false → sends (peer_NodeID p) (switch_cmd on id p) (Answered msg) w w' →
  tracks w0 id m d w →
  tracks w0 id m (set_at (peer_NodeID p) (if on then Some (payload_of id p) else None) d) w'.
Proof.
  destruct on; simpl; intros Hr Hs Ht; [|by eapply tracks_remove].
  eapply tracks_add; [|exact Hr|exact Hs|exact Ht]. done.
Qed.

(** The common shape of approval, suspension and unsuspension: the command,
    the status, and the opposite command when the status cannot be stored. *)
Lemma wp_switch {A} (ok : A → bool) (on : bool) id p ctx st kN kR kF (kS : M A) w0 w :
  w_peers w0 !! id = Some p →
  (peer_Status p =s "active") = negb on → (st =s "active") = on → st ≠ "now()" →
  tracks w0 id (w_peers w0) (λ node, desired (w_peers w0) node id) w →
  (∀ e, Calmly (λ r, ok r = false) (kN e)) → (∀ m, Calmly (λ r, ok r = false) (kR m)) →
  (∀ e a, Calmly (λ r, ok r = false) (kF e a)) → Calm kS →
  wp (a ← SendCommand (peer_NodeID p) (switch_cmd on id p);
      match a with
      | NoAnswer e => kN e
      | Answered m =>
          if refused m then kR m
          else u ← UpdateStatus ctx id st [];
               match u with
               | Some e => rb ← SendCommand (peer_NodeID p) (switch_cmd (negb on) id p); kF e rb
               | None => kS
               end
      end) (λ r, settles w0 id (ok r)) w.
Proof.
  intros Hp Hon Hst Hnow Ht HN HR HF HS. apply wp_bind, (wp_command _ _ _ w0); [apply Ht|..].
  { intros e. eapply wp_calmly; [apply HN|]. intros r w' Hc ->.
    by eapply settles_calm, tracks_unchanged. }
  { intros a w2 Hs Hm. destruct a as [e|m]; [|rewrite Hm];
      (eapply wp_calmly; [first [apply HN|apply HR]|]); intros r w' Hc ->;
      by eapply settles_calm, spoiled_settles. }
  intros m w2 Hm Hsend. rewrite Hm. pose proof Hsend as (_ & _ & Hcn & Hin & _).
  eapply tracks_switch in Hsend; [|done|exact Ht].
  pose proof (tr_peers _ _ _ _ _ Hsend) as Hrows. apply wp_bind, wp_update_row.
  - intros e w3 Hc3. eapply tracks_calm in Hsend; [|exact Hc3].
    apply wp_bind, (wp_rollback _ _ w0); [apply Hsend|by rewrite (calm_conns _ _ Hc3), Hcn|..].
    + intros a w4 Hs. eapply wp_calmly; [apply HF|]. intros r w5 Hc ->. by eapply settles_calm, spoiled_settles.
    + intros m' w4 Hm' Hsend'. eapply tracks_switch in Hsend'; [|done|exact Hsend].
      eapply wp_calmly; [apply HF|]. intros r w5 Hc ->. eapply settles_calm; [exact Hc|].
      eapply (tracks_restore w0 id (peer_NodeID p) (if on then Some (payload_of id p) else None)); [|done]. rewrite (desired_lookup _ (peer_NodeID p) _ _ Hp).
      assert (bool_decide (peer_NodeID p = peer_NodeID p ∧ peer_Status p = "active") = negb on) as ->.
      { rewrite <-Hon. apply bool_decide_ext. tauto. }
      destruct on; exact Hsend'.
  - intros w3 w4 _ Hq. by rewrite Hrows, Hp in Hq.
  - rewrite Hrows, Hp. intros w3 w4 q now Hc3 [= <-] Hl _ _ Hw. eapply tracks_calm in Hsend; [|exact Hc3].
    eapply wp_calm; [exact HS|]. intros r w5 Hc. eapply settles_calm; [exact Hc|].
    eapply (settles_status w0 id p now st [] _ w3); [by left|done..| |done|done]. by rewrite Hst.
Qed.

(** Reading a row first. *)
Lemma wp_get {A} ctx id w0 d w (g : result Peer → M A) Q :
  tracks w0 id (w_peers w0) d w →
  (∀ e w', tracks w0 id (w_peers w0) d w' → wp (g (Err e)) Q w') →
  (∀ p w', w_peers w0 !! id = Some p → tracks w0 id (w_peers w0) d w' → wp (g (Ok p)) Q w') →
  wp (GetByID ctx id ≫= g) Q w.
Proof.
  intros Ht He Ho. apply wp_bind, wp_query.
  - intros w' Hc. eapply tracks_calm in Ht; [|exact Hc]. rewrite (tr_peers _ _ _ _ _ Ht).
    destruct (w_peers w0 !! id) as [p|] eqn:Hp; [by apply Ho|by apply He].
  - intros e w' Hc. apply He. by eapply tracks_calm.
Qed.

(** ** The operations *)
Definition reported (r : option (result approvePeerResult)) : bool :=
  match r with Some (Err _) => false | _ => true end.

Ltac unchanged := apply wp_ret; by eapply tracks_unchanged.

Lemma approve_settles env ctx id actor w0 w :
  tracks w0 id (w_peers w0) (λ node, desired (w_peers w0) node id) w →
  wp (approvePeerCore env ctx id actor) (λ r, settles w0 id (reported r)) w.
Proof.
  intros Ht. unfold approvePeerCore. eapply wp_get; [exact Ht|intros; unchanged|]. clear w Ht.
  intros p w Hp Ht. destruct (peer_Status p =s "pending") eqn:Hst; simpl negb; cbv iota; [|unchanged].
  boolify. apply (wp_switch reported true id p); [done|by rewrite Hst|done..| | | |]; intros; calmly.
Qed.

(** Enters the locked body. *)
Lemma wp_locked {A} l k (busy : A) body ok id w :
  in_sync w id →
  (∀ w', tracks w id (w_peers w) (λ node, desired (w_peers w) node id) w' →
         wp body (λ r, settles w id (ok r)) w') →
  wp (withPeerLock l k busy body) (λ r, settles w id (ok r)) w.
Proof.
  intros Hs Hb. apply tracks_start in Hs. apply wp_withPeerLock.
  - intros w' Hc. by eapply settles_calm, tracks_unchanged.
  - intros a w1 w2 Hc. by apply settles_calm.
  - intros w' Hc. apply Hb. by eapply tracks_calm.
Qed.

Ltac locked :=
  apply wp_locked; [assumption|]; intros ? ?;
  eapply wp_get; [eassumption|intros; cbv beta iota zeta; unchanged|]; intros ? ? ? ?; cbv beta iota zeta.

(** A calm step in between. *)
Lemma wp_skip {A B} (p : M A) (g : A → M B) Q w0 id m d w :
  Calm p → tracks w0 id m d w → (∀ a w', tracks w0 id m d w' → wp (g a) Q w') → wp (p ≫= g) Q w.
Proof. intros Hp Ht Hg. apply wp_bind, wp_calm; [done|]. intros a w' Hc. apply Hg. by eapply tracks_calm. Qed.

Lemma ApprovePeer_settles env id admin w :
  in_sync w id → wp (ApprovePeer env id admin) (λ r, settles w id (succeeded r)) w.
Proof.
  intros Hs. apply wp_locked; [done|]. intros w' Ht. apply wp_bind.
  eapply wp_mono; [|by apply approve_settles]. intros [[x|e]|] w2 H; apply wp_ret; [|done|].
  - by apply settles_any.
  - by apply settles_any.
Qed.

Lemma SuspendPeer_settles env id admin reason w :
  in_sync w id → wp (SuspendPeer env id admin reason) (λ r, settles w id (succeeded r)) w.
Proof.
  intros Hs. locked. destruct (peer_Status p =s "active") eqn:Hst; simpl negb; cbv iota; [|unchanged].
  eapply wp_skip; [auto with autopeer|eassumption|]. intros node w2 Ht.
  apply (wp_switch succeeded false id p); [done|done|done|done|done|..]; intros; calmly.
Qed.

Lemma UnsuspendPeer_settles env id admin w :
  in_sync w id → wp (UnsuspendPeer env id admin) (λ r, settles w id (succeeded r)) w.
Proof.
  intros Hs. locked. destruct (peer_Status p =s "suspended") eqn:Hst; simpl negb; cbv iota; [|unchanged].
  eapply wp_skip; [auto with autopeer|eassumption|]. intros node w2 Ht. boolify.
  apply (wp_switch succeeded true id p); [done|by rewrite Hst|done|done|done|..]; intros; calmly.
Qed.

(** Rejection stores a status an agent never carries. *)
Lemma RejectPeer_settles env id admin reason w :
  in_sync w id → wp (RejectPeer env id admin reason) (λ r, settles w id (succeeded r)) w.
Proof.
  intros Hs. apply tracks_start in Hs. unfold RejectPeer.
  destruct reason as [r|]; [|unchanged]. destruct (decide (r = "")) as [->|Hr]; [unchanged|].
  assert (∃ c r', r = String c r') as (c & r' & ->) by (destruct r; [done|eauto]). cbv beta iota zeta.
  eapply wp_get; [exact Hs|intros; unchanged|]. intros p w1 Hp Ht.
  cbv beta iota zeta. destruct (peer_Status p =s "pending") eqn:Hst; simpl negb; cbv iota; [|unchanged]. boolify.
  eapply wp_skip; [auto with autopeer|exact Ht|]. clear Hs. intros node w2 Ht2.
  pose proof (tr_peers _ _ _ _ _ Ht2) as Hrows. apply wp_bind, wp_update_row.
  - intros e w3 Hc. apply wp_ret. eapply tracks_unchanged. by eapply tracks_calm.
  - intros w3 w4 _ Hq. by rewrite Hrows, Hp in Hq.
  - rewrite Hrows, Hp. intros w3 w4 q now Hc3 [= <-] Hl _ _ Hw. eapply tracks_calm in Ht2; [|exact Hc3].
    assert (settles w id true w4) as Hset.
    { eapply (settles_status w id p now "rejected" [WithRejectReason _] _ w3); [right; by eexists|done|done| |done|done].
      destruct Ht2 as [L P V]. split; [done..|]. intros nd. rewrite V. unfold set_at. case_bool_decide; [|done].
      rewrite (desired_lookup _ _ _ _ Hp), bool_decide_eq_false_2; [done|]. rewrite Hst. by intros []. }
    apply (wp_mono _ (λ _, settles w id true)).
    { intros. by apply settles_any. }
    eapply wp_calm; [calmly|]. intros r w5 Hc. by eapply settles_calm.
Qed.

(** ** Operations that can leave the two apart when they fail *)

(** Reported success, so in sync. *)
Definition confirms (id : string) (ok : bool) (w : World) : Prop := ok = true → in_sync w id.

Lemma confirms_calm id ok w w' : calm w w' → confirms id ok w → confirms id ok w'.
Proof. intros Hc Hs Hok. by eapply calm_sync, Hs. Qed.

Lemma wp_failing {A} (ok : A → bool) id (p : M A) w :
  Calmly (λ r, ok r = false) p → wp p (λ r, confirms id (ok r)) w.
Proof. intros Hp. eapply wp_calmly; [exact Hp|]. intros a w' _ E. unfold confirms. by rewrite E. Qed.

Lemma wp_locked_confirms {A} (ok : A → bool) l k (busy : A) body id w :
  in_sync w id → ok busy = false →
  (∀ w', tracks w id (w_peers w) (λ node, desired (w_peers w) node id) w' → wp body (λ r, confirms id (ok r)) w') →
  wp (withPeerLock l k busy body) (λ r, confirms id (ok r)) w.
Proof.
  intros Hs Hbusy Hb. apply tracks_start in Hs. apply wp_withPeerLock.
  - intros w' Hc E. congruence.
  - intros a w1 w2 Hc. by apply confirms_calm.
  - intros w' Hc. apply Hb. by eapply tracks_calm.
Qed.

(** A command whose failure ends the operation. *)
Lemma wp_must_send {A} (ok : A → bool) n c (kN : string → M A) kR kO id w :
  (∀ e, Calmly (λ r, ok r = false) (kN e)) → (∀ m, Calmly (λ r, ok r = false) (kR m)) →
  (∀ m w', refused m = false → sends n c (Answered m) w w' → wp (kO m) (λ r, confirms id (ok r)) w') →
  wp (a ← SendCommand n c;
      match a with NoAnswer e => kN e | Answered m => if refused m then kR m else kO m end)
     (λ r, confirms id (ok r)) w.
Proof.
  intros HN HR HO. apply wp_bind, wp_SendCommand.
  - intros e _. by apply wp_failing.
  - intros [e|m] w' Hs; [by apply wp_failing|]. destruct (refused m) eqn:E; [by apply wp_failing|]. by apply HO.
Qed.

(** The row goes once no agent carries it. *)
Lemma wp_delete {A} (ok : A → bool) ctx id (kF : string → M A) kS w0 m w :
  tracks w0 id m (λ _, None) w →
  (∀ e, Calmly (λ r, ok r = false) (kF e)) → Calm kS →
  wp (d ← Delete_ ctx id; match d with Some e => kF e | None => kS end) (λ r, confirms id (ok r)) w.
Proof.
  intros Ht HF HS. apply wp_bind, wp_stmt.
  - intros e w' _. by apply wp_failing.
  - intros w' Hc. eapply tracks_calm in Ht; [|exact Hc]. eapply wp_calm; [exact HS|].
    intros r w2 Hc2. eapply confirms_calm; [exact Hc2|]. intros _ node.
    simpl. rewrite (tr_view _ _ _ _ _ Ht). unfold desired, w_peers. simpl. by rewrite lookup_delete_eq.
Qed.

Lemma tracks_ext w0 id m d d' w : (∀ node, d node = d' node) → tracks w0 id m d w → tracks w0 id m d' w.
Proof. intros H [L P V]. split; [done..|]. intros node. by rewrite V, H. Qed.

(** Remove from the agent if it carries the peer, then from the table. *)
Lemma wp_remove_delete {A} (ok : A → bool) id p asn ctx (kN : string → M A) kR kF kS w0 w :
  w_peers w0 !! id = Some p →
  tracks w0 id (w_peers w0) (λ node, desired (w_peers w0) node id) w →
  (∀ e, Calmly (λ r, ok r = false) (kN e)) → (∀ m, Calmly (λ r, ok r = false) (kR m)) →
  (∀ e, Calmly (λ r, ok r = false) (kF e)) → Calm kS →
  wp (if peer_Status p =s "active" then
        a ← SendCommand (peer_NodeID p) (TypePeerRemove id asn);
        match a with
        | NoAnswer e => kN e
        | Answered m =>
            if refused m then kR m
            else d ← Delete_ ctx id; match d with Some e => kF e | None => kS end
        end
      else d ← Delete_ ctx id; match d with Some e => kF e | None => kS end) (λ r, confirms id (ok r)) w.
Proof.
  intros Hp Ht HN HR HF HS. destruct (peer_Status p =s "active") eqn:Hst; boolify.
  - apply wp_must_send; [done..|]. intros m w2 Hm Hsend.
    eapply tracks_remove in Hsend; [|done|exact Ht].
    eapply wp_delete; [|done..]. eapply tracks_ext; [|exact Hsend]. intros node. unfold set_at.
    rewrite (desired_lookup _ _ _ _ Hp). repeat case_bool_decide; naive_solver.
  - eapply wp_delete; [|done..]. eapply tracks_ext; [|exact Ht]. intros node. cbv beta.
    rewrite (desired_lookup _ _ _ _ Hp). by rewrite bool_decide_eq_false_2 by (intros []; done).
Qed.

Lemma DeletePeer_confirms env id admin w :
  in_sync w id → wp (DeletePeer env id admin) (λ r, confirms id (succeeded r)) w.
Proof.
  intros Hs. apply wp_locked_confirms; [done|done|]. intros w1 Ht1.
  eapply wp_get; [exact Ht1|intros; by apply wp_failing, Calmly_ret|]. intros p w2 Hp Ht2. cbv beta iota zeta.
  eapply wp_skip; [auto with autopeer|exact Ht2|]. intros node w3 Ht3.
  eapply (wp_remove_delete succeeded); [exact Hp|exact Ht3|..]; intros; calmly.
Qed.

Lemma wp_get_owned {A} ctx id asn w0 d w (g : result Peer → M A) Q :
  tracks w0 id (w_peers w0) d w →
  (∀ e w', wp (g (Err e)) Q w') →
  (∀ p w', w_peers w0 !! id = Some p → tracks w0 id (w_peers w0) d w' → wp (g (Ok p)) Q w') →
  wp (GetByIDAndASN ctx id asn ≫= g) Q w.
Proof.
  intros Ht He Ho. apply wp_bind, wp_query.
  - intros w' Hc. eapply tracks_calm in Ht; [|exact Hc]. rewrite (tr_peers _ _ _ _ _ Ht).
    destruct (w_peers w0 !! id) as [p|] eqn:Hp; [|by apply He]. case_match; [by apply Ho|by apply He].
  - intros e w' Hc. apply He.
Qed.

Lemma Delete_confirms env asn id w :
  in_sync w id → wp (Delete env asn id) (λ r, confirms id (succeeded r)) w.
Proof.
  intros Hs. apply wp_locked_confirms; [done|done|]. intros w1 Ht1.
  eapply wp_get_owned; [exact Ht1|intros; by apply wp_failing, Calmly_ret|]. intros p w2 Hp Ht2. cbv beta iota zeta.
  eapply (wp_remove_delete succeeded); [exact Hp|exact Ht2|..]; intros; calmly.
Qed.

(** *** Updates *)

(** Text the query builder passes through as it is. *)
Definition plain (p : Peer) : Prop :=
  peer_RemotePubkey p ≠ "now()" ∧ peer_RemoteEndpoint p ≠ "now()" ∧ peer_RemoteLLA p ≠ "now()".

Lemma now_fails_checks :
  bad_pubkey "now()" = true ∧ validateEndpoint "now()" = false ∧ validateLLA "now()" = false.
Proof. split_and!; vm_compute; reflexivity. Qed.

Lemma check_update_plain b p :
  check_update b = None → plain p →
  newPubkey b p ≠ "now()" ∧ newEndpoint b p ≠ "now()" ∧ newLLA b p ≠ "now()".
Proof.
  destruct now_fails_checks as (F1 & F2 & F3).
  unfold check_update, newPubkey, newEndpoint, newLLA. intros Hc (H1 & H2 & H3).
  destruct (no_fields b); [discriminate|].
  destruct (ub_RemotePubkey b) as [pk|]; [destruct (bad_pubkey pk) eqn:E1; [discriminate|]|];
  (destruct (ub_RemoteEndpoint b) as [ep|]; [destruct (validateEndpoint ep) eqn:E2; [|discriminate]|]);
  (destruct (ub_RemoteLLA b) as [l|]; [destruct (validateLLA l) eqn:E3; [|discriminate]|]); cbn [default from_option id];
  (split; [|split]); (assumption || (intros ->; congruence)).
Qed.

Definition updated_row (now : Z) (b : peerUpdateBody) (p : Peer) : Peer :=
  assign_all (set_UpdatedAt now :: map (sql_column now) (update_fields b p)) p.

Lemma updated_row_fields now b p :
  newPubkey b p ≠ "now()" → newEndpoint b p ≠ "now()" → newLLA b p ≠ "now()" →
  peer_NodeID (updated_row now b p) = peer_NodeID p
  ∧ peer_Status (updated_row now b p) = peer_Status p
  ∧ ∀ id, payload_of id (updated_row now b p)
          = add_payload id p (newEndpoint b p) (newPubkey b p) (newLLA b p) (newMTU b p).
Proof.
  intros H1 H2 H3. unfold updated_row, update_fields. remember (newPubkey b p) as a. remember (newEndpoint b p) as c.
  remember (newLLA b p) as d. remember (newMTU b p) as e. clear Heqa Heqc Heqd Heqe.
  destruct p; cbn; unfold now_or. by rewrite !bool_decide_eq_false_2.
Qed.

(** The row follows the agent's new settings. *)
Lemma wp_store_update {A} (ok : A → bool) ctx id b p (kF : string → M A) kS w0 w :
  w_peers w0 !! id = Some p →
  newPubkey b p ≠ "now()" → newEndpoint b p ≠ "now()" → newLLA b p ≠ "now()" →
  tracks w0 id (w_peers w0)
    (if peer_Status p =s "active"
     then set_at (peer_NodeID p) (Some (add_payload id p (newEndpoint b p) (newPubkey b p) (newLLA b p) (newMTU b p)))
            (λ node, desired (w_peers w0) node id)
     else λ node, desired (w_peers w0) node id) w →
  (∀ e, Calmly (λ r, ok r = false) (kF e)) → Calm kS →
  wp (u ← UpdateFields ctx id (update_fields b p); match u with Some e => kF e | None => kS end)
     (λ r, confirms id (ok r)) w.
Proof.
  intros Hp N1 N2 N3 Ht HF HS. pose proof (tr_peers _ _ _ _ _ Ht) as Hrows. apply wp_bind, wp_update_row.
  - intros e w' _. by apply wp_failing.
  - intros w' w'' _ Hq. by rewrite Hrows, Hp in Hq.
  - rewrite Hrows, Hp. intros w3 w4 q now Hc3 [= <-] Hl _ _ Hw. eapply tracks_calm in Ht; [|exact Hc3].
    eapply wp_calm; [exact HS|]. intros r w5 Hc. eapply confirms_calm; [exact Hc|]. intros _ node.
    destruct (updated_row_fields now b p N1 N2 N3) as (E1 & E2 & E3).
    rewrite Hl, (tr_view _ _ _ _ _ Ht), Hw, desired_insert. fold (updated_row now b p). rewrite E1, E2, E3.
    f_equal. case_bool_decide as Ha; unfold set_at; rewrite (desired_lookup _ _ _ _ Hp);
      repeat case_bool_decide; naive_solver.
Qed.

(** What [reconfigure_if_active] leaves behind when it succeeds. *)
Lemma wp_reconfigure id p b (Q : Reconfigured → World → Prop) w0 w :
  w_peers w0 !! id = Some p →
  tracks w0 id (w_peers w0) (λ node, desired (w_peers w0) node id) w →
  (∀ r w', r ≠ RecDone → Q r w') →
  (∀ w', tracks w0 id (w_peers w0)
    (if peer_Status p =s "active"
     then set_at (peer_NodeID p) (Some (add_payload id p (newEndpoint b p) (newPubkey b p) (newLLA b p) (newMTU b p)))
            (λ node, desired (w_peers w0) node id)
     else λ node, desired (w_peers w0) node id) w' → Q RecDone w') →
  wp (reconfigure_if_active id p b) Q w.
Proof.
  intros Hp Ht Hf Hd. unfold reconfigure_if_active. destruct (peer_Status p =s "active") eqn:Hst; [|by apply wp_ret, Hd].
  apply wp_bind, wp_SendCommand; [intros; by apply wp_ret, Hf|]. intros [e|m] w2 Hs2; [by apply wp_ret, Hf|].
  destruct (refused m) eqn:Hm; [by apply wp_ret, Hf|]. eapply tracks_remove in Hs2; [|done|exact Ht].
  assert (∀ c r, r ≠ RecDone → ∀ w', wp (SendCommand (peer_NodeID p) c ≫= λ _, mret r) Q w') as Hfail.
  { intros c r Hr w'. apply wp_bind, wp_SendCommand; intros; by apply wp_ret, Hf. }
  apply wp_bind, wp_SendCommand; [intros; by apply Hfail|]. intros [e|m'] w3 Hs3; [by apply Hfail|].
  destruct (refused m') eqn:Hm'; [by apply Hfail|]. apply wp_ret, Hd.
  eapply (tracks_add _ id) in Hs3; [|done|exact Hm'|exact Hs2]. eapply tracks_ext; [|exact Hs3].
  intros node. unfold set_at. by repeat case_bool_decide.
Qed.

Lemma reconfigure_error_done r : r ≠ RecDone → ∃ resp, reconfigure_error r = Some resp ∧ succeeded resp = false.
Proof. destruct r; [done|..]; intros _; by eexists. Qed.

Lemma UpdatePeer_confirms env id admin body w :
  in_sync w id → (∀ p, w_peers w !! id = Some p → plain p) →
  wp (UpdatePeer env id admin body) (λ r, confirms id (succeeded r)) w.
Proof.
  intros Hs Hplain. apply wp_locked_confirms; [done|done|]. intros w1 Ht1.
  destruct (decodePeerUpdateJSON body) as [b|]; [|by apply wp_failing, Calmly_ret].
  destruct (check_update b) eqn:Hb; [by apply wp_failing, Calmly_ret|].
  eapply wp_get; [exact Ht1|intros; by apply wp_failing, Calmly_ret|]. intros p w2 Hp Ht2. cbv beta iota zeta.
  destruct (check_update_plain b p Hb (Hplain p Hp)) as (N1 & N2 & N3).
  eapply wp_skip; [auto with autopeer|exact Ht2|]. intros node w3 Ht3.
  apply wp_bind. eapply wp_reconfigure; [exact Hp|exact Ht3|..].
  - intros r w4 (resp & -> & Hr)%reconfigure_error_done. by apply wp_failing, Calmly_ret.
  - intros w4 Ht4. cbv beta iota delta [reconfigure_error].
    eapply (wp_store_update succeeded); [exact Hp|done|done|done|exact Ht4|..]; intros; calmly.
Qed.

Lemma Update_confirms env asn id body w :
  in_sync w id → (∀ p, w_peers w !! id = Some p → plain p) →
  wp (Update env asn id body) (λ r, confirms id (succeeded r)) w.
Proof.
  intros Hs Hplain. apply wp_locked_confirms; [done|done|]. intros w1 Ht1.
  destruct (decodePeerUpdateJSON body) as [b|]; [|by apply wp_failing, Calmly_ret].
  destruct (check_update b) eqn:Hb; [by apply wp_failing, Calmly_ret|].
  eapply wp_get_owned; [exact Ht1|intros; by apply wp_failing, Calmly_ret|]. intros p w2 Hp Ht2. cbv beta iota zeta.
  destruct (check_update_plain b p Hb (Hplain p Hp)) as (N1 & N2 & N3).
  destruct (_ && _); [by apply wp_failing, Calmly_ret|].
  apply wp_bind. eapply wp_reconfigure; [exact Hp|exact Ht2|..].
  - intros r w4 (resp & -> & Hr)%reconfigure_error_done. by apply wp_failing, Calmly_ret.
  - intros w4 Ht4. cbv beta iota delta [reconfigure_error].
    eapply (wp_store_update succeeded); [exact Hp|done|done|done|exact Ht4|..]; intros; calmly.
Qed.

(** ** The guarantees *)
Inductive StatusOp : Type :=
| OpApprove
| OpReject (reason : option string)
| OpSuspend (reason : string)
| OpUnsuspend.
Definition status_op (env : Env) (o : StatusOp) (peerID adminEmail : string) : M Response :=
  match o with
  | OpApprove => ApprovePeer env peerID adminEmail
  | OpReject reason => RejectPeer env peerID adminEmail reason
  | OpSuspend reason => SuspendPeer env peerID adminEmail reason
  | OpUnsuspend => UnsuspendPeer env peerID adminEmail
  end.

(** C1: Approving, rejecting, suspending or unsuspending a peer never leaves
    agent and database apart while agents do as they are told: if they agreed
    before, they agree after every run that reports success, and after every
    failed run (a failing statement at any point included, the handler then
    sends the opposite command) in which no agent refused or missed a command. *)
Theorem status_op_in_sync (env : Env) (o : StatusOp) (id adminEmail : string) (w : World)
  (Hs : in_sync w id) :
  let '(resp, w') := exec (status_op env o id adminEmail) w in
  succeeded resp = true ∨ Forall accepted (new_events w w') → in_sync w' id.
Proof.
  destruct (exec _ _) as [resp w'] eqn:E.
  refine (proj2 (wp_exec _ (λ r, settles w id (succeeded r)) _ _ _ E _)).
  destruct o; simpl.
  - by apply ApprovePeer_settles.
  - by apply RejectPeer_settles.
  - by apply SuspendPeer_settles.
  - by apply UnsuspendPeer_settles.
Qed.

(** The status update of a suspension fails; the peer is added again. *)
Lemma status_op_in_sync_witness :
  let w := sample "active" [None; None; Some "connection reset"] [accepts; accepts] in
  let '(resp, w') := exec (status_op sample_env (OpSuspend "abuse") "p1" "admin@example.org") w in
  succeeded resp = false ∧ length (w_log w') = 3%nat ∧ in_sync w' "p1".
Proof.
  intros w. pose proof (status_op_in_sync sample_env (OpSuspend "abuse") "p1" "admin@example.org" w) as H.
  revert H. destruct (exec _ w) as [resp w'] eqn:E. vm_compute in E. intros H.
  simplify_eq. split; [reflexivity|]. split; [reflexivity|]. apply H; [apply sample_in_sync|].
  right. vm_compute. repeat constructor.
Defined.

Inductive EditOp : Type :=
| OpDelete (adminEmail : string)
| OpUserDelete (asn : Z)
| OpUpdate (adminEmail : string) (body : option json)
| OpUserUpdate (asn : Z) (body : option json).
Definition edit_op (env : Env) (o : EditOp) (peerID : string) : M Response :=
  match o with
  | OpDelete adminEmail => DeletePeer env peerID adminEmail
  | OpUserDelete asn => UserPeer.Delete env asn peerID
  | OpUpdate adminEmail body => UpdatePeer env peerID adminEmail body
  | OpUserUpdate asn body => Update env asn peerID body
  end.

(** C12: When the agent and the rows agreed about a peer before (and none of the
    peer's stored key, endpoint and link-local address is the text now()), a
    deletion or update of it that reports success, by an administrator or by
    its operator, leaves them in agreement, the new settings of an active peer
    included.  Without the prior agreement this is false: deleting a peer that
    is rejected in the table but live on the agent sends no command. *)
Theorem edit_op_in_sync (env : Env) (o : EditOp) (id : string) (w : World)
  (Hs : in_sync w id) (Hplain : ∀ p, w_peers w !! id = Some p → plain p) :
  let '(resp, w') := exec (edit_op env o id) w in
  succeeded resp = true → in_sync w' id.
Proof.
  destruct (exec _ _) as [resp w'] eqn:E.
  refine (wp_exec _ (λ r, confirms id (succeeded r)) _ _ _ E _).
  destruct o; simpl.
  - by apply DeletePeer_confirms.
  - by apply Delete_confirms.
  - by apply UpdatePeer_confirms.
  - by apply Update_confirms.
Qed.

Lemma edit_op_in_sync_witness :
  let w := sample "active" [] [accepts; accepts] in
  let '(resp, w') := exec (edit_op sample_env (OpUserUpdate 4242420001 (Some (JObj [("mtu", JNum 1400)]))) "p1") w in
  succeeded resp = true ∧ in_sync w' "p1".
Proof.
  intros w. pose proof (edit_op_in_sync sample_env (OpUserUpdate 4242420001 (Some (JObj [("mtu", JNum 1400)]))) "p1" w) as H.
  revert H. destruct (exec _ w) as [resp w'] eqn:E. vm_compute in E. intros H.
  simplify_eq. split; [reflexivity|]. apply H; [apply sample_in_sync| |reflexivity].
  intros p Hp. change (w_peers w !! "p1") with (Some (peer1 "active")) in Hp.
  injection Hp as <-. vm_compute. split; [|split]; discriminate.
Defined.

(** *** Updates whose statement fails *)
Definition update_of (o : EditOp) : option (option json) :=
  match o with OpUpdate _ body | OpUserUpdate _ body => Some body | _ => None end.
Definition store_failed (r : Response) : bool :=
  match r with ErrorJSON _ code _ => code =s "internal_error" | _ => false end.
(** What the agent of the peer's node was last told. *)
Definition new_settings (id : string) (b : peerUpdateBody) (p : Peer) : PeerAddPayload :=
  add_payload id p (newEndpoint b p) (newPubkey b p) (newLLA b p) (newMTU b p).
Definition half_updated (w0 : World) (id : string) (body : option json) (r : Response) (w : World) : Prop :=
  store_failed r = true →
  w_peers w = w_peers w0
  ∧ ∃ b p, decodePeerUpdateJSON body = Some b ∧ w_peers w0 !! id = Some p
    ∧ agent_view (w_log w) (peer_NodeID p) id
      = Configured (if peer_Status p =s "active" then Some (new_settings id b p) else None).

Lemma half_updated_calm w0 id body r w w' :
  calm w w' → half_updated w0 id body r w → half_updated w0 id body r w'.
Proof.
  intros Hc H Hr. destruct (H Hr) as (Hp & b & p & Hb & Hq & Hv). split; [by rewrite (calm_peers _ _ Hc)|].
  exists b, p. by rewrite (calm_view _ _ _ _ Hc).
Qed.
Lemma wp_otherwise w0 id body p w : Calmly (λ r, store_failed r = false) p → wp p (half_updated w0 id body) w.
Proof. intros Hp. eapply wp_calmly; [exact Hp|]. intros r w' _ E Hr. congruence. Qed.

Lemma reconfigure_error_other r : r ≠ RecDone → ∃ resp, reconfigure_error r = Some resp ∧ store_failed resp = false.
Proof. destruct r; [done|..]; intros _; by eexists. Qed.

Lemma wp_half_update id b p body ctx kF kS w0 w :
  decodePeerUpdateJSON body = Some b → w_peers w0 !! id = Some p →
  tracks w0 id (w_peers w0) (λ node, desired (w_peers w0) node id) w →
  (∀ e, Calm (kF e)) → Calmly (λ r, store_failed r = false) kS →
  wp (rc ← reconfigure_if_active id p b;
      match reconfigure_error rc with
      | Some resp => mret resp
      | None => u ← UpdateFields ctx id (update_fields b p); match u with Some e => kF e | None => kS end
      end) (half_updated w0 id body) w.
Proof.
  intros Hb Hp Ht HF HS. apply wp_bind. eapply wp_reconfigure; [exact Hp|exact Ht|..].
  - intros r w4 (resp & -> & Hr)%reconfigure_error_other. by apply wp_otherwise, Calmly_ret.
  - clear w Ht. intros w Ht. cbv beta iota delta [reconfigure_error]. apply wp_bind, wp_update_row.
    + intros e w' Hc. eapply tracks_calm in Ht; [|exact Hc]. eapply wp_calm; [apply HF|]. intros r w2 Hc2.
      eapply half_updated_calm; [exact Hc2|]. intros _. split; [apply Ht|]. exists b, p. do 2 (split; [done|]).
      rewrite (tr_view _ _ _ _ _ Ht). f_equal. destruct (peer_Status p =s "active") eqn:Hst.
      * unfold set_at. by rewrite bool_decide_eq_true_2.
      * rewrite (desired_lookup _ _ _ _ Hp), bool_decide_eq_false_2; [done|]. boolify. tauto.
    + intros w' w'' _ _ _. by apply wp_otherwise.
    + intros w' w'' q now _ _ _ _ _ _. by apply wp_otherwise.
Qed.

Lemma wp_locked_half l k busy body0 id body w :
  in_sync w id → store_failed busy = false →
  (∀ w', tracks w id (w_peers w) (λ node, desired (w_peers w) node id) w' → wp body0 (half_updated w id body) w') →
  wp (withPeerLock l k busy body0) (half_updated w id body) w.
Proof.
  intros Hs Hbusy Hb. apply tracks_start in Hs. apply wp_withPeerLock.
  - intros w' Hc E. congruence.
  - intros a w1 w2 Hc. by apply half_updated_calm.
  - intros w' Hc. apply Hb. by eapply tracks_calm.
Qed.

Lemma update_half env o body id w :
  update_of o = Some body → in_sync w id → wp (edit_op env o id) (half_updated w id body) w.
Proof.
  intros Ho Hs. destruct o; simplify_eq/=; (apply wp_locked_half; [done|done|]); intros w1 Ht1;
    (destruct (decodePeerUpdateJSON body) as [b|] eqn:Hb; [|by apply wp_otherwise, Calmly_ret]);
    (destruct (check_update b); [by apply wp_otherwise, Calmly_ret|]).
  - eapply wp_get; [exact Ht1|intros; by apply wp_otherwise, Calmly_ret|]. intros p w2 Hp Ht2. cbv beta iota zeta.
    eapply wp_skip; [auto with autopeer|exact Ht2|]. intros node w3 Ht3.
    apply (wp_half_update _ b p); [done..| |]; intros; calmly.
  - eapply wp_get_owned; [exact Ht1|intros; by apply wp_otherwise, Calmly_ret|]. intros p w2 Hp Ht2. cbv beta iota zeta.
    destruct (_ && _); [by apply wp_otherwise, Calmly_ret|].
    apply (wp_half_update _ b p); [done..| |]; intros; calmly.
Qed.

(** C34: An update (by an administrator or the operator) answered
    [internal_error], which is the answer when the agent took the new settings
    and the row could not be stored, undoes nothing: no row has changed, and the
    agent of an active peer, which agreed with the rows before, now carries the
    new settings; the two disagree whenever the update changed anything. *)
Theorem update_failure_diverges (env : Env) (o : EditOp) (body : option json) (id : string) (w w' : World)
    (resp : Response)
  (Ho : update_of o = Some body) (Hs : in_sync w id)
  (Hrun : exec (edit_op env o id) w = (resp, w')) (Hfail : store_failed resp = true) :
  w_peers w' = w_peers w
  ∧ ∃ b p, decodePeerUpdateJSON body = Some b ∧ w_peers w !! id = Some p
    ∧ agent_view (w_log w') (peer_NodeID p) id
      = Configured (if peer_Status p =s "active" then Some (new_settings id b p) else None)
    ∧ (peer_Status p = "active" → new_settings id b p ≠ payload_of id p → ¬ in_sync w' id).
Proof.
  destruct (wp_exec _ _ _ _ _ Hrun (update_half env o body id w Ho Hs) Hfail) as (Hw & b & p & Hb & Hp & Hv).
  split; [done|]. exists b, p. do 3 (split; [done|]). intros Hst Hne Hsync. specialize (Hsync (peer_NodeID p)).
  rewrite Hv, Hw, (desired_lookup _ _ _ _ Hp) in Hsync.
  rewrite !bool_decide_eq_true_2 in Hsync by done. congruence.
Qed.

(** The operator of p1 lowers the MTU, the agent follows, the row does not. *)
Lemma update_failure_diverges_witness :
  let w := sample "active" [None; Some "connection reset"] [accepts; accepts] in
  let '(resp, w') := exec (edit_op sample_env (OpUserUpdate 4242420001 (Some (JObj [("mtu", JNum 1400)]))) "p1") w in
  Forall accepted (new_events w w') ∧ w_peers w' = w_peers w ∧ ¬ in_sync w' "p1".
Proof.
  intros w. destruct (exec _ w) as [resp w'] eqn:E. split; [vm_compute in E; simplify_eq; vm_compute; repeat constructor|].
  destruct (update_failure_diverges sample_env (OpUserUpdate 4242420001 (Some (JObj [("mtu", JNum 1400)])))
    (Some (JObj [("mtu", JNum 1400)])) "p1" w w' resp eq_refl (sample_in_sync _ _ _) E) as (Hw & b & p & Hb & Hp & _ & Hno).
  - vm_compute in E. by simplify_eq.
  - split; [exact Hw|]. change (w_peers w !! "p1") with (Some (peer1 "active")) in Hp. injection Hp as <-.
    vm_compute in Hb. injection Hb as <-. apply Hno; [reflexivity|]. vm_compute. discriminate.
Defined.
