(* ===== verification/Creation.v ===== *)
(** * Creation of peers

    Both creation paths (the HTTP handler, which spells the record out, and the
    bot command, which calls [BuildPendingPeer]) store the same canonical row,
    and a creation that is refused stores nothing. *)
From S2P Require Import Prelude GoLib GoNet Regex Json Model Peering Lock Cache Effects World Store Rely Handler Wp Scenario AdminPeer UserPeer BotPeer Lifecycle.
From stdpp Require Import options.
Local Open Scope Z_scope.
Local Open Scope go_scope.

Definition create_input (asn : Z) (node : Node) (req : createPeerReq) : Input :=
  MkInput asn (cr_NodeID req) (node_WgPortPrefix node) (cr_RemotePubkey req) (cr_RemoteEndpoint req)
    (cr_RemoteLLA req) (cr_MTU req) (cr_EnablePSK req).

(** The row a creation leaves: the canonical record, with its id, contact
    address, instants and status filled in. *)
Definition stored_row (id email : string) (created updated : Z) (status : string) (p : Peer) : Peer :=
  assign_all [set_ID id; set_ContactEmail email; set_CreatedAt created; set_UpdatedAt updated; set_Status status] p.

Definition rows_kept (w w' : World) : Prop := w_peers w' = w_peers w ∧ w_nodes w' = w_nodes w.
Lemma calm_rows w w' : calm w w' → rows_kept w w'.
Proof. intros H. split; [by apply calm_peers|by apply calm_nodes]. Qed.

(** ** The handler's checks are those of the shared package *)
Lemma ValidatePubkey_bad pk :
  ValidatePubkey pk = if bad_pubkey pk then Err "Invalid WireGuard public key (must be Base64)" else Ok tt.
Proof. reflexivity. Qed.
Lemma ValidateEndpoint_validate ep :
  ValidateEndpoint ep = if validateEndpoint ep then Ok tt else Err endpoint_msg.
Proof.
  unfold ValidateEndpoint, validateEndpoint, invalid. destruct (SplitHostPort ep) as [[host port]|]; [|done].
  destruct (Atoi port) as [n|]; [|done]. destruct (_ || _); [done|].
  destruct (isNil (ParseIP host)), (MatchString hostnameRe host); done.
Qed.
Lemma ValidateLLA_validate lla :
  ValidateLLA lla = if validateLLA lla then Ok tt else Err "Invalid link-local address (must be fe80::/10)".
Proof.
  unfold ValidateLLA, validateLLA, invalid. destruct (ParseIP lla) as [ip|]; [|done].
  by destruct (IsLinkLocalUnicast ip).
Qed.
Lemma ValidateMTU_bad mtu :
  ValidateMTU mtu = if bad_mtu mtu then Err "MTU must be between 576 and 9000" else Ok tt.
Proof. by destruct mtu. Qed.

(** The pre-shared key the request asks for. *)
Definition wanted_psk (req : createPeerReq) (rnd : option (list ascii)) : result (option string) :=
  if cr_EnablePSK req
  then match GeneratePSK rnd with Ok k => Ok (Some k) | Err e => Err e end
  else Ok None.

Definition canonical (asn : Z) (node : Node) (req : createPeerReq) (psk : option string) : Peer :=
  MkPeer "" (cr_NodeID req) asn (cr_RemotePubkey req) (cr_RemoteEndpoint req) (cr_RemoteLLA req) ""
    (WgPort asn (node_WgPortPrefix node)) (WgInterfaceName asn) "" "" true (cr_MTU req) psk "pending"
    None None false None 0 0 0.

Lemma build_create (asn : Z) (node : Node) (req : createPeerReq) (rnd : option (list ascii)) :
  BuildPendingPeer rnd (create_input asn node req)
  = match check_create req with
    | Some msg => Err msg
    | None => match wanted_psk req rnd with
              | Ok psk => Ok (canonical asn node req psk)
              | Err e => Err e
              end
    end.
Proof.
  unfold BuildPendingPeer, check_create, create_input, wanted_psk.
  cbn [in_NodeID in_Pubkey in_Endpoint in_LLA in_MTU in_EnablePSK in_ASN in_PortPrefix].
  rewrite ValidatePubkey_bad, ValidateEndpoint_validate, ValidateLLA_validate, ValidateMTU_bad.
  destruct (cr_NodeID req =s ""); [reflexivity|].
  destruct (bad_pubkey _); [reflexivity|]. destruct (validateEndpoint _); [|reflexivity].
  destruct (validateLLA _); [|reflexivity]. destruct (bad_mtu _); [reflexivity|].
  destruct (cr_EnablePSK req); [|reflexivity]. destruct (GeneratePSK rnd); reflexivity.
Qed.

(** ** The insert, and what approval does to the rows *)
Lemma draw_uuid_rows w : rows_kept w (draw_uuid w).2.
Proof. unfold draw_uuid. by case_match. Qed.

Lemma wp_Create ctx p Q w :
  peer_ID p = "" →
  (∀ e w', rows_kept w w' → Q (inl e) w') →
  (∀ id created updated w', let p' := assign_all [set_ID id; set_CreatedAt created; set_UpdatedAt updated] p in
     w_peers w !! id = None → w_peers w' = <[id := p']> (w_peers w) → w_nodes w' = w_nodes w → Q (inr p') w') →
  wp (Create ctx p) Q w.
Proof.
  intros Hid He Ho. apply wp_stmt; [intros; by apply He, calm_rows|]. intros w1 Hc%calm_rows.
  unfold insert_row. rewrite Hid, bool_decide_eq_true_2 by done.
  pose proof (draw_uuid_rows w1) as Hd. destruct (draw_uuid w1) as [[id|] w2]; simpl in Hd.
  2:{ apply He. unfold rows_kept in *. naive_solver congruence. }
  assert (rows_kept w w2) as [Hp Hn] by (unfold rows_kept in *; naive_solver congruence).
  case_bool_decide as Hfresh; [by apply He|]. destruct (violation _ _ _); [by apply He|].
  case_bool_decide; [|by apply He]. simpl. apply Ho; [|simpl; by rewrite <-Hp|done].
  rewrite Hp in Hfresh. by apply eq_None_not_Some.
Qed.

Lemma sends_rows n c a w w' : sends n c a w w' → rows_kept w w'.
Proof. intros (Hp & Hn & _). by split. Qed.
Lemma rows_kept_trans w1 w2 w3 : rows_kept w1 w2 → rows_kept w2 w3 → rows_kept w1 w3.
Proof. unfold rows_kept. intros [] []; split; congruence. Qed.

(** A command in a program that keeps the rows. *)
Lemma wp_send_rows {A} n c (g : Answer → M A) Q w :
  (∀ a w', rows_kept w w' → wp (g a) Q w') → wp (SendCommand n c ≫= g) Q w.
Proof.
  intros Hg. apply wp_bind, wp_SendCommand; [intros e _; by apply Hg|]. intros a w' Hs%sends_rows. by apply Hg.
Qed.

Lemma approve_rows env ctx id actor w :
  wp (approvePeerCore env ctx id actor) (λ r w',
    match r with
    | Some (Err _) => rows_kept w w'
    | Some (Ok _) | None => ∃ p now, w_peers w !! id = Some p ∧ w_nodes w' = w_nodes w
        ∧ w_peers w' = <[id := status_row now "active" [] p]> (w_peers w)
    end) w.
Proof.
  unfold approvePeerCore. apply wp_bind, wp_query; [|intros e w1 Hc; by apply wp_ret, calm_rows].
  intros w1 Hc1. destruct (w_peers w1 !! id) as [p|] eqn:Hp; [|by apply wp_ret, calm_rows].
  destruct (peer_Status p =s "pending"); [|by apply wp_ret, calm_rows]. simpl negb. cbv iota.
  apply calm_rows in Hc1. apply wp_send_rows. intros [e|m] w2 H2.
  { apply wp_ret. by eapply rows_kept_trans. }
  destruct (refused m); [apply wp_ret; by eapply rows_kept_trans|].
  assert (rows_kept w w2) as [Hrp Hrn] by by eapply rows_kept_trans.
  destruct H2 as [H2 _]. apply wp_bind, wp_update_row.
  - intros e w3 Hc3%calm_rows. apply wp_send_rows. intros a w4 H4.
    eapply (wp_calmly (λ r, ∃ e, r = Some (Err e))); [calmly; eauto|]. intros r w5 Hc5%calm_rows [e' ->].
    unfold rows_kept in *. naive_solver congruence.
  - intros w3 w4 _ Hno. congruence.
  - intros w3 w4 q now Hc3 Hq _ _ Hn4 Hw4. rewrite H2, Hq in *.
    eapply (wp_calmly (λ r, r = None ∨ ∃ x, r = Some (Ok x))); [calmly; eauto|].
    intros r w5 [Hp5 Hn5]%calm_rows [->|[x ->]]; exists q, now; rewrite Hp5, Hw4, Hn5, Hn4, (calm_nodes _ _ Hc3); rewrite <-Hrp, <-Hrn; naive_solver congruence.
Qed.

(** Exactly one row was added, under a fresh id: the canonical record, with id,
    address, instants and status filled in. *)
Definition row_added (asn : Z) (req : createPeerReq) (node : Node) (w w' : World) (id status : string) (q : Peer) : Prop :=
  ∃ email created updated rnd,
    w_peers w !! id = None
    ∧ BuildPendingPeer rnd (create_input asn node req) = Ok q
    ∧ w_peers w' = <[id := stored_row id email created updated status q]> (w_peers w).

(** What a creation promises, by its response. *)
Definition create_result (env : Env) (asn : Z) (req : createPeerReq) (node : Node) (w : World)
    (resp : Response) (w' : World) : Prop :=
  match resp with
  | JSON code body =>
      code = StatusCreated ∧
      ∃ id status q,
        row_added asn req node w w' id status q
        ∧ (status = "pending" ∨ status = "active")
        ∧ body = created_body id status (WgPort asn (node_WgPortPrefix node)) (WgInterfaceName asn) (cr_MTU req)
                   (peer_WgPreSharedKey q)
  | ErrorJSON _ _ _ => w_peers w' = w_peers w
  | Panicked => ∃ id q, row_added asn req node w w' id "active" q
  end.

Lemma announce_result env asn req node email psk rnd id created updated w0 w :
  check_create req = None → wanted_psk req rnd = Ok psk →
  w_peers w0 !! id = None →
  let p := assign_all [set_ID id; set_CreatedAt created; set_UpdatedAt updated]
             (assign (set_ContactEmail email) (canonical asn node req psk)) in
  w_peers w = <[id := p]> (w_peers w0) →
  wp (create_announce env asn req node email p) (create_result env asn req node w0) w.
Proof.
  intros Hc Hpsk Hfresh p Hw.
  assert (∀ status updated' w',
    w_peers w' = <[id := stored_row id email created updated' status (canonical asn node req psk)]> (w_peers w0) →
    row_added asn req node w0 w' id status (canonical asn node req psk)) as Hadded.
  { intros status upd w' Hw'. exists email, created, upd, rnd. split; [done|]. by rewrite build_create, Hc, Hpsk. }
  assert (∀ status updated' w', status = "pending" ∨ status = "active" →
    w_peers w' = <[id := stored_row id email created updated' status (canonical asn node req psk)]> (w_peers w0) →
    create_result env asn req node w0
      (JSON StatusCreated (created_body id status (WgPort asn (node_WgPortPrefix node)) (WgInterfaceName asn)
         (cr_MTU req) psk)) w') as Hdone.
  { intros status upd w' Hs Hw'. split; [done|]. exists id, status, (canonical asn node req psk). by eauto. }
  assert (∀ w', rows_kept w w' → create_result env asn req node w0
      (JSON StatusCreated (created_body id "pending" (WgPort asn (node_WgPortPrefix node)) (WgInterfaceName asn)
         (cr_MTU req) psk)) w') as Hpending.
  { intros w' [Hp _]. apply (Hdone "pending" updated); [by left|]. by rewrite Hp, Hw. }
  unfold create_announce. apply wp_bind, wp_calm; [auto with autopeer|]. intros _ w1 H1%calm_rows.
  apply wp_bind, wp_calm; [apply Calmly_Calm; calmly|]. intros auto w2 H2%calm_rows.
  assert (rows_kept w w2) as Hw2 by by eapply rows_kept_trans.
  destruct (auto =s "true").
  2:{ eapply (wp_calmly (λ r, r = JSON StatusCreated _)); [calmly; reflexivity|]. intros r w3 H3%calm_rows ->. apply Hpending. by eapply rows_kept_trans. }
  assert (∀ w3, (∃ p now, w_peers w2 !! id = Some p ∧ w_nodes w3 = w_nodes w2
      ∧ w_peers w3 = <[id := status_row now "active" [] p]> (w_peers w2)) →
    ∃ now, w_peers w3 = <[id := stored_row id email created now "active" (canonical asn node req psk)]> (w_peers w0)) as Hact.
  { intros w3 (p' & now & Hp' & _ & H3). exists now. rewrite H3. destruct Hw2 as [Hw2 _].
    rewrite Hw2, Hw, lookup_insert_eq in Hp'. injection Hp' as <-. rewrite Hw2, Hw, insert_insert_eq. reflexivity. }
  apply wp_bind. eapply wp_mono; [|apply approve_rows]. cbv beta. intros [[x|e]|] w3 H3.
  - destruct (Hact w3 H3) as [now Hn]. apply wp_ret, (Hdone "active" now); [by right|done].
  - eapply (wp_calmly (λ r, r = JSON StatusCreated _)); [calmly; reflexivity|]. intros r w4 H4%calm_rows ->. apply Hpending.
    eapply rows_kept_trans; [|exact H4]. by eapply rows_kept_trans.
  - destruct (Hact w3 H3) as [now Hn]. apply wp_ret. exists id, (canonical asn node req psk). by eapply Hadded.
Qed.

Lemma calm_result env asn req node w0 resp w w' :
  rows_kept w w' → create_result env asn req node w0 resp w → create_result env asn req node w0 resp w'.
Proof.
  intros [Hp _]. destruct resp as [| |]; unfold create_result, row_added; rewrite ?Hp; done.
Qed.

Definition yes (r : result bool) : bool := match r with Ok b => b | Err _ => false end.
Lemma match_yes {A} (r : result bool) (x y : A) :
  match r with Ok true => x | _ => y end = if yes r then x else y.
Proof. by destruct r as [[]|]. Qed.

Section insert.
Context (env : Env) (asn : Z) (req : createPeerReq) (node : Node) (w0 : World).
Local Abbreviation post := (create_result env asn req node w0).

Lemma refuse_result s c m w : rows_kept w0 w → wp (mret (ErrorJSON s c m)) post w.
Proof. intros [Hp _]. by apply wp_ret. Qed.

Lemma skip_result {A} (p : M A) g w :
  Calm p → rows_kept w0 w → (∀ a w', rows_kept w0 w' → wp (g a) post w') → wp (p ≫= g) post w.
Proof.
  intros Hp H1 Hg. apply wp_bind, wp_calm; [done|]. intros a w' H'%calm_rows. apply Hg. by eapply rows_kept_trans.
Qed.

Lemma psk_calmly :
  Calmly (λ r, ∃ rnd, wanted_psk req rnd = r)
    (if cr_EnablePSK req
     then rnd ← rand_read;
          mret (match GeneratePSK rnd with Ok k => Ok (Some k) | Err e => Err e end)
     else mret (Ok None)).
Proof.
  unfold wanted_psk. destruct (cr_EnablePSK req).
  - apply Calmly_bind; [auto with autopeer|]. intros rnd. apply Calmly_ret. by exists rnd.
  - apply Calmly_ret. by exists None.
Qed.

Lemma insert_result w :
  check_create req = None → rows_kept w0 w → wp (create_insert env asn req node) post w.
Proof.
  intros Hc Hrows. unfold create_insert.
  apply skip_result; [apply Calm_query|done|]. clear Hrows. intros ex w1 H1. rewrite match_yes.
  destruct (yes ex); [by apply refuse_result|]. cbv zeta.
  apply skip_result; [apply Calm_query|done|]. intros c w2 H2.
  destruct (10 <=? _); [by apply refuse_result|].
  apply skip_result; [apply Calm_query|done|]. intros pe w3 H3. rewrite match_yes.
  destruct (yes pe); [by apply refuse_result|].
  apply wp_bind, (wp_calmly _ _ _ _ psk_calmly). intros psk w4 H4%calm_rows [rnd Hpsk].
  assert (rows_kept w0 w4) as Hw4 by by eapply rows_kept_trans.
  destruct psk as [psk|e]; [|by apply refuse_result].
  apply skip_result; [apply Calm_gets|done|]. intros now w5 H5.
  apply wp_bind, wp_Create; [done|..].
  - intros e w6 H6. assert (rows_kept w0 w6) by by eapply rows_kept_trans.
    destruct e; [|by apply refuse_result..]. destruct (Contains _ _); by apply refuse_result.
  - intros id created updated w6 p' Hfresh Hw6 _. destruct H5 as [H5 _].
    eapply announce_result; [done|exact Hpsk|by rewrite <-H5|by rewrite <-H5].
Qed.
End insert.

(** C15: What a creation leaves behind.  Answered 201, exactly one row was
    added, under a fresh id: the record [BuildPendingPeer] builds for the
    request, with id, address, instants and status filled in, and the answer
    shows that status, the derived port and interface name and the pre-shared
    key stored.  Answered with an error, no row changed.  When the handler
    panics (the automatic approval set the row active and then could not read
    the node), the client sees a 500 and the row stays, already active. *)
Theorem Create_outcome (env : Env) (asn : Z) (body : option createPeerReq) (w : World) :
  let '(resp, w') := exec (Create_ env asn body) w in
  (∃ s c m, resp = ErrorJSON s c m ∧ w_peers w' = w_peers w)
  ∨ ∃ req node, body = Some req ∧ node_Enabled node = true ∧ w_nodes w !! cr_NodeID req = Some node
      ∧ create_result env asn req node w resp w'.
Proof.
  set (Q (r : Response) (w' : World) := (∃ s c m, r = ErrorJSON s c m ∧ w_peers w' = w_peers w)
    ∨ ∃ req node, body = Some req ∧ node_Enabled node = true ∧ w_nodes w !! cr_NodeID req = Some node
      ∧ create_result env asn req node w r w').
  destruct (exec _ _) as [resp w'] eqn:E. refine (wp_exec _ Q _ _ _ E _). clear E resp w'.
  assert (∀ s c m w', rows_kept w w' → wp (mret (ErrorJSON s c m)) Q w') as Herr.
  { intros s c m w' [Hp _]. apply wp_ret. left. eauto. }
  unfold Create_. apply wp_bind, wp_calm; [apply Calmly_Calm; calmly|]. intros en w1 H1%calm_rows.
  destruct (en =s "true"); simpl negb; cbv iota; [|by apply Herr]. destruct body as [req|]; [|by apply Herr].
  destruct (check_create req) eqn:Hc; [by apply Herr|].
  apply wp_bind, wp_query.
  2:{ intros e w2 H2%calm_rows. apply Herr. by eapply rows_kept_trans. }
  intros w2 H2%calm_rows. assert (rows_kept w w2) as Hw2 by by eapply rows_kept_trans.
  destruct (w_nodes w2 !! cr_NodeID req) as [node|] eqn:Hn; [|by apply Herr]. cbv beta iota zeta.
  destruct (node_Enabled node) eqn:Hen; simpl negb; cbv iota; [|by apply Herr].
  assert (∀ r w', create_result env asn req node w r w' → Q r w') as HQ.
  { intros r w' Hr. right. exists req, node. split_and!; try done. by destruct Hw2 as [_ <-]. }
  apply wp_withPeerLock.
  - intros w3 H3%calm_rows. apply HQ. destruct Hw2, H3. simpl. congruence.
  - intros r w3 w4 H4%calm_rows [(s & c & m & -> & Hp)|(rq & nd & E1 & E2 & E3 & E4)].
    + left. exists s, c, m. split; [done|]. destruct H4. congruence.
    + right. exists rq, nd. split_and!; try done. by eapply calm_result.
  - intros w3 H3%calm_rows. eapply wp_mono; [exact HQ|]. apply insert_result; [done|]. by eapply rows_kept_trans.
Qed.
