(* ===== verification/Safety.v ===== *)
(** * Requests running side by side

    The requests of operators, administrators and the bot as programs, and what
    holds in every interleaving of any number of them: a row never changes
    hands, and an operator's request touches nothing but that operator's
    peers. *)
From S2P Require Import Prelude GoLib Json Model Peering Lock Cache Effects World Store Rely Handler Wp Scenario Reconcile Inactivity Heartbeat AdminPeer UserPeer BotPeer.
From stdpp Require Import options.
Local Open Scope Z_scope.
Local Open Scope go_scope.

Inductive Request : Type :=
| HttpList (version : string) (asn : Z)
| HttpGet (version : string) (asn : Z) (peerID : string)
| HttpMetrics (asn : Z) (peerID hours : string)
| HttpSummary (asn : Z)
| HttpCreate (asn : Z) (body : option createPeerReq)
| HttpDelete (asn : Z) (peerID : string)
| HttpUpdate (asn : Z) (peerID : string) (body : option json)
| AdminApprove (peerID adminEmail : string)
| AdminReject (peerID adminEmail : string) (reason : option string)
| AdminSuspend (peerID adminEmail reason : string)
| AdminUnsuspend (peerID adminEmail : string)
| AdminDelete (peerID adminEmail : string)
| AdminUpdate (peerID adminEmail : string) (body : option json)
| AdminContactEmail (peerID adminEmail : string) (body : option (string * bool))
| AdminImportNode (nodeID adminEmail : string)
| AdminExport (adminEmail : string)
| AdminImport (adminEmail : string) (overwrite : bool) (entries : option (list peerExportEntry))
| AdminList (version status asn nodeID page perPage : string)
| BotCreate (payload : BotUserPeerCreatePayload)
| BotDelete (tg : Z) (peerID : string)
| BotUpdate (tg : Z) (peerID : string) (b : peerUpdateBody)
| BotAdminAction (action peerID reason : string)
| AgentHeartbeat (hub : HubEnv) (nodeID : string) (payload : option HeartbeatPayload)
| AgentUpdating (hub : HubEnv) (nodeID : string)
| AgentOnline (nodeID : string)
| AgentOffline (hub : HubEnv) (nodeID : string)
| AgentSync (nodeID : string)
| JobSweep (cfg : Config) (l : Locker)
| JobReconcile (l : Locker).

(** The operator a request acts for. *)
Definition acts_for (r : Request) : option Z :=
  match r with
  | HttpList _ asn | HttpGet _ asn _ | HttpMetrics asn _ _ | HttpSummary asn
  | HttpCreate asn _ | HttpDelete asn _ | HttpUpdate asn _ _ => Some asn
  | _ => None
  end.

Definition ignore {A} (p : M A) : M unit := p ;; mret tt.

Definition run (env : Env) (r : Request) : M unit :=
  match r with
  | HttpList v asn => ignore (UserPeer.List v asn)
  | HttpGet v asn id => ignore (Get_ v asn id)
  | HttpMetrics asn id h => ignore (Metrics asn id h)
  | HttpSummary asn => ignore (Summary asn)
  | HttpCreate asn body => ignore (Create_ env asn body)
  | HttpDelete asn id => ignore (UserPeer.Delete env asn id)
  | HttpUpdate asn id body => ignore (Update env asn id body)
  | AdminApprove id a => ignore (ApprovePeer env id a)
  | AdminReject id a r => ignore (RejectPeer env id a r)
  | AdminSuspend id a r => ignore (SuspendPeer env id a r)
  | AdminUnsuspend id a => ignore (UnsuspendPeer env id a)
  | AdminDelete id a => ignore (DeletePeer env id a)
  | AdminUpdate id a body => ignore (UpdatePeer env id a body)
  | AdminContactEmail id a body => ignore (UpdateContactEmail_ env id a body)
  | AdminImportNode n a => ignore (ImportNodePeers env n a)
  | AdminExport a => ignore (ExportPeers a)
  | AdminImport a o e => ignore (ImportPeers a o e)
  | AdminList v s a n p pp => ignore (ListPeers v s a n p pp)
  | BotCreate p => ignore (handleBotUserPeerCreate env p)
  | BotDelete tg id => ignore (handleBotUserPeerDelete env tg id)
  | BotUpdate tg id b => ignore (handleBotUserPeerUpdate env tg id b)
  | BotAdminAction a id r => ignore (handleBotAdminPeerAction a id r)
  | AgentHeartbeat hub n p => handleHeartbeat hub n p
  | AgentUpdating hub n => handleAgentUpdating hub n
  | AgentOnline n => node_came_online n
  | AgentOffline hub n => node_went_offline hub n
  | AgentSync n => pushPeersSync n
  | JobSweep cfg l => RunOnce cfg l Background
  | JobReconcile l => tick l Background
  end.

(** ** Walking through a handler *)
Lemma triple_seq {A B} Gp Ge `{!Reflexive Gp} P (p : M A) (g : A → M B) :
  triple Gp Ge P p (λ _, P) → (∀ a, triple Gp Ge P (g a) (λ _, P)) → triple Gp Ge P (p ≫= g) (λ _, P).
Proof. intros Hp Hg. by apply (triple_bind Gp Ge P p g (λ _, P)). Qed.

Lemma triple_Create_any Gp Ge `{!Reflexive Gp} `{!Stable P} ctx p :
  peer_ID p = "" →
  (∀ m id p', m !! id = None → peer_NodeID p' = peer_NodeID p → peer_RemoteASN p' = peer_RemoteASN p →
     Gp m (<[id := p']> m)) →
  triple Gp Ge P (Create ctx p) (λ _, P).
Proof.
  intros Hid HG. eapply triple_weaken; [done|..]; [by intros w HP; exact HP| |by apply triple_Create].
  by intros a w [? _].
Qed.

Lemma triple_get {A B} Gp Ge `{!Reflexive Gp} `{!Stable P} (φ : A → Prop) ctx f (g : result A → M B) Q :
  (∀ w x, db_ok w → P w → f w = Ok x → φ x) →
  (∀ e, triple Gp Ge P (g (Err e)) Q) → (∀ x, φ x → triple Gp Ge P (g (Ok x)) Q) →
  triple Gp Ge P (query ctx f ≫= g) Q.
Proof.
  intros Hφ He Ho. eapply triple_bind; [done|by apply (triple_query_post Gp Ge ctx f φ)|].
  intros [x|e]; (apply triple_pure; [done|]); intros Hx; [by apply Ho, Hx|apply He].
Qed.

Lemma built_fields rnd inp p em :
  BuildPendingPeer rnd inp = Ok p →
  peer_ID (assign (set_ContactEmail em) p) = ""
  ∧ peer_NodeID (assign (set_ContactEmail em) p) = in_NodeID inp
  ∧ peer_RemoteASN (assign (set_ContactEmail em) p) = in_ASN inp.
Proof. unfold BuildPendingPeer. repeat (case_match; try done); intros [= <-]; done. Qed.

(** A peer about to be inserted has no id yet. *)
Ltac built :=
  first [reflexivity
        | match goal with H : BuildPendingPeer _ _ = Ok _ |- _ => apply (built_fields _ _ _ _ H) end].

Lemma triple_push Gp Ge `{!Reflexive Gp} `{!Stable P} n es :
  Ge (EvSync n es) → triple Gp Ge P (act (push_step n es)) (λ _, P).
Proof.
  intros HG. apply triple_quiet; [done..|]. intros w. unfold push_step, draw_agent.
  assert (∀ w', quiet w w' → w_log w' = w_log w → ∀ a : Answer,
    quiet w (match a with Answered _ => emit [EvSync n es] w' | NoAnswer _ => w' end)
    ∧ ∃ evs, w_log (match a with Answered _ => emit [EvSync n es] w' | NoAnswer _ => w' end) = w_log w ++ evs
        ∧ Forall Ge evs) as H.
  { intros w' Hq Hl [e|m]; (split; [done|]); [exists []|exists [EvSync n es]]; simpl; rewrite Hl;
      rewrite ?app_nil_r; auto. }
  destruct (e_agent (w_ext w)) as [|[d a] l]; cbn [snd].
  - by apply (H w (conj eq_refl eq_refl) eq_refl (NoAnswer "")%string).
  - by apply (H (set_ext _ w)).
Qed.

(** One step of the walk: sequence, case analysis, or a primitive.  What a
    primitive needs of [Gp] and [Ge] is left to [auto]. *)
Ltac walk_op :=
  match goal with
  | |- triple _ _ _ (mret _) _ => apply triple_ret; [typeclasses eauto|done]
  | |- triple _ _ _ (withPeerLock _ _ _ _) _ => apply triple_withPeerLock; [typeclasses eauto|typeclasses eauto|]
  | |- triple _ _ _ (foldM _ _ _) _ => apply triple_foldM; [typeclasses eauto|intros ? ?]
  | |- triple _ _ _ (forM _ _) _ => apply triple_forM; [typeclasses eauto|intros ?]
  | |- triple _ _ _ (SendCommand _ _) _ => apply triple_SendCommand; [typeclasses eauto|typeclasses eauto|]
  | |- triple _ _ _ (auditLog _ _ _ _ _) _ => apply triple_audit; [typeclasses eauto|typeclasses eauto|]
  | |- triple _ _ _ (sendMail _ _ _) _ => apply triple_sendMail; [typeclasses eauto|typeclasses eauto|]
  | |- triple _ _ _ (notifyPeerBot _ _ _ _) _ => apply triple_notifyPeerBot; [typeclasses eauto|typeclasses eauto|]
  | |- triple _ _ _ (notifyBotAdmin _ _) _ => apply triple_notifyBotAdmin; [typeclasses eauto|typeclasses eauto|]
  | |- triple _ _ _ (notifyBotUser _ _ _) _ => apply triple_notifyBotUser; [typeclasses eauto|typeclasses eauto|]
  | |- triple _ _ _ (act (push_step _ _)) _ => apply triple_push; [typeclasses eauto|typeclasses eauto|]
  | |- triple _ _ _ (SetInactivityWarningStage _ _ _) _ => apply triple_columns; [typeclasses eauto|typeclasses eauto|reflexivity|]
  | |- triple _ _ _ (DeleteInactive _ _) _ => apply triple_DeleteInactive; [typeclasses eauto|typeclasses eauto|]
  | |- triple _ _ _ (MarkPeersActive _ _ _ _) _ => apply triple_MarkPeersActive; [typeclasses eauto|typeclasses eauto|]
  | |- triple _ _ _ (Node_SetAgentVersion _ _ _) _ => apply triple_kept; [typeclasses eauto|typeclasses eauto|done]
  | |- triple _ _ _ (Node_SetAgentState _ _ _) _ => apply triple_kept; [typeclasses eauto|typeclasses eauto|done]
  | |- triple _ _ _ (Node_SetOnline _ _ _) _ => apply triple_kept; [typeclasses eauto|typeclasses eauto|done]
  | |- triple _ _ _ (InsertNodeMetric _ _) _ =>
      apply triple_kept; [typeclasses eauto|typeclasses eauto|intros ?; repeat case_match; done]
  | |- triple _ _ _ (InsertPeerMetricFromHeartbeat _ _ _ _ _) _ =>
      apply triple_kept; [typeclasses eauto|typeclasses eauto|intros ?; repeat case_match; done]
  | |- triple _ _ _ (cacheGet _ _ _) _ => apply triple_cacheGet; typeclasses eauto
  | |- triple _ _ _ (cachePut _ _ _ _) _ => apply triple_cachePut; typeclasses eauto
  | |- triple _ _ _ (cacheDelete _ _) _ => apply triple_cacheDelete; typeclasses eauto
  | |- triple _ _ _ (cacheIncInt _ _ _) _ => apply triple_cacheIncInt; typeclasses eauto
  | |- triple _ _ _ rand_read _ => apply triple_rand_read; typeclasses eauto
  | |- triple _ _ _ (lockAcquire _ _ _) _ => apply triple_lockAcquire; typeclasses eauto
  | |- triple _ _ _ (leaseRelease _) _ => apply triple_leaseRelease; typeclasses eauto
  | |- triple _ _ _ (gets _) _ => apply triple_gets; typeclasses eauto
  | |- triple _ _ _ now_ _ => apply triple_gets; typeclasses eauto
  | |- triple _ _ _ (UpdateStatus _ _ _ _) _ => apply triple_UpdateStatus; [typeclasses eauto|typeclasses eauto|reflexivity|]
  | |- triple _ _ _ (UpdateFields _ _ _) _ => apply triple_UpdateFields; [typeclasses eauto|typeclasses eauto|reflexivity|]
  | |- triple _ _ _ (UpdateContactEmail _ _ _) _ => apply triple_update_plain; [typeclasses eauto|typeclasses eauto|reflexivity|]
  | |- triple _ _ _ (Delete_ _ _) _ => apply triple_Delete_; [typeclasses eauto|typeclasses eauto|]
  | |- triple _ _ _ (ImportPeer _ _) _ => apply triple_ImportPeer; [typeclasses eauto|typeclasses eauto|]
  | |- triple _ _ _ (ImportPeerFull _ _ _) _ => apply triple_ImportPeerFull; [typeclasses eauto|typeclasses eauto|]
  | |- triple _ _ _ (Create _ _) _ => apply triple_Create_any; [typeclasses eauto|typeclasses eauto|built|]
  | |- triple _ _ _ (match BuildPendingPeer ?rnd ?inp with _ => _ end) _ =>
      destruct (BuildPendingPeer rnd inp) eqn:?
  | |- triple _ _ _ (match ?x with _ => _ end) _ => destruct x
  | |- triple _ _ _ ?p _ =>
      (* a reading method, or a helper to unfold *)
      first [apply triple_query; typeclasses eauto
            | let h := get_head p in unfold h]
  end.
Ltac walk_step :=
  cbv beta iota zeta;
  match goal with
  | |- triple _ _ _ (_ ≫= _) _ => apply triple_seq; [typeclasses eauto| |intros ?]
  | _ => walk_op
  end.
Ltac walk := repeat (walk_step; lazymatch goal with |- triple _ _ _ _ _ => idtac | _ => try done end).

(** ** No guarantee but the invariant *)
Definition any_rows (_ _ : gmap string Peer) : Prop := True.
Definition any_event (_ : event) : Prop := True.
#[export] Instance any_rows_refl : Reflexive any_rows.
Proof. done. Qed.

Lemma sync_nodes_any ctx nodes :
  triple any_rows any_event (λ _, True) (sync_nodes ctx nodes) (λ _ _, True).
Proof. induction nodes as [|n nodes IH]; cbn [sync_nodes]; [walk|]. repeat (apply IH || walk_step); done. Qed.

Lemma run_any env r : triple any_rows any_event (λ _, True) (run env r) (λ _ _, True).
Proof.
  destruct r; cbn [run]; unfold ignore;
    repeat (apply sync_nodes_any || walk_step; lazymatch goal with |- triple _ _ _ _ _ => idtac | _ => try done end).
Qed.

(** C2: A peer never changes hands: whatever requests of operators,
    administrators and the bot, agent reports, sweeps and reconciliation passes
    (those of [Request]) run side by side, on any replicas, with statements,
    agents and the lock server failing as they please, a row that is still
    stored belongs to the node and the ASN it belonged to at the start, although
    an UPDATE could assign both columns. *)
Theorem rows_keep_owner (reqs : list (Env * Request)) (w0 : World) (c : World * list (M unit))
    (id : string) (p p' : Peer)
  (Hok : db_ok w0) (Hp : w_peers w0 !! id = Some p)
  (Hrun : pool_steps (w0, map (λ er, run er.1 er.2) reqs) c) (Hp' : w_peers c.1 !! id = Some p') :
  peer_NodeID p' = peer_NodeID p ∧ peer_RemoteASN p' = peer_RemoteASN p.
Proof.
  destruct (pool_safe evolves (λ _, guar any_rows any_event) (λ _ _ w, db_ok w ∧ True) w0
    (map (λ er, run er.1 er.2) reqs) c) as (Hev & _); [by intros _ w w' [? _]|..].
  - intros _ _ w w' He [Hw _]. split; [by apply He|done].
  - intros i q Hi. apply list_lookup_fmap_Some in Hi as ([env r] & -> & _). by apply run_any.
  - done.
  - destruct (ev_rows _ _ Hev id p' Hp') as [(q & Hq & _ & E1 & E2)|Hin]; [by simplify_eq|].
    destruct (ok_uuid w0 Hok id Hin) as [Hn _]. congruence.
Qed.

(** An administrator replaces p1's key while its operator and a second
    administrator act on it too. *)
Definition busy_day : list (Env * Request) :=
  [(sample_env, AdminUpdate "p1" "a@example.org" (Some (JObj [("remote_pubkey", JStr "AAAAAAAAAAAAAAAAAAAAAAAAAAAAAAAAAAAAAAAAAAA=")])));
   (sample_env, AdminApprove "p1" "b@example.org"); (sample_env, HttpDelete 4242420002 "p2")].
Lemma rows_keep_owner_witness :
  let w := sample "pending" [] [accepts; accepts] in
  let c := schedule (replicate 20 0 ++ [1; 2; 1; 2; 1; 2; 2; 2])%nat (w, map (λ er, run er.1 er.2) busy_day) in
  ∃ p', w_peers c.1 !! "p1" = Some p' ∧ peer_NodeID p' = "node-1" ∧ peer_RemoteASN p' = 4242420001
    ∧ peer_RemotePubkey p' = "AAAAAAAAAAAAAAAAAAAAAAAAAAAAAAAAAAAAAAAAAAA=" ∧ w_peers c.1 !! "p2" = None.
Proof.
  intros w c. destruct (w_peers c.1 !! "p1") as [p'|] eqn:Hp'; [|exfalso; revert Hp'; vm_compute; discriminate].
  exists p'. split; [reflexivity|].
  destruct (rows_keep_owner busy_day w c "p1" (peer1 "pending") p') as [-> ->].
  - apply sample_ok.
  - reflexivity.
  - apply schedule_steps.
  - exact Hp'.
  - split; [reflexivity|]. split; [reflexivity|]. split; [|vm_compute; reflexivity].
    enough (peer_RemotePubkey <$> w_peers c.1 !! "p1" = Some "AAAAAAAAAAAAAAAAAAAAAAAAAAAAAAAAAAAAAAAAAAA=") as H by (rewrite Hp' in H; by injection H).
    vm_compute. reflexivity.
Defined.

(** ** Acting for one operator *)
Definition own_rows (asn : Z) (m m' : gmap string Peer) : Prop :=
  ∀ id p, peer_RemoteASN p ≠ asn → m !! id = Some p ↔ m' !! id = Some p.
Definition names (asn : Z) (vars : obj) : Prop := ("asn", JNum asn) ∈ vars.
Definition own_event (asn : Z) (e : event) : Prop :=
  match e with
  | EvCmd _ (TypePeerAdd pl) _ => pa_ASN pl = asn
  | EvCmd _ (TypePeerRemove _ a) _ => a = asn
  | EvCmd _ _ _ | EvSync _ _ | EvBotAdmin _ _ | EvBotUser _ _ _ => False
  | EvBotPeer a _ _ _ => a = asn
  | EvAudit _ op target detail =>
      is_Some target ∧ (op = operator_of asn ∨ op = "system:auto-approve" ∧ names asn detail)
  | EvMail _ _ vars => names asn vars
  end.
#[export] Instance own_rows_refl asn : Reflexive (own_rows asn).
Proof. done. Qed.

Lemma own_put asn id w p p' :
  owned asn id w → w_peers w !! id = Some p → same_key p p' →
  own_rows asn (w_peers w) (<[id := p']> (w_peers w)).
Proof.
  intros [_ Ho] Hp (_ & _ & E) i q Hne. rewrite lookup_insert. case_decide; [|done].
  subst i. split; intros; simplify_eq; exfalso; apply Hne; [|rewrite <-E]; eauto.
Qed.
Lemma own_delete asn id w : owned asn id w → own_rows asn (w_peers w) (delete id (w_peers w)).
Proof.
  intros [_ Ho] i q Hne. destruct (decide (id = i)) as [->|Hi].
  - rewrite lookup_delete_eq. split; [|done]. intros Hq. exfalso. eauto.
  - by rewrite lookup_delete_ne.
Qed.
Lemma own_insert asn (m : gmap string Peer) id (p : Peer) :
  m !! id = None → peer_RemoteASN p = asn → own_rows asn m (<[id := p]> m).
Proof.
  intros Hm Ha i q Hne. rewrite lookup_insert. case_decide; [|done].
  subst. split; intros; simplify_eq.
Qed.

Section owner.
Context (asn : Z).
Local Notation triple := (triple (own_rows asn) (own_event asn)).

Lemma triple_get_owned {A} ctx id (g : result Peer → M A) :
  (∀ e, triple (λ _, True) (g (Err e)) (λ _ _, True)) →
  (∀ p, peer_ID p = id → peer_RemoteASN p = asn → triple (owned asn id) (g (Ok p)) (λ _, owned asn id)) →
  triple (λ _, True) (GetByIDAndASN ctx id asn ≫= g) (λ _ _, True).
Proof.
  intros He Ho. eapply triple_bind; [done| |].
  - apply (triple_stmt _ _ ctx Err _ (λ r w, ∀ p, r = Ok p → peer_ID p = id ∧ peer_RemoteASN p = asn ∧ owned asn id w));
      [done|]. intros w Hok _. split; [by apply guar_refl|]. simpl. intros p.
    destruct (w_peers w !! id) as [q|] eqn:Hq; [|done]. case_match; [|done]. intros [= ->]. boolify.
    split; [by eapply ok_keyed|]. split; [done|]. subst. by apply owned_row.
  - intros [p|e].
    + intros w Hok Hw. destruct (Hw p eq_refl) as (E1 & E2 & Hown).
      eapply (safe_weaken evolves); [done| |by apply (Ho p E1 E2)]. by intros a w' [? _].
    + intros w Hok _. by apply He.
Qed.

Lemma triple_create_owned {A} ctx p (g : dberr + Peer → M A) :
  peer_ID p = "" → peer_RemoteASN p = asn →
  (∀ e, triple (λ _, True) (g (inl e)) (λ _ _, True)) →
  (∀ q, triple (owned asn (peer_ID q)) (g (inr q)) (λ _, owned asn (peer_ID q))) →
  triple (λ _, True) (Create ctx p ≫= g) (λ _ _, True).
Proof.
  intros Hid Ha He Ho. eapply triple_bind; [done|apply triple_Create; [done..|]|].
  - intros m id p' Hm _ E. apply own_insert; congruence.
  - intros [e|q]; intros w Hok [_ Hw]; [by apply He|].
    eapply (safe_weaken evolves); [done| |apply (Ho q w Hok); rewrite <-Ha; by apply Hw].
    by intros a w' [? _].
Qed.
End owner.

(** Mails and audit rows that name the operator. *)
Ltac own_names :=
  cbn [own_event]; unfold names;
  first [apply list_elem_of_here
        | split; [eexists; reflexivity|];
          first [left; reflexivity|right; split; [reflexivity|apply list_elem_of_here]]].

Lemma own_approve asn env ctx id :
  triple (own_rows asn) (own_event asn) (owned asn id) (approvePeerCore env ctx id "system:auto-approve")
    (λ _, owned asn id).
Proof.
  unfold approvePeerCore. eapply (triple_get _ _ (λ p, peer_RemoteASN p = asn)).
  - intros w p Hok [_ Ho]. case_match; [|done]. intros [= <-]. by apply Ho.
  - intros e. walk.
  - intros p <-. walk. all: try (intros; by eapply own_put). all: own_names.
Qed.

(** The walk for an operator: reading a peer of one's own, or creating one,
    gives the right to act on it. *)
Ltac own_step :=
  cbv beta iota zeta;
  match goal with
  | |- triple _ _ (λ _, True) (GetByIDAndASN _ _ _ ≫= _) _ => apply triple_get_owned; [intros ?|intros ? ? ?]
  | |- triple _ _ (λ _, True) (Create _ _ ≫= _) _ =>
      apply triple_create_owned; [reflexivity|reflexivity|intros ?|intros ?]
  | |- triple _ _ _ (approvePeerCore _ _ _ _) _ => apply own_approve
  | |- triple _ _ _ _ _ => walk_step
  | _ => solve [done|intros; by eapply own_put|intros; by eapply own_delete|own_names]
  end.

Lemma run_own asn env r :
  acts_for r = Some asn → triple (own_rows asn) (own_event asn) (λ _, True) (run env r) (λ _ _, True).
Proof.
  intros Hr. destruct r; cbn [acts_for] in Hr; simplify_eq; cbn [run]; unfold ignore; repeat own_step.
Qed.

(** ** The inactivity sweep *)

(** A step of a sweep changes warning stages, or removes a row that is at the
    final stage at that instant. *)
Definition sweep_rows (m m' : gmap string Peer) : Prop :=
  (∀ id p, m !! id = Some p →
     m' !! id = Some p
     ∨ (∃ s, m' !! id = Some (assign (set_InactivityWarningStage s) p))
     ∨ m' !! id = None ∧ peer_InactivityWarningStage p = 3)
  ∧ ∀ id, m !! id = None → m' !! id = None.
Definition sweep_event (e : event) : Prop :=
  match e with
  | EvCmd _ (TypePeerRemove _ _) _ | EvAudit _ _ _ _ | EvMail _ _ _ | EvBotUser _ _ _ => True
  | _ => False
  end.
#[export] Instance sweep_rows_refl : Reflexive sweep_rows.
Proof. split; auto. Qed.

Lemma sweep_rows_stage (m : gmap string Peer) id p s :
  m !! id = Some p → sweep_rows m (<[id := assign (set_InactivityWarningStage s) p]> m).
Proof.
  intros Hp. split.
  - intros i q Hq. destruct (decide (i = id)) as [->|Hi]; [|left; by rewrite lookup_insert_ne].
    right. left. exists s. rewrite lookup_insert_eq. by simplify_eq.
  - intros i Hi. rewrite lookup_insert_ne; [done|]. intros ->. congruence.
Qed.
Lemma sweep_rows_delete (m : gmap string Peer) id p :
  m !! id = Some p → peer_InactivityWarningStage p = 3 → sweep_rows m (delete id m).
Proof.
  intros Hp Hs. split.
  - intros i q Hq. destruct (decide (i = id)) as [->|Hi]; [|left; by rewrite lookup_delete_ne].
    right. right. rewrite lookup_delete_eq. by simplify_eq.
  - intros i Hi. destruct (decide (i = id)) as [->|Hne]; [apply lookup_delete_eq|by rewrite lookup_delete_ne].
Qed.

Lemma run_sweep env cfg l :
  triple sweep_rows sweep_event (λ _, True) (run env (JobSweep cfg l)) (λ _ _, True).
Proof.
  cbn [run]. unfold RunOnce, withLock.
  repeat (walk_step; lazymatch goal with
    | |- triple _ _ _ _ _ => idtac
    | _ => try solve [done|intros; by apply sweep_rows_stage|intros; by eapply sweep_rows_delete]
    end).
Qed.

(** ** What each step of a request guarantees *)
Definition guarantee (r : Request) : World → World → Prop :=
  match r with
  | JobSweep _ _ => guar sweep_rows sweep_event
  | _ => match acts_for r with
         | Some asn => guar (own_rows asn) (own_event asn)
         | None => guar any_rows any_event
         end
  end.

Lemma run_guarantee env r w :
  db_ok w → safe evolves (guarantee r) (λ _ w', db_ok w' ∧ True) (run env r) w.
Proof.
  intros Hok. destruct (acts_for r) as [asn|] eqn:E.
  - replace (guarantee r) with (guar (own_rows asn) (own_event asn)) by (unfold guarantee; rewrite E; by destruct r).
    by apply (run_own asn env r E w Hok).
  - destruct r; try done; try (by apply (run_any env _ w Hok)). by apply (run_sweep env cfg l w Hok).
Qed.

Lemma guarantee_evolves r w w' : guarantee r w w' → evolves w w'.
Proof. unfold guarantee. repeat case_match; by intros [? _]. Qed.

(** Any step of any request among others. *)
Lemma step_guarantee reqs w0 c c' i env r :
  db_ok w0 → reqs !! i = Some (env, r) →
  pool_steps (w0, map (λ er : Env * Request, run er.1 er.2) reqs) c → pool_step c i c' →
  guarantee r c.1 c'.1.
Proof.
  intros Hok Hi Hrun Hstep.
  set (G (i : nat) := match reqs !! i with Some er => guarantee er.2 | None => guar any_rows any_event end).
  destruct (pool_safe evolves G (λ _ _ w, db_ok w ∧ True) w0
    (map (λ er, run er.1 er.2) reqs) c) as (_ & _ & Hst).
  - unfold G. intros j w w'. destruct (reqs !! j); [apply guarantee_evolves|by intros [? _]].
  - intros _ _ w w' He [Hw _]. split; [by apply He|done].
  - intros j p Hj. apply list_lookup_fmap_Some in Hj as ([env' r'] & -> & Hj).
    unfold G. rewrite Hj. by apply run_guarantee.
  - done.
  - specialize (Hst i c' Hstep). unfold G in Hst. by rewrite Hi in Hst.
Qed.

(** C3: Tenant isolation in every interleaving: each step of a request made by
    the operator of an ASN leaves the peer rows of all other ASNs exactly as
    they are, sends agents commands about that ASN only, notifies that ASN's bot
    user only, mails only what names that ASN, and writes audit rows in the
    operator's name only (or, for the automatic approval, rows that name the
    ASN), whatever else is running. *)
Theorem operator_isolation (reqs : list (Env * Request)) (w0 : World) (c c' : World * list (M unit))
    (i : nat) (env : Env) (r : Request) (asn : Z)
  (Hok : db_ok w0) (Hi : reqs !! i = Some (env, r)) (Hr : acts_for r = Some asn)
  (Hrun : pool_steps (w0, map (λ er, run er.1 er.2) reqs) c) (Hstep : pool_step c i c') :
  own_rows asn (w_peers c.1) (w_peers c'.1)
  ∧ ∃ evs, w_log c'.1 = w_log c.1 ++ evs ∧ Forall (own_event asn) evs.
Proof.
  pose proof (step_guarantee reqs w0 c c' i env r Hok Hi Hrun Hstep) as H.
  unfold guarantee in H. rewrite Hr in H. destruct r; try discriminate Hr; by destruct H as (_ & ? & ?).
Qed.

(** The operator of AS4242420001 deletes a peer while the other is suspended. *)
Definition two_tenants : list (Env * Request) :=
  [(sample_env, HttpDelete 4242420001 "p1"); (sample_env, AdminSuspend "p2" "a@example.org" "abuse")].
Lemma operator_isolation_witness :
  let c := schedule [0; 1; 0; 1; 1; 0]%nat (sample "active" [] [accepts; accepts],
             map (λ er, run er.1 er.2) two_tenants) in
  let c' := schedule [0%nat] c in
  w_peers c.1 !! "p1" ≠ None ∧ w_peers c'.1 !! "p1" = None
  ∧ own_rows 4242420001 (w_peers c.1) (w_peers c'.1).
Proof.
  intros c c'. split; [vm_compute; discriminate|]. split; [vm_compute; reflexivity|].
  refine (proj1 (operator_isolation two_tenants (sample "active" [] [accepts; accepts]) c c' 0 sample_env
    (HttpDelete 4242420001 "p1") 4242420001 _ eq_refl eq_refl _ _)).
  - apply sample_ok.
  - apply schedule_steps.
  - apply turn_step. vm_compute. reflexivity.
Defined.

(** C35: Rejection is not serialised with approval (it takes no peer lock): a
    rejection that read the pending row before an approval ran stores
    [rejected] afterwards, both requests run to the end, and the agent keeps carrying
    the peer although every command was accepted. *)
Theorem reject_races_approve :
  let w := sample "pending" [] [accepts] in
  ∃ c, pool_steps (w, [run sample_env (AdminApprove "p1" "a@example.org");
                       run sample_env (AdminReject "p1" "b@example.org" (Some "no contact"))]) c
    ∧ c.2 = [mret tt; mret tt]
    ∧ in_sync w "p1"
    ∧ peer_Status <$> (w_peers c.1 !! "p1") = Some "rejected"
    ∧ agent_view (w_log c.1) "node-1" "p1" = Configured (Some (payload_of "p1" (peer1 "active"))).
Proof.
  intros w. eexists. split; [apply (schedule_steps ([1] ++ replicate 8 0 ++ replicate 12 1)%nat)|].
  split; [vm_compute; reflexivity|]. split; [apply sample_in_sync|]. split; vm_compute; reflexivity.
Qed.

(** C21: The guard of the inactivity sweep in every interleaving: each of its
    steps leaves every row as it is but for the warning stage, or removes a row
    that is at the final stage at that very instant (a heartbeat that resets
    the stage after the final warning saves the peer), adds no row, and sends
    agents nothing but removals. *)
Theorem sweep_guarded (reqs : list (Env * Request)) (w0 : World) (c c' : World * list (M unit))
    (i : nat) (env : Env) (cfg : Config) (l : Locker)
  (Hok : db_ok w0) (Hi : reqs !! i = Some (env, JobSweep cfg l))
  (Hrun : pool_steps (w0, map (λ er, run er.1 er.2) reqs) c) (Hstep : pool_step c i c') :
  sweep_rows (w_peers c.1) (w_peers c'.1)
  ∧ ∃ evs, w_log c'.1 = w_log c.1 ++ evs ∧ Forall sweep_event evs.
Proof. by destruct (step_guarantee reqs w0 c c' i env (JobSweep cfg l) Hok Hi Hrun Hstep) as (_ & ? & ?). Qed.

(** A world in which both peers have been silent for 61 days. *)
Definition silent_world : World := set_locks (MkRedis ∅ (61 * Day)) ∅ (sample "active" [] [accepts; accepts]).
Definition policy : Config := NewWorker (MkConfig true 0 0 0 false).

Lemma sweep_guarded_witness :
  let c := schedule (replicate 5 0)%nat (silent_world, [run sample_env (JobSweep policy NilLocker)]) in
  let c' := schedule [0%nat] c in
  w_peers c.1 !! "p1" ≠ None ∧ w_peers c'.1 !! "p1" = None ∧ sweep_rows (w_peers c.1) (w_peers c'.1).
Proof.
  intros c c'. split; [vm_compute; discriminate|]. split; [vm_compute; reflexivity|].
  refine (proj1 (sweep_guarded [(sample_env, JobSweep policy NilLocker)] silent_world c c' 0 sample_env policy NilLocker
    _ eq_refl _ _)).
  - apply db_okb_ok. vm_compute. reflexivity.
  - apply schedule_steps.
  - apply turn_step. vm_compute. reflexivity.
Defined.
