(* ===== verification/McpScenario.v ===== *)
(** * Concrete MCP sessions

    A small deployment with open sessions of two operators, and the messages at
    which the theorems on the MCP servers are applied. *)
From S2P Require Import Prelude GoLib GoNet Json Model Lock Cache Effects World Store Rely Handler Scenario Login Decode McpStore Mcp McpTools McpKeys McpUser McpAdmin.
From stdpp Require Import options.
Local Open Scope Z_scope.
Local Open Scope go_scope.

Definition mcp_env : McpEnv := MkMcpEnv false (λ s, (String.length s =? 36)%nat) (Some "secret").
(** Hashing that keeps the text, and texts that say nothing. *)
Definition mcp_digest : Digest := {| sha256 l := l; mac_sha256 _ l := l |}.
Definition mcp_text : JsonText := {| json_text _ := []; json_parse _ := None |}.
(** Tools of administrators that answer nothing. *)
Definition mcp_others : string → AdminToolHandler := λ _ _ _, mret (Ok (DVal JNull)).

Definition mcp_session (asn : Z) (id : string) (caps : list string) : Sse := MkSse (User asn) id ("key-" +:+ id) caps [] 0.
Definition mcp_heap_ : list Sse :=
  [mcp_session 4242420001 "s1" ["read:peers"; "write:peer:cancel_pending"; "write:operation:create"];
   mcp_session 4242420002 "s2" ["read:peers"]].
Definition mcp_world (w : World) : MSt :=
  MkMSt (MkMcpDB ∅ ∅ ∅ [] ∅ ∅) (MkMcpMem mcp_heap_ (<["s1" := 0%nat]> {["s2" := 1%nat]}) ∅ ∅ []) w.
(** A peer awaiting approval, and a process that is up. *)
Definition mcp_sample (status : string) : MSt := mcp_world (sample status [] [accepts; accepts]).

Definition rpc (method : string) (params : obj) : json :=
  JObj [("jsonrpc", JStr "2.0"); ("id", JNum 1); ("method", JStr method); ("params", JObj params)].
Definition rpc_call (tool : string) (args : obj) : json :=
  rpc "tools/call" [("name", JStr tool); ("arguments", JObj args)].
Definition cancel_call (id : string) : json :=
  rpc_call "peer_cancel_pending" [("id", JStr id); ("idempotency_key", JStr "0123456789abcdef")].
