(* ===== verification/McpSafety.v ===== *)
(** * The MCP servers among other requests

    What a message to the operators' server can do, whatever runs beside it: it
    stays within its operator and within the capabilities of its session. *)
From S2P Require Import Prelude GoLib Json Model Peering Lock Cache Effects World Store Rely Handler Scenario AdminPeer UserPeer BotPeer Decode McpStore Mcp McpTools McpKeys McpUser McpAdmin Assistant Safety Login.
From stdpp Require Import options.
Local Open Scope Z_scope.
Local Open Scope go_scope.

(** ** Session objects *)

(** They stay where they are, and what identifies them never changes; a queue
    holds no more than its channel does, and no more calls are served at once
    than the semaphore admits. *)
Definition same_session (x y : Sse) : Prop :=
  ss_actor x = ss_actor y ∧ ss_sessionID x = ss_sessionID y ∧ ss_keyID x = ss_keyID y ∧ ss_capabilities x = ss_capabilities y.
Definition bounded (x : Sse) : Prop := (length (ss_ch x) ≤ ch_size)%nat ∧ (ss_sem x ≤ sem_size)%nat.
Record heap_evolves (h h' : list Sse) : Prop := {
  he_same : ∀ a x, h !! a = Some x → ∃ y, h' !! a = Some y ∧ same_session x y;
  he_bounded : Forall bounded h → Forall bounded h'
}.
#[export] Instance heap_evolves_preorder : PreOrder heap_evolves.
Proof.
  split; [by intros h; split; [intros a x Hx; exists x|]|].
  intros h1 h2 h3 [S1 B1] [S2 B2]. split; [|by auto]. intros a x Hx.
  destruct (S1 a x Hx) as (y & Hy & I1 & I2 & I3 & I4). destruct (S2 a y Hy) as (z & Hz & J1 & J2 & J3 & J4).
  exists z. unfold same_session. split_and!; [done|congruence..].
Qed.
Lemma heap_alter h a x y : h !! a = Some x → same_session x y → (bounded x → bounded y) → heap_evolves h (<[a := y]> h).
Proof.
  intros Hx Hs Hb. split.
  - intros i z Hz. destruct (decide (a = i)) as [<-|Hn].
    + exists y. rewrite list_lookup_insert_eq by (by eapply lookup_lt_Some). split; [done|]. congruence.
    + exists z. by rewrite list_lookup_insert_ne.
  - intros Hf. apply Forall_insert; [done|]. apply Hb. by eapply Forall_lookup_1.
Qed.
Lemma heap_push h x : bounded x → heap_evolves h (h ++ [x]).
Proof.
  intros Hx. split; [|by intros; apply Forall_app; auto]. intros a y Hy. exists y. split; [|done]. by apply lookup_app_l_Some.
Qed.

(** ** Steps that leave peers, operations and the log alone, and approve nothing *)
Definition wsteady (w w' : World) : Prop :=
  w_db w' = w_db w ∧ w_log w' = w_log w ∧ w_uuid w' `suffix_of` w_uuid w.
Record msteady (s s' : MSt) : Prop := {
  st_world : wsteady (m_world s) (m_world s');
  st_ops : m_ops s' = m_ops s;
  st_heap : heap_evolves (m_heap s) (m_heap s');
  st_approvals : dom (m_approvals s') ⊆ dom (m_approvals s)
}.
#[export] Instance msteady_preorder : PreOrder msteady.
Proof.
  split; [by intros s; split|]. intros s1 s2 s3 [(A1 & A2 & A3) A4 A5 A6] [(B1 & B2 & B3) B4 B5 B6].
  split; [split_and!; [congruence..|]|congruence| |]; by etransitivity.
Qed.
Abbreviation steady := (all_acts msteady).
Abbreviation world_steady := (all_acts wsteady).

Lemma msteady_world s w :
  w_db w = w_db (m_world s) → w_log w = w_log (m_world s) → w_uuid w `suffix_of` w_uuid (m_world s) → msteady s (set_mworld w s).
Proof. by split. Qed.
Lemma msteady_heap s h : heap_evolves (m_heap s) h → msteady s (set_heap h s).
Proof. by split. Qed.
Lemma draw_db_steady s : msteady s (set_mworld (draw_db (m_world s)).2 s).
Proof. destruct (draw_db_quiet (m_world s)) as [[H1 H2] H3]. apply msteady_world; [done..|by rewrite H2]. Qed.
Lemma draw_redis_steady s : msteady s (set_mworld (draw_redis (m_world s)).2 s).
Proof. destruct (draw_redis_quiet (m_world s)) as [[H1 H2] H3]. apply msteady_world; [done..|by rewrite H2]. Qed.
Lemma mfresh_steady s : msteady s (mfresh s).2.
Proof.
  unfold mfresh. pose proof (draw_uuid_spec (m_world s)) as H. destruct (draw_uuid (m_world s)) as [[u|] w]; cbn [snd].
  - destruct H as (l & H1 & H2 & H3 & H4 & _). apply msteady_world; [done..|]. rewrite H1, H2. by apply suffix_cons_r.
  - subst w. by destruct s.
Qed.
Lemma steady_act {R} (f : MSt → R * MSt) : (∀ s, msteady s (f s).2) → steady (act f).
Proof. apply all_acts_act. Qed.
Lemma steady_gets {R} (f : MSt → R) : steady (gets f).
Proof. by apply steady_act. Qed.
Lemma steady_mstmt {R} ctx (onerr : string → R) (f : MSt → R * MSt) :
  (∀ s, msteady s (f s).2) → steady (mstmt ctx onerr f).
Proof.
  intros H. apply steady_act. intros s. unfold mstmt_step. destruct (expired _ _); [reflexivity|].
  pose proof (draw_db_steady s) as Hd. destruct (draw_db (m_world s)) as [[e|] w]; [done|]. etransitivity; [exact Hd|apply H].
Qed.
Lemma steady_mquery {R} ctx (f : MSt → result R) : steady (mquery ctx f).
Proof. by apply steady_mstmt. Qed.
(** A statement on a table of its own, after the draw of an id. *)
Lemma steady_fresh {R} ctx (onerr : string → R) (g : option string → MSt → R * MSt) :
  (∀ u s, msteady s (g u s).2) → steady (mstmt ctx onerr (λ s, let '(u, s1) := mfresh s in g u s1)).
Proof.
  intros H. apply steady_mstmt. intros s. pose proof (mfresh_steady s) as Hf. destruct (mfresh s) as [u s1].
  etransitivity; [exact Hf|apply H].
Qed.
Lemma steady_inworld {A} (p : M A) : world_steady p → steady (inworld p).
Proof. apply all_acts_along. intros s w' (H1 & H2 & H3). by apply msteady_world. Qed.
Lemma wsteady_uuid : world_steady (act draw_uuid).
Proof.
  split; [|done]. intros w. pose proof (draw_uuid_spec w) as H. destruct (draw_uuid w) as [[u|] w']; cbn [snd].
  - destruct H as (l & H1 & H2 & H3 & H4 & _). split_and!; [done..|]. rewrite H1, H2. by apply suffix_cons_r.
  - by subst.
Qed.
Lemma quiet_wsteady w w' : quiet w w' → w_log w' = w_log w → wsteady w w'.
Proof. intros [H1 H2] H3. split_and!; [done..|by rewrite H2]. Qed.
Lemma wsteady_rand : world_steady rand_read.
Proof. split; [|done]. intros w. destruct (draw_rnd_quiet w). by apply quiet_wsteady. Qed.
Lemma wsteady_query {R} ctx (f : World → result R) : world_steady (query ctx f).
Proof.
  split; [|done]. intros w. unfold stmt_step. destruct (expired _ _); [by apply quiet_wsteady|].
  destruct (draw_db_quiet w). destruct (draw_db w) as [[e|] w']; by apply quiet_wsteady.
Qed.
Lemma steady_enqueue a : steady (act (enqueue_step a)).
Proof.
  apply steady_act. intros s. unfold enqueue_step. pose proof (draw_redis_steady s) as H.
  destruct (draw_redis (m_world s)) as [down w]. destruct (isNil down); [|done]. etransitivity; [exact H|done].
Qed.
Lemma steady_LogAudit ctx a : steady (LogAudit ctx a).
Proof. apply (steady_fresh ctx Some (λ u s1, _)). intros [id|] s1; [|done]. by repeat case_match. Qed.
Lemma steady_CreateIdempotency ctx x : steady (CreateIdempotency ctx x).
Proof. apply (steady_fresh ctx Err (λ u s1, _)). intros [id|] s1; [|done]. by repeat case_match. Qed.
Lemma steady_CreateKey {O} get (put : gmap string (KeyRow O) → MSt → MSt) table ctx k :
  (∀ m s, msteady s (put m s)) → steady (CreateKey get put table ctx k).
Proof. intros H. apply (steady_fresh ctx Err (λ u s1, _)). intros [id|] s1; [|done]. repeat case_match; [done..|apply H]. Qed.
Lemma steady_CreateSession ctx x : steady (CreateSession ctx x).
Proof. apply steady_mstmt. intros s. by repeat case_match. Qed.
Lemma steady_alters ctx id :
  steady (CloseSession ctx id) ∧ steady (PingSession ctx id) ∧ steady (TouchUserKey ctx id) ∧ steady (TouchAdminKey ctx id).
Proof. by split_and!; apply steady_mstmt. Qed.
Lemma steady_CompleteIdempotency ctx id st rt ri r ec em : steady (CompleteIdempotency ctx id st rt ri r ec em).
Proof. by apply steady_mstmt. Qed.
Lemma steady_DeleteUserKey ctx id asn : steady (DeleteUserKey ctx id asn).
Proof. apply steady_mstmt. intros s. by repeat case_match. Qed.
Lemma steady_DeleteAdminKey ctx id admin : steady (DeleteAdminKey ctx id admin).
Proof. apply steady_mstmt. intros s. by repeat case_match. Qed.
Lemma steady_ForceDeleteUserKey ctx id : steady (ForceDeleteUserKey ctx id).
Proof. apply steady_mstmt. intros s. by repeat case_match. Qed.
Lemma steady_store d x : bounded x → steady (store_session d x).
Proof. intros Hx. apply steady_act. intros s. assert (heap_evolves (m_heap s) (m_heap s ++ [x])) by by apply heap_push. by destruct d. Qed.
(** An action on one session object. *)
Ltac on_session :=
  apply steady_act; intros s; cbn; repeat case_match; try reflexivity;
  cbn; apply msteady_heap; (eapply heap_alter; [eassumption|done|]); unfold bounded, ch_size, sem_size; cbn.
Lemma steady_take_message a : steady (take_message a).
Proof. on_session. intros [H1 H2]. rewrite H0 in H1. cbn in H1. split; [lia|done]. Qed.
Lemma steady_sendSSE a m : steady (sendSSE a m).
Proof. on_session. intros [H1 H2]. rewrite length_app. cbn. apply Nat.leb_le in H0. split; [lia|done]. Qed.
Lemma steady_sem a : steady (acquire_sem a) ∧ steady (release_sem a).
Proof. split; on_session; intros [H1 H2]; (split; [done|]); [apply Nat.leb_le in H0|]; lia. Qed.
Lemma steady_delete_stream d id : steady (act (λ s, (tt, set_streams d (delete id (streams d s)) s))).
Proof. apply steady_act. intros s. by destruct d. Qed.
Lemma steady_take_approval n : steady (take_approval n).
Proof. apply steady_act. intros s. split; [done..|]. cbn. rewrite dom_delete. set_solver. Qed.
Lemma steady_cleanup : steady cleanupAssistantApprovals.
Proof.
  apply all_acts_bind; [by apply steady_gets|]. intros now. apply steady_act. intros s. split; [done..|]. cbn. apply dom_filter_subseteq.
Qed.
Create HintDb steady.
#[export] Hint Resolve steady_gets steady_mquery wsteady_uuid wsteady_rand wsteady_query steady_enqueue steady_LogAudit
  steady_CreateIdempotency steady_CreateSession steady_CompleteIdempotency steady_DeleteUserKey steady_DeleteAdminKey
  steady_ForceDeleteUserKey steady_take_message steady_sendSSE steady_delete_stream steady_take_approval steady_cleanup : steady.
#[export] Hint Extern 1 (all_acts msteady (CloseSession ?c ?i)) => exact (proj1 (steady_alters c i)) : steady.
#[export] Hint Extern 1 (all_acts msteady (PingSession ?c ?i)) => exact (proj1 (proj2 (steady_alters c i))) : steady.
#[export] Hint Extern 1 (all_acts msteady (TouchUserKey ?c ?i)) => exact (proj1 (proj2 (proj2 (steady_alters c i)))) : steady.
#[export] Hint Extern 1 (all_acts msteady (TouchAdminKey ?c ?i)) => exact (proj2 (proj2 (proj2 (steady_alters c i)))) : steady.
#[export] Hint Extern 1 (all_acts msteady (acquire_sem ?a)) => exact (proj1 (steady_sem a)) : steady.
#[export] Hint Extern 1 (all_acts msteady (release_sem ?a)) => exact (proj2 (steady_sem a)) : steady.
#[export] Hint Extern 1 (all_acts msteady (CreateUserKey _ _)) => apply steady_CreateKey; done : steady.
#[export] Hint Extern 1 (all_acts msteady (CreateAdminKey _ _)) => apply steady_CreateKey; done : steady.

(** One step of the walk through a program of such actions. *)
Ltac steady_step :=
  cbv beta iota zeta;
  lazymatch goal with
  | |- all_acts _ (mret _) => exact I
  | |- all_acts _ (_ ≫= _) => apply all_acts_bind; [|intros ?]
  | |- all_acts _ (forM _ _) => apply all_acts_forM; intros ?
  | |- all_acts _ (foldM _ _ _) => apply all_acts_foldM; intros ? ?
  | |- all_acts _ (inworld _) => apply steady_inworld
  | |- all_acts _ (match ?x with _ => _ end) => destruct x eqn:?
  | |- all_acts _ ?p => first [solve [eauto 2 with steady nocore] | let h := get_head p in unfold h]
  end.
Ltac steady_walk := repeat steady_step.

Lemma steady_audit env e : steady (writeAuditLogDetailed env e).
Proof. unfold writeAuditLogDetailed, within, mnow. steady_walk. Qed.
Lemma steady_write env sid asn adm tool args ok msg : steady (writeAuditLog env sid asn adm tool args ok msg).
Proof. apply steady_audit. Qed.
#[export] Hint Resolve steady_audit steady_write : steady.

(** ** What a call may do *)
Definition mevolves (s s' : MSt) : Prop := evolves (m_world s) (m_world s') ∧ heap_evolves (m_heap s) (m_heap s').
#[export] Instance mevolves_preorder : PreOrder mevolves.
Proof. split; [by intros s|]. intros s1 s2 s3 [H1 H2] [H3 H4]. split; by etransitivity. Qed.
Lemma drawn_evolves w w' : w_db w' = w_db w → w_uuid w' `suffix_of` w_uuid w → evolves w w'.
Proof.
  intros Hd Hu. unfold w_peers in *. split; [|unfold w_peers; rewrite Hd; intros id p H; left; exists p; by split_and!|done].
  intros [K A O U N]. split; unfold w_peers in *; rewrite ?Hd; [done..| |].
  - intros id Hid. apply U. destruct Hu as [l ->]. set_solver.
  - destruct Hu as [l Hl]. rewrite Hl in N. by apply NoDup_app in N as (_ & _ & ?).
Qed.
Lemma msteady_evolves s s' : msteady s s' → mevolves s s'.
Proof. intros [(H1 & _ & H2) _ H3 _]. split; [by apply drawn_evolves|done]. Qed.

(** Of peers: only the operator's own, and rows appear, change or go only under
    the capability for it. *)
Definition may_rows (asn : Z) (may : string → Prop) (m m' : gmap string Peer) : Prop :=
  own_rows asn m m'
  ∧ ∀ id, match m !! id, m' !! id with
          | None, Some p => may "write:peer:create" ∧ peer_Status p = "pending"
          | Some _, None => may "write:peer:cancel_pending"
          | Some p, Some p' => p ≠ p' → may "write:peer:update_pending" ∧ peer_Status p' = peer_Status p
          | None, None => True
          end.
(** Of operations: new ones of the operator, for an administrator to review. *)
Definition may_ops (asn : Z) (may : string → Prop) (m m' : gmap string MCPOperation) : Prop :=
  ∀ id, m' !! id = m !! id
        ∨ m !! id = None ∧ may "write:operation:create"
          ∧ ∃ x, m' !! id = Some x ∧ op_ASN x = Some asn ∧ op_Status x = "pending_admin_review".
Definition no_event (e : event) : Prop := False.
#[export] Instance may_rows_refl asn may : Reflexive (may_rows asn may).
Proof. intros m. split; [done|]. intros id. by destruct (m !! id). Qed.
(** A step of the call. *)
Record may_step (asn : Z) (may : string → Prop) (s s' : MSt) : Prop := {
  ms_evolves : mevolves s s';
  ms_rows : may_rows asn may (w_peers (m_world s)) (w_peers (m_world s'));
  ms_ops : may_ops asn may (m_ops s) (m_ops s');
  ms_log : w_log (m_world s') = w_log (m_world s);
  ms_approvals : dom (m_approvals s') ⊆ dom (m_approvals s)
}.

Section confined.
Context (asn : Z) (may : string → Prop).
Abbreviation rows_triple := (triple (may_rows asn may) no_event (λ _, True)).

(** Among programs that keep the store, the program makes only such steps. *)
Definition confines {A} (p : Q A) : Prop :=
  ∀ s, db_ok (m_world s) → safe mevolves (may_step asn may) (λ _ s', db_ok (m_world s')) p s.

Lemma confines_ret {A} (a : A) : confines (mret a).
Proof. by intros s Hs. Qed.
Lemma confines_bind {A B} (p : Q A) (g : A → Q B) : confines p → (∀ a, confines (g a)) → confines (p ≫= g).
Proof. intros Hp Hg s Hs. eapply (safe_bind mevolves); [by apply Hp|]. intros a s' Hs'. by apply Hg. Qed.
Lemma msteady_may s s' : msteady s s' → may_step asn may s s'.
Proof.
  intros H. pose proof (msteady_evolves _ _ H) as He. destruct H as [(H1 & H2 & H3) H4 _ H6]. split; [done| | |done|done].
  - unfold w_peers. by rewrite H1.
  - rewrite H4. intros id. by left.
Qed.
Lemma confines_act {R} (f : MSt → R * MSt) : (∀ s, may_step asn may s (f s).2) → confines (act f).
Proof.
  intros H s Hs s1 He. split; [apply H|]. cbn. destruct (ms_evolves _ _ _ _ (H s1)) as [H1 _]. apply H1. by apply He.
Qed.
Lemma confines_steady {A} (p : Q A) : steady p → confines p.
Proof.
  intros Hp s. revert s. induction p as [a|R f k IH]; intros s Hs; [done|]. destruct Hp as [Hf Hk]. intros s1 He.
  split; [by apply msteady_may|]. apply IH; [apply Hk|]. destruct (msteady_evolves _ _ (Hf s1)) as [H1 _]. apply H1. by apply He.
Qed.
(** A program of the world. *)
Lemma confines_inworld {A} (p : M A) : rows_triple p (λ _ _, True) → confines (inworld p).
Proof.
  intros Hp s Hs. specialize (Hp (m_world s) Hs I). revert s Hs Hp. induction p as [a|R f k IH]; intros s Hs Hp; [done|].
  intros s1 He. destruct (Hp (m_world s1) (proj1 He)) as [(H1 & H2 & evs & H3 & H4) Hk].
  assert (evs = []) as -> by (by destruct evs; [|inversion H4]). cbn [along] in *.
  destruct (f (m_world s1)) as [r w'] eqn:E. cbn [fst snd] in *. split.
  - split; [by split|done|intros id; by left| |done]. cbn. by rewrite H3, app_nil_r.
  - apply IH; [|done]. cbn. apply H1. by apply He.
Qed.
Lemma confines_CreateOperation ctx x :
  may "write:operation:create" → op_ASN x = Some asn → op_Status x = "pending_admin_review" → confines (CreateOperation ctx x).
Proof.
  intros Hm Ha Hst. apply confines_act. intros s. unfold mstmt_step.
  destruct (expired _ _); [by apply msteady_may|].
  pose proof (draw_db_steady s) as Hd. destruct (draw_db (m_world s)) as [[e|] w]; [by apply msteady_may|]. cbn [snd] in Hd.
  pose proof (mfresh_steady (set_mworld w s)) as Hf. destruct (mfresh (set_mworld w s)) as [u s1]. cbn [snd] in Hf.
  assert (msteady s s1) as H1 by by etransitivity. clear Hd Hf.
  destruct u as [id|]; [|by apply msteady_may]. destruct (m_ops s1 !! id) eqn:Hid; cbn [isNil negb snd]; [by apply msteady_may|].
  destruct (msteady_may _ _ H1) as [He Hr _ Hl Ha']. split; [done..| |done|done].
  rewrite <- (st_ops _ _ H1). intros id'. change (m_ops (set_ops ?m _)) with m.
  destruct (decide (id = id')) as [<-|Hn]; [right|left; by rewrite lookup_insert_ne].
  split_and!; [done|done|]. exists (op_id id x). by rewrite lookup_insert_eq.
Qed.

(** ** The tools *)
Lemma may_insert (m : gmap string Peer) id p :
  may "write:peer:create" → m !! id = None → peer_RemoteASN p = asn → peer_Status p = "pending" → may_rows asn may m (<[id := p]> m).
Proof.
  intros Hm Hid Ha Hst. split; [by apply own_insert|]. intros id'. rewrite lookup_insert. case_decide as H.
  - subst id'. by rewrite Hid.
  - by destruct (m !! id').
Qed.
Lemma may_delete id w : may "write:peer:cancel_pending" → owned asn id w → may_rows asn may (w_peers w) (delete id (w_peers w)).
Proof.
  intros Hm Ho. split; [by apply own_delete|]. intros id'. rewrite lookup_delete. case_decide as H.
  - subst id'. by destruct (w_peers w !! id).
  - by destruct (w_peers w !! id').
Qed.
Lemma may_put id w p p' :
  may "write:peer:update_pending" → owned asn id w → w_peers w !! id = Some p → same_key p p' →
  peer_Status p' = peer_Status p → may_rows asn may (w_peers w) (<[id := p']> (w_peers w)).
Proof.
  intros Hm Ho Hp Hk Hst. split; [by eapply own_put|]. intros id'. rewrite lookup_insert. case_decide as H.
  - subst id'. by rewrite Hp.
  - by destruct (w_peers w !! id').
Qed.
End confined.

(** A creation inserts the row it was given, or changes nothing. *)
Lemma insert_row_rows p w :
  peer_ID p = "" → db_ok w →
  w_peers (insert_row p w).2 = w_peers w
  ∨ ∃ id p', w_peers w !! id = None ∧ w_peers (insert_row p w).2 = <[id := p']> (w_peers w)
      ∧ peer_RemoteASN p' = peer_RemoteASN p ∧ peer_Status p' = peer_Status p.
Proof.
  intros Hid Hok. unfold insert_row. rewrite Hid. cbn [bool_decide]. rewrite bool_decide_eq_true_2 by done.
  pose proof (draw_uuid_spec w) as Hd. destruct (draw_uuid w) as [[u|] w1]; cbv beta iota zeta; [|subst; by left].
  destruct Hd as (l & _ & _ & Hdb & _). assert (w_peers w1 = w_peers w) as Hp by (unfold w_peers; by rewrite Hdb).
  rewrite Hp. case_bool_decide as Hex; [by left|]. destruct (violation _ _ _); [by left|]. case_bool_decide; [|by left].
  right. eexists u, _. split; [by apply eq_None_not_Some|]. split; [done|]. by destruct p.
Qed.
(** The columns of a pending update keep the status. *)
Lemma mcp_update_status now (pk ep lla : option string) (mtu : option Z) p :
  let cs := set_UpdatedAt now :: map (sql_column now) (mcp_update_fields pk ep lla mtu) in
  peer_Status (assign_all cs p) = peer_Status p ∧ same_key p (assign_all cs p).
Proof. by destruct p, pk, ep, lla, mtu. Qed.

Section tools.
Context (asn : Z) (may : string → Prop).
Abbreviation rows_triple := (triple (may_rows asn may) no_event).

Lemma tr_create ctx p :
  may "write:peer:create" → peer_ID p = "" → peer_RemoteASN p = asn → peer_Status p = "pending" →
  rows_triple (λ _, True) (Create ctx p) (λ _ _, True).
Proof.
  intros Hm Hid Ha Hst. apply triple_stmt; [typeclasses eauto|typeclasses eauto|done|]. intros w Hok _. split; [|done].
  destruct (insert_row_guar any_rows no_event p w Hok Hid) as [(He & _ & Hl) _]; [done|]. split_and!; [done| |done].
  destruct (insert_row_rows p w Hid Hok) as [->|(id & p' & Hn & -> & H1 & H2)]; [done|].
  apply may_insert; [done|done|congruence..].
Qed.
Lemma tr_get_owned {A} ctx id (g : result Peer → M A) :
  (∀ e, rows_triple (λ _, True) (g (Err e)) (λ _ _, True)) →
  (∀ p, rows_triple (owned asn id) (g (Ok p)) (λ _ _, True)) →
  rows_triple (λ _, True) (GetByIDAndASN ctx id asn ≫= g) (λ _ _, True).
Proof.
  intros He Ho. eapply triple_bind; [typeclasses eauto| |].
  - apply (triple_stmt _ _ ctx Err _ (λ r w, ∀ p : Peer, r = Ok p → owned asn id w)); [done|].
    intros w Hok _. split; [apply guar_refl; typeclasses eauto|]. cbn. intros p. destruct (w_peers w !! id) as [q|] eqn:Hq; [|done].
    case_match; [|done]. intros [= ->]. boolify. subst. by apply owned_row.
  - intros [p|e]; intros w Hok Hw; [apply Ho; [done|by eapply Hw]|by apply He].
Qed.
Lemma tr_delete ctx id : may "write:peer:cancel_pending" → rows_triple (owned asn id) (Delete_ ctx id) (λ _ _, True).
Proof.
  intros Hm. eapply triple_weaken; [typeclasses eauto|intros w H; exact H|intros ? w _; exact I|].
  apply triple_Delete_; [typeclasses eauto|typeclasses eauto|]. intros w Ho. by apply may_delete.
Qed.
Lemma tr_update ctx id pk ep lla mtu :
  may "write:peer:update_pending" →
  rows_triple (owned asn id) (UpdateFields ctx id (mcp_update_fields pk ep lla mtu)) (λ _ _, True).
Proof.
  intros Hm. eapply triple_weaken; [typeclasses eauto|intros w H; exact H|intros ? w _; exact I|].
  apply triple_update_row; [typeclasses eauto|typeclasses eauto| |]; intros w p Ho Hp; destruct (mcp_update_status (w_now w) pk ep lla mtu p) as [H1 H2];
    [done|by apply may_put with p].
Qed.
End tools.

(** The walk through a tool. *)
Ltac tool_step :=
  cbv beta iota zeta;
  lazymatch goal with
  | |- triple _ _ _ (mret _) _ => apply triple_ret; [typeclasses eauto|done]
  | |- triple _ _ _ (GetByIDAndASN _ _ _ ≫= _) _ => apply tr_get_owned; [intros ?|intros ?]
  | |- triple _ _ _ (Delete_ _ _ ≫= _) _ => eapply triple_bind; [typeclasses eauto|by apply tr_delete|intros ?]
  | |- triple _ _ _ (UpdateFields _ _ _ ≫= _) _ => eapply triple_bind; [typeclasses eauto|by apply tr_update|intros ?]
  | |- triple _ _ _ (Create _ _ ≫= _) _ => eapply triple_bind; [typeclasses eauto|by apply tr_create|intros ?]
  | |- triple _ _ ?P (_ ≫= _) _ => apply (triple_bind _ _ P _ _ (λ _, P)); [|intros ?]
  | |- triple _ _ _ (match ?x with _ => _ end) _ => destruct x
  | |- triple _ _ _ ?p _ => first [apply triple_query; typeclasses eauto | let h := get_head p in unfold h]
  end.
Ltac tool_walk := repeat tool_step.
Ltac call_step :=
  cbv beta iota zeta;
  lazymatch goal with
  | |- confines _ _ (mret _) => apply confines_ret
  | |- confines _ _ (CreateOperation _ _) => apply confines_CreateOperation; done
  | |- confines _ _ (inworld _) => first [apply confines_steady; solve [eauto 2 with steady nocore] | apply confines_inworld; tool_walk]
  | |- confines _ _ (_ ≫= _) => apply confines_bind; [|intros ?]
  | |- confines _ _ (match ?x with _ => _ end) => destruct x
  | |- confines _ _ ?p => first [apply confines_steady; solve [eauto 2 with steady nocore] | let h := get_head p in unfold h]
  end.
Ltac call_walk := repeat call_step.

Lemma tool_confines asn (may : string → Prop) d ctx k args h :
  d ∈ userToolDefinitions → may (td_Capability d) → confines asn may (td_Handler d ctx k asn args h).
Proof.
  intros Hd. unfold userToolDefinitions in Hd. repeat (apply elem_of_cons in Hd as [->|Hd]); [..|by apply not_elem_of_nil in Hd];
    cbn [td_Capability td_Handler mcpReadTool mcpWriteTool mcpOperationTool]; intros Hm.
  all: call_walk.
Qed.

(** ** Calls and messages *)
Section messages.
Context `{Digest} `{JsonText} (env : McpEnv).
Abbreviation caps_of x := (λ c, hasCapability (ss_capabilities x) c = true).

Lemma find_tool name d : findUserTool name = Some d → d ∈ userToolDefinitions.
Proof.
  unfold findUserTool. intros Hh. assert (d ∈ filter (λ d, td_Name d = name) userToolDefinitions) as Hd.
  { destruct (filter _ _) as [|d' l]; [done|]. cbn in Hh. simplify_eq. by left. }
  by apply list_elem_of_filter in Hd as [_ ?].
Qed.
Lemma steady_prepare ctx x asn name args def : steady (prepareIdempotency ctx x asn name args def).
Proof. steady_walk. Qed.
Lemma call_confines ctx x asn raw : ss_actor x = User asn → confines asn (caps_of x) (handleToolsCall env ctx x raw).
Proof.
  intros Ha. unfold handleToolsCall. assert (asn_of x = asn) as -> by (unfold asn_of; by rewrite Ha).
  repeat case_match; try (apply confines_steady; steady_walk; fail).
  apply confines_bind; [apply confines_steady, steady_prepare|]. intros [idem hash]. destruct idem as [idem|e];
    [|apply confines_steady; steady_walk].
  destruct (idem ≫= _) as [answer|]; [apply confines_ret|]. unfold execute.
  apply confines_bind; [apply confines_steady; steady_walk|intros started]. apply confines_bind.
  - apply tool_confines; [by eapply find_tool|]. cbn. by apply negb_false_iff.
  - intros r. apply confines_steady. steady_walk.
Qed.

(** What the sessions of an operator were opened with. *)
Definition granted (asn : Z) (s : MSt) (cap : string) : Prop :=
  ∃ a x, m_heap s !! a = Some x ∧ ss_actor x = User asn ∧ hasCapability (ss_capabilities x) cap = true.
Lemma granted_evolves asn s s' cap : mevolves s s' → granted asn s cap → granted asn s' cap.
Proof.
  intros [_ He] (a & x & Hx & Ha & Hc). destruct (he_same _ _ He a x Hx) as (y & Hy & E1 & _ & _ & E4).
  exists a, y. split_and!; [done|congruence|by rewrite <- E4].
Qed.
Lemma may_mono asn (may may' : string → Prop) s s' :
  (∀ c, may c → may' c) → may_step asn may s s' → may_step asn may' s s'.
Proof.
  intros Hm [H1 [H2 H3] H4 H5 H6]. split; [done| | |done|done].
  - split; [done|]. intros id. specialize (H3 id). do 2 case_match; [intros Hn; destruct (H3 Hn)|..|done]; naive_solver.
  - intros id. destruct (H4 id) as [?|(? & ? & ?)]; [by left|right; auto].
Qed.
Abbreviation message_step asn := (λ s s', may_step asn (granted asn s) s s').
Abbreviation safe_message asn := (safe mevolves (message_step asn) (λ _ s', db_ok (m_world s'))).

(** What is confined to the capabilities of a session makes only steps that its
    operator was granted. *)
Lemma confines_granted {A} asn (may : string → Prop) (p : Q A) s :
  (∀ c, may c → granted asn s c) → safe mevolves (may_step asn may) (λ _ s', db_ok (m_world s')) p s → safe_message asn p s.
Proof.
  intros Hm. revert s Hm. induction p as [a|R f k IH]; intros s Hm Hp; [done|]. intros s1 He. destruct (Hp s1 He) as [H1 H2].
  assert (∀ c, may c → granted asn s1 c) as Hm1 by (intros; eapply granted_evolves; eauto).
  split; [by eapply may_mono|]. apply IH; [|done]. intros c Hc. eapply granted_evolves; [apply H1|]. auto.
Qed.
Lemma steady_message {A} asn (p : Q A) s : db_ok (m_world s) → steady p → safe_message asn p s.
Proof. intros Hs Hp. apply (confines_granted asn (λ _, False)); [done|]. by apply confines_steady. Qed.
(** A session object stays where the lookup found it. *)
Definition session_at (a : nat) (x : Sse) (s : MSt) : Prop := ∃ y, m_heap s !! a = Some y ∧ same_session x y.
Lemma session_evolves a x s s' : mevolves s s' → session_at a x s → session_at a x s'.
Proof.
  intros [_ He] (y & Hy & S1). destruct (he_same _ _ He a y Hy) as (z & Hz & S2). exists z. split; [done|].
  destruct S1 as (?&?&?&?), S2 as (?&?&?&?). split_and!; congruence.
Qed.
Lemma steady_session {A} asn a x (p : Q A) s :
  db_ok (m_world s) → session_at a x s → steady p →
  safe mevolves (message_step asn) (λ _ s', db_ok (m_world s') ∧ session_at a x s') p s.
Proof.
  revert s. induction p as [r|R f k IH]; intros s Hs Hx Hp; [done|]. destruct Hp as [Hf Hk]. intros s1 He.
  pose proof (msteady_evolves _ _ (Hf s1)) as He'.
  split; [by apply msteady_may|]. apply IH; [apply He'; by apply He|by do 2 (eapply session_evolves; [done|])|apply Hk].
Qed.
Lemma dispatch_message ctx asn a x req s :
  db_ok (m_world s) → session_at a x s → ss_actor x = User asn →
  safe_message asn (dispatch (user_server env) ctx a x req) s.
Proof.
  intros Hs (y & Hy & S1 & _ & _ & S4) Ha.
  apply (confines_granted asn (λ c, hasCapability (ss_capabilities x) c = true)).
  { intros c Hc. exists a, y. split_and!; [done|congruence|by rewrite <- S4]. }
  enough (confines asn (λ c, hasCapability (ss_capabilities x) c = true) (dispatch (user_server env) ctx a x req)) as Hc by by apply Hc.
  unfold dispatch. apply confines_bind; [|intros r; apply confines_steady; steady_walk].
  repeat case_match; try apply confines_ret. by apply call_confines.
Qed.
Lemma message_safe asn sid body s : db_ok (m_world s) → safe_message asn (HandleMessage env asn sid body) s.
Proof.
  intros Hs. unfold HandleMessage, handle_message. destruct (sid =s ""); [by apply steady_message|].
  intros s1 He. split; [by apply msteady_may|]. assert (db_ok (m_world s1)) as Hs1 by by apply He.
  cbn [fst]. destruct (streams _ s1 !! sid) as [a|]; [|by apply steady_message].
  unfold sse_at. destruct (m_heap s1 !! a) as [x|] eqn:Hx; cbn [option_map]; [|by apply steady_message].
  destruct (decode_request body) as [req|]; [|apply steady_message; [done|steady_walk]].
  cbn [prog_mbind snd]. case_bool_decide as Ha; [by apply steady_message|].
  eapply (safe_bind mevolves); [apply (steady_session asn a x); [done|by exists x|steady_walk]|].
  intros [|] s2 [Hs2 Hx2]; cbn [negb]; [|by apply steady_message].
  eapply (safe_bind mevolves); [apply (steady_session asn a x); [done|done|steady_walk]|].
  intros ctx s3 [Hs3 Hx3]. eapply (safe_bind mevolves); [by apply dispatch_message|].
  intros [] s4 Hs4. apply steady_message; [done|steady_walk].
Qed.
End messages.
