(* ===== verification/McpPool.v ===== *)
(** * MCP messages side by side

    Messages, event streams and pages of the MCP servers running among the
    requests of the rest of the center. *)
From S2P Require Import Prelude GoLib Json Model Peering Lock Cache Effects World Store Rely Handler Wp Scenario AdminPeer UserPeer BotPeer Decode McpStore Mcp McpTools McpKeys McpUser McpAdmin Assistant Safety Login McpScenario McpSafety.
From stdpp Require Import options.
Local Open Scope Z_scope.
Local Open Scope go_scope.

(** What begins after the middleware admitted it. *)
Inductive McpRequest : Type :=
| Elsewhere (env : Env) (r : Request)
| UserMessage (asn : Z) (sessionID : string) (body : option json)
| AdminMessage (adminID sessionID : string) (body : option json)
| UserStream (asn : Z) (keyID : string) (caps : list string) (flusher : bool) (ticks : list wake)
| AdminStream (adminID keyID : string) (caps : list string) (flusher : bool) (ticks : list wake)
| UserAdmission (auth : string)
| AdminAdmission (auth : string)
| KeyCreate (asn : Z) (body : option json)
| KeyDelete (asn : Z) (id : string)
| KeyList (asn : Z)
| AdminKeyCreate (adminID : string) (body : option json)
| AdminKeyDelete (adminID id : string)
| AdminKeyList (adminID : string)
| UserKeyList (asn : string)
| UserKeyDelete (adminID id : string)
| AuditLogs (asn : Z)
| AdminAuditLogs (asn tool page per_page : string)
| AssistantApproval (asn : Z) (body : option json)
| AssistantCall (asn : Z) (body : option json)
| ApprovalCleanup.

Section pool.
Context `{Digest} `{JsonText} (env : McpEnv) (others : string → AdminToolHandler).

(** What is kept of the outcome: the answer of a page. *)
Definition discard {A} (p : Q A) : Q (option Response) := p ;; mret None.
Definition answer (p : Q Response) : Q (option Response) := r ← p; mret (Some r).
Definition admitted {O} (i : McpIdentity O) : Q Response := mret (JSON StatusOK (JObj [])).
Definition run_mcp (r : McpRequest) : Q (option Response) :=
  match r with
  | Elsewhere e r => discard (inworld (run e r))
  | UserMessage asn sid body => discard (HandleMessage env asn sid body)
  | AdminMessage adm sid body => discard (AdminHandleMessage env others adm sid body)
  | UserStream asn key caps fl ticks => discard (HandleSSE asn key caps fl ticks)
  | AdminStream adm key caps fl ticks => discard (AdminHandleSSE adm key caps fl ticks)
  | UserAdmission auth => answer (RequireMCPKey id Background auth admitted)
  | AdminAdmission auth => answer (RequireAdminMCPKey id Background auth admitted)
  | KeyCreate asn body => answer (MCPKey_Create Background asn body)
  | KeyDelete asn id => answer (MCPKey_Delete Background asn id)
  | KeyList asn => answer (MCPKey_List Background asn)
  | AdminKeyCreate adm body => answer (CreateAdminKey_ Background adm body)
  | AdminKeyDelete adm id => answer (DeleteAdminKey_ Background adm id)
  | AdminKeyList adm => answer (ListAdminKeys_ Background adm)
  | UserKeyList asn => answer (ListUserMCPKeys Background asn)
  | UserKeyDelete adm id => answer (ForceDeleteUserMCPKey Background adm id)
  | AuditLogs asn => answer (ListMCPAuditLogs Background asn)
  | AdminAuditLogs asn tool page pp => answer (AdminListMCPAuditLogs Background asn tool page pp)
  | AssistantApproval asn body => answer (HandleAssistantToolApproval env asn body)
  | AssistantCall asn body => answer (HandleAssistantToolCall env Background asn body)
  | ApprovalCleanup => discard cleanupAssistantApprovals
  end.

Abbreviation safe_message asn := (safe mevolves (λ s s', may_step asn (granted asn s) s s') (λ _ s', db_ok (m_world s'))).
(** A step that approves nothing. *)
Definition mcalm (s s' : MSt) : Prop := mevolves s s' ∧ dom (m_approvals s') ⊆ dom (m_approvals s).
Abbreviation keeps p := (∀ s, db_ok (m_world s) → safe mevolves mcalm (λ _ s', db_ok (m_world s')) p s).
Lemma keeps_steady {A} (p : Q A) : steady p → keeps p.
Proof.
  intros Hp s Hs. pose proof (confines_steady 0 (λ _, False) p Hp s Hs) as Hc.
  eapply (safe_weaken mevolves); [| |exact Hc]; [|done]. intros ? ? [? _ _ _ ?]. by split.
Qed.
Lemma keeps_inworld {A} (p : M A) : triple any_rows any_event (λ _, True) p (λ _ _, True) → keeps (inworld p).
Proof.
  intros Hp s Hs. specialize (Hp (m_world s) Hs I). revert s Hs Hp. induction p as [a|R f k IH]; intros s Hs Hp; [done|].
  intros s1 He. destruct (Hp (m_world s1) (proj1 He)) as [(H1 & _) Hk]. cbn [along].
  destruct (f (m_world s1)) as [r w'] eqn:E. cbn [fst snd] in *. split; [by split|].
  apply IH; [|done]. cbn. apply H1. by apply He.
Qed.
Context (Hothers : ∀ name ctx args, steady (others name ctx args)).

Lemma admin_tool_steady d ctx args : d ∈ adminToolDefinitions others → steady (at_Handler d ctx args).
Proof using Hothers.
  intros Hd. unfold adminToolDefinitions in Hd. repeat (apply elem_of_cons in Hd as [->|Hd]); [..|by apply not_elem_of_nil in Hd];
    cbn [at_Handler adminReadTool]; (apply Hothers || steady_walk).
Qed.
Lemma find_admin_tool name d : findAdminTool others name = Some d → d ∈ adminToolDefinitions others.
Proof.
  unfold findAdminTool. intros Hh. assert (d ∈ filter (λ d, at_Name d = name) (adminToolDefinitions others)) as Hd.
  { destruct (filter _ _) as [|d' l]; [done|]. cbn in Hh. simplify_eq. by left. }
  by apply list_elem_of_filter in Hd as [_ ?].
Qed.
Lemma admin_message_steady adm sid body : steady (AdminHandleMessage env others adm sid body).
Proof using Hothers.
  unfold AdminHandleMessage, handle_message, dispatch. cbn [sv_call sv_list sv_name admin_server].
  unfold handleAdminToolsCall. steady_walk.
  all: apply admin_tool_steady; by eapply find_admin_tool.
Qed.
Lemma stream_steady path actor key caps fl ticks : steady (serve_stream path actor key caps fl ticks).
Proof.
  assert (∀ sid a, steady (sse_loop sid a ticks)) as Hl.
  { intros sid a. induction ticks as [|[] l IH]; cbn [sse_loop]; [exact I|..|exact I]; steady_walk. }
  assert (∀ sid d, steady (store_session d (MkSse actor sid key caps [] 0))) by (intros; apply steady_store; split; cbn; lia).
  unfold serve_stream. repeat (solve [auto] || steady_step).
Qed.
Lemma force_delete_keeps ctx adm id : keeps (ForceDeleteUserMCPKey ctx adm id).
Proof.
  intros s Hs. unfold ForceDeleteUserMCPKey. eapply (safe_bind mevolves); [apply keeps_steady; [steady_walk|done]|].
  intros [key|e] s1 Hs1; [|done]. eapply (safe_bind mevolves); [apply keeps_inworld; [|done]|done].
  apply triple_audit; [typeclasses eauto..|]. done.
Qed.
Lemma discard_keeps {A} (p : Q A) : keeps p → keeps (discard p).
Proof. intros Hp s Hs. eapply (safe_bind mevolves); [by apply Hp|]. done. Qed.
Lemma answer_keeps (p : Q Response) : keeps p → keeps (answer p).
Proof. intros Hp s Hs. eapply (safe_bind mevolves); [by apply Hp|]. done. Qed.

(** From what all steps of a program do to what they do among others. *)
Lemma all_acts_safe {A} (D : MSt → MSt → Prop) (p : Q A) s :
  (∀ s s', D s s' → mevolves s s') → all_acts D p → db_ok (m_world s) →
  safe mevolves mevolves (λ _ s', db_ok (m_world s')) p s.
Proof.
  intros HD. revert s. induction p as [a|R f k IH]; intros s Hp Hs; [done|]. destruct Hp as [Hf Hk]. intros s1 He.
  pose proof (HD _ _ (Hf s1)) as H1. split; [done|]. apply IH; [apply Hk|]. apply H1. by apply He.
Qed.
(** The page that approves. *)
Lemma approval_safe asn body s :
  db_ok (m_world s) →
  safe mevolves mevolves (λ _ s', db_ok (m_world s')) (answer (HandleAssistantToolApproval env asn body)) s.
Proof.
  set (drawn := λ s s', wsteady (m_world s) (m_world s') ∧ heap_evolves (m_heap s) (m_heap s')).
  assert (∀ A (p : Q A), steady p → all_acts drawn p) as Hw by (intros A p; apply all_acts_weaken; intros ?? [????]; by split).
  assert (all_acts drawn (answer (HandleAssistantToolApproval env asn body))) as Hp.
  { unfold answer. apply all_acts_bind; [|done]. unfold HandleAssistantToolApproval.
    repeat lazymatch goal with
           | |- all_acts _ (mret _) => exact I
           | |- all_acts _ (store_approval _ _) => by split
           | |- all_acts _ (_ ≫= _) => apply all_acts_bind; [|intros ?]
           | |- all_acts _ (match ?x with _ => _ end) => destruct x
           | |- _ => first [progress cbv zeta | apply Hw; solve [steady_walk]]
           end. }
  intros Hs. apply all_acts_safe with drawn; [|done..]. intros s1 s2 [(H1 & _ & H2) H3]. split; [by apply drawn_evolves|done].
Qed.
(** What a request guarantees of each of its steps. *)
Definition mcp_guarantee (r : McpRequest) (s s' : MSt) : Prop :=
  match r with
  | UserMessage asn _ _ => may_step asn (granted asn s) s s'
  | AssistantApproval _ _ => mevolves s s'
  | _ => mcalm s s'
  end.
Lemma run_mcp_safe r s : db_ok (m_world s) → safe mevolves (mcp_guarantee r) (λ _ s', db_ok (m_world s')) (run_mcp r) s.
Proof using Hothers.
  revert s. destruct r.
  { apply discard_keeps, keeps_inworld, run_any. }
  { intros s Hs. change (safe_message asn (discard (HandleMessage env asn sessionID body)) s).
    eapply (safe_bind mevolves); [by apply message_safe|done]. }
  16: { intros s Hs. by apply approval_safe. }
  all: cbn [run_mcp mcp_guarantee]; first [apply discard_keeps | apply answer_keeps].
  all: lazymatch goal with
       | |- context [ForceDeleteUserMCPKey] => apply force_delete_keeps
       | |- _ => apply keeps_steady
       end.
  all: lazymatch goal with
       | |- all_acts _ (AdminHandleMessage _ _ _ _ _) => by apply admin_message_steady
       | |- all_acts _ (HandleSSE _ _ _ _ _) => unfold HandleSSE; apply stream_steady
       | |- all_acts _ (AdminHandleSSE _ _ _ _ _) => unfold AdminHandleSSE; apply stream_steady
       | |- all_acts _ (MCPKey_Create _ _ _) => unfold MCPKey_Create, create_key; cbn [kk_count kk_create user_kind]
       | |- all_acts _ (CreateAdminKey_ _ _ _) => unfold CreateAdminKey_, create_key; cbn [kk_count kk_create admin_kind]
       | |- _ => idtac
       end.
  all: steady_walk.
Qed.

Lemma mcp_pool reqs s0 c :
  db_ok (m_world s0) → pool_steps (s0, map run_mcp reqs) c →
  mevolves s0 c.1 ∧ ∀ i r c', reqs !! i = Some r → pool_step c i c' → mcp_guarantee r c.1 c'.1.
Proof using Hothers.
  intros Hok Hrun.
  destruct (pool_safe mevolves (λ i, mcp_guarantee (default ApprovalCleanup (reqs !! i))) (λ _ _ s, db_ok (m_world s)) s0
    (map run_mcp reqs) c) as (He & _ & Hs); [| | |done|].
  - intros i s s' Hg. destruct (default _ _); [exact (proj1 Hg)|apply Hg|exact (proj1 Hg)..|exact Hg|exact (proj1 Hg)|exact (proj1 Hg)].
  - intros _ _ s s' [He _] Hs. by apply He.
  - intros i p Hi. apply list_lookup_fmap_Some in Hi as (r & -> & Hr). rewrite Hr. by apply run_mcp_safe.
  - split; [done|]. intros i r c' Hi Hstep. specialize (Hs i c' Hstep). by rewrite Hi in Hs.
Qed.

(** C8: An operator's message to the MCP server, among any other requests of
    the center, on whatever sessions there are, whatever fails: every step it
    makes leaves the peers and operations of all other operators alone, emits
    no command, mail or audit event, and stays within the capabilities of the
    sessions opened for this operator: peers appear only under
    [write:peer:create], and then pending, go only under
    [write:peer:cancel_pending], change only under [write:peer:update_pending],
    without their status, and operations only appear, for review, under
    [write:operation:create]. *)
Theorem message_confined (reqs : list McpRequest) (s0 : MSt) (c c' : MSt * list (Q (option Response))) (i : nat)
    (asn : Z) (sid : string) (body : option json)
  (Hok : db_ok (m_world s0)) (Hi : reqs !! i = Some (UserMessage asn sid body))
  (Hrun : pool_steps (s0, map run_mcp reqs) c) (Hstep : pool_step c i c') :
  may_rows asn (granted asn c.1) (w_peers (m_world c.1)) (w_peers (m_world c'.1))
  ∧ may_ops asn (granted asn c.1) (m_ops c.1) (m_ops c'.1)
  ∧ w_log (m_world c'.1) = w_log (m_world c.1).
Proof using Hothers.
  destruct (mcp_pool reqs s0 c Hok Hrun) as [_ H1]. by destruct (H1 i _ c' Hi Hstep).
Qed.

End pool.

(** The first call stores its key and answers that an operation is in progress;
    the second runs. *)
Definition cancel_twice : list McpRequest :=
  [UserMessage 4242420001 "s1" (Some (cancel_call "p1")); UserMessage 4242420001 "s1" (Some (cancel_call "p1"));
   Elsewhere sample_env (AdminSuspend "p2" "a@example.org" "abuse")].
Definition mcp_pool_of (s : MSt) (reqs : list McpRequest) : MSt * list (Q (option Response)) :=
  (s, map (@run_mcp mcp_digest mcp_text mcp_env mcp_others) reqs).
Definition mcp_day (turns : list nat) : MSt * list (Q (option Response)) := schedule turns (mcp_pool_of (mcp_sample "pending") cancel_twice).
Lemma mcp_others_steady : ∀ name ctx args, steady (mcp_others name ctx args).
Proof. done. Qed.

(** The step of the second call that deletes the row. *)
Lemma message_confined_witness :
  let c := mcp_day (replicate 20 0 ++ replicate 6 1)%nat in
  let c' := turn c 1 in
  w_peers (m_world c.1) !! "p1" ≠ None ∧ w_peers (m_world c'.1) !! "p1" = None
  ∧ may_rows 4242420001 (granted 4242420001 c.1) (w_peers (m_world c.1)) (w_peers (m_world c'.1)).
Proof.
  intros c c'. split; [vm_compute; discriminate|]. split; [vm_compute; reflexivity|].
  refine (proj1 (@message_confined mcp_digest mcp_text mcp_env mcp_others mcp_others_steady cancel_twice (mcp_sample "pending")
    c c' 1 4242420001 "s1" (Some (cancel_call "p1")) _ eq_refl _ _)).
  - apply sample_ok.
  - apply schedule_steps.
  - refine (turn_step c 1 _). vm_compute. reflexivity.
Defined.


(** The second call of [peer_cancel_pending] against an approval. *)
Definition cancel_race : list McpRequest :=
  [UserMessage 4242420001 "s1" (Some (cancel_call "p1")); UserMessage 4242420001 "s1" (Some (cancel_call "p1"));
   Elsewhere sample_env (AdminApprove "p1" "a@example.org")].

(** [peer_cancel_pending] takes no lock: a call that read the pending row
    before an approval of it deletes the row afterwards, although the agent was
    told to add the peer and accepted: the peer is gone and the agent keeps it,
    with no error anywhere. *)
Theorem cancel_races_approve :
  ∃ c, pool_steps (mcp_pool_of (mcp_sample "pending") cancel_race) c
    ∧ c.2 = [mret None; mret None; mret None]
    ∧ in_sync (m_world (mcp_sample "pending")) "p1"
    ∧ w_peers (m_world c.1) !! "p1" = None
    ∧ ∃ pl, agent_view (w_log (m_world c.1)) "node-1" "p1" = Configured (Some pl).
Proof.
  eexists. split; [apply (schedule_steps (replicate 20 0 ++ replicate 6 1 ++ replicate 40 2 ++ replicate 20 1)%nat)|].
  split; [vm_compute; reflexivity|]. split; [apply sample_in_sync|]. split; [vm_compute; reflexivity|].
  eexists. vm_compute. reflexivity.
Qed.
