(* ===== verification/McpSpec.v ===== *)
(** * What MCP calls and keys do

    Idempotency keys of writing tools, and the keys that open the servers: what
    the pages create the middleware admits. *)
From S2P Require Import Prelude GoLib Json Model Peering Lock Cache Effects World Store Rely Handler Wp Scenario Decode McpStore Mcp McpTools McpKeys McpUser Login McpScenario McpSafety.
From stdpp Require Import options.
Local Open Scope Z_scope.
Local Open Scope go_scope.

(** ** Running a statement *)

(** What an error, or the draw of an id, leaves as it was. *)
Record kept (s s' : MSt) : Prop := {
  kp_mdb : m_db s' = m_db s;
  kp_wdb : w_db (m_world s') = w_db (m_world s);
  kp_now : m_now s' = m_now s
}.
#[export] Instance kept_preorder : PreOrder kept.
Proof. split; [by intros s|]. intros s1 s2 s3 [A1 A2 A3] [B1 B2 B3]. split; congruence. Qed.
Lemma draw_db_kept s : kept s (set_mworld (draw_db (m_world s)).2 s).
Proof. unfold draw_db. by destruct (e_db (w_ext (m_world s))). Qed.
Lemma mfresh_kept s : kept s (mfresh s).2.
Proof. unfold mfresh, draw_uuid. by destruct (e_uuid (w_ext (m_world s))). Qed.
Lemma wp_mstmt {R} ctx (onerr : string → R) (f : MSt → R * MSt) (P : R → MSt → Prop) s :
  (∀ e s', kept s s' → P (onerr e) s') → (∀ s', kept s s' → P (f s').1 (f s').2) → wp (mstmt ctx onerr f) P s.
Proof.
  intros He Hf. apply wp_act. unfold mstmt_step. destruct (expired _ _); [by apply He|].
  pose proof (draw_db_kept s) as Hd. destruct (draw_db (m_world s)) as [[e|] w]; [by apply He|by apply Hf].
Qed.
Lemma wp_steady {A} (p : Q A) (P : A → MSt → Prop) s :
  steady p → (∀ a s', msteady s s' → P a s') → wp p P s.
Proof. intros Hp HP. apply HP. apply rtc_within; [typeclasses eauto|]. by apply all_acts_exec. Qed.
Lemma kept_trans_steady s s' s'' : kept s s' → msteady s' s'' → w_peers (m_world s'') = w_peers (m_world s) ∧ m_ops s'' = m_ops s.
Proof.
  intros [H1 H2 _] [(H3 & _ & _) H4 _]. split; [unfold w_peers; by rewrite H3, H2|]. rewrite H4. unfold m_ops. by rewrite H1.
Qed.

(** ** A writing call under a new idempotency key *)
Lemma head_filter_none {A} (P : A → Prop) `{!∀ x, Decision (P x)} l : (∀ x, x ∈ l → ¬ P x) → head (filter P l) = None.
Proof.
  intros Hn. destruct (filter P l) as [|x l'] eqn:E; [done|]. exfalso.
  assert (x ∈ filter P l) as Hx by (rewrite E; by left). apply list_elem_of_filter in Hx as [Hp Hx]. by apply (Hn x).
Qed.
Lemma elem_of_rows {A} (m : gmap string A) x : x ∈ rows m ↔ ∃ id, m !! id = Some x.
Proof.
  unfold rows. rewrite list_elem_of_fmap. split.
  - intros ([id y] & -> & H%elem_of_map_to_list). by exists id.
  - intros [id H]. exists (id, x). split; [done|by apply elem_of_map_to_list].
Qed.
Section calls.
Context `{Digest} `{JsonText} (env : McpEnv).

(** No row for the slot. *)
Definition unused (key tool idem : string) (s : MSt) : Prop := ∀ e, e ∈ rows (m_idem s) → ¬ idem_of "user" key "" tool idem e.
Lemma wp_lookup_unused ctx key tool idem (P : result MCPIdempotencyKey → MSt → Prop) s :
  unused key tool idem s → (∀ e s', kept s s' → P (Err e) s') → wp (GetIdempotency ctx "user" key "" tool idem) P s.
Proof.
  intros Hu HP. apply wp_mstmt; [done|]. intros s' Hk. cbn [fst snd].
  assert (m_idem s' = m_idem s) as -> by (unfold m_idem; by rewrite (kp_mdb _ _ Hk)).
  rewrite head_filter_none by done. by apply HP.
Qed.
Lemma wp_CreateIdempotency ctx x (P : result MCPIdempotencyKey → MSt → Prop) s :
  (∀ e s', kept s s' → P (Err e) s') →
  (∀ id s', kept s s' → P (Ok (idem_id id x)) (set_idem (<[id := idem_id id x]> (m_idem s')) s')) →
  wp (CreateIdempotency ctx x) P s.
Proof.
  intros He Ho. apply wp_mstmt; [done|]. intros s1 Hk. pose proof (mfresh_kept s1) as Hf.
  destruct (mfresh s1) as [[id|] s2]; (assert (kept s s2) by by etransitivity); [|by apply He].
  destruct (negb _); [by apply He|]. destruct (bool_decide _); [by apply He|by apply Ho].
Qed.
(** Nothing was done, and whatever now fills the slot stops no later call. *)
Record untouched (key tool idem : string) (s s' : MSt) : Prop := {
  un_peers : w_peers (m_world s') = w_peers (m_world s);
  un_ops : m_ops s' = m_ops s;
  un_slot : ∀ e h, e ∈ rows (m_idem s') → idem_of "user" key "" tool idem e → replay e h = None
}.
Lemma unused_kept key tool idem s s' : unused key tool idem s → kept s s' → unused key tool idem s'.
Proof. intros Hu Hk. unfold unused, m_idem. by rewrite (kp_mdb _ _ Hk). Qed.
Lemma unused_untouched key tool idem s s' : unused key tool idem s → kept s s' → untouched key tool idem s s'.
Proof.
  intros Hu Hk. pose proof (unused_kept _ _ _ _ _ Hu Hk) as Hu'. destruct Hk as [H1 H2 _].
  split; [unfold w_peers; by rewrite H2|unfold m_ops; by rewrite H1|]. intros e h He Hm. by destruct (Hu' e).
Qed.
(** The stored row carries no time, the row that the call keeps does. *)
Definition in_progress (r : result (option MCPIdempotencyKey)) (h : string) : Prop :=
  match r with
  | Err _ => True
  | Ok o => ∃ e msg, o ≫= (λ e, replay e h) = Some (inr (MkRPCErr e msg))
  end.
Lemma prepare_unused ctx x asn name args def s (P : result (option MCPIdempotencyKey) * string → MSt → Prop) :
  td_Mode def ≠ mcpModeRead → unused (ss_keyID x) name (extractIdempotencyKey args) s → m_now s ≠ zero_time →
  (∀ r h s', in_progress r h → untouched (ss_keyID x) name (extractIdempotencyKey args) s s' → P (r, h) s') →
  wp (prepareIdempotency ctx x asn name args def) P s.
Proof.
  intros Hm Hu Hnow HP. unfold prepareIdempotency. rewrite bool_decide_eq_false_2 by done.
  set (idem := extractIdempotencyKey args) in *. case_match; [apply wp_ret, HP; [done|by apply unused_untouched]|].
  apply wp_bind, wp_lookup_unused; [done|]. intros e s1 Hk1. case_match.
  { apply wp_ret, HP; [done|by apply unused_untouched]. }
  apply wp_bind, wp_CreateIdempotency.
  - intros e' s2 Hk2. assert (kept s s2) as Hk by by etransitivity. apply wp_bind, wp_lookup_unused; [by eapply unused_kept|].
    intros e2 s3 Hk3. apply wp_ret, HP; [done|]. apply unused_untouched; [done|by etransitivity].
  - intros id s2 Hk2. assert (kept s s2) as Hk by by etransitivity. apply wp_bind, wp_gets, wp_ret, HP.
    + exists (-32029), "operation_in_progress". unfold replay. cbn -[zero_time].
      replace (m_now (set_idem _ s2)) with (m_now s) by (symmetry; apply Hk).
      rewrite (proj2 (Z.eqb_neq _ _) Hnow). rewrite bool_decide_eq_true_2 by done. cbn. by rewrite bool_decide_eq_true_2.
    + destruct Hk as [Hd Hw _]. split; cbn; [unfold w_peers; by rewrite Hw|unfold m_ops; by rewrite Hd|].
      intros e' h [id' Hid]%elem_of_rows Hm'. cbn in Hid. apply lookup_insert_Some in Hid as [[<- <-]|[_ Hid]]; [done|].
      destruct (Hu e'); [|done]. apply elem_of_rows. exists id'. revert Hid. unfold m_idem. by rewrite Hd.
Qed.
(** An audit row leaves the rest. *)
Definition audited (s s' : MSt) : Prop :=
  w_db (m_world s') = w_db (m_world s) ∧ m_ops s' = m_ops s ∧ m_idem s' = m_idem s.
#[local] Instance audited_preorder : PreOrder audited.
Proof. split; [by intros s|]. intros s1 s2 s3 (A1 & A2 & A3) (B1 & B2 & B3). split_and!; congruence. Qed.
Lemma kept_audited s s' : kept s s' → audited s s'.
Proof. intros [Hd Hw _]. unfold audited, m_ops, m_idem. by rewrite Hd, Hw. Qed.
Lemma write_audited sid asn adm tool args ok msg : all_acts audited (writeAuditLog env sid asn adm tool args ok msg).
Proof.
  unfold writeAuditLog, writeAuditLogDetailed. apply all_acts_bind.
  - destruct (mc_queue env); [|done]. apply all_acts_act. intros s. unfold enqueue_step, draw_redis.
    repeat case_match; simplify_eq/=; done.
  - intros [|]; [done|]. apply all_acts_bind; [by split|]. intros ctx. apply all_acts_bind; [|done].
    apply all_acts_act. intros s. unfold mstmt_step. destruct (expired _ _); [done|].
    pose proof (kept_audited _ _ (draw_db_kept s)) as Hd. destruct (draw_db (m_world s)) as [[e|] w]; [done|]. cbn [snd] in Hd.
    pose proof (kept_audited _ _ (mfresh_kept (set_mworld w s))) as Hf. destruct (mfresh (set_mworld w s)) as [[id|] s1]; cbn [snd] in Hf;
      (etransitivity; [exact Hd|etransitivity; [exact Hf|]]); repeat case_match; done.
Qed.
Lemma wp_refused key tool idem s s1 sid asn tool' args msg (r : json + jsonRPCErr) :
  (∃ e, r = inr e) → untouched key tool idem s s1 →
  wp (writeAuditLog env sid asn "" tool' args false msg ;; mret r) (λ r s', (∃ e, r = inr e) ∧ untouched key tool idem s s') s1.
Proof.
  intros Hr Hu. apply wp_bind. unfold wp at 1.
  pose proof (rtc_within audited _ _ (all_acts_exec _ _ s1 (write_audited sid asn "" tool' args false msg))) as (Hw & Ho & Hi).
  destruct (exec _ s1) as [[] s2]. apply wp_ret. split; [done|]. destruct Hu as [Hp Hops Hs]. cbn in *.
  split; [unfold w_peers in *; by rewrite Hw|congruence|by rewrite Hi].
Qed.

(** C33: The first call of a tool that writes, under an idempotency key that its
    session's key never used, never does what it was called for, whatever the
    statements answer: it ends in an error ("operation_in_progress" when its
    key was stored), peers and operations are as before, and the row it leaves
    lets the next call under that key run, whatever the arguments of that call. *)
Theorem fresh_write_never_runs (ctx : Ctx) (x : Sse) (raw : option json) (name : string) (args : json)
    (def : mcpToolDefinition) (s : MSt)
  (Hraw : decode_call raw = Some (name, args)) (Hdef : findUserTool name = Some def) (Hmode : td_Mode def ≠ mcpModeRead)
  (Hnew : unused (ss_keyID x) name (extractIdempotencyKey args) s) (Hnow : m_now s ≠ zero_time) :
  let '(r, s') := exec (handleToolsCall env ctx x raw) s in
  (∃ e, r = inr e) ∧ untouched (ss_keyID x) name (extractIdempotencyKey args) s s'.
Proof.
  cut (wp (handleToolsCall env ctx x raw) (λ r s', (∃ e, r = inr e) ∧ untouched (ss_keyID x) name (extractIdempotencyKey args) s s') s).
  { unfold wp. by destruct (exec _ s). }
  unfold handleToolsCall. rewrite Hraw, Hdef. cbv beta iota zeta. destruct (negb _).
  { apply wp_refused; [by eexists|]. by apply unused_untouched. }
  apply wp_bind. apply prepare_unused; [done..|]. intros r h s' Hp Hu. destruct r as [idem|e]; cbn in Hp.
  - destruct Hp as (c & msg & ->). apply wp_ret. split; [by eexists|done].
  - apply wp_refused; [by eexists|done].
Qed.
End calls.

Lemma fresh_write_never_runs_witness :
  let raw := Some (JObj [("name", JStr "peer_cancel_pending");
                         ("arguments", JObj [("id", JStr "p1"); ("idempotency_key", JStr "0123456789abcdef")])]) in
  let s' := (exec (@handleToolsCall mcp_digest mcp_text mcp_env None (mcp_session 4242420001 "s1" ["write:peer:cancel_pending"]) raw)
               (mcp_sample "pending")).2 in
  @untouched mcp_text "key-s1" "peer_cancel_pending" "0123456789abcdef" (mcp_sample "pending") s'
  ∧ m_idem s' !! "u1" ≠ None ∧ w_peers (m_world s') !! "p1" ≠ None.
Proof.
  intros raw s'. split; [|split; vm_compute; discriminate].
  pose proof (@fresh_write_never_runs mcp_digest mcp_text mcp_env None (mcp_session 4242420001 "s1" ["write:peer:cancel_pending"]) raw
    "peer_cancel_pending" (JObj [("id", JStr "p1"); ("idempotency_key", JStr "0123456789abcdef")])
    (MkTool "peer_cancel_pending" "Cancel a pending or rejected peer request. Active peers are not deleted by this tool."
      (schema [peer_id; idempotency] ["id"; "idempotency_key"]) "write:peer:cancel_pending" mcpModeSyncWrite handleToolPeerCancelPending)
    (mcp_sample "pending") ltac:(vm_compute; reflexivity) ltac:(reflexivity) ltac:(vm_compute; discriminate)) as Hf.
  unfold s'. destruct (exec _ (mcp_sample "pending")) as [r s1].
  apply Hf; [|vm_compute; discriminate]. intros e He. by apply not_elem_of_nil in He.
Defined.



Section keys.
Context `{Digest}.



End keys.

