(* ===== verification/AssistantSpec.v ===== *)
(** * Approvals of the assistant

    An approval is good for one call, and for the call it was given for. *)
From S2P Require Import Prelude GoLib Base64 Json Model Peering Lock Cache Effects World Store Rely Handler Scenario Decode McpStore Mcp McpTools McpKeys McpUser McpAdmin Assistant Safety Login McpScenario McpSafety McpPool.
From stdpp Require Import options.
Local Open Scope Z_scope.
Local Open Scope go_scope.

Section once.
Context `{Digest} `{JsonText} (env : McpEnv).

(** The nonce of the token a call carries. *)
Definition nonce_of (body : option json) : option string :=
  match decode_assistant body with
  | Some req => match signed_approval env (ar_ApprovalToken req) with Ok p => Some (ap_Nonce p) | Err _ => None end
  | None => None
  end.
(** The tool was called. *)
Definition called (r : Response) : bool :=
  match r with
  | JSON _ _ => true
  | ErrorJSON status _ _ => status =? StatusUnprocessableEntity
  | Panicked => false
  end.
Context (n : string).
(** The nonce has been drawn. *)
Definition drawn (s : MSt) : Prop := db_ok (m_world s) ∧ n ∉ w_uuid (m_world s) ∧ n ≠ "".
Definition owed (s : MSt) : Z := if decide (n ∈ dom (m_approvals s)) then -1 else 0.
Abbreviation pays' := (pays drawn mevolves owed).

Lemma drawn_evolves' s s' : drawn s → mevolves s s' → drawn s'.
Proof.
  intros (H1 & H2 & H3) [He _]. split_and!; [by apply He| |done]. destruct (ev_uuid _ _ He) as [l Hl]. rewrite Hl in H2. set_solver.
Qed.
Lemma mcalm_owed s s' : drawn s → mcalm s s' → mevolves s s' ∧ owed s ≤ owed s'.
Proof. intros _ [He Hd]. split; [done|]. unfold owed. destruct (decide _), (decide _); [lia|lia|set_solver|lia]. Qed.
Lemma steady_mcalm s s' : msteady s s' → mcalm s s'.
Proof. intros Hs. split; [by apply msteady_evolves|apply Hs]. Qed.
(** A part that approves nothing, then the rest. *)
Lemma pays_steady {A B} (reward : B → Z) (p : Q A) (g : A → Q B) c s :
  steady p → 0 ≤ c → drawn s → (∀ a s', drawn s' → pays' reward (g a) c s') → pays' reward (p ≫= g) c s.
Proof.
  intros Hp Hc Hs Hg. apply pays_bind with (G' := mcalm) (Q := λ _, True); [done|typeclasses eauto|apply drawn_evolves'|apply mcalm_owed|done|done| |auto].
  apply under_acts with msteady; [|done]. intros ? ? _. apply steady_mcalm.
Qed.
Lemma pays_done {A} (reward : A → Z) (p : Q A) c s : steady p → 0 ≤ c → (∀ a, reward a ≤ c) → drawn s → pays' reward p c s.
Proof.
  intros Hp Hc Hr Hs. apply pays_safe with (G' := mcalm) (Q := λ _ s', db_ok (m_world s')); [apply drawn_evolves'|apply mcalm_owed|done|done|].
  apply keeps_steady; [done|apply Hs].
Qed.
(** Whether a request with its outcome is a call under the nonce. *)
Definition spends (x : McpRequest * option Response) : bool :=
  match x with
  | (AssistantCall _ body, Some r) => called r && bool_decide (nonce_of body = Some n)
  | _ => false
  end.
Definition spent (x : McpRequest * option Response) : Z := if spends x then 1 else 0.
(** The call takes the approval out before the tool runs. *)
Lemma pays_consume {A} (reward : A → Z) nonce (g : bool → Q A) s :
  drawn s →
  (∀ s', drawn s' → pays' reward (g false) 0 s') →
  (∀ s', drawn s' → pays' reward (g true) (if decide (nonce = n) then 1 else 0) s') →
  pays' reward (b ← consumeAssistantApproval nonce; g b) 0 s.
Proof.
  intros Hs Hf Ht. unfold consumeAssistantApproval. destruct (nonce =s ""); [by apply Hf|].
  split; [done|]. intros s1 H1 HI. set (s2 := set_approvals (delete nonce (m_approvals s1)) s1).
  assert (msteady s1 s2) as H2 by apply (proj1 (steady_take_approval nonce) s1). pose proof (msteady_evolves _ _ H2) as He2.
  assert (drawn s2) as Hs2 by by eapply drawn_evolves'. destruct (mcalm_owed s1 s2 HI (steady_mcalm _ _ H2)) as [_ Howed].
  split_and!; [done|done|]. cbn [fst snd]. destruct (m_approvals s1 !! nonce) as [e|] eqn:He;
    [|apply pays_mono with 0; [lia|by apply Hf]].
  split; [lia|]. intros s3 H3 HI3. split_and!; [done|done|]. cbn. destruct (_ <=? e);
    [|apply pays_mono with 0; [lia|by apply Hf]].
  eapply pays_mono; [|by apply Ht]. destruct (decide (nonce = n)) as [->|]; [|lia].
  unfold owed. rewrite (decide_True (P := n ∈ dom (m_approvals s1))) by (by apply elem_of_dom_2 in He).
  rewrite (decide_False (P := n ∈ dom (m_approvals s2))) by (cbn; rewrite dom_delete; set_solver). lia.
Qed.
Lemma assistant_call_steady ctx asn req : steady (assistant_call env ctx asn req).
Proof. steady_walk. Qed.
Lemma pays_call asn body s :
  drawn s → pays' (λ r, spent (AssistantCall asn body, Some r)) (HandleAssistantToolCall env Background asn body) 0 s.
Proof.
  intros Hs. assert (∀ r s', called r = false → pays' (λ r, spent (AssistantCall asn body, Some r)) (mret r) 0 s') as Hno.
  { intros r s' Hr. split; [done|]. unfold spent, spends. by rewrite Hr. }
  unfold HandleAssistantToolCall. destruct (asn =? 0); [by apply Hno|].
  destruct (decode_assistant body) as [req|] eqn:Hreq; [|by apply Hno].
  destruct (ar_ToolName req =s ""); [by apply Hno|]. destruct (negb _); [by apply Hno|].
  destruct (validateAssistantToolArgs _ _); [by apply Hno|].
  apply pays_steady; [by apply steady_gets|done|done|]. intros now s1 Hs1.
  unfold verifyAssistantApproval. destruct (signed_approval env _) as [p|e] eqn:Hp; [|by apply Hno].
  destruct (_ <? _); [by apply Hno|]. destruct (negb _); [by apply Hno|].
  apply pays_consume; [done|intros; by apply Hno|]. intros s2 Hs2. cbn [negb].
  apply pays_done; [apply assistant_call_steady|by destruct (decide _)| |done].
  intros r. unfold spent, spends, nonce_of. rewrite Hreq, Hp.
  destruct (called r); cbn [andb]; [|by destruct (decide _)].
  destruct (decide (ap_Nonce p = n)) as [->|Hn]; [by case_bool_decide|]. rewrite bool_decide_eq_false_2; [done|]. congruence.
Qed.
(** The page that approves draws another nonce. *)
Lemma pays_approval {A} (reward : A → Z) asn body (g : Response → A) s :
  drawn s → (∀ a, reward a ≤ 0) → pays' reward (r ← HandleAssistantToolApproval env asn body; mret (g r)) 0 s.
Proof.
  intros Hs Hr. apply pays_map. assert (∀ r s', pays' (λ a, reward (g a)) (mret r) 0 s') as Hret by (by split).
  unfold HandleAssistantToolApproval. destruct (asn =? 0); [done|]. destruct (decode_assistant body) as [req|]; [|done].
  destruct (negb _); [done|]. destruct (validateAssistantToolArgs _ _); [done|].
  apply pays_steady; [steady_walk|done|done|]. intros conv s1 Hs1.
  apply pays_steady; [by apply steady_gets|done|done|]. intros now s2 Hs2.
  apply pays_bind with (G' := mcalm) (Q := λ u, u ≠ n);
    [done|typeclasses eauto|apply drawn_evolves'|apply mcalm_owed|done|done| |].
  { intros s3 (_ & Hn & Hne). split; [assert (steady NewUUID) as [HU _] by steady_walk; apply steady_mcalm, HU|]. cbn.
    unfold draw_uuid. unfold w_uuid in Hn. destruct (e_uuid (w_ext (m_world s3))) as [|u l]; cbn; [done|]. intros ->. set_solver. }
  intros nonce s3 Hnonce _ Hs3. cbv zeta. apply pays_act; [apply drawn_evolves'|done|]. intros s4 H4 Hs4.
  split; [by split|]. cbn [fst snd].
  assert (∀ e, owed (set_approvals (<[nonce:=e]> (m_approvals s4)) s4) = owed s4) as Hsame.
  { intros e. unfold owed. cbn. destruct (decide (n ∈ dom (<[nonce:=e]> _))) as [Hd|Hd], (decide (n ∈ dom (m_approvals s4))) as [Hd'|Hd']; [done| | |done];
      rewrite dom_insert in Hd; set_solver. }
  rewrite Hsame. apply pays_mono with 0; [lia|]. apply Hret.
Qed.

Context (others : string → AdminToolHandler).
(** Requests with their outcomes. *)
Definition tagged (r : McpRequest) : Q (McpRequest * option Response) := o ← run_mcp env others r; mret (r, o).
(** How many calls have been made under the nonce. *)
Definition calls (ts : list (Q (McpRequest * option Response))) : Z := sum_Z (earned spent <$> ts).
Context (Hothers : ∀ name ctx args, steady (others name ctx args)).

Lemma guarantee_mcalm r s s' : (∀ asn body, r ≠ AssistantApproval asn body) → mcp_guarantee r s s' → mcalm s s'.
Proof using. intros Hr. destruct r; cbn [mcp_guarantee]; try done; [intros [H1 _ _ _ H2]; by split|by destruct (Hr asn body)]. Qed.
Lemma pays_request r s : drawn s → pays' spent (tagged r) 0 s.
Proof using Hothers.
  intros Hs. apply pays_map. destruct r as [| | | | | | | | | | | | | | | | |asn body|asn body|].
  18: { apply pays_approval with (reward := λ o, spent (AssistantApproval asn body, o)) (g := Some); [done|by intros [?|]]. }
  18: { apply pays_map. by apply pays_call. }
  all: apply pays_safe with (G' := mcalm) (Q := λ _ s', db_ok (m_world s')); [apply drawn_evolves'|apply mcalm_owed|done|intros [?|]; reflexivity|].
  all: refine (safe_weaken mevolves _ _ _ _ _ s _ _ (run_mcp_safe env others Hothers _ s (proj1 Hs))); [|done].
  all: intros s1 s2; by apply guarantee_mcalm.
Qed.

(** C9: An approval is good for one call: among any requests of the center in
    any interleaving, once its nonce has been drawn, at most one call of the
    assistant carrying a token with that nonce gets to run its tool, and none
    at all when the process does not hold the approval (it was never given,
    was already used, or was cleaned up). *)
Theorem approval_used_once (reqs : list McpRequest) (s0 : MSt) (c : MSt * list (Q (McpRequest * option Response)))
  (Hok : db_ok (m_world s0)) (Hdrawn : n ∉ w_uuid (m_world s0)) (Hn : n ≠ "")
  (Hrun : pool_steps (s0, map tagged reqs) c) :
  calls c.2 ≤ if decide (n ∈ dom (m_approvals s0)) then 1 else 0.
Proof using Hothers.
  pose proof (pays_pool drawn mevolves owed (λ s _, reflexivity s) _ drawn_evolves' spent (s0, map tagged reqs) c
    ((λ _, 0) <$> reqs) Hrun) as Hp.
  assert (∀ l : list McpRequest, sum_Z ((λ _, 0) <$> l) = 0) as E by (intros l; by induction l).
  unfold calls. cbn [fst snd] in Hp. rewrite E in Hp.
  assert (owed c.1 ≤ 0) by (unfold owed; destruct (decide _); lia). cut (sum_Z (earned spent <$> c.2) ≤ 0 + owed c.1 - owed s0).
  { unfold owed in *. repeat destruct (decide _); lia. }
  apply Hp; [done|]. clear Hp Hrun E. cbn [fst snd]. induction reqs as [|r reqs IH]; cbn; constructor; [|done]. by apply pays_request.
Qed.
End once.


Section approvals.
Context `{Digest} `{JsonText} (env : McpEnv).


(** A call that carries a token for [p], before its approval is spent. *)
Definition call_with (ctx : Ctx) (asn : Z) (req : AssistantToolCallRequest) (p : assistantApprovalPayload) : Q Response :=
  if negb (matches_call asn req p)
  then mret (ErrorJSON StatusForbidden "approval_mismatch" "Approval token does not match this tool call")
  else
    ok ← consumeAssistantApproval (ap_Nonce p);
    if negb ok then mret (ErrorJSON StatusForbidden "approval_reused" "Approval token has already been used")
    else assistant_call env ctx asn req.
(** A call that does not match is refused. *)
Lemma call_mismatch ctx asn req p s :
  matches_call asn req p = false →
  succeeded (exec (call_with ctx asn req p) s).1 = false ∧ (exec (call_with ctx asn req p) s).2 = s.
Proof. intros Hm. unfold call_with. by rewrite Hm. Qed.

End approvals.

(** ** One approval *)
Definition paper : assistantApprovalPayload := MkApproval 4242420001 "c1" "peer_list" (Some (JObj [])) 121 "u1".
(** The only text is that of this payload. *)
Definition paper_text : JsonText := {| json_text _ := bytes "paper"; json_parse _ := Some (payload_json paper) |}.
Definition paper_request : option json := Some (JObj [("tool_name", JStr "peer_list"); ("conversation_id", JStr "c1")]).
Definition paper_call : option json :=
  Some (JObj [("tool_name", JStr "peer_list"); ("conversation_id", JStr "c1");
              ("approval_token", JStr (@signAssistantApproval mcp_digest paper_text mcp_env paper))]).
(** The approval given. *)
Definition approved : MSt := (exec (@HandleAssistantToolApproval mcp_digest paper_text mcp_env 4242420001 paper_request) (mcp_sample "active")).2.


(** Two calls with one token. *)
Definition paper_calls : list McpRequest := [AssistantCall 4242420001 paper_call; AssistantCall 4242420001 paper_call; ApprovalCleanup].
Lemma approval_used_once_witness :
  let c := schedule [0; 1; 0; 1; 0; 1; 0; 1; 0; 1; 0; 1; 0; 1; 0; 1; 2; 2]%nat
             (approved, map (@tagged mcp_digest paper_text mcp_env mcp_others) paper_calls) in
  @calls mcp_digest paper_text mcp_env "u1" c.2 = 1
  ∧ @calls mcp_digest paper_text mcp_env "u1" c.2 ≤ if decide ("u1" ∈ dom (m_approvals approved)) then 1 else 0.
Proof.
  intros c. split; [vm_compute; reflexivity|].
  refine (@approval_used_once mcp_digest paper_text mcp_env "u1" mcp_others mcp_others_steady paper_calls approved c _ _ _ _).
  - apply db_okb_ok. vm_compute. reflexivity.
  - apply (bool_decide_unpack _). vm_compute. done.
  - done.
  - apply schedule_steps.
Defined.
